(** * Detection-as-Code for Logz.io: the rule cleaner, validator, deployer
      and exporter

    A shallow embedding of

    - [Rule Exporter/clean-rules.py]         ([Module Cleaner]),
    - [Rule Exporter/validate-rules.py]      ([Module Validator],
                                              [Module ValidatorFiles]),
    - [deploy_security_rules.py]             ([Module Deployer],
                                              [Module DeployerMain]),
    - [Rule Exporter/export_logzio_rules.py] ([Module Exporter]),

    over decoded JSON documents, and of the two cleaners over an object
    store with references ([Module Store]), where the difference between
    [dict.copy()] and [copy.deepcopy] is visible. *)

From Stdlib Require Import ZArith List String Ascii Bool Lia.
From Stdlib Require Import DecimalString.
From Stdlib Require Import Floats.SpecFloat.
From stdpp Require Import base list.
Import ListNotations.

Local Open Scope string_scope.
Local Open Scope list_scope.

(** String concatenation, as in an f-string. *)
Local Infix "+++" := String.append (at level 60, right associativity).

(** ** Decoded JSON documents

    What [json.load] returns: [None], [bool], [int], [float] (binary
    floating point, with the non-finite values the decoder accepts),
    [str], [list] and [dict].  A [dict] keeps its insertion order, so it is
    an association list. *)

#[warnings="-register-all"]
Inductive json : Type :=
  | JNull
  | JBool (b : bool)
  | JInt (n : Z)
  | JFloat (f : spec_float)
  | JStr (s : string)
  | JList (items : list json)
  | JDict (entries : list (string * json)).

(** The exceptions the modelled statements can raise. *)
Inductive exn : Type :=
  TypeError | AttributeError | KeyError | ValueError | RecursionError.

(** A Python expression either has a value or raises. *)
Inductive res (A : Type) : Type :=
  | Ok (a : A)
  | Exc (e : exn).
Arguments Ok {A} a.
Arguments Exc {A} e.

Definition rbind {A B} (r : res A) (k : A -> res B) : res B :=
  match r with
  | Ok a => k a
  | Exc e => Exc e
  end.

Declare Scope res_scope.
Delimit Scope res_scope with res.
Notation "'let?' x := r 'in' k" := (rbind r (fun x => k))
  (at level 10, x name, r at level 100, k at level 200) : res_scope.

Section JsonInduction.
Variable P : json -> Prop.
Hypothesis HNull : P JNull.
Hypothesis HBool : forall b, P (JBool b).
Hypothesis HInt : forall n, P (JInt n).
Hypothesis HFloat : forall f, P (JFloat f).
Hypothesis HStr : forall s, P (JStr s).
Hypothesis HList : forall items, Forall P items -> P (JList items).
Hypothesis HDict :
  forall entries, Forall P (map snd entries) -> P (JDict entries).

Fixpoint json_rect' (j : json) : P j :=
  match j with
  | JNull => HNull
  | JBool b => HBool b
  | JInt n => HInt n
  | JFloat f => HFloat f
  | JStr s => HStr s
  | JList items =>
      HList items
        ((fix go (l : list json) : Forall P l :=
            match l with
            | [] => @List.Forall_nil _ P
            | x :: l' => @List.Forall_cons _ P x l' (json_rect' x) (go l')
            end) items)
  | JDict entries =>
      HDict entries
        ((fix go (l : list (string * json)) : Forall P (map snd l) :=
            match l with
            | [] => @List.Forall_nil _ P
            | kv :: l' =>
                @List.Forall_cons _ P (snd kv) (map snd l')
                  (json_rect' (snd kv)) (go l')
            end) entries)
  end.
End JsonInduction.

(** ** Dictionaries as association lists *)

Definition dict := list (string * json).

Fixpoint dict_get (k : string) (d : dict) : option json :=
  match d with
  | [] => None
  | (k', v) :: d' => if String.eqb k k' then Some v else dict_get k d'
  end.

Definition dict_has (k : string) (d : dict) : bool :=
  match dict_get k d with Some _ => true | None => false end.

(** [del d[k]] and [d.pop(k, None)]: the entry goes, the others keep
    their order. *)
Definition dict_del (k : string) (d : dict) : dict :=
  List.filter (fun kv => negb (String.eqb k (fst kv))) d.

(** [d[k] = v] on a key that is present keeps its position. *)
Fixpoint dict_set (k : string) (v : json) (d : dict) : dict :=
  match d with
  | [] => [(k, v)]
  | (k', v') :: d' =>
      if String.eqb k k' then (k', v) :: d' else (k', v') :: dict_set k v d'
  end.

Definition dict_keys (d : dict) : list string := map fst d.

(** The deletions of a loop over [keys], one after the other. *)
Definition dict_del_all (keys : list string) (d : dict) : dict :=
  fold_left (fun d k => dict_del k d) keys d.

(** ** The Python operations the three programs use *)

(** [needle in hay] on two [str]. *)
Fixpoint substr_in (needle hay : string) : bool :=
  String.prefix needle hay
  || match hay with
     | EmptyString => false
     | String _ hay' => substr_in needle hay'
     end.

Definition is_str (k : string) (j : json) : bool :=
  match j with JStr s => String.eqb k s | _ => false end.

(** ['k' in x]: a key of a [dict], an element of a [list], a substring of a
    [str]; any other operand is not iterable. *)
Definition py_in (k : string) (x : json) : res bool :=
  match x with
  | JDict d => Ok (dict_has k d)
  | JList l => Ok (existsb (is_str k) l)
  | JStr s => Ok (substr_in k s)
  | _ => Exc TypeError
  end.

(** [x['k']]. *)
Definition py_getitem (x : json) (k : string) : res json :=
  match x with
  | JDict d => match dict_get k d with Some v => Ok v | None => Exc KeyError end
  | _ => Exc TypeError
  end.

(** [x.get('k', default)]: only a [dict] has [get]. *)
Definition py_get (x : json) (k : string) (default : json) : res json :=
  match x with
  | JDict d => Ok (match dict_get k d with Some v => v | None => default end)
  | _ => Exc AttributeError
  end.

(** [del x['k']], as the new value of [x]. *)
Definition py_delitem (x : json) (k : string) : res json :=
  match x with
  | JDict d => if dict_has k d then Ok (JDict (dict_del k d)) else Exc KeyError
  | _ => Exc TypeError
  end.

(** [x['k'] = v], as the new value of [x]. *)
Definition py_setitem (x : json) (k : string) (v : json) : res json :=
  match x with
  | JDict d => Ok (JDict (dict_set k v d))
  | _ => Exc TypeError
  end.

(** [len(x)]. *)
Definition py_len (x : json) : res nat :=
  match x with
  | JStr s => Ok (String.length s)
  | JList l => Ok (List.length l)
  | JDict d => Ok (List.length d)
  | _ => Exc TypeError
  end.

Fixpoint chars (s : string) : list json :=
  match s with
  | EmptyString => []
  | String c s' => JStr (String c EmptyString) :: chars s'
  end.

(** [for y in x]: the elements of a [list], the keys of a [dict], the
    characters of a [str]. *)
Definition py_iter (x : json) : res (list json) :=
  match x with
  | JList l => Ok l
  | JDict d => Ok (map JStr (dict_keys d))
  | JStr s => Ok (chars s)
  | _ => Exc TypeError
  end.

(** [x.items()]: only a [dict] has it. *)
Definition py_items (x : json) : res (list (string * json)) :=
  match x with
  | JDict d => Ok d
  | _ => Exc AttributeError
  end.

(** Truth value: [None], [False], zero, and the empty [str], [list] and
    [dict] are false. *)
Definition truthy (x : json) : bool :=
  match x with
  | JNull => false
  | JBool b => b
  | JInt n => negb (Z.eqb n 0)
  | JFloat (S754_zero _) => false
  | JFloat _ => true
  | JStr s => negb (String.eqb s "")
  | JList l => match l with [] => false | _ => true end
  | JDict d => match d with [] => false | _ => true end
  end.

Definition isinstance_str (x : json) : bool :=
  match x with JStr _ => true | _ => false end.
Definition isinstance_bool (x : json) : bool :=
  match x with JBool _ => true | _ => false end.
Definition isinstance_list (x : json) : bool :=
  match x with JList _ => true | _ => false end.
Definition isinstance_dict (x : json) : bool :=
  match x with JDict _ => true | _ => false end.

(** [isinstance(x, (int, float))]; [bool] is a subclass of [int]. *)
Definition isinstance_number (x : json) : bool :=
  match x with JBool _ | JInt _ | JFloat _ => true | _ => false end.

(** [x <= 0] on a number ([False] counts as 0 and [True] as 1; a NaN
    compares false). *)
Definition py_le_zero (x : json) : res bool :=
  match x with
  | JBool b => Ok (negb b)
  | JInt n => Ok (Z.leb n 0)
  | JFloat f => Ok (SFleb f (S754_zero false))
  | _ => Exc TypeError
  end.

(** [x in names] for a list of string literals: [==] holds only for an
    equal [str]. *)
Definition in_names (x : json) (names : list string) : bool :=
  match x with
  | JStr s => existsb (String.eqb s) names
  | _ => false
  end.

(** [x.copy()]: [dict] and [list] have it. *)
Definition py_copy (x : json) : res json :=
  match x with
  | JDict _ | JList _ => Ok x
  | _ => Exc AttributeError
  end.

(** [x.pop('k', None)], as the new value of [x]: [list.pop] takes no
    default, the scalars have no [pop]. *)
Definition py_pop (x : json) (k : string) : res json :=
  match x with
  | JDict d => Ok (JDict (dict_del k d))
  | JList _ => Exc TypeError
  | _ => Exc AttributeError
  end.

(** A [for] loop that updates one variable and stops at the first
    exception. *)
Fixpoint foldM {A B} (f : A -> B -> res A) (a : A) (l : list B) : res A :=
  match l with
  | [] => Ok a
  | b :: l' => rbind (f a b) (fun a' => foldM f a' l')
  end.

Fixpoint mapM {A B} (f : A -> res B) (l : list A) : res (list B) :=
  match l with
  | [] => Ok []
  | a :: l' =>
      rbind (f a) (fun b => rbind (mapM f l') (fun bs => Ok (b :: bs)))
  end.

Local Open Scope res_scope.

(** ** [clean-rules.py]: the exporter's cleaner, on document values *)

Module Cleaner.

Definition READ_ONLY_FIELDS : list string :=
  ["id"; "createdAt"; "createdBy"; "updatedAt"; "updatedBy"].

Definition SUBCOMPONENT_READONLY_FIELDS : list string := ["id"].

(** [if field in x: del x[field]] *)
Definition del_if_present (x : json) (field : string) : res json :=
  let? present := py_in field x in
  if present then py_delitem x field else Ok x.

(** The loop body of [clean_rule] on one component: the component after
    the deletions. *)
Definition clean_component (component : json) : res json :=
  foldM del_if_present component SUBCOMPONENT_READONLY_FIELDS.

(** [clean_rule(rule)]: the document the function returns.  The
    components are changed in place, so the returned document holds the
    changed ones; only the elements of a [list] can be changed (the keys
    of a [dict] and the characters of a [str] are strings, on which the
    loop body either does nothing or raises). *)
Definition clean_rule (rule : json) : res json :=
  let? cleaned := py_copy rule in
  let? cleaned := foldM del_if_present cleaned READ_ONLY_FIELDS in
  let? has_output := py_in "output" cleaned in
  let? _ :=
    (if has_output then
       let? output := py_getitem cleaned "output" in
       let? has_recipients := py_in "recipients" output in
       if has_recipients then py_getitem output "recipients" else Ok JNull
     else Ok JNull) in
  let? has_components := py_in "subComponents" cleaned in
  if has_components then
    let? components := py_getitem cleaned "subComponents" in
    let? items := py_iter components in
    let? items' := mapM clean_component items in
    match components with
    | JList _ => py_setitem cleaned "subComponents" (JList items')
    | _ => Ok cleaned
    end
  else Ok cleaned.

End Cleaner.

(** ** [deploy_security_rules.py]: [clean_rule_json], on document values *)

Module Deployer.

Definition readonly_fields : list string :=
  ["id"; "createdAt"; "createdBy"; "updatedAt"; "updatedBy"].

(** [clean_rule_json(rule_data)]: the document the function returns.
    [copy.deepcopy] gives an equal document when it returns.  On a
    document nested more deeply than the interpreter's recursion limit
    allows, it raises [RecursionError] instead; the limit is not
    modelled, so what is proved of a call that returns is proved of the
    calls in which the copy was made. *)
Definition clean_rule_json (rule_data : json) : res json :=
  let cleaned_data := rule_data in
  let? cleaned_data := foldM py_pop cleaned_data readonly_fields in
  let? has_output := py_in "output" cleaned_data in
  if has_output then
    let? output := py_getitem cleaned_data "output" in
    let? has_recipients := py_in "recipients" output in
    if has_recipients then
      let? recipients := py_getitem output "recipients" in
      let? has_ids := py_in "notificationEndpointIds" recipients in
      if has_ids then
        let? recipients' := py_delitem recipients "notificationEndpointIds" in
        let? output' := py_setitem output "recipients" recipients' in
        py_setitem cleaned_data "output" output'
      else Ok cleaned_data
    else Ok cleaned_data
  else Ok cleaned_data.

(** *** The remote service

    [requests.post] and [requests.put] are the injected capability: a
    request goes out, and either the transport fails
    ([requests.exceptions.RequestException], with its text) or a
    response comes back with a status code and a body that
    [response.json()] decodes or not. *)

Inductive method : Type := POST | PUT.

Record request : Type := Request {
  meth : method;
  url : string;
  token : string;
  payload : json
}.

Inductive reply : Type :=
  | TransportFailure (reason : string)
  | Response (status_code : Z) (body : option json).

(** The service answers a request knowing the requests made before. *)
Definition remote : Type := list request -> request -> reply.

(** A deployer method: it extends the log of requests made. *)
Definition IO (A : Type) : Type := list request -> A * list request.

Definition io_ret {A} (a : A) : IO A := fun log => (a, log).

Definition io_bind {A B} (m : IO A) (k : A -> IO B) : IO B :=
  fun log => let (a, log') := m log in k a log'.

Definition send (service : remote) (r : request) : IO reply :=
  fun log => (service log r, log ++ [r]).

Declare Scope io_scope.
Delimit Scope io_scope with io.
Notation "x <- m ;; k" := (io_bind m (fun x => k))
  (at level 100, m at next level, k at level 200, right associativity)
  : io_scope.

(** [api_url.rstrip('/')] *)
Fixpoint rstrip_slash (s : string) : string :=
  match s with
  | EmptyString => EmptyString
  | String c s' =>
      match rstrip_slash s' with
      | EmptyString =>
          if Ascii.eqb c "/"%char then EmptyString
          else String c EmptyString
      | t => String c t
      end
  end.

Record deployer : Type := Deployer {
  api_token : string;
  api_url : string;
  environment : string
}.

(** [SecurityRuleDeployer(api_token, api_url, environment)] *)
Definition new (api_token api_url environment : string) : deployer :=
  Deployer api_token (rstrip_slash api_url) environment.

Definition search_endpoint (self : deployer) : string :=
  api_url self +++ "/security/rules/search".

Definition update_endpoint (self : deployer) : string :=
  api_url self +++ "/security/rules".

Definition create_endpoints (self : deployer) : list string :=
  [api_url self +++ "/security/rules";
   api_url self +++ "/siem/rules";
   api_url self +++ "/correlation-rules"].

Definition is_2xx (status_code : Z) : bool :=
  (200 <=? status_code)%Z && (status_code <? 300)%Z.

(** [str(status_code)] *)
Definition str_int (n : Z) : string := NilZero.string_of_int (Z.to_int n).

(** *** [search_rule_by_title] *)

Definition search_payload : json :=
  JDict [("filter", JDict [("enabledState", JList [JBool true])]);
         ("pagination",
          JDict [("pageNumber", JInt 1); ("pageSize", JInt 1000)])].

Record search_result : Type := SearchResult {
  found : bool;       (* the key 'exists' *)
  rule_id : json      (* the key 'rule_id'; [JNull] is [None] *)
}.

Definition not_found : search_result := SearchResult false JNull.

(** [x[:50]], evaluated for printing only: a [str] and a [list] can be
    sliced. *)
Definition py_slice (x : json) : res unit :=
  match x with
  | JStr _ | JList _ => Ok tt
  | _ => Exc TypeError
  end.

(** [n == f] for an [int] and a [float]: the exact values are compared. *)
Definition int_eq_float (n : Z) (f : spec_float) : bool :=
  match f with
  | S754_zero _ => (n =? 0)%Z
  | S754_finite s m e =>
      let v := if s then Z.neg m else Z.pos m in
      if (0 <=? e)%Z then (n =? v * 2 ^ e)%Z
      else (n * 2 ^ (- e) =? v)%Z
  | _ => false
  end.

Definition int_of_bool (b : bool) : Z := if b then 1%Z else 0%Z.

(** [a == b] on decoded JSON values. *)
Fixpoint py_eq (a b : json) : bool :=
  match a, b with
  | JNull, JNull => true
  | JStr s, JStr t => String.eqb s t
  | JBool x, JBool y => Bool.eqb x y
  | JBool x, JInt n | JInt n, JBool x => (int_of_bool x =? n)%Z
  | JBool x, JFloat f | JFloat f, JBool x => int_eq_float (int_of_bool x) f
  | JInt n, JInt m => (n =? m)%Z
  | JInt n, JFloat f | JFloat f, JInt n => int_eq_float n f
  | JFloat f, JFloat g => SFeqb f g
  | JList l, JList m =>
      (fix go (l m : list json) : bool :=
         match l, m with
         | [], [] => true
         | x :: l', y :: m' => py_eq x y && go l' m'
         | _, _ => false
         end) l m
  | JDict d, JDict e =>
      Nat.eqb (List.length d) (List.length e)
      && (fix go (d : list (string * json)) : bool :=
            match d with
            | [] => true
            | (k, v) :: d' =>
                match dict_get k e with
                | Some w => py_eq v w
                | None => false
                end && go d'
            end) d
  | _, _ => false
  end.

(** The loop [for i, rule in enumerate(results)] of lines 106-117, from
    index [i] on: the [rule_id] of the first rule whose title equals
    [title], if the loop returns one.  The first three rounds print
    [rule_title[:50]] and [title[:50]]. *)
Fixpoint find_exact (title : json) (i : nat) (results : list json)
  : res (option json) :=
  match results with
  | [] => Ok None
  | rule :: rest =>
      let? rule_title := py_get rule "title" (JStr "") in
      let? _ :=
        (if Nat.ltb i 3
         then let? _ := py_slice rule_title in py_slice title
         else Ok tt) in
      if py_eq rule_title title then
        let? id := py_get rule "id" JNull in Ok (Some id)
      else find_exact title (S i) rest
  end.

Definition lower_ascii (c : ascii) : ascii :=
  let n := nat_of_ascii c in
  if Nat.leb 65 n && Nat.leb n 90 then ascii_of_nat (n + 32) else c.

Fixpoint lower (s : string) : string :=
  match s with
  | EmptyString => EmptyString
  | String c s' => String (lower_ascii c) (lower s')
  end.

(** [x.lower()]: only a [str] has it. *)
Definition py_lower (x : json) : res string :=
  match x with
  | JStr s => Ok (lower s)
  | _ => Exc AttributeError
  end.

(** [n < f] for an [int] and a [float], on the exact values. *)
Definition int_lt_float (n : Z) (f : spec_float) : bool :=
  match f with
  | S754_zero _ => (n <? 0)%Z
  | S754_infinity s => negb s
  | S754_nan => false
  | S754_finite s m e =>
      let v := if s then Z.neg m else Z.pos m in
      if (0 <=? e)%Z then (n <? v * 2 ^ e)%Z
      else (n * 2 ^ (- e) <? v)%Z
  end.

(** [total > n] where [n] is a length: a number can be compared with
    it, anything else cannot. *)
Definition py_gt_nat (total : json) (n : nat) : res bool :=
  match total with
  | JBool b => Ok (Z.of_nat n <? int_of_bool b)%Z
  | JInt t => Ok (Z.of_nat n <? t)%Z
  | JFloat f => Ok (int_lt_float (Z.of_nat n) f)
  | _ => Exc TypeError
  end.

(** The diagnostic block of lines 119-139, which only prints: the
    near-matches among the first 50 results, then the comparison of
    [total] with the number of results.  Its value is the list
    [similar]. *)
Definition near_matches (title : json) (results : list json)
    (total : json) : res (list json) :=
  let? _ := py_len title in
  let? similar :=
    foldM (fun similar rule =>
             let? rule_title := py_get rule "title" (JStr "") in
             let? t := py_lower title in
             let? r := py_lower rule_title in
             if substr_in t r || substr_in r t then
               let? id := py_get rule "id" JNull in
               Ok (similar ++ [JDict [("id", id); ("title", rule_title)]])
             else Ok similar)
          [] (firstn 50 results) in
  let? _ := py_gt_nat total (List.length results) in
  Ok similar.

Section Search.
(** The diagnostic block is a parameter of the search, so that its
    influence on the result can be stated. *)
Variable diagnostics : json -> list json -> json -> res (list json).

(** The [try] block of [search_rule_by_title] on a reply. *)
Definition search_reply (title : json) (r : reply) : res search_result :=
  match r with
  | TransportFailure _ => Ok not_found
  | Response status_code body =>
      if (status_code =? 200)%Z then
        match body with
        | None => Exc ValueError   (* [response.json()] raises *)
        | Some data =>
            if isinstance_dict data then
              let? has_results := py_in "results" data in
              if has_results then
                let? results := py_getitem data "results" in
                let? total := py_get data "total" (JInt 0) in
                let? n := py_len results in
                if truthy results && Nat.ltb 0 n then
                  let? rules := py_iter results in
                  let? hit := find_exact title 0 rules in
                  match hit with
                  | Some id => Ok (SearchResult true id)
                  | None =>
                      let? _ := diagnostics title rules total in
                      Ok not_found
                  end
                else Ok not_found
              else Ok not_found
            else Ok not_found
        end
      else Ok not_found
  end.

(** [search_rule_by_title(title)]: any exception gives the
    not-found result. *)
Definition search_rule_by_title_with (service : remote)
    (self : deployer) (title : json) : IO search_result :=
  (r <- send service
          (Request POST (search_endpoint self) (api_token self)
             search_payload) ;;
   io_ret match search_reply title r with
          | Ok result => result
          | Exc _ => not_found
          end)%io.
End Search.

Definition search_rule_by_title : remote -> deployer -> json ->
                                  IO search_result :=
  search_rule_by_title_with near_matches.

(** *** Updating, creating, and the batch *)

Section Deploy.
(** [str(x)] of a decoded JSON value and [str(e)] of an exception, as
    f-strings print them: Python's, not the repository's. *)
Variable py_str : json -> string.
Variable str_exn : exn -> string.
Variable service : remote.

Local Open Scope io_scope.

(** [error_data.get('message') or error_data.get('error') or
    error_data.get('errorMessage') or 'No error message provided'] *)
Definition error_message (error_data : json) : res json :=
  (let? message := py_get error_data "message" JNull in
   if truthy message then Ok message else
   let? error := py_get error_data "error" JNull in
   if truthy error then Ok error else
   let? errorMessage := py_get error_data "errorMessage" JNull in
   if truthy errorMessage then Ok errorMessage
   else Ok (JStr "No error message provided"))%res.

(** [response.json()] *)
Definition response_json (body : option json) : res json :=
  match body with
  | Some data => Ok data
  | None => Exc ValueError
  end.

Definition _update_rule (self : deployer) (rule_id rule_data : json)
    (rule_name : string) : IO (bool * string) :=
  let update_url := update_endpoint self +++ "/" +++ py_str rule_id in
  r <- send service (Request PUT update_url (api_token self) rule_data) ;;
  match r with
  | TransportFailure reason =>
      io_ret (false, "Update request failed: " +++ reason)
  | Response status_code body =>
      if is_2xx status_code then
        io_ret (true,
                "Updated successfully (ID: " +++ py_str rule_id +++ ")")
      else
        match (let? error_data := response_json body in
               error_message error_data)%res with
        | Ok error_msg =>
            io_ret (false, "Update failed: " +++ py_str error_msg)
        | Exc _ =>
            io_ret (false,
                    "Update failed with HTTP " +++ str_int status_code)
        end
  end.

(** The loop [for endpoint in self.create_endpoints] of
    [_create_rule], and the failure after it.  A 400, a 404, any other
    status and a transport failure print and go to the next
    endpoint. *)
Fixpoint create_at (self : deployer) (rule_data : json)
    (endpoints : list string) : IO (bool * string) :=
  match endpoints with
  | [] => io_ret (false, "Failed to create at any endpoint")
  | endpoint :: rest =>
      r <- send service
             (Request POST endpoint (api_token self) rule_data) ;;
      match r with
      | TransportFailure _ => create_at self rule_data rest
      | Response status_code body =>
          if is_2xx status_code then
            match (let? result := response_json body in
                   py_get result "id" (JStr "unknown"))%res with
            | Ok new_id =>
                io_ret (true,
                        "Created successfully at " +++ endpoint
                        +++ " (ID: " +++ py_str new_id +++ ")")
            | Exc _ =>
                io_ret (true, "Created successfully at " +++ endpoint)
            end
          else create_at self rule_data rest
      end
  end.

Definition _create_rule (self : deployer) (rule_data : json)
    (rule_name : string) : IO (bool * string) :=
  create_at self rule_data (create_endpoints self).

(** A rule file: its path as printed, its name, its stem, and what
    [json.load] makes of its content (the decoder's error text, or the
    document). *)
Record rule_file : Type := RuleFile {
  file_path : string;
  file_name : string;
  file_stem : string;
  file_content : string + json
}.

Definition deploy_rule (self : deployer) (file : rule_file)
  : IO (bool * string) :=
  let rule_name := file_stem file in
  let unexpected (e : exn) :=
    io_ret (false,
            "Unexpected error processing " +++ rule_name +++ ": "
            +++ str_exn e) in
  match file_content file with
  | inl decode_error =>
      io_ret (false,
              "Invalid JSON in " +++ file_path file +++ ": "
              +++ decode_error)
  | inr rule_data =>
      match (let? rule_title := py_get rule_data "title" (JStr rule_name) in
             let? cleaned_data := clean_rule_json rule_data in
             Ok (rule_title, cleaned_data))%res with
      | Exc e => unexpected e
      | Ok (rule_title, cleaned_data) =>
          search_result <- search_rule_by_title service self rule_title ;;
          if found search_result then
            _update_rule self (rule_id search_result) cleaned_data
              rule_name
          else _create_rule self cleaned_data rule_name
      end
  end.

Record summary : Type := Summary {
  total : nat;
  successful : nat;
  failed : nat;
  created : nat;
  updated : nat;
  failed_rules : list (string * string)   (* 'file', 'error' *)
}.

(** The body of the loop of [deploy_all_rules]. *)
Definition record_outcome (results : summary) (file : rule_file)
    (outcome : bool * string) : summary :=
  let (success, message) := outcome in
  if success then
    if substr_in "Updated" message || substr_in "updated" message then
      Summary (total results) (successful results + 1) (failed results)
        (created results) (updated results + 1) (failed_rules results)
    else
      Summary (total results) (successful results + 1) (failed results)
        (created results + 1) (updated results) (failed_rules results)
  else
    Summary (total results) (successful results) (failed results + 1)
      (created results) (updated results)
      (failed_rules results ++ [(file_name file, message)]).

Fixpoint deploy_each (self : deployer) (results : summary)
    (rule_files : list rule_file) : IO summary :=
  match rule_files with
  | [] => io_ret results
  | file :: rest =>
      outcome <- deploy_rule self file ;;
      deploy_each self (record_outcome results file outcome) rest
  end.

(** [deploy_all_rules(rules_directory)]: the directory is [None] when
    it does not exist, and otherwise the files [glob('*.json')]
    lists. *)
Definition deploy_all_rules (self : deployer)
    (rules_directory : option (list rule_file)) : IO summary :=
  match rules_directory with
  | None => io_ret (Summary 0 0 0 0 0 [])
  | Some [] => io_ret (Summary 0 0 0 0 0 [])
  | Some rule_files =>
      deploy_each self
        (Summary (List.length rule_files) 0 0 0 0 []) rule_files
  end.
End Deploy.

End Deployer.

(** ** [validate-rules.py]: [LogzioRuleValidator] *)

Module Validator.

(** The messages appended to [self.errors], as the template and the
    values that fill it; [component] is the index [idx] of
    [subComponents[idx]]. *)
Inductive error : Type :=
  | MissingRequiredField (field : string)
  | TitleNotNonEmptyString
  | EnabledNotBoolean
  | TimeFrameNotNumber
  | TimeFrameNotPositive
  | SubComponentsNotList
  | SubComponentsEmpty
  | TagsNotList
  | EmailsNotList
  | SuppressNotNumber
  | MissingQueryDefinition (component : nat)
  | MissingTrigger (component : nat)
  | MissingQuery (component : nat)
  | InvalidAggregationType (value : json) (component : nat)
  | FiltersNotObject (component : nat)
  | GroupByNotList (component : nat)
  | MissingOperator (component : nat)
  | InvalidOperator (value : json) (component : nat)
  | MissingSeverityTiers (component : nat)
  | SeverityTiersNotObject (component : nat)
  | InvalidSeverity (severity : string) (component : nat)
  | ThresholdNotNumber (severity : string) (component : nat)
  | CorrelationOperatorsNotList
  | InvalidCorrelationOperator (op : json)
  | JoinsNotList.

(** The messages appended to [self.warnings]. *)
Inductive warning : Type :=
  | MissingOutput
  | MissingDescription
  | NoTags
  | ReadOnlyField (field : string)
  | NoRecipients
  | NoNotificationRecipients
  | InvalidEmailFormat (email : json)
  | ConsiderSuppress
  | EmptyQuery (component : nat).

(** [f"subComponents[{idx}]"] *)
Definition component_ref (idx : nat) : string :=
  "subComponents[" +++ NilEmpty.string_of_uint (Nat.to_uint idx) +++ "]".

Definition valid_types : list string :=
  ["COUNT"; "SUM"; "AVG"; "MAX"; "MIN"; "UNIQUE_COUNT"; "NONE"].

Definition valid_operators : list string :=
  ["GREATER_THAN"; "LESS_THAN"; "EQUALS"; "NOT_EQUALS";
   "GREATER_THAN_OR_EQUALS"; "LESS_THAN_OR_EQUALS"].

Definition valid_severities : list string :=
  ["LOW"; "MEDIUM"; "HIGH"; "SEVERE"].

Definition valid_correlation_operators : list string := ["AND"; "OR"].

(** The text of an error, with [py_str] for the [str(x)] of a value an
    f-string prints. *)
Definition error_text (py_str : json -> string) (file_path : string)
    (e : error) : string :=
  match e with
  | MissingRequiredField field =>
      "Missing required field '" +++ field +++ "' in " +++ file_path
  | TitleNotNonEmptyString =>
      "'title' must be a non-empty string in " +++ file_path
  | EnabledNotBoolean => "'enabled' must be a boolean in " +++ file_path
  | TimeFrameNotNumber =>
      "'searchTimeFrameMinutes' must be a number in " +++ file_path
  | TimeFrameNotPositive =>
      "'searchTimeFrameMinutes' must be positive in " +++ file_path
  | SubComponentsNotList => "'subComponents' must be a list in " +++ file_path
  | SubComponentsEmpty => "'subComponents' cannot be empty in " +++ file_path
  | TagsNotList => "'tags' must be a list in " +++ file_path
  | EmailsNotList => "'emails' must be a list in " +++ file_path
  | SuppressNotNumber =>
      "'suppressNotificationsMinutes' must be a number in " +++ file_path
  | MissingQueryDefinition idx =>
      "Missing 'queryDefinition' in " +++ component_ref idx +++ " of "
      +++ file_path
  | MissingTrigger idx =>
      "Missing 'trigger' in " +++ component_ref idx +++ " of " +++ file_path
  | MissingQuery idx =>
      "Missing 'query' in " +++ component_ref idx +++ ".queryDefinition of "
      +++ file_path
  | InvalidAggregationType value idx =>
      "Invalid aggregationType '" +++ py_str value +++ "' in "
      +++ component_ref idx +++ " of " +++ file_path
      +++ ". Must be one of: " +++ String.concat ", " valid_types
  | FiltersNotObject idx =>
      "'filters' must be an object in " +++ component_ref idx +++ " of "
      +++ file_path
  | GroupByNotList idx =>
      "'groupBy' must be a list in " +++ component_ref idx +++ " of "
      +++ file_path
  | MissingOperator idx =>
      "Missing 'operator' in " +++ component_ref idx +++ ".trigger of "
      +++ file_path
  | InvalidOperator value idx =>
      "Invalid operator '" +++ py_str value +++ "' in "
      +++ component_ref idx +++ ".trigger of " +++ file_path
      +++ ". Must be one of: " +++ String.concat ", " valid_operators
  | MissingSeverityTiers idx =>
      "Missing 'severityThresholdTiers' in " +++ component_ref idx
      +++ ".trigger of " +++ file_path
  | SeverityTiersNotObject idx =>
      "'severityThresholdTiers' must be an object in "
      +++ component_ref idx +++ ".trigger of " +++ file_path
  | InvalidSeverity severity idx =>
      "Invalid severity '" +++ severity +++ "' in " +++ component_ref idx
      +++ ".trigger of " +++ file_path
      +++ ". Must be one of: " +++ String.concat ", " valid_severities
  | ThresholdNotNumber severity idx =>
      "Threshold for " +++ severity +++ " must be a number in "
      +++ component_ref idx +++ ".trigger of " +++ file_path
  | CorrelationOperatorsNotList =>
      "'correlationOperators' must be a list in " +++ file_path
  | InvalidCorrelationOperator op =>
      "Invalid correlation operator '" +++ py_str op +++ "' in "
      +++ file_path
      +++ ". Must be one of: "
      +++ String.concat ", " valid_correlation_operators
  | JoinsNotList => "'joins' must be a list in " +++ file_path
  end.

(** The text of a warning. *)
Definition warning_text (py_str : json -> string) (file_path : string)
    (w : warning) : string :=
  match w with
  | MissingOutput =>
      "Missing 'output' field in " +++ file_path
      +++ " - rule won't send notifications"
  | MissingDescription => "Missing or empty 'description' in " +++ file_path
  | NoTags =>
      "No tags defined in " +++ file_path
      +++ " - consider adding tags for organization"
  | ReadOnlyField field =>
      "Read-only field '" +++ field +++ "' found in " +++ file_path
      +++ " - this will be ignored on creation"
  | NoRecipients => "No 'recipients' in output for " +++ file_path
  | NoNotificationRecipients =>
      "No notification recipients (emails or endpoints) configured in "
      +++ file_path
  | InvalidEmailFormat email =>
      "Invalid email format: " +++ py_str email +++ " in " +++ file_path
  | ConsiderSuppress =>
      "Consider adding 'suppressNotificationsMinutes' in " +++ file_path
      +++ " to avoid alert fatigue"
  | EmptyQuery idx =>
      "Empty query in " +++ component_ref idx +++ ".queryDefinition of "
      +++ file_path
  end.

(** The validator object: the two lists, each finding with the
    [file_path] of its message. *)
Record state : Type := State {
  errors : list (string * error);
  warnings : list (string * warning)
}.

(** A method of the validator: it may append to the lists, and returns
    or raises. *)
Definition V (A : Type) : Type := state -> res A * state.

Definition ret {A} (a : A) : V A := fun st => (Ok a, st).

Definition bind {A B} (m : V A) (k : A -> V B) : V B :=
  fun st =>
    match m st with
    | (Ok a, st') => k a st'
    | (Exc e, st') => (Exc e, st')
    end.

Definition lift {A} (r : res A) : V A := fun st => (r, st).

Definition add_error (file_path : string) (e : error) : V unit :=
  fun st =>
    (Ok tt, State (errors st ++ [(file_path, e)]) (warnings st)).

Definition add_warning (file_path : string) (w : warning) : V unit :=
  fun st =>
    (Ok tt, State (errors st) (warnings st ++ [(file_path, w)])).

Declare Scope validator_scope.
Delimit Scope validator_scope with V.
Notation "x <- m ;; k" := (bind m (fun x => k))
  (at level 100, m at next level, k at level 200, right associativity)
  : validator_scope.
Notation "m ;; k" := (bind m (fun _ => k))
  (at level 100, k at level 200, right associativity) : validator_scope.
Local Open Scope validator_scope.

(** [self.errors.append(...); valid = False] *)
Definition reject (file_path : string) (e : error) : V bool :=
  add_error file_path e ;; ret false.

(** A [for] loop whose body updates [valid]. *)
Fixpoint forV {A} (body : bool -> A -> V bool) (valid : bool) (l : list A)
  : V bool :=
  match l with
  | [] => ret valid
  | a :: l' => valid' <- body valid a ;; forV body valid' l'
  end.

(** [for idx, a in enumerate(l)], counting from [idx]. *)
Fixpoint forV_enumerate {A} (body : bool -> nat -> A -> V bool)
    (idx : nat) (valid : bool) (l : list A) : V bool :=
  match l with
  | [] => ret valid
  | a :: l' =>
      valid' <- body valid idx a ;; forV_enumerate body (S idx) valid' l'
  end.

(** [recipients.get(k) and len(recipients[k]) > 0], as a truth value. *)
Definition has_nonempty (recipients : json) (k : string) : res bool :=
  (let? v := py_get recipients k JNull in
   if truthy v then
     let? item := py_getitem recipients k in
     let? n := py_len item in
     Ok (Nat.ltb 0 n)
   else Ok false)%res.

Definition validate_output (output : json) (file_path : string) : V bool :=
  let valid := true in
  has_recipients <- lift (py_in "recipients" output) ;;
  if negb has_recipients then
    add_warning file_path NoRecipients ;; ret true
  else
    recipients <- lift (py_getitem output "recipients") ;;
    has_emails <- lift (has_nonempty recipients "emails") ;;
    has_endpoints <-
      lift (has_nonempty recipients "notificationEndpointIds") ;;
    (if negb has_emails && negb has_endpoints
     then add_warning file_path NoNotificationRecipients
     else ret tt) ;;
    emails_present <- lift (py_in "emails" recipients) ;;
    valid <-
      (if emails_present then
         emails <- lift (py_getitem recipients "emails") ;;
         if negb (isinstance_list emails) then
           reject file_path EmailsNotList
         else
           items <- lift (py_iter emails) ;;
           forV (fun valid email =>
                   has_at <- lift (py_in "@" email) ;;
                   (if negb has_at
                    then add_warning file_path (InvalidEmailFormat email)
                    else ret tt) ;;
                   ret valid)
                valid items
       else ret valid) ;;
    suppress_present <-
      lift (py_in "suppressNotificationsMinutes" output) ;;
    valid <-
      (if suppress_present then
         suppress <-
           lift (py_getitem output "suppressNotificationsMinutes") ;;
         if negb (isinstance_number suppress)
         then reject file_path SuppressNotNumber
         else ret valid
       else add_warning file_path ConsiderSuppress ;; ret valid) ;;
    ret valid.

Definition validate_query_definition (query_def : json)
    (component : nat) (file_path : string) : V bool :=
  let valid := true in
  has_query <- lift (py_in "query" query_def) ;;
  valid <-
    (if negb has_query then reject file_path (MissingQuery component)
     else
       query <- lift (py_getitem query_def "query") ;;
       if negb (truthy query)
       then add_warning file_path (EmptyQuery component) ;; ret valid
       else ret valid) ;;
  has_aggregation <- lift (py_in "aggregation" query_def) ;;
  valid <-
    (if has_aggregation then
       agg <- lift (py_getitem query_def "aggregation") ;;
       has_type <- lift (py_in "aggregationType" agg) ;;
       if has_type then
         aggregation_type <- lift (py_getitem agg "aggregationType") ;;
         if negb (in_names aggregation_type valid_types)
         then reject file_path
                (InvalidAggregationType aggregation_type component)
         else ret valid
       else ret valid
     else ret valid) ;;
  has_filters <- lift (py_in "filters" query_def) ;;
  valid <-
    (if has_filters then
       filters <- lift (py_getitem query_def "filters") ;;
       if negb (isinstance_dict filters)
       then reject file_path (FiltersNotObject component)
       else ret valid
     else ret valid) ;;
  has_group_by <- lift (py_in "groupBy" query_def) ;;
  valid <-
    (if has_group_by then
       group_by <- lift (py_getitem query_def "groupBy") ;;
       if negb (isinstance_list group_by)
       then reject file_path (GroupByNotList component)
       else ret valid
     else ret valid) ;;
  ret valid.

(** The body of [for severity, threshold in tiers.items()]. *)
Definition check_tier (component : nat) (file_path : string)
    (valid : bool) (tier : string * json) : V bool :=
  let (severity, threshold) := tier in
  valid <-
    (if negb (existsb (String.eqb severity) valid_severities)
     then reject file_path (InvalidSeverity severity component)
     else ret valid) ;;
  valid <-
    (if negb (isinstance_number threshold)
     then reject file_path (ThresholdNotNumber severity component)
     else ret valid) ;;
  ret valid.

Definition validate_trigger (trigger : json) (component : nat)
    (file_path : string) : V bool :=
  let valid := true in
  has_operator <- lift (py_in "operator" trigger) ;;
  valid <-
    (if negb has_operator then reject file_path (MissingOperator component)
     else
       operator <- lift (py_getitem trigger "operator") ;;
       if negb (in_names operator valid_operators)
       then reject file_path (InvalidOperator operator component)
       else ret valid) ;;
  has_tiers <- lift (py_in "severityThresholdTiers" trigger) ;;
  valid <-
    (if negb has_tiers
     then reject file_path (MissingSeverityTiers component)
     else
       tiers <- lift (py_getitem trigger "severityThresholdTiers") ;;
       if negb (isinstance_dict tiers)
       then reject file_path (SeverityTiersNotObject component)
       else
         items <- lift (py_items tiers) ;;
         forV (check_tier component file_path) valid items) ;;
  ret valid.

Definition validate_subcomponent (component : json) (idx : nat)
    (file_path : string) : V bool :=
  let valid := true in
  has_query_def <- lift (py_in "queryDefinition" component) ;;
  valid <-
    (if negb has_query_def
     then reject file_path (MissingQueryDefinition idx)
     else
       query_def <- lift (py_getitem component "queryDefinition") ;;
       ok <- validate_query_definition query_def idx file_path ;;
       if negb ok then ret false else ret valid) ;;
  has_trigger <- lift (py_in "trigger" component) ;;
  valid <-
    (if negb has_trigger then reject file_path (MissingTrigger idx)
     else
       trigger <- lift (py_getitem component "trigger") ;;
       ok <- validate_trigger trigger idx file_path ;;
       if negb ok then ret false else ret valid) ;;
  ret valid.

Definition validate_correlations (correlations : json)
    (file_path : string) : V bool :=
  let valid := true in
  has_operators <- lift (py_in "correlationOperators" correlations) ;;
  valid <-
    (if has_operators then
       operators <- lift (py_getitem correlations "correlationOperators") ;;
       if negb (isinstance_list operators)
       then reject file_path CorrelationOperatorsNotList
       else
         ops <- lift (py_iter operators) ;;
         forV (fun valid op =>
                 if negb (in_names op valid_correlation_operators)
                 then reject file_path (InvalidCorrelationOperator op)
                 else ret valid)
              valid ops
     else ret valid) ;;
  has_joins <- lift (py_in "joins" correlations) ;;
  valid <-
    (if has_joins then
       joins <- lift (py_getitem correlations "joins") ;;
       if negb (isinstance_list joins)
       then reject file_path JoinsNotList
       else ret valid
     else ret valid) ;;
  ret valid.

Definition required_fields : list string :=
  ["title"; "enabled"; "searchTimeFrameMinutes"; "subComponents"].

Definition readonly_fields : list string :=
  ["id"; "createdAt"; "createdBy"; "updatedAt"; "updatedBy"].

(** ['k' not in rule or not rule.get('k')] *)
Definition missing_or_empty (rule : json) (k : string) : res bool :=
  (let? present := py_in k rule in
   if negb present then Ok true
   else let? v := py_get rule k JNull in Ok (negb (truthy v)))%res.

Definition validate_security_rule (rule : json) (file_path : string)
  : V bool :=
  let valid := true in
  valid <-
    forV (fun valid field =>
            present <- lift (py_in field rule) ;;
            if negb present
            then reject file_path (MissingRequiredField field)
            else ret valid)
         valid required_fields ;;
  (* title *)
  has_title <- lift (py_in "title" rule) ;;
  valid <-
    (if has_title then
       title <- lift (py_getitem rule "title") ;;
       if negb (truthy title) || negb (isinstance_str title)
       then reject file_path TitleNotNonEmptyString
       else ret valid
     else ret valid) ;;
  (* enabled *)
  has_enabled <- lift (py_in "enabled" rule) ;;
  valid <-
    (if has_enabled then
       enabled <- lift (py_getitem rule "enabled") ;;
       if negb (isinstance_bool enabled)
       then reject file_path EnabledNotBoolean
       else ret valid
     else ret valid) ;;
  (* searchTimeFrameMinutes *)
  has_time_frame <- lift (py_in "searchTimeFrameMinutes" rule) ;;
  valid <-
    (if has_time_frame then
       time_frame <- lift (py_getitem rule "searchTimeFrameMinutes") ;;
       if negb (isinstance_number time_frame)
       then reject file_path TimeFrameNotNumber
       else
         not_positive <- lift (py_le_zero time_frame) ;;
         if not_positive
         then reject file_path TimeFrameNotPositive
         else ret valid
     else ret valid) ;;
  (* output *)
  has_output <- lift (py_in "output" rule) ;;
  valid <-
    (if has_output then
       output <- lift (py_getitem rule "output") ;;
       ok <- validate_output output file_path ;;
       if negb ok then ret false else ret valid
     else add_warning file_path MissingOutput ;; ret valid) ;;
  (* subComponents *)
  has_components <- lift (py_in "subComponents" rule) ;;
  valid <-
    (if has_components then
       components <- lift (py_getitem rule "subComponents") ;;
       if negb (isinstance_list components)
       then reject file_path SubComponentsNotList
       else
         n <- lift (py_len components) ;;
         if Nat.eqb n 0 then reject file_path SubComponentsEmpty
         else
           items <- lift (py_iter components) ;;
           forV_enumerate
             (fun valid idx component =>
                ok <- validate_subcomponent component idx file_path ;;
                if negb ok then ret false else ret valid)
             0 valid items
     else ret valid) ;;
  (* correlations *)
  has_correlations <- lift (py_in "correlations" rule) ;;
  valid <-
    (if has_correlations then
       correlations <- lift (py_getitem rule "correlations") ;;
       ok <- validate_correlations correlations file_path ;;
       if negb ok then ret false else ret valid
     else ret valid) ;;
  (* tags *)
  has_tags <- lift (py_in "tags" rule) ;;
  valid <-
    (if has_tags then
       tags <- lift (py_getitem rule "tags") ;;
       if negb (isinstance_list tags)
       then reject file_path TagsNotList
       else ret valid
     else ret valid) ;;
  (* recommended fields *)
  no_description <- lift (missing_or_empty rule "description") ;;
  (if no_description then add_warning file_path MissingDescription
   else ret tt) ;;
  no_tags <- lift (missing_or_empty rule "tags") ;;
  (if no_tags then add_warning file_path NoTags else ret tt) ;;
  (* read-only fields *)
  forV (fun (_ : bool) field =>
          present <- lift (py_in field rule) ;;
          (if present then add_warning file_path (ReadOnlyField field)
           else ret tt) ;;
          ret true)
       true readonly_fields ;;
  ret valid.

(** [LogzioRuleValidator(...)]: both lists empty. *)
Definition init : state := State [] [].

End Validator.

(** ** The two cleaners on an object store

    [dict] and [list] objects live in a store and are held by reference,
    so that a change made through one reference is seen through every
    other.  [rule.copy()] copies one object; [copy.deepcopy] copies
    everything reachable. *)

Module Store.

Abbreviation loc := nat.

Inductive val : Type :=
  | VNull
  | VBool (b : bool)
  | VInt (n : Z)
  | VFloat (f : spec_float)
  | VStr (s : string)
  | VRef (l : loc).

Inductive obj : Type :=
  | ODict (entries : list (string * val))
  | OList (items : list val).

Abbreviation store := (list obj).

(** A statement: it may change the store, and returns or raises. *)
Definition S (A : Type) : Type := store -> res A * store.

Definition ret {A} (a : A) : S A := fun h => (Ok a, h).

Definition raise {A} (e : exn) : S A := fun h => (Exc e, h).

Definition bind {A B} (m : S A) (k : A -> S B) : S B :=
  fun h =>
    match m h with
    | (Ok a, h') => k a h'
    | (Exc e, h') => (Exc e, h')
    end.

Declare Scope store_scope.
Delimit Scope store_scope with S.
Notation "x <- m ;; k" := (bind m (fun x => k))
  (at level 100, m at next level, k at level 200, right associativity)
  : store_scope.
Notation "m ;; k" := (bind m (fun _ => k))
  (at level 100, k at level 200, right associativity) : store_scope.
Local Open Scope store_scope.

(** A new object, at the next free location. *)
Definition alloc (o : obj) : S val :=
  fun h => (Ok (VRef (List.length h)), h ++ [o]).

(** The object behind a reference; a dangling reference does not occur
    in a store built by [load]. *)
Definition deref (l : loc) : S obj :=
  fun h =>
    match h !! l with
    | Some o => (Ok o, h)
    | None => (Exc KeyError, h)
    end.

Definition assign (l : loc) (o : obj) : S unit :=
  fun h => (Ok tt, <[l := o]> h).

Fixpoint forS {A} (body : A -> S unit) (l : list A) : S unit :=
  match l with
  | [] => ret tt
  | a :: l' => body a ;; forS body l'
  end.

Section MapS.
Context {A B : Type}.
Variable f : A -> S B.

Fixpoint mapS (l : list A) : S (list B) :=
  match l with
  | [] => ret []
  | a :: l' => b <- f a ;; bs <- mapS l' ;; ret (b :: bs)
  end.
End MapS.

(** [json.load]: the document as fresh objects, the parts of a [list] or
    [dict] before the object itself. *)
Fixpoint load (j : json) : S val :=
  match j with
  | JNull => ret VNull
  | JBool b => ret (VBool b)
  | JInt n => ret (VInt n)
  | JFloat f => ret (VFloat f)
  | JStr s => ret (VStr s)
  | JList items =>
      vs <- mapS load items ;;
      alloc (OList vs)
  | JDict entries =>
      kvs <- mapS (fun kv : string * json =>
                     v <- load (snd kv) ;; ret (fst kv, v)) entries ;;
      alloc (ODict kvs)
  end.

Fixpoint mapO {A B} (f : A -> option B) (l : list A) : option (list B) :=
  match l with
  | [] => Some []
  | a :: l' =>
      match f a, mapO f l' with
      | Some b, Some bs => Some (b :: bs)
      | _, _ => None
      end
  end.

(** The document a value stands for, down to [depth] levels of
    nesting. *)
Fixpoint read (depth : nat) (h : store) (v : val) : option json :=
  match v with
  | VNull => Some JNull
  | VBool b => Some (JBool b)
  | VInt n => Some (JInt n)
  | VFloat f => Some (JFloat f)
  | VStr s => Some (JStr s)
  | VRef l =>
      match depth with
      | 0 => None
      | Datatypes.S depth' =>
          match h !! l with
          | Some (OList items) =>
              option_map JList (mapO (read depth' h) items)
          | Some (ODict entries) =>
              option_map JDict
                (mapO (fun kv : string * val =>
                         option_map (pair (fst kv)) (read depth' h (snd kv)))
                   entries)
          | None => None
          end
      end
  end.

Fixpoint entry_get (k : string) (d : list (string * val)) : option val :=
  match d with
  | [] => None
  | (k', v) :: d' => if String.eqb k k' then Some v else entry_get k d'
  end.

Definition entry_del (k : string) (d : list (string * val))
  : list (string * val) :=
  List.filter (fun kv => negb (String.eqb k (fst kv))) d.

Definition val_is_str (k : string) (v : val) : bool :=
  match v with VStr s => String.eqb k s | _ => false end.

(** ['k' in x] *)
Definition s_in (k : string) (x : val) : S bool :=
  match x with
  | VRef l =>
      o <- deref l ;;
      match o with
      | ODict d => ret (match entry_get k d with Some _ => true | None => false end)
      | OList items => ret (existsb (val_is_str k) items)
      end
  | VStr s => ret (substr_in k s)
  | _ => raise TypeError
  end.

(** [x['k']] *)
Definition s_getitem (x : val) (k : string) : S val :=
  match x with
  | VRef l =>
      o <- deref l ;;
      match o with
      | ODict d =>
          match entry_get k d with
          | Some v => ret v
          | None => raise KeyError
          end
      | OList _ => raise TypeError
      end
  | _ => raise TypeError
  end.

(** [del x['k']]: the object behind [x] changes. *)
Definition s_delitem (x : val) (k : string) : S unit :=
  match x with
  | VRef l =>
      o <- deref l ;;
      match o with
      | ODict d =>
          match entry_get k d with
          | Some _ => assign l (ODict (entry_del k d))
          | None => raise KeyError
          end
      | OList _ => raise TypeError
      end
  | _ => raise TypeError
  end.

(** [x.pop('k', None)]: the object behind [x] changes. *)
Definition s_pop (x : val) (k : string) : S unit :=
  match x with
  | VRef l =>
      o <- deref l ;;
      match o with
      | ODict d => assign l (ODict (entry_del k d))
      | OList _ => raise TypeError
      end
  | _ => raise AttributeError
  end.

(** [for y in x]: the values the loop visits. *)
Definition s_iter (x : val) : S (list val) :=
  match x with
  | VRef l =>
      o <- deref l ;;
      match o with
      | ODict d => ret (map (fun kv => VStr (fst kv)) d)
      | OList items => ret items
      end
  | VStr s => ret (map (fun c => VStr (String c EmptyString))
                       (list_ascii_of_string s))
  | _ => raise TypeError
  end.

(** [x.copy()]: one new object with the same content. *)
Definition s_copy (x : val) : S val :=
  match x with
  | VRef l => o <- deref l ;; alloc o
  | _ => raise AttributeError
  end.

(** [copy.deepcopy(x)] on a store without cycles: new objects all the
    way down, at most [depth] levels. *)
Fixpoint deepcopy_to (depth : nat) (x : val) : S val :=
  match x with
  | VRef l =>
      match depth with
      | 0 => raise RecursionError
      | Datatypes.S depth' =>
          o <- deref l ;;
          match o with
          | OList items =>
              items' <- mapS (deepcopy_to depth') items ;;
              alloc (OList items')
          | ODict d =>
              d' <- mapS (fun kv : string * val =>
                            v <- deepcopy_to depth' (snd kv) ;;
                            ret (fst kv, v)) d ;;
              alloc (ODict d')
          end
      end
  | _ => ret x
  end.

(** No nesting is deeper than the number of objects, so the bound is
    never reached on a store without cycles: it makes the recursion
    structural, and is not the interpreter's recursion limit, which is
    not modelled. *)
Definition deepcopy (x : val) : S val :=
  fun h => deepcopy_to (List.length h) x h.

(** [if field in x: del x[field]] *)
Definition del_if_present (x : val) (field : string) : S unit :=
  present <- s_in field x ;;
  if present then s_delitem x field else ret tt.

(** [clean_rule(rule)] of [clean-rules.py] *)
Definition clean_rule (rule : val) : S val :=
  cleaned <- s_copy rule ;;
  forS (del_if_present cleaned) Cleaner.READ_ONLY_FIELDS ;;
  has_output <- s_in "output" cleaned ;;
  (if has_output then
     output <- s_getitem cleaned "output" ;;
     has_recipients <- s_in "recipients" output ;;
     if has_recipients then
       recipients <- s_getitem output "recipients" ;; ret tt
     else ret tt
   else ret tt) ;;
  has_components <- s_in "subComponents" cleaned ;;
  (if has_components then
     components <- s_getitem cleaned "subComponents" ;;
     items <- s_iter components ;;
     forS (fun component =>
             forS (del_if_present component)
               Cleaner.SUBCOMPONENT_READONLY_FIELDS)
          items
   else ret tt) ;;
  ret cleaned.

(** [clean_rule_json(rule_data)] of [deploy_security_rules.py] *)
Definition clean_rule_json (rule_data : val) : S val :=
  cleaned_data <- deepcopy rule_data ;;
  forS (s_pop cleaned_data) Deployer.readonly_fields ;;
  has_output <- s_in "output" cleaned_data ;;
  (if has_output then
     output <- s_getitem cleaned_data "output" ;;
     has_recipients <- s_in "recipients" output ;;
     if has_recipients then
       recipients <- s_getitem output "recipients" ;;
       has_ids <- s_in "notificationEndpointIds" recipients ;;
       if has_ids then s_delitem recipients "notificationEndpointIds"
       else ret tt
     else ret tt
   else ret tt) ;;
  ret cleaned_data.

End Store.

(** ** What a normalized document must not contain

    The three parts of the normalization scope, as checks on a
    document. *)

Definition server_owned : list string :=
  ["id"; "createdAt"; "createdBy"; "updatedAt"; "updatedBy"].

Definition has_key (k : string) (j : json) : bool :=
  match j with
  | JDict d => dict_has k d
  | _ => false
  end.

(** No server-owned key at the document root. *)
Definition root_clean (doc : json) : bool :=
  forallb (fun k => negb (has_key k doc)) server_owned.

(** No [id] key in any element of the [subComponents] sequence. *)
Definition components_clean (doc : json) : bool :=
  match doc with
  | JDict d =>
      match dict_get "subComponents" d with
      | Some (JList components) =>
          forallb (fun c => negb (has_key "id" c)) components
      | _ => true
      end
  | _ => true
  end.

(** No [notificationEndpointIds] key under [output.recipients]. *)
Definition recipients_clean (doc : json) : bool :=
  match doc with
  | JDict d =>
      match dict_get "output" d with
      | Some (JDict output) =>
          match dict_get "recipients" output with
          | Some recipients =>
              negb (has_key "notificationEndpointIds" recipients)
          | None => true
          end
      | _ => true
      end
  | _ => true
  end.

Definition sample_rule : json :=
  JDict
    [("id", JStr "r-42");
     ("title", JStr "Alert X");
     ("enabled", JBool true);
     ("searchTimeFrameMinutes", JInt 5);
     ("output",
      JDict [("recipients",
              JDict [("emails", JList [JStr "soc@example.com"]);
                     ("notificationEndpointIds", JList [JInt 3])]);
             ("suppressNotificationsMinutes", JInt 30)]);
     ("subComponents",
      JList
        [JDict
           [("id", JInt 4);
            ("queryDefinition", JDict [("query", JStr "type:auth")]);
            ("trigger",
             JDict [("operator", JStr "GREATER_THAN");
                    ("severityThresholdTiers",
                     JDict [("HIGH", JInt 10)])])]])].

(** ** Objects made by a call

    With [n] the size of the store before a call: a value is new when it
    is not a reference into the old store, an object is new when it holds
    new values only, and the store [h] extends [h0] when it is [h0]
    followed by new objects. *)

Definition fresh_val (n : nat) (v : Store.val) : Prop :=
  match v with
  | Store.VRef l => n <= l
  | _ => True
  end.

Definition fresh_obj (n : nat) (o : Store.obj) : Prop :=
  match o with
  | Store.ODict d => Forall (fun kv => fresh_val n (snd kv)) d
  | Store.OList items => Forall (fresh_val n) items
  end.

Definition extends (h0 h : Store.store) : Prop :=
  exists ext, h = h0 ++ ext /\ Forall (fresh_obj (List.length h0)) ext.

(** The statement [m], run in a store that extends [h0], ends in a store
    that extends [h0], whether it returns or raises, and a value it
    returns satisfies [Q]. *)
Definition keeps {A} (h0 : Store.store) (m : Store.S A) (Q : A -> Prop)
  : Prop :=
  forall h, extends h0 h ->
    extends h0 (snd (m h)) /\ forall a, fst (m h) = Ok a -> Q a.

(** ** What the validator lets pass

    The tests of [validate_security_rule] that append an error, read off
    the source as one condition on the document.  A number is what
    [isinstance(x, (int, float))] accepts, which includes the booleans;
    [query] has to be there, of whatever type. *)

(** The field [k] of a mapping. *)
Definition lookup (k : string) (x : json) : option json :=
  match x with
  | JDict d => dict_get k d
  | _ => None
  end.

(** A field that must be there and pass [check]. *)
Definition required (k : string) (x : json) (check : json -> bool) : bool :=
  match lookup k x with
  | Some v => check v
  | None => false
  end.

(** A field that must pass [check] when it is there. *)
Definition optional (k : string) (x : json) (check : json -> bool) : bool :=
  match lookup k x with
  | Some v => check v
  | None => true
  end.

(** The two tests of lines 70-75: [isinstance(x, (int, float))], and
    then not [x <= 0].  [True] and a NaN pass both. *)
Definition time_frame_passes (v : json) : bool :=
  isinstance_number v
  && match py_le_zero v with Ok b => negb b | Exc _ => false end.

Definition output_valid (output : json) : bool :=
  match lookup "recipients" output with
  | None => true
  | Some recipients =>
      optional "emails" recipients isinstance_list
      && optional "suppressNotificationsMinutes" output isinstance_number
  end.

Definition aggregation_valid (agg : json) : bool :=
  optional "aggregationType" agg
    (fun t => in_names t Validator.valid_types).

Definition query_definition_valid (query_def : json) : bool :=
  required "query" query_def (fun _ => true)
  && (optional "aggregation" query_def aggregation_valid
      && (optional "filters" query_def isinstance_dict
          && optional "groupBy" query_def isinstance_list)).

Definition tier_valid (tier : string * json) : bool :=
  existsb (String.eqb (fst tier)) Validator.valid_severities
  && isinstance_number (snd tier).

Definition tiers_valid (tiers : json) : bool :=
  match tiers with
  | JDict items => forallb tier_valid items
  | _ => false
  end.

Definition trigger_valid (trigger : json) : bool :=
  required "operator" trigger
    (fun op => in_names op Validator.valid_operators)
  && required "severityThresholdTiers" trigger tiers_valid.

Definition subcomponent_valid (component : json) : bool :=
  required "queryDefinition" component query_definition_valid
  && required "trigger" component trigger_valid.

Definition subcomponents_valid (components : json) : bool :=
  match components with
  | JList [] => false
  | JList items => forallb subcomponent_valid items
  | _ => false
  end.

Definition correlation_operators_valid (operators : json) : bool :=
  match operators with
  | JList ops =>
      forallb (fun op => in_names op Validator.valid_correlation_operators)
        ops
  | _ => false
  end.

Definition correlations_valid (correlations : json) : bool :=
  optional "correlationOperators" correlations correlation_operators_valid
  && optional "joins" correlations isinstance_list.

Definition checks_pass (rule : json) : bool :=
  forallb (fun field => has_key field rule) Validator.required_fields
  && (optional "title" rule (fun t => truthy t && isinstance_str t)
  && (optional "enabled" rule isinstance_bool
  && (optional "searchTimeFrameMinutes" rule time_frame_passes
  && (optional "output" rule output_valid
  && (optional "subComponents" rule subcomponents_valid
  && (optional "correlations" rule correlations_valid
  && optional "tags" rule isinstance_list)))))).

(** ** Schema validity, in the words of the specification

    Section 3 of the specification gives the shape of a rule document
    and section 4.1 the checks whose failure is an error: a document is
    schema-valid when every required field is present with its shape
    and every enumerated value is in its closed set.  These definitions
    follow those words, not the validator. *)

(** A number: not a boolean, and not a NaN. *)
Definition spec_number (v : json) : bool :=
  match v with
  | JInt _ => true
  | JFloat S754_nan => false
  | JFloat _ => true
  | _ => false
  end.

(** A positive number: numeric, and greater than zero. *)
Definition spec_positive_number (v : json) : bool :=
  match v with
  | JInt n => (0 <? n)%Z
  | JFloat f => SFltb (S754_zero false) f
  | _ => false
  end.

Definition spec_non_empty_text (v : json) : bool :=
  match v with
  | JStr EmptyString => false
  | JStr _ => true
  | _ => false
  end.

(** A text of the closed set [names]. *)
Definition spec_one_of (names : list string) (v : json) : bool :=
  match v with
  | JStr s => existsb (String.eqb s) names
  | _ => false
  end.

Definition spec_sequence_of (check : json -> bool) (v : json) : bool :=
  match v with
  | JList items => forallb check items
  | _ => false
  end.

Definition spec_aggregation (aggregation : json) : bool :=
  isinstance_dict aggregation
  && optional "aggregationType" aggregation
       (spec_one_of
          ["COUNT"; "SUM"; "AVG"; "MAX"; "MIN"; "UNIQUE_COUNT"; "NONE"]).

Definition spec_query_definition (query_def : json) : bool :=
  isinstance_dict query_def
  && (required "query" query_def isinstance_str
  && (optional "aggregation" query_def spec_aggregation
  && (optional "filters" query_def isinstance_dict
  && optional "groupBy" query_def isinstance_list))).

(** A mapping from severities to numeric thresholds. *)
Definition spec_tiers (tiers : json) : bool :=
  match tiers with
  | JDict items =>
      forallb
        (fun tier : string * json =>
           existsb (String.eqb (fst tier)) ["LOW"; "MEDIUM"; "HIGH"; "SEVERE"]
           && spec_number (snd tier))
        items
  | _ => false
  end.

Definition spec_trigger (trigger : json) : bool :=
  isinstance_dict trigger
  && (required "operator" trigger
        (spec_one_of
           ["GREATER_THAN"; "LESS_THAN"; "EQUALS"; "NOT_EQUALS";
            "GREATER_THAN_OR_EQUALS"; "LESS_THAN_OR_EQUALS"])
  && required "severityThresholdTiers" trigger spec_tiers).

Definition spec_subcomponent (component : json) : bool :=
  isinstance_dict component
  && (required "queryDefinition" component spec_query_definition
  && required "trigger" component spec_trigger).

(** A non-empty sequence of subcomponents. *)
Definition spec_subcomponents (components : json) : bool :=
  match components with
  | JList [] => false
  | JList items => forallb spec_subcomponent items
  | _ => false
  end.

Definition spec_recipients (recipients : json) : bool :=
  isinstance_dict recipients
  && (optional "emails" recipients (spec_sequence_of isinstance_str)
  && optional "notificationEndpointIds" recipients isinstance_list).

Definition spec_output (output : json) : bool :=
  isinstance_dict output
  && (optional "recipients" output spec_recipients
  && optional "suppressNotificationsMinutes" output spec_number).

Definition spec_correlations (correlations : json) : bool :=
  isinstance_dict correlations
  && (optional "correlationOperators" correlations
        (spec_sequence_of (spec_one_of ["AND"; "OR"]))
  && optional "joins" correlations isinstance_list).

Definition spec_schema_valid (rule : json) : bool :=
  isinstance_dict rule
  && (required "title" rule spec_non_empty_text
  && (required "enabled" rule isinstance_bool
  && (required "searchTimeFrameMinutes" rule spec_positive_number
  && (required "subComponents" rule spec_subcomponents
  && (optional "output" rule spec_output
  && (optional "correlations" rule spec_correlations
  && optional "tags" rule isinstance_list)))))).

(** A rule document that is schema-valid but for its
    [searchTimeFrameMinutes]. *)
Definition rule_with_time_frame (time_frame : json) : json :=
  JDict
    [("title", JStr "Alert X");
     ("enabled", JBool true);
     ("searchTimeFrameMinutes", time_frame);
     ("subComponents",
      JList
        [JDict
           [("queryDefinition", JDict [("query", JStr "type:auth")]);
            ("trigger",
             JDict [("operator", JStr "GREATER_THAN");
                    ("severityThresholdTiers",
                     JDict [("HIGH", JInt 10)])])]])].

(** A rule document with no subcomponent, and a number among its
    [emails]. *)
Definition rule_without_components : json :=
  JDict
    [("title", JStr "Alert X");
     ("enabled", JBool true);
     ("searchTimeFrameMinutes", JInt 5);
     ("output", JDict [("recipients", JDict [("emails", JList [JInt 5])])]);
     ("subComponents", JList [])].

(** ** Runs of the validator *)

Definition no_errors (new_errors : list (string * Validator.error)) : bool :=
  match new_errors with [] => true | _ => false end.

(** Every run of [m] appends [new_errors] and [new_warnings] to the two
    lists, and [P] holds of them and of the result. *)
Definition run {A} (m : Validator.V A)
    (P : res A -> list (string * Validator.error) ->
         list (string * Validator.warning) -> Prop) : Prop :=
  forall st, exists new_errors new_warnings,
    snd (m st)
    = Validator.State (Validator.errors st ++ new_errors)
        (Validator.warnings st ++ new_warnings)
    /\ P (fst (m st)) new_errors new_warnings.

(** The step [m] of a validation method, entered with the flag [valid]:
    when it returns, it appended no error exactly when [pass] holds, and
    the flag it returns is [valid && pass]. *)
Definition checks (m : Validator.V bool) (valid pass : bool) : Prop :=
  run m (fun r new_errors _ =>
           forall b, r = Ok b ->
             b = valid && pass /\ no_errors new_errors = pass).

(** A statement that appends no error when it returns. *)
Definition quiet {A} (m : Validator.V A) : Prop :=
  run m (fun r new_errors _ => forall a, r = Ok a -> new_errors = []).

(** The errors a run appended: what [self.errors] holds beyond what it
    held before. *)
Definition appended (st st' : Validator.state)
  : list (string * Validator.error) :=
  skipn (List.length (Validator.errors st)) (Validator.errors st').

(** The two errors about [searchTimeFrameMinutes]. *)
Definition is_time_frame_error (e : Validator.error) : bool :=
  match e with
  | Validator.TimeFrameNotNumber | Validator.TimeFrameNotPositive => true
  | _ => false
  end.

Definition time_frame_errors (l : list (string * Validator.error))
  : list (string * Validator.error) :=
  List.filter (fun x => is_time_frame_error (snd x)) l.

(** What the check of [searchTimeFrameMinutes] appends for a mapping. *)
Definition expected_time_frame_errors (file_path : string) (d : dict)
  : list (string * Validator.error) :=
  match dict_get "searchTimeFrameMinutes" d with
  | None => []
  | Some v =>
      if negb (isinstance_number v)
      then [(file_path, Validator.TimeFrameNotNumber)]
      else match py_le_zero v with
           | Ok true => [(file_path, Validator.TimeFrameNotPositive)]
           | _ => []
           end
  end.

(** A statement that appends neither of the two, whatever its outcome. *)
Definition no_time_frame {A} (m : Validator.V A) : Prop :=
  run m (fun _ new_errors _ => time_frame_errors new_errors = []).

(** A statement that returns, and appends neither of the two. *)
Definition passes {A} (m : Validator.V A) : Prop :=
  run m (fun r new_errors _ =>
           (exists a, r = Ok a) /\ time_frame_errors new_errors = []).

(** A rule document like [sample_rule], with the given [output]. *)
Definition rule_with_output (output : json) : json :=
  JDict
    [("title", JStr "Alert X");
     ("enabled", JBool true);
     ("searchTimeFrameMinutes", JInt 5);
     ("output", output);
     ("subComponents",
      JList
        [JDict
           [("queryDefinition", JDict [("query", JStr "type:auth")]);
            ("trigger",
             JDict [("operator", JStr "GREATER_THAN");
                    ("severityThresholdTiers",
                     JDict [("HIGH", JInt 10)])])]])].

(** A rule document whose one component has the given
    [queryDefinition]. *)
Definition rule_with_query_definition (query_def : json) : json :=
  JDict
    [("title", JStr "Alert X");
     ("enabled", JBool true);
     ("searchTimeFrameMinutes", JInt 5);
     ("subComponents",
      JList
        [JDict
           [("queryDefinition", query_def);
            ("trigger",
             JDict [("operator", JStr "GREATER_THAN");
                    ("severityThresholdTiers",
                     JDict [("HIGH", JInt 10)])])]])].

(** ** The first exact match of a title search

    What the search is to return, on the list of rules of a response. *)

(** The title the scan reads from a rule: [rule.get('title', '')]. *)
Definition title_of (rule : json) : json :=
  match lookup "title" rule with
  | Some t => t
  | None => JStr ""
  end.

(** The id the scan reads from a rule: [rule.get('id')]. *)
Definition id_of (rule : json) : json :=
  match lookup "id" rule with
  | Some i => i
  | None => JNull
  end.

(** The rule's title is the text [title], character for character. *)
Definition has_title (title : string) (rule : json) : bool :=
  match title_of rule with
  | JStr t => String.eqb t title
  | _ => false
  end.

Definition sliceable (x : json) : bool :=
  match x with
  | JStr _ | JList _ => true
  | _ => false
  end.

(** The scan gets past the rule at position [i]: the rule is a mapping,
    and at the first three positions, where the titles are printed, its
    title can be sliced. *)
Definition scannable (i : nat) (rule : json) : bool :=
  isinstance_dict rule && (negb (Nat.ltb i 3) || sliceable (title_of rule)).

(** The id of the first rule with the title, when the scan gets to it. *)
Fixpoint first_match (title : string) (i : nat) (results : list json)
  : option json :=
  match results with
  | [] => None
  | rule :: rest =>
      if scannable i rule then
        if has_title title rule then Some (id_of rule)
        else first_match title (Datatypes.S i) rest
      else None
  end.

Definition search_request (self : Deployer.deployer) : Deployer.request :=
  Deployer.Request Deployer.POST (Deployer.search_endpoint self)
    (Deployer.api_token self) Deployer.search_payload.

(** A service that gives the same reply to every request. *)
Definition always (r : Deployer.reply) : Deployer.remote := fun _ _ => r.

Definition sample_deployer : Deployer.deployer :=
  Deployer.new "token" "https://api.logz.io/v2/" "staging".

(** A listing whose first rule has a [null] title and whose second rule
    is the one looked for. *)
Definition listing_with_null_title : json :=
  JDict
    [("total", JInt 2);
     ("results",
      JList
        [JDict [("id", JStr "r-1"); ("title", JNull)];
         JDict [("id", JStr "r-42"); ("title", JStr "Alert X")]])].

(** The same two rules after three others: the rule with the [null]
    title is the fourth, the one looked for the fifth. *)
Definition listing_with_null_title_fourth : json :=
  JDict
    [("total", JInt 5);
     ("results",
      JList
        [JDict [("id", JStr "r-2"); ("title", JStr "Alert A")];
         JDict [("id", JStr "r-3"); ("title", JStr "Alert B")];
         JDict [("id", JStr "r-4"); ("title", JStr "Alert C")];
         JDict [("id", JStr "r-1"); ("title", JNull)];
         JDict [("id", JStr "r-42"); ("title", JStr "Alert X")]])].

(** A listing whose one rule has the number 5 for its title. *)
Definition listing_with_number_title : json :=
  JDict
    [("total", JInt 1);
     ("results", JList [JDict [("id", JStr "r-7"); ("title", JInt 5)]])].

Definition listing : json :=
  JDict
    [("total", JInt 2);
     ("results",
      JList
        [JDict [("id", JStr "r-1"); ("title", JStr "alert x")];
         JDict [("id", JStr "r-42"); ("title", JStr "Alert X")]])].

(** What the search returns on a reply: the first match in the [results]
    list of a 200 response whose body is a mapping, and not found on
    anything else. *)
Definition search_spec (title : string) (r : Deployer.reply)
  : Deployer.search_result :=
  match r with
  | Deployer.Response status_code (Some (JDict data)) =>
      if (status_code =? 200)%Z then
        match dict_get "results" data with
        | Some (JList results) =>
            match first_match title 0 results with
            | Some id => Deployer.SearchResult true id
            | None => Deployer.not_found
            end
        | _ => Deployer.not_found
        end
      else Deployer.not_found
  | _ => Deployer.not_found
  end.

(** ** Outcomes of a creation and of an update *)

Definition create_request (self : Deployer.deployer) (rule_data : json)
    (endpoint : string) : Deployer.request :=
  Deployer.Request Deployer.POST endpoint (Deployer.api_token self) rule_data.

(** A reply after which the next candidate endpoint is tried: a transport
    failure, or a response whose status is not 2xx. *)
Definition rejected (r : Deployer.reply) : bool :=
  match r with
  | Deployer.TransportFailure _ => true
  | Deployer.Response status_code _ => negb (Deployer.is_2xx status_code)
  end.

(** The message of a creation at [endpoint] that was answered 2xx with
    [body]: with the id of a body that is a mapping (["unknown"] when the
    mapping has none), without id otherwise. *)
Definition created_message (py_str : json -> string) (endpoint : string)
    (body : option json) : string :=
  match body with
  | Some (JDict d) =>
      "Created successfully at " +++ endpoint +++ " (ID: "
      +++ py_str (match dict_get "id" d with
                  | Some id => id
                  | None => JStr "unknown"
                  end)
      +++ ")"
  | _ => "Created successfully at " +++ endpoint
  end.

(** The keys of an error body, in the order they are consulted. *)
Definition message_keys : list string := ["message"; "error"; "errorMessage"].

(** The value of the first of [keys] whose value in [d] is true. *)
Fixpoint first_truthy (keys : list string) (d : dict) (default : json)
  : json :=
  match keys with
  | [] => default
  | k :: keys' =>
      match dict_get k d with
      | Some v => if truthy v then v else first_truthy keys' d default
      | None => first_truthy keys' d default
      end
  end.

(** The outcome of an update of the rule [id] that got the reply [r]. *)
Definition update_outcome (py_str : json -> string) (id : json)
    (r : Deployer.reply) : bool * string :=
  match r with
  | Deployer.TransportFailure reason =>
      (false, "Update request failed: " +++ reason)
  | Deployer.Response status_code body =>
      if Deployer.is_2xx status_code then
        (true, "Updated successfully (ID: " +++ py_str id +++ ")")
      else
        (false,
         match body with
         | Some (JDict d) =>
             "Update failed: "
             +++ py_str (first_truthy message_keys d
                           (JStr "No error message provided"))
         | _ => "Update failed with HTTP " +++ Deployer.str_int status_code
         end)
  end.

(** [str(x)] on the values the examples print. *)
Definition str_sample (x : json) : string :=
  match x with
  | JStr s => s
  | JInt n => Deployer.str_int n
  | JNull => "None"
  | JBool true => "True"
  | JBool false => "False"
  | _ => ""
  end.

Definition str_exn_sample (e : exn) : string :=
  match e with
  | TypeError => "TypeError"
  | AttributeError => "AttributeError"
  | KeyError => "KeyError"
  | ValueError => "ValueError"
  | RecursionError => "RecursionError"
  end.

(** A service that knows the rule "Alert X" as [r-42] and rejects an
    update with an error body. *)
Definition sample_service : Deployer.remote :=
  fun _ request =>
    match Deployer.meth request with
    | Deployer.POST => Deployer.Response 200 (Some listing)
    | Deployer.PUT =>
        Deployer.Response 400
          (Some (JDict [("message", JStr ""); ("error", JStr "bad rule")]))
    end.

Definition sample_file : Deployer.rule_file :=
  Deployer.RuleFile "rules/alert-x.json" "alert-x.json" "alert-x"
    (inr sample_rule).

(** The counters of a summary with [pending] files still to go. *)
Definition tallied (pending : nat) (s : Deployer.summary) : Prop :=
  Deployer.total s = Deployer.successful s + Deployer.failed s + pending
  /\ Deployer.successful s = Deployer.created s + Deployer.updated s
  /\ List.length (Deployer.failed_rules s) = Deployer.failed s.

(** [sample_rule] as [json.load] builds it in an empty store, and the
    reference to it. *)
Definition loaded_sample : res Store.val * Store.store :=
  Store.load sample_rule [].

(** A rule document with the given [searchTimeFrameMinutes] and the given
    [operator] in its one component. *)
Definition rule_with_time_frame_and_operator (time_frame operator : json)
  : json :=
  JDict
    [("title", JStr "Alert X");
     ("description", JStr "Failed logins");
     ("tags", JList [JStr "auth"]);
     ("enabled", JBool true);
     ("searchTimeFrameMinutes", time_frame);
     ("output",
      JDict [("recipients",
              JDict [("emails", JList [JStr "soc@example.com"])]);
             ("suppressNotificationsMinutes", JInt 30)]);
     ("subComponents",
      JList
        [JDict
           [("queryDefinition", JDict [("query", JStr "type:auth")]);
            ("trigger",
             JDict [("operator", operator);
                    ("severityThresholdTiers",
                     JDict [("HIGH", JInt 10)])])]])].

(** A service whose first create endpoint is missing, whose second
    rejects the document, and whose third accepts it as [r-99]. *)
Definition third_endpoint_accepts : Deployer.remote :=
  fun _ request =>
    if String.eqb (Deployer.url request)
         "https://api.logz.io/v2/security/rules"
    then Deployer.Response 404 None
    else if String.eqb (Deployer.url request)
              "https://api.logz.io/v2/siem/rules"
    then Deployer.Response 400 (Some (JDict [("message", JStr "bad rule")]))
    else Deployer.Response 201 (Some (JDict [("id", JStr "r-99")])).

(** A statement whose outcome does not depend on what the two lists
    hold. *)
Definition stateless {A} (m : Validator.V A) : Prop :=
  forall st st', fst (m st) = fst (m st').

(** ** Documents in the store

    [tree h j lo v hi]: in the store [h] the value [v] stands for the
    document [j], built from objects at locations from [lo] up to, not
    including, [hi], each object held by one reference only: the parts of
    a [list] or [dict] lie in intervals that follow one another. *)

Section TreeParts.
Variable T : json -> nat -> Store.val -> nat -> Prop.
Variable l : nat.

Fixpoint items_in (items : list json) (lo : nat) (vs : list Store.val)
  : Prop :=
  match items, vs with
  | [], [] => lo <= l
  | x :: items', w :: vs' =>
      exists mid, T x lo w mid /\ items_in items' mid vs'
  | _, _ => False
  end.

Fixpoint entries_in (entries : list (string * json)) (lo : nat)
    (kvs : list (string * Store.val)) : Prop :=
  match entries, kvs with
  | [], [] => lo <= l
  | (k, x) :: entries', (k', w) :: kvs' =>
      k = k' /\ exists mid, T x lo w mid /\ entries_in entries' mid kvs'
  | _, _ => False
  end.
End TreeParts.

Fixpoint tree (h : Store.store) (j : json) (lo : nat) (v : Store.val)
    (hi : nat) {struct j} : Prop :=
  match j with
  | JNull => v = Store.VNull /\ lo <= hi
  | JBool b => v = Store.VBool b /\ lo <= hi
  | JInt n => v = Store.VInt n /\ lo <= hi
  | JFloat f => v = Store.VFloat f /\ lo <= hi
  | JStr s => v = Store.VStr s /\ lo <= hi
  | JList items =>
      exists l vs,
        v = Store.VRef l /\ l < hi /\ h !! l = Some (Store.OList vs)
        /\ items_in (tree h) l items lo vs
  | JDict entries =>
      exists l kvs,
        v = Store.VRef l /\ l < hi /\ h !! l = Some (Store.ODict kvs)
        /\ entries_in (tree h) l entries lo kvs
  end.

(** What a statement may have done to the store: the same number of
    objects, and a different object only behind [v], or only at the
    locations from [a] up to [b]. *)
Definition changed_at (h h' : Store.store) (v : Store.val) : Prop :=
  List.length h' = List.length h
  /\ forall loc, v <> Store.VRef loc -> h' !! loc = h !! loc.

Definition changed_within (h h' : Store.store) (a b : nat) : Prop :=
  List.length h' = List.length h
  /\ forall loc, ~ (a <= loc < b) -> h' !! loc = h !! loc.

(** A run of a cleaner on the store, against the result on documents:
    both raise the same exception, or the run returns a tree of the
    resulting document made of objects that are new since [h]; either
    way the objects of [h] are as they were. *)
Definition refines (h : Store.store) (result : res json)
    (run : res Store.val * Store.store) : Prop :=
  let (r, h') := run in
  List.length h <= List.length h'
  /\ (forall loc, loc < List.length h -> h' !! loc = h !! loc)
  /\ match result, r with
     | Ok doc', Ok cleaned =>
         tree h' doc' (List.length h) cleaned (List.length h')
     | Exc e, Exc e' => e = e'
     | _, _ => False
     end.

(** The argument of [clean_rule] after a call that returned [cleaned]:
    the components are shared with the copy, so the argument holds the
    components of the result; nothing else of it has changed. *)
Definition input_after (rule cleaned : json) : json :=
  match py_getitem cleaned "subComponents" with
  | Ok components =>
      match py_setitem rule "subComponents" components with
      | Ok rule' => rule'
      | Exc _ => rule
      end
  | Exc _ => rule
  end.

(** Every entry of [kvs'] is an entry of [kvs]. *)
Definition sub_entries (kvs' kvs : list (string * Store.val)) : Prop :=
  forall k w, Store.entry_get k kvs' = Some w -> Store.entry_get k kvs = Some w.

(** ** Documents a cleaner accepts

    The shapes on which the two cleaners return: a mapping whose
    [output], when there is one, is a mapping whose [recipients], when
    there is one, is a mapping; for the exporter's cleaner also a
    [subComponents] that, when there is one, is a list of mappings. *)

Definition output_shaped (output : json) : bool :=
  isinstance_dict output && optional "recipients" output isinstance_dict.

Definition components_shaped (components : json) : bool :=
  match components with
  | JList items => forallb isinstance_dict items
  | _ => false
  end.

(** The keys of a mapping that are not in [keys], in their order. *)
Definition keys_without (keys : list string) (d : dict) : list string :=
  List.filter (fun k => negb (existsb (String.eqb k) keys)) (dict_keys d).

(** ** Validation of any decoded document

    [validate_file] passes whatever the file decodes to, a mapping or
    not.  [in] is defined on a list and on a string too, so the test
    ['k' in rule] is the one below; on a mapping it is [has_key]. *)

Definition field_present (rule : json) (field : string) : bool :=
  match py_in field rule with
  | Ok present => present
  | Exc _ => false
  end.

(** The checks on the fields that are there. *)
Definition fields_valid (rule : json) : bool :=
  optional "title" rule (fun t => truthy t && isinstance_str t)
  && (optional "enabled" rule isinstance_bool
  && (optional "searchTimeFrameMinutes" rule time_frame_passes
  && (optional "output" rule output_valid
  && (optional "subComponents" rule subcomponents_valid
  && (optional "correlations" rule correlations_valid
  && optional "tags" rule isinstance_list))))).

(** A statement that raises, whatever the lists hold. *)
Definition raises {A} (m : Validator.V A) : Prop :=
  forall st, exists e, fst (m st) = Exc e.

(** ** The requests of a deployment *)

(** The request that updates the rule [id] with the document
    [cleaned]. *)
Definition update_request (py_str : json -> string)
    (self : Deployer.deployer) (id cleaned : json) : Deployer.request :=
  Deployer.Request Deployer.PUT
    (Deployer.update_endpoint self +++ "/" +++ py_str id)
    (Deployer.api_token self) cleaned.

(** What one [deploy_rule] sends for a file: nothing, when the file
    does not decode, or reading its title or cleaning its rule raises;
    otherwise the search and then one update of the cleaned document,
    or the search and then the creation of the cleaned document at the
    first [n] candidate endpoints. *)
Inductive deployment (py_str : json -> string) (self : Deployer.deployer)
    (file : Deployer.rule_file) : list Deployer.request -> Prop :=
  | NoRequest :
      (forall doc title cleaned,
          Deployer.file_content file = inr doc ->
          py_get doc "title" (JStr (Deployer.file_stem file)) = Ok title ->
          Deployer.clean_rule_json doc = Ok cleaned -> False) ->
      deployment py_str self file []
  | SearchUpdate (doc title cleaned id : json) :
      Deployer.file_content file = inr doc ->
      py_get doc "title" (JStr (Deployer.file_stem file)) = Ok title ->
      Deployer.clean_rule_json doc = Ok cleaned ->
      deployment py_str self file
        [search_request self; update_request py_str self id cleaned]
  | SearchCreate (doc title cleaned : json) (n : nat) :
      Deployer.file_content file = inr doc ->
      py_get doc "title" (JStr (Deployer.file_stem file)) = Ok title ->
      Deployer.clean_rule_json doc = Ok cleaned ->
      1 <= n <= 3 ->
      deployment py_str self file
        (search_request self
         :: map (create_request self cleaned)
              (firstn n (Deployer.create_endpoints self))).

(** A request of this deployer: it carries the deployer's token and
    goes to a URL under its base URL. *)
Definition of_deployer (self : Deployer.deployer) (r : Deployer.request)
  : Prop :=
  Deployer.token r = Deployer.api_token self
  /\ String.prefix (Deployer.api_url self) (Deployer.url r) = true.

(** A request that carries no key the service owns: none of the five
    read-only keys at the root of its payload, and no
    [notificationEndpointIds] under [output.recipients]. *)
Definition sends_cleaned (r : Deployer.request) : Prop :=
  root_clean (Deployer.payload r) = true
  /\ recipients_clean (Deployer.payload r) = true.

(** ** [deploy_security_rules.py]: [main]

    The environment variables, and the rules directory as [Path.exists]
    and [glob('*.json')] see it.  [main] ends in [sys.exit]: its value
    is the exit status. *)

Module DeployerMain.

Record environ : Type := Environ {
  LOGZIO_API_TOKEN : option string;
  LOGZIO_API_URL : option string;
  DEPLOYMENT_ENV : option string;
  RULES_DIRECTORY : option string
}.

(** [os.environ.get(name, default)] *)
Definition get (v : option string) (default : string) : string :=
  match v with
  | Some s => s
  | None => default
  end.

(** The truth value of [os.environ.get(name)]: [None] and the empty
    string are false. *)
Definition is_set (v : option string) : bool :=
  match v with
  | Some s => negb (String.eqb s "")
  | None => false
  end.

Section Main.
Variable py_str : json -> string.
Variable str_exn : exn -> string.
Variable service : Deployer.remote.
(** The JSON files of a directory, or [None] when it does not exist. *)
Variable listing : string -> option (list Deployer.rule_file).

Definition main (env : environ) : Deployer.IO Z :=
  let api_token := LOGZIO_API_TOKEN env in
  let api_url := LOGZIO_API_URL env in
  let environment := get (DEPLOYMENT_ENV env) "unknown" in
  let rules_dir := get (RULES_DIRECTORY env) "logzio-rules/security" in
  if negb (is_set api_token) then Deployer.io_ret 1%Z
  else if negb (is_set api_url) then Deployer.io_ret 1%Z
  else
    let deployer :=
      Deployer.new (get api_token "") (get api_url "") environment in
    Deployer.io_bind
      (Deployer.deploy_all_rules py_str str_exn service deployer
         (listing rules_dir))
      (fun results =>
         if Nat.ltb 0 (Deployer.failed results) then Deployer.io_ret 1%Z
         else Deployer.io_ret 0%Z).
End Main.

End DeployerMain.

(** [n] slashes. *)
Fixpoint slashes (n : nat) : string :=
  match n with
  | 0 => ""
  | S n' => String "/" (slashes n')
  end.

(** ** [export_logzio_rules.py]: the exporter

    A character of a [string] is a code point below 256. *)

Module Exporter.

Definition ENDPOINTS : list string :=
  ["/security/rules/search"; "/siem/rules/search";
   "/correlation-rules/search"].

(** The character class of the first [re.sub]: the nine characters
    less-than, greater-than, colon, double quote (034), slash,
    backslash, bar, question mark and star. *)
Definition forbidden (c : ascii) : bool :=
  existsb (Ascii.eqb c)
    ["<"; ">"; ":"; "034"; "/"; "\"; "|"; "?"; "*"]%char.

(** Python's whitespace, which [str.strip] removes and [\s] matches:
    tab to carriage return, the four separators 28 to 31, the space,
    NEL and the no-break space. *)
Definition is_space (c : ascii) : bool :=
  let n := nat_of_ascii c in
  (Nat.leb 9 n && Nat.leb n 13) || (Nat.leb 28 n && Nat.leb n 32)
  || Nat.eqb n 133 || Nat.eqb n 160.

(** The first [re.sub]: each of the nine characters becomes a
    hyphen. *)
Fixpoint replace_forbidden (s : string) : string :=
  match s with
  | EmptyString => EmptyString
  | String c s' =>
      String (if forbidden c then "-"%char else c) (replace_forbidden s')
  end.

Fixpoint lstrip (s : string) : string :=
  match s with
  | EmptyString => EmptyString
  | String c s' => if is_space c then lstrip s' else s
  end.

Fixpoint rstrip (s : string) : string :=
  match s with
  | EmptyString => EmptyString
  | String c s' =>
      match rstrip s' with
      | EmptyString => if is_space c then EmptyString else String c EmptyString
      | t => String c t
      end
  end.

(** [s.strip()] *)
Definition strip (s : string) : string := rstrip (lstrip s).

(** [re.sub(r'\s+', '-', s)]: every maximal run of whitespace becomes
    one hyphen; [in_run] says that the character before was
    whitespace. *)
Fixpoint collapse_from (in_run : bool) (s : string) : string :=
  match s with
  | EmptyString => EmptyString
  | String c s' =>
      if is_space c then
        if in_run then collapse_from true s'
        else String "-" (collapse_from true s')
      else String c (collapse_from false s')
  end.

Definition collapse (s : string) : string := collapse_from false s.

(** [sanitize_filename(title)]: [re.sub] takes a [str] only. *)
Definition sanitize_filename (title : json) : res string :=
  match title with
  | JStr s =>
      let safe_title := replace_forbidden s in
      let safe_title := collapse (strip safe_title) in
      let safe_title := String.substring 0 100 safe_title in
      Ok safe_title
  | _ => Exc TypeError
  end.

(** *** [fetch_rules]

    The token and the base URL are the module's globals, set from the
    environment; [validate_environment] has checked the token before
    [fetch_rules] runs.  The requests go through the same capability as
    the deployer's. *)

(** [len(all_rules) >= total_rules]: an [int] is compared with a
    number; a NaN compares false. *)
Definition py_ge_nat (n : nat) (total : json) : res bool :=
  match total with
  | JBool b => Ok (Deployer.int_of_bool b <=? Z.of_nat n)%Z
  | JInt t => Ok (t <=? Z.of_nat n)%Z
  | JFloat S754_nan => Ok false
  | JFloat f => Ok (negb (Deployer.int_lt_float (Z.of_nat n) f))
  | _ => Exc TypeError
  end.

(** The [payload] with its page number: [tags] are a filter when the
    list is there and not empty. *)
Definition payload (tags : option (list string)) (page_size : Z)
    (page_number : nat) : json :=
  JDict
    [("filter",
      JDict match tags with
            | Some (tag :: more) =>
                [("tags", JList (map JStr (tag :: more)))]
            | _ => []
            end);
     ("pagination",
      JDict [("pageNumber", JInt (Z.of_nat page_number));
             ("pageSize", JInt page_size)])].

(** The rules of a page, by the three response structures. *)
Definition page_rules (data : json) : res json :=
  (let? has_results := py_in "results" data in
   if has_results then py_getitem data "results"
   else
     let? has_data := py_in "data" data in
     if has_data then py_getitem data "data"
     else Ok (if isinstance_list data then data else JList []))%res.

(** The body of the pagination loop after [response.json()]: the new
    [all_rules], and whether the loop ends ([break]). *)
Definition page (data : json) (all_rules : list json)
  : res (list json * bool) :=
  (let? rules := page_rules data in
   if negb (truthy rules) then Ok (all_rules, true)
   else
     let? _ := py_len rules in
     let? items := py_iter rules in
     let all_rules := all_rules ++ items in
     let? pagination := py_get data "pagination" (JDict []) in
     let? total_rules :=
       py_get pagination "total"
         (JInt (Z.of_nat (List.length all_rules))) in
     let? enough := py_ge_nat (List.length all_rules) total_rules in
     Ok (all_rules, enough))%res.

(** How the [try] block of one endpoint ends, once its probe was
    answered with 200: with [return all_rules]; with a
    [RequestException], after which the next endpoint is tried with the
    rules and the page counter as they are; or with another exception,
    which leaves [fetch_rules]. *)
Inductive pagination : Type :=
  | Returned (all_rules : list json)
  | NextEndpoint (all_rules : list json) (current_page : nat)
  | Raised (e : exn).

Section Fetch.
Variable service : Deployer.remote.
Variable LOGZIO_API_TOKEN : string.
Variable LOGZIO_API_URL : string.
(** Whether the exception of [response.json()] on a body that is not
    JSON is a [RequestException]: it is one since requests 2.27, and a
    plain [ValueError] before. *)
Variable decode_error_is_request_exception : bool.
Variable tags : option (list string).
Variable page_size : Z.

Definition post (url : string) (page_number : nat)
  : Deployer.IO Deployer.reply :=
  Deployer.send service
    (Deployer.Request Deployer.POST url LOGZIO_API_TOKEN
       (payload tags page_size page_number)).

(** The loop [while True], for at most [fuel] rounds ([None] when they
    do not suffice).  [page_number] is the page number in the payload:
    1 in the first round, [current_page] after it. *)
Fixpoint pages (fuel : nat) (url : string) (page_number : nat)
    (all_rules : list json) (current_page : nat)
  : Deployer.IO (option pagination) :=
  match fuel with
  | 0 => Deployer.io_ret None
  | S fuel' =>
      Deployer.io_bind (post url page_number) (fun response =>
      match response with
      | Deployer.TransportFailure _ =>
          Deployer.io_ret (Some (NextEndpoint all_rules current_page))
      | Deployer.Response status_code body =>
          if negb (status_code =? 200)%Z then
            Deployer.io_ret (Some (Returned all_rules))
          else
            match body with
            | None =>
                Deployer.io_ret
                  (Some (if decode_error_is_request_exception
                         then NextEndpoint all_rules current_page
                         else Raised ValueError))
            | Some data =>
                match page data all_rules with
                | Exc e => Deployer.io_ret (Some (Raised e))
                | Ok (all_rules, true) =>
                    Deployer.io_ret (Some (Returned all_rules))
                | Ok (all_rules, false) =>
                    let current_page := current_page + 1 in
                    pages fuel' url current_page all_rules current_page
                end
            end
      end)
  end.

(** The loop [for endpoint in ENDPOINTS], and [return None] after
    it. *)
Fixpoint fetch_from (fuel : nat) (endpoints : list string)
    (all_rules : list json) (current_page : nat)
  : Deployer.IO (option (res (option (list json)))) :=
  match endpoints with
  | [] => Deployer.io_ret (Some (Ok None))
  | endpoint :: rest =>
      let url := LOGZIO_API_URL +++ endpoint in
      Deployer.io_bind (post url 1) (fun response =>
      match response with
      | Deployer.TransportFailure _ =>
          fetch_from fuel rest all_rules current_page
      | Deployer.Response status_code _ =>
          if (status_code =? 200)%Z then
            Deployer.io_bind (pages fuel url 1 all_rules current_page)
              (fun ended =>
               match ended with
               | None => Deployer.io_ret None
               | Some (Returned all_rules) =>
                   Deployer.io_ret (Some (Ok (Some all_rules)))
               | Some (NextEndpoint all_rules current_page) =>
                   fetch_from fuel rest all_rules current_page
               | Some (Raised e) => Deployer.io_ret (Some (Exc e))
               end)
          else fetch_from fuel rest all_rules current_page
      end)
  end.

(** [fetch_rules(tags, page_size)]: the rules, [None] when no endpoint
    could be used, or the exception that leaves the function; [None]
    outside when [fuel] rounds of a pagination loop did not suffice. *)
Definition fetch_rules (fuel : nat)
  : Deployer.IO (option (res (option (list json)))) :=
  fetch_from fuel ENDPOINTS [] 1.
End Fetch.

(** *** [save_rules_to_files] and [main]

    The file system is a capability like the service: an operation goes
    out, and succeeds or fails with an [OSError], knowing the
    operations before it. *)

Inductive fs_operation : Type :=
  | Mkdir (path : string)
      (* [Path(path).mkdir(parents=True, exist_ok=True)] *)
  | Dump (output_dir filename : string) (rule : json).
      (* [open(os.path.join(output_dir, filename), 'w')] and
         [json.dump(rule, f)] *)

Definition disk : Type := list fs_operation -> fs_operation -> bool.

Definition FS (A : Type) : Type :=
  list fs_operation -> A * list fs_operation.

Definition perform (fs : disk) (op : fs_operation) : FS bool :=
  fun done => (fs done op, done ++ [op]).

(** The two counters of [save_rules_to_files], which its summary
    prints. *)
Record saved : Type := Saved {
  saved_count : nat;
  failed_count : nat
}.

Section Save.
(** [str(x)] of a decoded JSON value, as an f-string prints it. *)
Variable py_str : json -> string.
Variable fs : disk.

(** [f"{rule_id}_{safe_title}.json"], or the exception of the [try]
    block before [open]. *)
Definition filename_of (idx : nat) (rule : json) : res string :=
  (let? name :=
     py_get rule "name"
       (JStr ("rule-" +++ Deployer.str_int (Z.of_nat idx))) in
   let? title := py_get rule "title" name in
   let? rule_id := py_get rule "id" (JInt (Z.of_nat idx)) in
   let? safe_title := sanitize_filename title in
   Ok (py_str rule_id +++ "_" +++ safe_title +++ ".json"))%res.

(** The loop [for idx, rule in enumerate(rules, 1)], from [idx] on. *)
Fixpoint save_each (output_dir : string) (idx : nat) (counts : saved)
    (rules : list json) : FS saved :=
  match rules with
  | [] => fun done => (counts, done)
  | rule :: rest =>
      fun done =>
        match filename_of idx rule with
        | Exc _ =>
            save_each output_dir (S idx)
              (Saved (saved_count counts) (failed_count counts + 1))
              rest done
        | Ok filename =>
            let (ok, done) :=
              perform fs (Dump output_dir filename rule) done in
            save_each output_dir (S idx)
              (if ok
               then Saved (saved_count counts + 1) (failed_count counts)
               else Saved (saved_count counts) (failed_count counts + 1))
              rest done
        end
  end.

(** [save_rules_to_files(rules, output_dir)]: it returns nothing; the
    model's value is the pair of counters its summary prints, [None]
    when there is no rule and no summary. *)
Definition save_rules_to_files (rules : list json) (output_dir : string)
  : FS (option saved) :=
  match rules with
  | [] => fun done => (None, done)
  | _ =>
      fun done =>
        let (counts, done) :=
          save_each output_dir 1 (Saved 0 0) rules done in
        (Some counts, done)
  end.
End Save.

(** The arguments as [argparse] delivers them: [tags] is [None] when
    no [--tag] was given. *)
Record arguments : Type := Arguments {
  arg_tags : option (list string);
  arg_all : bool;
  arg_output : string;
  arg_page_size : Z;
  arg_verbose : bool
}.

(** [not args.tags] *)
Definition no_tags (args : arguments) : bool :=
  match arg_tags args with
  | Some (_ :: _) => false
  | _ => true
  end.

(** The two checks at the end of [parse_arguments]: [parser.error]
    exits with status 2. *)
Definition parse_arguments (args : arguments) : Z + arguments :=
  if negb (arg_all args) && no_tags args then inl 2%Z
  else if arg_all args && negb (no_tags args) then inl 2%Z
  else inr args.

Section Main.
Variable py_str : json -> string.
Variable service : Deployer.remote.
Variable fs : disk.
(** [os.environ.get('LOGZIO_API_TOKEN')], and [LOGZIO_API_URL] with its
    default applied. *)
Variable LOGZIO_API_TOKEN : option string.
Variable LOGZIO_API_URL : string.
Variable decode_error_is_request_exception : bool.

(** [main()]: the exit status, the requests and the file operations; an
    exception that nothing catches ends the process with status 1.
    [None] when [fuel] rounds of pagination did not suffice. *)
Definition main (fuel : nat) (args : arguments)
    (log : list Deployer.request) (done : list fs_operation)
  : option Z * list Deployer.request * list fs_operation :=
  match parse_arguments args with
  | inl status => (Some status, log, done)
  | inr args =>
      match LOGZIO_API_TOKEN with
      | None | Some EmptyString => (Some 1%Z, log, done)
      | Some api_token =>
          let (created, done) := perform fs (Mkdir (arg_output args)) done in
          if negb created then (Some 1%Z, log, done)
          else
            let tags := if arg_all args then None else arg_tags args in
            let (fetched, log) :=
              fetch_rules service api_token LOGZIO_API_URL
                decode_error_is_request_exception tags
                (arg_page_size args) fuel log in
            match fetched with
            | None => (None, log, done)
            | Some (Exc _) => (Some 1%Z, log, done)
            | Some (Ok None) => (Some 1%Z, log, done)
            | Some (Ok (Some [])) => (Some 0%Z, log, done)
            | Some (Ok (Some rules)) =>
                let (_, done) :=
                  save_rules_to_files py_str fs rules (arg_output args)
                    done in
                (Some 0%Z, log, done)
            end
      end
  end.
End Main.

End Exporter.

(** Every character of [s] passes [p]. *)
Fixpoint forall_chars (p : ascii -> bool) (s : string) : bool :=
  match s with
  | EmptyString => true
  | String c s' => p c && forall_chars p s'
  end.

(** A character a file name may hold: none of the nine, and not
    whitespace. *)
Definition safe_char (c : ascii) : bool :=
  negb (Exporter.forbidden c) && negb (Exporter.is_space c).

(** ** Services the exporter may talk to *)

(** A reply to a probe after which [fetch_rules] paginates. *)
Definition usable (r : Deployer.reply) : bool :=
  match r with
  | Deployer.Response status_code _ => (status_code =? 200)%Z
  | Deployer.TransportFailure _ => false
  end.

(** The probe of an endpoint: the request for page 1. *)
Definition probe (api_token api_url : string) (tags : option (list string))
    (page_size : Z) (endpoint : string) : Deployer.request :=
  Deployer.Request Deployer.POST (api_url +++ endpoint) api_token
    (Exporter.payload tags page_size 1).

(** A response body that reports no more than [T] rules in all: its
    [pagination.total], when it has one, is an integer that is at most
    [T]. *)
Definition reports_at_most (T : Z) (data : json) : Prop :=
  forall pagination total,
    lookup "pagination" data = Some pagination ->
    lookup "total" pagination = Some total ->
    exists t, total = JInt t /\ (t <= T)%Z.

(** Page [k] (from 1) of [rules] in pages of [p] rules, and the
    response body of a service that paginates [rules]. *)
Definition page_of (p : nat) (rules : list json) (k : nat) : list json :=
  firstn p (skipn ((k - 1) * p) rules).

Definition page_response (p : nat) (rules : list json) (k : nat) : json :=
  JDict
    [("results", JList (page_of p rules k));
     ("pagination",
      JDict [("total", JInt (Z.of_nat (List.length rules)))])].

(** The page number a request asks for. *)
Definition page_number_of (r : Deployer.request) : nat :=
  match lookup "pagination" (Deployer.payload r) with
  | Some pagination =>
      match lookup "pageNumber" pagination with
      | Some (JInt k) => Z.to_nat k
      | _ => 0
      end
  | None => 0
  end.

(** A service that answers every request with the page of [rules] it
    asks for. *)
Definition paging_service (p : nat) (rules : list json) : Deployer.remote :=
  fun _ r =>
    Deployer.Response 200 (Some (page_response p rules (page_number_of r))).

Definition three_rules : list json :=
  [JDict [("id", JStr "r-1"); ("title", JStr "First")];
   JDict [("id", JStr "r-2"); ("title", JStr "Second")];
   JDict [("id", JStr "r-3"); ("title", JStr "Third")]].

(** ** The files of an export *)

(** The id part of the file name of the rule at position [idx] (from
    1): [str] of the rule's [id], or of the position when the rule has
    none.  It goes into the name as it is. *)
Definition id_part (py_str : json -> string) (idx : nat) (rule : json)
  : string :=
  py_str match lookup "id" rule with
         | Some rule_id => rule_id
         | None => JInt (Z.of_nat idx)
         end.

(** A dump of the rule at position [first + i] into the file
    [os.path.join(output_dir, name)], where [name] is the id part, an
    underscore, a title part that is a safe file name, and [.json].  The
    name has a character that is not safe (a path separator, say) only
    when the id part has one. *)
Definition rule_dump (py_str : json -> string) (output_dir : string)
    (first : nat) (rules : list json) (op : Exporter.fs_operation) : Prop :=
  exists i rule safe_title,
    rules !! i = Some rule
    /\ op = Exporter.Dump output_dir
              (id_part py_str (first + i) rule +++ "_" +++ safe_title
               +++ ".json")
              rule
    /\ String.length safe_title <= 100
    /\ forall_chars safe_char safe_title = true
    /\ (forall_chars safe_char (id_part py_str (first + i) rule) = true ->
        forall_chars safe_char
          (id_part py_str (first + i) rule +++ "_" +++ safe_title
           +++ ".json")
        = true).

(** A disk on which nothing can be written. *)
Definition read_only_disk : Exporter.disk := fun _ _ => false.

(** A disk on which every operation succeeds. *)
Definition good_disk : Exporter.disk := fun _ _ => true.

Definition export_all : Exporter.arguments :=
  Exporter.Arguments None true "exported-rules" 2 false.

(** ** [validate-rules.py]: files, the report and [main]

    [self.errors] and [self.warnings] hold the findings of
    [validate_security_rule] and those about files, in the order they
    were appended.  A YAML file decodes to a document of the JSON data
    model. *)

Module ValidatorFiles.

Inductive error : Type :=
  | OfRule (finding : string * Validator.error)
  | FileNotFound (file_path : string)
  | JsonSyntaxError (file_path message : string)
  | YamlSyntaxError (file_path message : string)
  | RulesDirectoryNotFound (rules_dir : string).

Inductive warning : Type :=
  | WarningOfRule (finding : string * Validator.warning)
  | NoRuleFiles (rules_dir : string).

Record state : Type := State {
  errors : list error;
  warnings : list warning
}.

(** [LogzioRuleValidator(rules_dir)]: both lists empty. *)
Definition init : state := State [] [].

(** What a method raises: an exception of the rule's validation, or
    the [OSError] of a file that cannot be opened or read. *)
Inductive raised : Type :=
  | OfValidation (e : exn)
  | OSError.

Inductive outcome (A : Type) : Type :=
  | Returns (a : A)
  | Raises (e : raised).
Arguments Returns {A} a.
Arguments Raises {A} e.

Definition F (A : Type) : Type := state -> outcome A * state.

Definition ret {A} (a : A) : F A := fun st => (Returns a, st).

Definition raise {A} (e : raised) : F A := fun st => (Raises e, st).

Definition bind {A B} (m : F A) (k : A -> F B) : F B :=
  fun st =>
    match m st with
    | (Returns a, st') => k a st'
    | (Raises e, st') => (Raises e, st')
    end.

Definition add_error (e : error) : F unit :=
  fun st => (Returns tt, State (errors st ++ [e]) (warnings st)).

Definition add_warning (w : warning) : F unit :=
  fun st => (Returns tt, State (errors st) (warnings st ++ [w])).

(** The findings of [validate_security_rule] among those of the two
    lists. *)
Definition rule_errors (l : list error) : list (string * Validator.error) :=
  flat_map (fun e => match e with OfRule x => [x] | _ => [] end) l.

Definition rule_warnings (l : list warning)
  : list (string * Validator.warning) :=
  flat_map (fun w => match w with WarningOfRule x => [x] | _ => [] end) l.

Definition rule_view (st : state) : Validator.state :=
  Validator.State (rule_errors (errors st)) (rule_warnings (warnings st)).

(** A call of a method that validates a rule: it runs on the two lists,
    in which it sees its own kind of finding, and what it appends is
    appended to them. *)
Definition call {A} (m : Validator.V A) : F A :=
  fun st =>
    let (r, st') := m (rule_view st) in
    (match r with
     | Ok a => Returns a
     | Exc e => Raises (OfValidation e)
     end,
     State
       (errors st
        ++ map OfRule
             (skipn (List.length (Validator.errors (rule_view st)))
                (Validator.errors st')))
       (warnings st
        ++ map WarningOfRule
             (skipn (List.length (Validator.warnings (rule_view st)))
                (Validator.warnings st')))).

(** [file_path.suffix], as [validate_file] tells it apart. *)
Inductive suffix : Type := DotJson | DotYaml | OtherSuffix.

(** What opening and decoding a file gives: an [OSError] (a directory,
    a file that may not be read), the text of the decoder's syntax
    error, or the document. *)
Inductive content : Type :=
  | Unreadable
  | Malformed (message : string)
  | Document (rule : json).

(** A path with what is behind it. *)
Record file : Type := File {
  file_path : string;
  file_exists : bool;
  file_suffix : suffix;
  file_content : content
}.

(** [with open(file_path, 'r') as f: rule = json.load(f)], and the
    same with [yaml.safe_load]; the syntax errors are [ValueError]s. *)
Definition load (f : file) : F json :=
  match file_content f with
  | Unreadable => raise OSError
  | Malformed _ => raise (OfValidation ValueError)
  | Document rule => ret rule
  end.

Definition validate_json_syntax (f : file) : F bool :=
  match file_content f with
  | Unreadable => raise OSError
  | Malformed message =>
      bind (add_error (JsonSyntaxError (file_path f) message))
        (fun _ => ret false)
  | Document _ => ret true
  end.

Definition validate_yaml_syntax (f : file) : F bool :=
  match file_content f with
  | Unreadable => raise OSError
  | Malformed message =>
      bind (add_error (YamlSyntaxError (file_path f) message))
        (fun _ => ret false)
  | Document _ => ret true
  end.

Definition validate_file (f : file) : F bool :=
  if negb (file_exists f) then
    bind (add_error (FileNotFound (file_path f))) (fun _ => ret false)
  else
    match file_suffix f with
    | DotJson =>
        bind (validate_json_syntax f) (fun ok =>
        if negb ok then ret false
        else
          bind (load f) (fun rule =>
          call (Validator.validate_security_rule rule (file_path f))))
    | DotYaml =>
        bind (validate_yaml_syntax f) (fun ok =>
        if negb ok then ret false
        else
          bind (load f) (fun rule =>
          call (Validator.validate_security_rule rule (file_path f))))
    | OtherSuffix => ret true
    end.

(** The two nested loops of [validate_all], over the files its three
    patterns yield, in that order. *)
Fixpoint validate_each (all_valid : bool) (files : list file) : F bool :=
  match files with
  | [] => ret all_valid
  | f :: rest =>
      bind (validate_file f) (fun ok =>
      validate_each (if negb ok then false else all_valid) rest)
  end.

(** [validate_all()]: the directory is [None] when it does not
    exist. *)
Definition validate_all (rules_dir : string) (found : option (list file))
  : F bool :=
  match found with
  | None =>
      bind (add_error (RulesDirectoryNotFound rules_dir))
        (fun _ => ret false)
  | Some files =>
      bind (validate_each true files) (fun all_valid =>
      bind (if Nat.eqb (List.length files) 0
            then add_warning (NoRuleFiles rules_dir)
            else ret tt) (fun _ =>
      ret all_valid))
  end.

(** [print_report()]: its value. *)
Definition print_report : F bool :=
  fun st => (Returns (Nat.eqb (List.length (errors st)) 0), st).

Record arguments : Type := Arguments {
  arg_rules_dir : string;
  arg_file : option string;
  arg_strict : bool
}.

Section Main.
(** The file behind a path, and the rule files under a directory. *)
Variable file_at : string -> file.
Variable files_under : string -> option (list file).

(** [main()]: the exit status; an exception that nothing catches ends
    the process with status 1. *)
(** The branch of [main] on [args.file]: an empty string is false. *)
Definition validation (args : arguments) : F bool :=
  match arg_file args with
  | None | Some EmptyString =>
      validate_all (arg_rules_dir args) (files_under (arg_rules_dir args))
  | Some path => validate_file (file_at path)
  end.

(** [main()]: the exit status; an exception that nothing catches ends
    the process with status 1. *)
Definition main (args : arguments) : Z :=
  let run :=
    bind (validation args) (fun valid =>
    bind print_report (fun success =>
    fun st =>
      let success :=
        if arg_strict args
           && negb (Nat.eqb (List.length (warnings st)) 0)
        then false else success in
      (Returns (if success then 0%Z else 1%Z), st))) in
  match fst (run init) with
  | Returns status => status
  | Raises _ => 1%Z
  end.
End Main.

End ValidatorFiles.

(** [m] only appends to the two lists, and when it returns, it returns
    True exactly when [start] is True and it appended no error. *)
Definition flags (m : ValidatorFiles.F bool) (start : bool) : Prop :=
  forall st,
    exists new_errors new_warnings,
      snd (m st)
      = ValidatorFiles.State
          (ValidatorFiles.errors st ++ new_errors)
          (ValidatorFiles.warnings st ++ new_warnings)
      /\ forall valid,
           fst (m st) = ValidatorFiles.Returns valid ->
           (valid = true <-> start = true /\ new_errors = []).

(** ** Read-only fields, from the cleaners to the validator *)

(** The fields named by the read-only warnings among [new_warnings],
    in the order of the warnings. *)
Definition read_only_warned (new_warnings : list (string * Validator.warning))
  : list string :=
  flat_map
    (fun finding =>
       match snd finding with
       | Validator.ReadOnlyField field => [field]
       | _ => []
       end)
    new_warnings.

(** A run of [m] that returns appended the read-only warnings of
    [expected]; one that raises appended none. *)
Definition warned {A} (m : Validator.V A) (expected : list string) : Prop :=
  run m (fun r _ new_warnings =>
           read_only_warned new_warnings
           = match r with Ok _ => expected | Exc _ => [] end).

(** A response body whose page is a list with a rule in it and whose
    [pagination.total] is a NaN. *)
Definition reports_nan_total (data : json) : Prop :=
  exists entries rule rules pagination,
    data = JDict entries
    /\ dict_get "results" entries = Some (JList (rule :: rules))
    /\ dict_get "pagination" entries = Some (JDict pagination)
    /\ dict_get "total" pagination = Some (JFloat S754_nan).

(** A service that answers every request with one rule and a NaN for
    the total. *)
Definition nan_service : Deployer.remote :=
  fun _ _ =>
    Deployer.Response 200
      (Some (JDict [("results", JList [JDict [("id", JStr "r-1")]]);
                    ("pagination", JDict [("total", JFloat S754_nan)])])).

(** The statement [m] returns [a], whatever the two lists hold, and
    appends no error. *)
Definition proceeds {A} (m : Validator.V A) (a : A) : Prop :=
  forall st,
    exists new_warnings,
      m st
      = (Ok a,
         Validator.State (Validator.errors st)
           (Validator.warnings st ++ new_warnings)).

(** * Properties *)

(** ** Association lists *)

Section DictFacts.
Implicit Types (k : string) (v : json) (d : dict).

Lemma dict_get_del_same k d : dict_get k (dict_del k d) = None.
Proof.
  unfold dict_del.
  induction d as [|[k0 v0] d IH]; simpl; [reflexivity|].
  destruct (String.eqb k k0) eqn:E; simpl; [exact IH|].
  now rewrite E.
Qed.

Lemma dict_get_del_other k k' d :
  String.eqb k' k = false -> dict_get k (dict_del k' d) = dict_get k d.
Proof.
  intros Hne. unfold dict_del.
  induction d as [|[k0 v0] d IH]; simpl; [reflexivity|].
  destruct (String.eqb k' k0) eqn:E; simpl.
  - apply String.eqb_eq in E; subst k0.
    rewrite String.eqb_sym, Hne. exact IH.
  - now rewrite IH.
Qed.

Lemma dict_has_del k k' d :
  dict_has k (dict_del k' d) = dict_has k d && negb (String.eqb k' k).
Proof.
  unfold dict_has. destruct (String.eqb k' k) eqn:E.
  - apply String.eqb_eq in E; subst k'.
    rewrite dict_get_del_same. now rewrite andb_false_r.
  - rewrite dict_get_del_other by exact E. now rewrite andb_true_r.
Qed.

Lemma dict_has_del_same k d : dict_has k (dict_del k d) = false.
Proof. now rewrite dict_has_del, String.eqb_refl, andb_false_r. Qed.

Lemma dict_del_absent k d : dict_has k d = false -> dict_del k d = d.
Proof.
  unfold dict_has, dict_del.
  induction d as [|[k0 v0] d IH]; simpl; [reflexivity|].
  destruct (String.eqb k k0); simpl; [discriminate|].
  intros H. now rewrite IH.
Qed.

Lemma dict_get_set_same k v d : dict_get k (dict_set k v d) = Some v.
Proof.
  induction d as [|[k0 v0] d IH]; simpl.
  - now rewrite String.eqb_refl.
  - destruct (String.eqb k k0) eqn:E; simpl; now rewrite E.
Qed.

Lemma dict_get_set_other k k' v d :
  String.eqb k k' = false -> dict_get k (dict_set k' v d) = dict_get k d.
Proof.
  intros Hne. induction d as [|[k0 v0] d IH]; simpl.
  - now rewrite Hne.
  - destruct (String.eqb k' k0) eqn:E; simpl.
    + apply String.eqb_eq in E; subst k0. now rewrite Hne.
    + now rewrite IH.
Qed.

Lemma dict_has_set_other k k' v d :
  String.eqb k k' = false -> dict_has k (dict_set k' v d) = dict_has k d.
Proof. intros H. unfold dict_has. now rewrite dict_get_set_other. Qed.

(** Writing back the value a key already has changes nothing. *)
Lemma dict_set_same_value k v d :
  dict_get k d = Some v -> dict_set k v d = d.
Proof.
  induction d as [|[k0 v0] d IH]; simpl; [discriminate|].
  destruct (String.eqb k k0) eqn:E.
  - intros [= ->]. reflexivity.
  - intros H. now rewrite IH.
Qed.
End DictFacts.

Section DictDelAll.
Implicit Types (k : string) (d : dict) (keys : list string).

Lemma dict_has_del_all k keys d :
  dict_has k (dict_del_all keys d)
  = dict_has k d && negb (existsb (String.eqb k) keys).
Proof.
  unfold dict_del_all. revert d.
  induction keys as [|k0 keys IH]; intros d; simpl.
  - now rewrite andb_true_r.
  - rewrite IH, dict_has_del, (String.eqb_sym k0 k).
    now rewrite negb_orb, andb_assoc.
Qed.

Lemma dict_del_all_absent keys d :
  (forall k, In k keys -> dict_has k d = false) -> dict_del_all keys d = d.
Proof.
  unfold dict_del_all. revert d.
  induction keys as [|k0 keys IH]; intros d H; simpl; [reflexivity|].
  rewrite dict_del_absent by (apply H; now left).
  apply IH. intros k Hk. apply H. now right.
Qed.

Lemma dict_has_del_all_in k keys d :
  In k keys -> dict_has k (dict_del_all keys d) = false.
Proof.
  intros Hk. rewrite dict_has_del_all.
  assert (existsb (String.eqb k) keys = true) as ->.
  { apply existsb_exists. exists k. split; [exact Hk|apply String.eqb_refl]. }
  now rewrite andb_false_r.
Qed.

Lemma dict_get_del_all_other k keys d :
  existsb (String.eqb k) keys = false ->
  dict_get k (dict_del_all keys d) = dict_get k d.
Proof.
  unfold dict_del_all. revert d.
  induction keys as [|k0 keys IH]; intros d H; simpl in *; [reflexivity|].
  apply orb_false_iff in H as [H0 H1].
  rewrite IH by exact H1.
  apply dict_get_del_other. now rewrite String.eqb_sym.
Qed.

Lemma dict_del_all_idem keys d :
  dict_del_all keys (dict_del_all keys d) = dict_del_all keys d.
Proof.
  apply dict_del_all_absent. intros k Hk. now apply dict_has_del_all_in.
Qed.
End DictDelAll.

(** ** The cleaners on document values *)

Lemma foldM_py_pop (doc : json) (keys : list string) :
  foldM py_pop doc keys
  = match keys with
    | [] => Ok doc
    | _ :: _ =>
        match doc with
        | JDict d => Ok (JDict (dict_del_all keys d))
        | JList _ => Exc TypeError
        | _ => Exc AttributeError
        end
    end.
Proof.
  destruct keys as [|k keys]; [reflexivity|].
  destruct doc; try reflexivity.
  unfold dict_del_all. simpl. generalize (dict_del k entries).
  induction keys as [|k' keys IH]; intros d; simpl; [reflexivity|].
  apply IH.
Qed.

Lemma root_clean_del_all (d : dict) :
  root_clean (JDict (dict_del_all server_owned d)) = true.
Proof.
  unfold root_clean. apply forallb_forall. intros k Hk. cbn [has_key].
  now rewrite dict_has_del_all_in.
Qed.

Lemma root_clean_dict (d : dict) :
  root_clean (JDict d) = true <-> forall k, In k server_owned -> dict_has k d = false.
Proof.
  unfold root_clean. rewrite forallb_forall. cbn [has_key].
  split; intros H k Hk; specialize (H k Hk).
  - now apply negb_true_iff.
  - now apply negb_true_iff.
Qed.

(** The shape of what [clean_rule_json] returns: the root dictionary
    without the read-only keys, and, when [output.recipients] had
    [notificationEndpointIds], with that key deleted there. *)
Lemma clean_rule_json_inv (doc r : json) :
  Deployer.clean_rule_json doc = Ok r ->
  exists d, doc = JDict d /\
    let c := dict_del_all Deployer.readonly_fields d in
    (r = JDict c /\ recipients_clean r = true /\
     Deployer.clean_rule_json r = Ok r)
    \/ (exists o rc,
          dict_get "output" c = Some (JDict o) /\
          dict_get "recipients" o = Some (JDict rc) /\
          dict_has "notificationEndpointIds" rc = true /\
          r = JDict (dict_set "output"
                       (JDict (dict_set "recipients"
                                 (JDict (dict_del "notificationEndpointIds" rc))
                                 o)) c)).
Proof.
  intros H. unfold Deployer.clean_rule_json in H.
  rewrite foldM_py_pop in H.
  destruct doc as [| | | | | |d]; try discriminate H.
  exists d. split; [reflexivity|].
  cbv zeta. cbn [rbind Deployer.readonly_fields] in H.
  set (c := dict_del_all Deployer.readonly_fields d) in *.
  assert (Hidem : foldM py_pop (JDict c) Deployer.readonly_fields = Ok (JDict c)).
  { rewrite foldM_py_pop. unfold c. cbn [Deployer.readonly_fields].
    now rewrite dict_del_all_idem. }
  cbn [py_in rbind] in H. unfold dict_has in H.
  destruct (dict_get "output" c) as [out|] eqn:Eout.
  2:{ injection H as <-. left. split; [reflexivity|]. split.
      - unfold recipients_clean. now rewrite Eout.
      - unfold Deployer.clean_rule_json. rewrite Hidem.
        cbn [rbind py_in]. unfold dict_has. now rewrite Eout. }
  cbn [py_getitem rbind] in H. rewrite Eout in H. cbn [rbind] in H.
  destruct (py_in "recipients" out) as [has_rec|e] eqn:Erec;
    [|discriminate H].
  cbn [rbind] in H.
  destruct has_rec.
  2:{ injection H as <-. left. split; [reflexivity|]. split.
      - unfold recipients_clean. rewrite Eout. destruct out; try reflexivity.
        cbn in Erec. injection Erec as Erec. unfold dict_has in Erec.
        now destruct (dict_get "recipients" entries).
      - unfold Deployer.clean_rule_json. rewrite Hidem.
        cbn [rbind py_in py_getitem]. unfold dict_has. rewrite Eout.
        cbn [rbind]. rewrite Erec. reflexivity. }
  destruct (py_getitem out "recipients") as [rec|e] eqn:Eget;
    [|discriminate H].
  cbn [rbind] in H.
  destruct (py_in "notificationEndpointIds" rec) as [has_ids|e] eqn:Eids;
    [|discriminate H].
  cbn [rbind] in H.
  destruct has_ids.
  2:{ injection H as <-. left. split; [reflexivity|]. split.
      - unfold recipients_clean. rewrite Eout.
        destruct out; try discriminate Eget.
        cbn in Eget. destruct (dict_get "recipients" entries);
          [|discriminate Eget].
        injection Eget as ->.
        destruct rec; try reflexivity.
        cbn in Eids. injection Eids as Eids. cbn. now rewrite Eids.
      - unfold Deployer.clean_rule_json. rewrite Hidem.
        cbn [rbind py_in py_getitem]. unfold dict_has. rewrite Eout.
        cbn [rbind]. rewrite Erec. cbn [rbind]. rewrite Eget.
        cbn [rbind]. rewrite Eids. reflexivity. }
  right.
  destruct out as [| | | | | |o]; try discriminate Eget.
  cbn in Eget. destruct (dict_get "recipients" o) as [rec0|] eqn:Eo;
    [|discriminate Eget].
  injection Eget as ->.
  destruct rec as [| | | | | |rc]; try (cbn in H; discriminate H).
  cbn in Eids. injection Eids as Eids.
  cbn in H. rewrite Eids in H. injection H as <-.
  exists o, rc. repeat split; assumption.
Qed.

Lemma del_if_present_dict (d : dict) (k : string) :
  Cleaner.del_if_present (JDict d) k = Ok (JDict (dict_del k d)).
Proof.
  unfold Cleaner.del_if_present. cbn [py_in rbind py_delitem].
  destruct (dict_has k d) eqn:E; [reflexivity|].
  now rewrite dict_del_absent.
Qed.

Lemma foldM_del_if_present_dict (d : dict) (keys : list string) :
  foldM Cleaner.del_if_present (JDict d) keys
  = Ok (JDict (dict_del_all keys d)).
Proof.
  unfold dict_del_all. revert d.
  induction keys as [|k keys IH]; intros d; [reflexivity|].
  cbn [foldM fold_left]. rewrite del_if_present_dict. cbn [rbind]. apply IH.
Qed.

(** On anything but a dictionary the deletion loop changes nothing, when
    it returns. *)
Lemma foldM_del_if_present_other (x r : json) (keys : list string) :
  isinstance_dict x = false ->
  foldM Cleaner.del_if_present x keys = Ok r -> r = x.
Proof.
  intros Hx. induction keys as [|k keys IH]; cbn [foldM].
  - now intros [= <-].
  - unfold Cleaner.del_if_present at 1.
    destruct x; try discriminate Hx; cbn [py_in rbind]; try discriminate.
    + destruct (substr_in k s); cbn [py_delitem rbind]; [discriminate|].
      exact IH.
    + destruct (existsb (is_str k) items); cbn [py_delitem rbind];
        [discriminate|].
      exact IH.
Qed.

Lemma clean_component_no_id (c c' : json) :
  Cleaner.clean_component c = Ok c' -> has_key "id" c' = false.
Proof.
  unfold Cleaner.clean_component. intros H.
  destruct (isinstance_dict c) eqn:Ec.
  - destruct c; try discriminate Ec.
    rewrite foldM_del_if_present_dict in H. injection H as <-.
    cbn [has_key]. apply dict_has_del_same.
  - apply foldM_del_if_present_other in H; [|exact Ec]. subst c'.
    now destruct c.
Qed.

Lemma mapM_clean_component_no_id (items items' : list json) :
  mapM Cleaner.clean_component items = Ok items' ->
  forallb (fun c => negb (has_key "id" c)) items' = true.
Proof.
  revert items'. induction items as [|c items IH]; intros items'; cbn [mapM].
  - now intros [= <-].
  - destruct (Cleaner.clean_component c) as [c'|e] eqn:Ec;
      cbn [rbind]; [|discriminate].
    destruct (mapM Cleaner.clean_component items) as [cs|e] eqn:Ecs;
      cbn [rbind]; [|discriminate].
    intros [= <-]. cbn [forallb].
    now rewrite (clean_component_no_id _ _ Ec), (IH cs eq_refl).
Qed.

Lemma server_owned_not_components (k : string) :
  In k server_owned -> String.eqb k "subComponents" = false.
Proof.
  cbn [server_owned In].
  intros [<-|[<-|[<-|[<-|[<-|[]]]]]]; reflexivity.
Qed.

Lemma server_owned_not_output (k : string) :
  In k server_owned -> String.eqb k "output" = false.
Proof.
  cbn [server_owned In].
  intros [<-|[<-|[<-|[<-|[<-|[]]]]]]; reflexivity.
Qed.

(** What [clean_rule] returns has no read-only key at the root and no
    [id] in an element of [subComponents]. *)
Lemma clean_rule_scope (doc r : json) :
  Cleaner.clean_rule doc = Ok r ->
  root_clean r = true /\ components_clean r = true.
Proof.
  unfold Cleaner.clean_rule. intros H.
  destruct (isinstance_dict doc) eqn:Edoc.
  - destruct doc as [| | | | | |d]; try discriminate Edoc.
    cbn [py_copy rbind] in H.
    rewrite foldM_del_if_present_dict in H. cbn [rbind] in H.
    change Cleaner.READ_ONLY_FIELDS with server_owned in H.
    set (c := dict_del_all server_owned d) in *.
    cbn [py_in rbind] in H.
    match type of H with
    | rbind ?m _ = _ => destruct m as [u|e]; [|discriminate H]
    end.
    cbn [rbind] in H. unfold dict_has in H.
    destruct (dict_get "subComponents" c) as [components|] eqn:Ecomp.
    2:{ injection H as <-. split; [apply root_clean_del_all|].
        unfold components_clean. fold c. now rewrite Ecomp. }
    cbn [py_getitem rbind] in H. rewrite Ecomp in H. cbn [rbind] in H.
    destruct (py_iter components) as [items|e]; [|discriminate H].
    cbn [rbind] in H.
    destruct (mapM Cleaner.clean_component items) as [items'|e] eqn:Emap;
      [|discriminate H].
    cbn [rbind] in H.
    destruct components; cbn [py_setitem] in H; injection H as <-;
      try (split; [apply root_clean_del_all|];
           unfold components_clean; fold c; now rewrite Ecomp).
    split.
    + apply root_clean_dict. intros k Hk.
      rewrite dict_has_set_other by now apply server_owned_not_components.
      now apply dict_has_del_all_in.
    + unfold components_clean. rewrite dict_get_set_same.
      exact (mapM_clean_component_no_id _ _ Emap).
  - destruct doc as [| | | | |l|]; try discriminate Edoc;
      try discriminate H.
    cbn [py_copy rbind] in H.
    destruct (foldM Cleaner.del_if_present (JList l) Cleaner.READ_ONLY_FIELDS)
      as [x|e] eqn:Ex; [|discriminate H].
    apply foldM_del_if_present_other in Ex; [|reflexivity]. subst x.
    cbn [rbind py_in] in H.
    destruct (existsb (is_str "output") l); [discriminate H|].
    cbn [rbind] in H.
    destruct (existsb (is_str "subComponents") l); [discriminate H|].
    injection H as <-. split; reflexivity.
Qed.

(** C9.  Normalization is idempotent: [clean_rule_json] applied to a
    document it returned returns that document again. *)
Theorem clean_rule_json_idempotent (doc r : json) :
  Deployer.clean_rule_json doc = Ok r ->
  Deployer.clean_rule_json r = Ok r.
Proof.
  intros H. apply clean_rule_json_inv in H as (d & -> & H).
  cbv zeta in H. destruct H as [(_ & _ & H)|(o & rc & Eo & Erc & Eids & ->)];
    [exact H|].
  set (c := dict_del_all Deployer.readonly_fields d) in *.
  unfold Deployer.clean_rule_json.
  rewrite foldM_py_pop. cbn [Deployer.readonly_fields].
  rewrite dict_del_all_absent.
  2:{ intros k Hk.
      rewrite dict_has_set_other by now apply server_owned_not_output.
      now apply dict_has_del_all_in. }
  cbn [rbind py_in py_getitem]. unfold dict_has.
  rewrite !dict_get_set_same. cbn [rbind py_in py_getitem].
  unfold dict_has. rewrite !dict_get_set_same. cbn [rbind py_in].
  now rewrite dict_has_del_same.
Qed.

Lemma clean_rule_json_idempotent_witness :
  exists r,
    Deployer.clean_rule_json sample_rule = Ok r
    /\ Deployer.clean_rule_json r = Ok r.
Proof.
  eexists. split; [reflexivity|].
  apply (clean_rule_json_idempotent sample_rule). reflexivity.
Defined.

(** C1, as stated, fails on both cleaners: the deployer's leaves the [id]
    of a component, the exporter's leaves [notificationEndpointIds]. *)
Lemma normalization_scope_counterexample :
  (exists r, Deployer.clean_rule_json sample_rule = Ok r
             /\ components_clean r = false)
  /\ (exists r, Cleaner.clean_rule sample_rule = Ok r
                /\ recipients_clean r = false).
Proof.
  split; eexists; (split; [reflexivity|]); reflexivity.
Qed.

(** C1, amended.  What [clean_rule_json] returns has none of the five
    read-only keys at the root and no [notificationEndpointIds] under
    [output.recipients]; what [clean_rule] returns has none of the five
    read-only keys at the root and no [id] key in an element of
    [subComponents]. *)
Theorem normalization_scope (doc doc' r r' : json) :
  Deployer.clean_rule_json doc = Ok r ->
  Cleaner.clean_rule doc' = Ok r' ->
  (root_clean r = true /\ recipients_clean r = true)
  /\ (root_clean r' = true /\ components_clean r' = true).
Proof.
  intros H H'. split; [|exact (clean_rule_scope _ _ H')].
  apply clean_rule_json_inv in H as (d & _ & H). cbv zeta in H.
  destruct H as [(-> & Hrec & _)|(o & rc & Eo & Erc & Eids & ->)].
  - split; [apply root_clean_del_all|exact Hrec].
  - split.
    + apply root_clean_dict. intros k Hk.
      rewrite dict_has_set_other by now apply server_owned_not_output.
      now apply dict_has_del_all_in.
    + unfold recipients_clean. rewrite !dict_get_set_same.
      cbn [has_key]. now rewrite dict_has_del_same.
Qed.

Lemma normalization_scope_witness :
  exists r r',
    Deployer.clean_rule_json sample_rule = Ok r
    /\ Cleaner.clean_rule sample_rule = Ok r'
    /\ (root_clean r = true /\ recipients_clean r = true)
    /\ (root_clean r' = true /\ components_clean r' = true).
Proof.
  eexists. eexists. split; [reflexivity|]. split; [reflexivity|].
  apply (normalization_scope sample_rule sample_rule); reflexivity.
Defined.

(** ** The cleaners on the object store *)

Section StoreFrame.
Import Store.
Variable h0 : store.

Local Abbreviation fresh := (fresh_val (List.length h0)).
Local Abbreviation fresh_o := (fresh_obj (List.length h0)).

Lemma extends_refl : extends h0 h0.
Proof. exists []. split; [now rewrite app_nil_r|constructor]. Qed.

Lemma keeps_ret {A} (a : A) (Q : A -> Prop) : Q a -> keeps h0 (ret a) Q.
Proof. intros HQ h Hh. split; [exact Hh|]. now intros ? [= <-]. Qed.

Lemma keeps_raise {A} (e : exn) (Q : A -> Prop) : keeps h0 (raise e) Q.
Proof. intros h Hh. split; [exact Hh|]. discriminate. Qed.

Lemma keeps_bind {A B} (m : S A) (k : A -> S B) (P : A -> Prop)
    (Q : B -> Prop) :
  keeps h0 m P -> (forall a, P a -> keeps h0 (k a) Q) ->
  keeps h0 (bind m k) Q.
Proof.
  intros Hm Hk h Hh. unfold bind.
  destruct (Hm h Hh) as [Hext HP].
  destruct (m h) as [[a|e] h']; cbn [fst snd] in *.
  - exact (Hk a (HP a eq_refl) h' Hext).
  - split; [exact Hext|discriminate].
Qed.

Lemma keeps_weaken {A} (m : S A) (P Q : A -> Prop) :
  keeps h0 m P -> (forall a, P a -> Q a) -> keeps h0 m Q.
Proof.
  intros Hm HPQ h Hh. destruct (Hm h Hh) as [Hext HP].
  split; [exact Hext|]. intros a Ha. exact (HPQ a (HP a Ha)).
Qed.

Lemma keeps_deref (l : loc) :
  keeps h0 (deref l) (fun o => List.length h0 <= l -> fresh_o o).
Proof.
  intros h Hh. unfold deref.
  destruct (h !! l) as [o|] eqn:El; cbn [fst snd].
  2:{ split; [exact Hh|discriminate]. }
  split; [exact Hh|]. intros a [= <-] Hl.
  destruct Hh as (ext & -> & Hext).
  rewrite lookup_app_r in El by exact Hl.
  exact (Forall_lookup_1 _ _ _ _ Hext El).
Qed.

Lemma keeps_alloc (o : obj) : fresh_o o -> keeps h0 (alloc o) fresh.
Proof.
  intros Ho h (ext & -> & Hext). unfold alloc. cbn [fst snd]. split.
  - exists (ext ++ [o]). split; [now rewrite app_assoc|].
    apply Forall_app. split; [exact Hext|]. now constructor.
  - intros a [= <-]. cbn. rewrite length_app. lia.
Qed.

Lemma keeps_assign (l : loc) (o : obj) :
  List.length h0 <= l -> fresh_o o ->
  keeps h0 (assign l o) (fun _ => True).
Proof.
  intros Hl Ho h (ext & -> & Hext). unfold assign. cbn [fst snd].
  split; [|trivial].
  exists (<[l - List.length h0 := o]> ext). split.
  - now apply insert_app_r_alt.
  - now apply Forall_insert.
Qed.

Lemma keeps_forS {A} (body : A -> S unit) (l : list A) :
  (forall a, keeps h0 (body a) (fun _ => True)) ->
  keeps h0 (forS body l) (fun _ => True).
Proof.
  intros Hbody. induction l as [|a l IH]; cbn [forS].
  - now apply keeps_ret.
  - eapply keeps_bind; [apply Hbody|]. intros _ _. exact IH.
Qed.

Lemma keeps_mapS {A B} (f : A -> S B) (Q : B -> Prop) (l : list A) :
  (forall a, keeps h0 (f a) Q) -> keeps h0 (mapS f l) (Forall Q).
Proof.
  intros Hf. induction l as [|a l IH]; cbn [mapS].
  - apply keeps_ret. constructor.
  - eapply keeps_bind; [apply Hf|]. intros b Hb.
    eapply keeps_bind; [exact IH|]. intros bs Hbs.
    apply keeps_ret. now constructor.
Qed.

Lemma fresh_entry_get (k : string) (d : list (string * val)) (v : val) :
  Forall (fun kv => fresh (snd kv)) d -> entry_get k d = Some v -> fresh v.
Proof.
  induction 1 as [|[k0 v0] d Hv _ IH]; cbn [entry_get]; [discriminate|].
  destruct (String.eqb k k0); [|exact IH].
  now intros [= <-].
Qed.

Lemma fresh_entry_del (k : string) (d : list (string * val)) :
  Forall (fun kv => fresh (snd kv)) d ->
  Forall (fun kv => fresh (snd kv)) (entry_del k d).
Proof.
  intros Hd. unfold entry_del. apply List.Forall_forall. intros kv Hkv.
  apply List.filter_In in Hkv as [Hkv _].
  exact (proj1 (List.Forall_forall _ _) Hd kv Hkv).
Qed.

Lemma keeps_s_in (k : string) (x : val) :
  keeps h0 (s_in k x) (fun _ => True).
Proof.
  destruct x; cbn [s_in]; try apply keeps_raise;
    try (now apply keeps_ret).
  eapply keeps_bind; [apply keeps_deref|].
  intros o _. destruct o; now apply keeps_ret.
Qed.

Lemma keeps_s_getitem (x : val) (k : string) :
  fresh x -> keeps h0 (s_getitem x k) fresh.
Proof.
  intros Hx. destruct x; cbn [s_getitem]; try apply keeps_raise.
  eapply keeps_bind; [apply keeps_deref|].
  intros o Ho. specialize (Ho Hx).
  destruct o as [d|]; [|apply keeps_raise].
  destruct (entry_get k d) as [v|] eqn:Ev; [|apply keeps_raise].
  apply keeps_ret. exact (fresh_entry_get _ _ _ Ho Ev).
Qed.

Lemma keeps_s_delitem (x : val) (k : string) :
  fresh x -> keeps h0 (s_delitem x k) (fun _ => True).
Proof.
  intros Hx. destruct x; cbn [s_delitem]; try apply keeps_raise.
  eapply keeps_bind; [apply keeps_deref|].
  intros o Ho. specialize (Ho Hx).
  destruct o as [d|]; [|apply keeps_raise].
  destruct (entry_get k d); [|apply keeps_raise].
  apply keeps_assign; [exact Hx|]. now apply fresh_entry_del.
Qed.

Lemma keeps_s_pop (x : val) (k : string) :
  fresh x -> keeps h0 (s_pop x k) (fun _ => True).
Proof.
  intros Hx. destruct x; cbn [s_pop]; try apply keeps_raise.
  eapply keeps_bind; [apply keeps_deref|].
  intros o Ho. specialize (Ho Hx).
  destruct o as [d|]; [|apply keeps_raise].
  apply keeps_assign; [exact Hx|]. now apply fresh_entry_del.
Qed.

(** A deep copy reads anywhere and writes new objects only. *)
Lemma keeps_deepcopy_to (depth : nat) (x : val) :
  keeps h0 (deepcopy_to depth x) fresh.
Proof.
  revert x. induction depth as [|depth IH]; intros x;
    destruct x; cbn [deepcopy_to];
    try (now apply keeps_ret); try apply keeps_raise.
  eapply keeps_bind; [apply keeps_deref|]. intros o _.
  destruct o as [d|items].
  - eapply keeps_bind.
    + apply (keeps_mapS _ (fun kv => fresh (snd kv))).
      intros [k v]. eapply keeps_bind; [apply IH|].
      intros v' Hv'. now apply keeps_ret.
    + intros d' Hd'. now apply keeps_alloc.
  - eapply keeps_bind; [apply (keeps_mapS _ fresh), IH|].
    intros items' Hitems'. now apply keeps_alloc.
Qed.

Lemma keeps_deepcopy (x : val) : keeps h0 (deepcopy x) fresh.
Proof. intros h Hh. exact (keeps_deepcopy_to (List.length h) x h Hh). Qed.

Lemma keeps_clean_rule_json (rule_data : val) :
  keeps h0 (Store.clean_rule_json rule_data) fresh.
Proof.
  unfold Store.clean_rule_json.
  eapply keeps_bind; [apply keeps_deepcopy|]. intros cleaned Hc.
  eapply keeps_bind.
  { apply keeps_forS. intros k. now apply keeps_s_pop. }
  intros _ _.
  eapply keeps_bind; [apply keeps_s_in|]. intros has_output _.
  eapply keeps_bind with (P := fun _ => True);
    [|intros _ _; now apply keeps_ret].
  destruct has_output; [|now apply keeps_ret].
  eapply keeps_bind; [now apply keeps_s_getitem|]. intros output Ho.
  eapply keeps_bind; [apply keeps_s_in|]. intros has_recipients _.
  destruct has_recipients; [|now apply keeps_ret].
  eapply keeps_bind; [now apply keeps_s_getitem|]. intros recipients Hr.
  eapply keeps_bind; [apply keeps_s_in|]. intros has_ids _.
  destruct has_ids; [|now apply keeps_ret].
  now apply keeps_s_delitem.
Qed.
End StoreFrame.

(** The deployer's cleaner leaves every object of the store as it was:
    [copy.deepcopy] gives it objects of its own to change. *)
Theorem clean_rule_json_preserves_store
    (rule_data : Store.val) (h : Store.store) (l : Store.loc)
    (o : Store.obj) :
  h !! l = Some o ->
  snd (Store.clean_rule_json rule_data h) !! l = Some o.
Proof.
  intros Hl.
  destruct (keeps_clean_rule_json h rule_data h (extends_refl h))
    as [(ext & -> & _) _].
  now apply lookup_app_l_Some.
Qed.

(** ** The validator *)

Section ValidatorRules.
Import Validator.
Local Open Scope validator_scope.

Lemma run_ret {A} (a : A) P : P (Ok a) [] [] -> run (ret a) P.
Proof.
  intros HP st. exists [], []. cbn. rewrite !app_nil_r.
  split; [now destruct st|exact HP].
Qed.

Lemma run_lift {A} (r : res A) P : P r [] [] -> run (lift r) P.
Proof.
  intros HP st. exists [], []. cbn. rewrite !app_nil_r.
  split; [now destruct st|exact HP].
Qed.

Lemma run_add_error file_path e P :
  P (Ok tt) [(file_path, e)] [] -> run (add_error file_path e) P.
Proof.
  intros HP st. exists [(file_path, e)], []. cbn. rewrite app_nil_r.
  split; [reflexivity|exact HP].
Qed.

Lemma run_add_warning file_path w P :
  P (Ok tt) [] [(file_path, w)] -> run (add_warning file_path w) P.
Proof.
  intros HP st. exists [], [(file_path, w)]. cbn. rewrite app_nil_r.
  split; [reflexivity|exact HP].
Qed.

Lemma run_bind {A B} (m : V A) (k : A -> V B) P Q :
  run m P ->
  (forall a ne nw, P (Ok a) ne nw ->
     run (k a) (fun r ne' nw' => Q r (ne ++ ne') (nw ++ nw'))) ->
  (forall e ne nw, P (Exc e) ne nw -> Q (Exc e) ne nw) ->
  run (bind m k) Q.
Proof.
  intros Hm Hk He st. unfold bind.
  destruct (Hm st) as (ne & nw & Hst & HP).
  destruct (m st) as [[a|e] st1]; cbn [fst snd] in *; subst st1.
  - destruct (Hk a ne nw HP (State (errors st ++ ne) (warnings st ++ nw)))
      as (ne' & nw' & Hst' & HQ).
    exists (ne ++ ne'), (nw ++ nw'). cbn [errors warnings] in Hst'.
    rewrite !app_assoc. split; [exact Hst'|exact HQ].
  - exists ne, nw. split; [reflexivity|exact (He e ne nw HP)].
Qed.

Lemma run_weaken {A} (m : V A) (P Q : _ -> _ -> _ -> Prop) :
  run m P -> (forall r ne nw, P r ne nw -> Q r ne nw) -> run m Q.
Proof.
  intros Hm HPQ st. destruct (Hm st) as (ne & nw & Hst & HP).
  exists ne, nw. split; [exact Hst|exact (HPQ _ _ _ HP)].
Qed.

(** *** Steps that keep the flag *)

Lemma checks_ret valid : checks (ret valid) valid true.
Proof.
  apply run_ret. intros b [= <-]. now rewrite andb_true_r.
Qed.

Lemma checks_reject file_path e valid :
  checks (reject file_path e) valid false.
Proof.
  intros st. exists [(file_path, e)], []. cbn. rewrite app_nil_r.
  split; [reflexivity|]. intros b [= <-]. now rewrite andb_false_r.
Qed.

Lemma checks_bind (m : V bool) (k : bool -> V bool) valid p q :
  checks m valid p -> (forall valid', checks (k valid') valid' q) ->
  checks (bind m k) valid (p && q).
Proof.
  intros Hm Hk. eapply run_bind; [exact Hm| |].
  - cbv beta. intros a ne nw Ha.
    destruct (Ha a eq_refl) as [-> Hp].
    eapply run_weaken; [apply Hk|]. cbv beta.
    intros r ne' nw' Hr b ->. destruct (Hr b eq_refl) as [-> Hq].
    split; [now rewrite andb_assoc|].
    rewrite <- Hp, <- Hq. now destruct ne.
  - cbv beta. intros e ne nw _ b [=].
Qed.

(** A step whose first statement is an expression that may raise. *)
Lemma checks_lift {A} (r : res A) (k : A -> V bool) valid p :
  (forall a, r = Ok a -> checks (k a) valid p) ->
  checks (bind (lift r) k) valid p.
Proof.
  intros Hk. eapply run_bind with (P := fun r' ne nw =>
                                           r' = r /\ ne = [] /\ nw = []).
  - apply run_lift. now repeat split.
  - cbv beta. intros a ne nw (Ha & -> & ->). exact (Hk a (eq_sym Ha)).
  - cbv beta. intros e ne nw _ b [=].
Qed.

(** A step that first appends a warning. *)
Lemma checks_warning file_path w (k : V bool) valid p :
  checks k valid p ->
  checks (bind (add_warning file_path w) (fun _ => k)) valid p.
Proof.
  intros Hk. eapply run_bind with (P := fun _ ne _ => ne = []).
  - now apply run_add_warning.
  - cbv beta. intros a ne nw ->. exact Hk.
  - cbv beta. intros e ne nw _ b [=].
Qed.

Lemma checks_ret_bind {A} (a : A) (k : A -> V bool) valid p :
  checks (k a) valid p -> checks (bind (ret a) k) valid p.
Proof.
  intros Hk st. unfold bind, ret. exact (Hk st).
Qed.

(** [if not self.validate_...(...): valid = False] *)
Lemma checks_call (m : V bool) valid p :
  checks m true p ->
  checks (bind m (fun ok => if negb ok then ret false else ret valid))
    valid p.
Proof.
  intros Hm. eapply run_bind; [exact Hm| |].
  - cbv beta. intros a ne nw Ha. destruct (Ha a eq_refl) as [-> Hp].
    cbn [andb]. destruct p; cbn [negb]; apply run_ret;
      rewrite app_nil_r; intros b [= <-]; split; try exact Hp.
    + now rewrite andb_true_r.
    + now rewrite andb_false_r.
  - cbv beta. intros e ne nw _ b [=].
Qed.

Lemma checks_eq (m : V bool) valid p p' :
  checks m valid p -> p = p' -> checks m valid p'.
Proof. now intros H <-. Qed.

Lemma checks_forV {A} (body : bool -> A -> V bool) (q : A -> bool)
    (l : list A) valid :
  (forall valid' a, checks (body valid' a) valid' (q a)) ->
  checks (forV body valid l) valid (forallb q l).
Proof.
  intros Hbody. revert valid.
  induction l as [|a l IH]; intros valid; cbn [forV forallb].
  - apply checks_ret.
  - apply checks_bind; [apply Hbody|exact IH].
Qed.

Lemma checks_forV_enumerate {A} (body : bool -> nat -> A -> V bool)
    (q : A -> bool) (l : list A) idx valid :
  (forall valid' i a, checks (body valid' i a) valid' (q a)) ->
  checks (forV_enumerate body idx valid l) valid (forallb q l).
Proof.
  intros Hbody. revert idx valid.
  induction l as [|a l IH]; intros idx valid;
    cbn [forV_enumerate forallb].
  - apply checks_ret.
  - apply checks_bind; [apply Hbody|apply IH].
Qed.

(** *** The expressions, on a mapping or not *)

Lemma py_in_false_lookup k x : py_in k x = Ok false -> lookup k x = None.
Proof.
  destruct x; cbn; try discriminate; try reflexivity.
  unfold dict_has. now destruct (dict_get k entries).
Qed.

Lemma py_getitem_lookup x k v : py_getitem x k = Ok v -> lookup k x = Some v.
Proof.
  destruct x; cbn; try discriminate.
  now destruct (dict_get k entries); [intros [= ->]|].
Qed.
End ValidatorRules.

Section ValidatorChecks.
Import Validator.
Local Open Scope validator_scope.

Lemma checks_bind_ret (m : V bool) valid p :
  checks m valid p -> checks (bind m (fun valid' => ret valid')) valid p.
Proof.
  intros Hm. eapply checks_eq.
  - apply checks_bind; [exact Hm|]. intros valid'. apply checks_ret.
  - apply andb_true_r.
Qed.

(** [if not check(v): reject] *)
Lemma checks_test (c : bool) file_path e valid :
  checks (if negb c then reject file_path e else ret valid) valid c.
Proof. destruct c; [apply checks_ret|apply checks_reject]. Qed.

(** An optional field: [if k in x: if not check(x[k]): reject]. *)
Lemma checks_optional k x (check : json -> bool) file_path
    (e : json -> error) valid (has : bool) :
  py_in k x = Ok has ->
  checks (if has then
            v <- lift (py_getitem x k) ;;
            if negb (check v) then reject file_path (e v) else ret valid
          else ret valid)
    valid (optional k x check).
Proof.
  intros Hin. unfold optional. destruct has.
  - apply checks_lift. intros v Hv.
    rewrite (py_getitem_lookup _ _ _ Hv). apply checks_test.
  - rewrite (py_in_false_lookup _ _ Hin). apply checks_ret.
Qed.

Lemma validate_correlations_checks correlations file_path :
  checks (validate_correlations correlations file_path) true
    (correlations_valid correlations).
Proof.
  unfold validate_correlations, correlations_valid. cbv zeta.
  apply checks_lift. intros has_operators Hops.
  apply checks_bind.
  - unfold optional. destruct has_operators.
    + apply checks_lift. intros operators Hget.
      rewrite (py_getitem_lookup _ _ _ Hget).
      destruct operators; try apply checks_reject.
      cbn [isinstance_list negb py_iter]. apply checks_lift.
      intros ops [= <-]. cbn [correlation_operators_valid].
      apply checks_forV. intros valid' op. apply checks_test.
    + rewrite (py_in_false_lookup _ _ Hops). apply checks_ret.
  - intros valid. apply checks_lift. intros has_joins Hjoins.
    apply checks_bind_ret. now apply checks_optional.
Qed.

Lemma check_tier_checks component file_path valid tier :
  checks (check_tier component file_path valid tier) valid
    (tier_valid tier).
Proof.
  destruct tier as [severity threshold]. unfold check_tier, tier_valid.
  cbn [fst snd]. apply checks_bind; [apply checks_test|].
  intros valid'. apply checks_bind_ret. apply checks_test.
Qed.

Lemma validate_trigger_checks trigger component file_path :
  checks (validate_trigger trigger component file_path) true
    (trigger_valid trigger).
Proof.
  unfold validate_trigger, trigger_valid, required. cbv zeta.
  apply checks_lift. intros has_operator Hop.
  apply checks_bind.
  - destruct has_operator; cbn [negb].
    + apply checks_lift. intros operator Hget.
      rewrite (py_getitem_lookup _ _ _ Hget). apply checks_test.
    + rewrite (py_in_false_lookup _ _ Hop). apply checks_reject.
  - intros valid. apply checks_lift. intros has_tiers Htiers.
    apply checks_bind_ret. destruct has_tiers; cbn [negb].
    + apply checks_lift. intros tiers Hget.
      rewrite (py_getitem_lookup _ _ _ Hget).
      destruct tiers; try apply checks_reject.
      cbn [isinstance_dict negb py_items]. apply checks_lift.
      intros items [= <-]. cbn [tiers_valid].
      apply checks_forV. intros valid' tier. apply check_tier_checks.
    + rewrite (py_in_false_lookup _ _ Htiers). apply checks_reject.
Qed.

Lemma validate_query_definition_checks query_def component file_path :
  checks (validate_query_definition query_def component file_path) true
    (query_definition_valid query_def).
Proof.
  unfold validate_query_definition, query_definition_valid. cbv zeta.
  apply checks_lift. intros has_query Hq.
  apply checks_bind.
  - unfold required. destruct has_query; cbn [negb].
    + apply checks_lift. intros query Hget.
      rewrite (py_getitem_lookup _ _ _ Hget).
      destruct (truthy query); cbn [negb];
        [apply checks_ret|apply checks_warning, checks_ret].
    + rewrite (py_in_false_lookup _ _ Hq). apply checks_reject.
  - intros valid. apply checks_lift. intros has_aggregation Hagg.
    apply checks_bind.
    + unfold optional at 1. destruct has_aggregation.
      * apply checks_lift. intros agg Hget.
        rewrite (py_getitem_lookup _ _ _ Hget).
        apply checks_lift. intros has_type Htype.
        unfold aggregation_valid. now apply checks_optional.
      * rewrite (py_in_false_lookup _ _ Hagg). apply checks_ret.
    + intros valid'. apply checks_lift. intros has_filters Hf.
      apply checks_bind; [now apply checks_optional|].
      intros valid''. apply checks_lift. intros has_group_by Hg.
      apply checks_bind_ret. now apply checks_optional.
Qed.

Lemma validate_subcomponent_checks component idx file_path :
  checks (validate_subcomponent component idx file_path) true
    (subcomponent_valid component).
Proof.
  unfold validate_subcomponent, subcomponent_valid, required. cbv zeta.
  apply checks_lift. intros has_query_def Hq.
  apply checks_bind.
  - destruct has_query_def; cbn [negb].
    + apply checks_lift. intros query_def Hget.
      rewrite (py_getitem_lookup _ _ _ Hget).
      apply checks_call, validate_query_definition_checks.
    + rewrite (py_in_false_lookup _ _ Hq). apply checks_reject.
  - intros valid. apply checks_lift. intros has_trigger Ht.
    apply checks_bind_ret. destruct has_trigger; cbn [negb].
    + apply checks_lift. intros trigger Hget.
      rewrite (py_getitem_lookup _ _ _ Hget).
      apply checks_call, validate_trigger_checks.
    + rewrite (py_in_false_lookup _ _ Ht). apply checks_reject.
Qed.
Lemma quiet_ret {A} (a : A) : quiet (ret a).
Proof. now apply run_ret. Qed.

Lemma quiet_lift {A} (r : res A) : quiet (lift r).
Proof. now apply run_lift. Qed.

Lemma quiet_warning file_path w : quiet (add_warning file_path w).
Proof. now apply run_add_warning. Qed.

Lemma quiet_bind {A B} (m : V A) (k : A -> V B) :
  quiet m -> (forall a, quiet (k a)) -> quiet (bind m k).
Proof.
  intros Hm Hk. eapply run_bind; [exact Hm| |].
  - cbv beta. intros a ne nw Ha. rewrite (Ha a eq_refl).
    eapply run_weaken; [apply Hk|]. cbv beta. intros r ne' nw' H. exact H.
  - cbv beta. intros e ne nw _ a [=].
Qed.

Lemma quiet_forV {A} (body : bool -> A -> V bool) valid (l : list A) :
  (forall valid' a, quiet (body valid' a)) -> quiet (forV body valid l).
Proof.
  intros Hbody. revert valid.
  induction l as [|a l IH]; intros valid; cbn [forV].
  - apply quiet_ret.
  - apply quiet_bind; [apply Hbody|exact IH].
Qed.

Lemma checks_quiet {A} (m : V A) (k : A -> V bool) valid p :
  quiet m -> (forall a, checks (k a) valid p) -> checks (bind m k) valid p.
Proof.
  intros Hm Hk. eapply run_bind; [exact Hm| |].
  - cbv beta. intros a ne nw Ha. rewrite (Ha a eq_refl). apply Hk.
  - cbv beta. intros e ne nw _ b [=].
Qed.

Lemma quiet_if_warning (c : bool) file_path w :
  quiet (if c then add_warning file_path w else ret tt).
Proof. destruct c; [apply quiet_warning|apply quiet_ret]. Qed.

Lemma forallb_const_true {A} (l : list A) :
  forallb (fun _ => true) l = true.
Proof. now induction l. Qed.

Lemma validate_output_checks output file_path :
  checks (validate_output output file_path) true (output_valid output).
Proof.
  unfold validate_output, output_valid. cbv zeta.
  apply checks_lift. intros has_recipients Hrec.
  destruct has_recipients; cbn [negb].
  2:{ rewrite (py_in_false_lookup _ _ Hrec).
      apply checks_warning, checks_ret. }
  apply checks_lift. intros recipients Hget.
  rewrite (py_getitem_lookup _ _ _ Hget).
  apply checks_lift. intros has_emails _.
  apply checks_lift. intros has_endpoints _.
  apply checks_quiet; [apply quiet_if_warning|]. intros _.
  apply checks_lift. intros emails_present Hemails.
  apply checks_bind.
  - unfold optional. destruct emails_present.
    + apply checks_lift. intros emails Hemails_get.
      rewrite (py_getitem_lookup _ _ _ Hemails_get).
      destruct emails; try apply checks_reject.
      cbn [isinstance_list negb py_iter]. apply checks_lift.
      intros items' [= <-].
      eapply checks_eq; [|apply (forallb_const_true items)].
      apply checks_forV. intros valid' email.
      apply checks_lift. intros has_at _.
      apply checks_quiet; [apply quiet_if_warning|]. intros _.
      apply checks_ret.
    + rewrite (py_in_false_lookup _ _ Hemails). apply checks_ret.
  - intros valid. apply checks_lift. intros suppress_present Hs.
    apply checks_bind_ret. unfold optional. destruct suppress_present.
    + apply checks_lift. intros suppress Hs_get.
      rewrite (py_getitem_lookup _ _ _ Hs_get). apply checks_test.
    + rewrite (py_in_false_lookup _ _ Hs).
      apply checks_warning, checks_ret.
Qed.

Lemma validate_security_rule_checks (d : dict) file_path :
  checks (validate_security_rule (JDict d) file_path) true
    (checks_pass (JDict d)).
Proof.
  unfold validate_security_rule, checks_pass. cbv zeta.
  set (rule := JDict d).
  apply checks_bind.
  { apply checks_forV. intros valid' field.
    apply checks_lift. intros present [= <-]. apply checks_test. }
  intros valid0. apply checks_lift. intros has_title Htitle.
  apply checks_bind.
  { unfold optional. destruct has_title.
    - apply checks_lift. intros title Hget.
      rewrite (py_getitem_lookup _ _ _ Hget).
      rewrite <- negb_andb. apply checks_test.
    - rewrite (py_in_false_lookup _ _ Htitle). apply checks_ret. }
  intros valid1. apply checks_lift. intros has_enabled Henabled.
  apply checks_bind; [now apply checks_optional|].
  intros valid2. apply checks_lift. intros has_time_frame Htf.
  apply checks_bind.
  { unfold optional. destruct has_time_frame.
    - apply checks_lift. intros time_frame Hget.
      rewrite (py_getitem_lookup _ _ _ Hget). unfold time_frame_passes.
      destruct (isinstance_number time_frame); cbn [negb andb];
        [|apply checks_reject].
      apply checks_lift. intros not_positive ->.
      destruct not_positive; [apply checks_reject|apply checks_ret].
    - rewrite (py_in_false_lookup _ _ Htf). apply checks_ret. }
  intros valid3. apply checks_lift. intros has_output Hout.
  apply checks_bind.
  { unfold optional. destruct has_output.
    - apply checks_lift. intros output Hget.
      rewrite (py_getitem_lookup _ _ _ Hget).
      apply checks_call, validate_output_checks.
    - rewrite (py_in_false_lookup _ _ Hout).
      apply checks_warning, checks_ret. }
  intros valid4. apply checks_lift. intros has_components Hcomp.
  apply checks_bind.
  { unfold optional. destruct has_components.
    - apply checks_lift. intros components Hget.
      rewrite (py_getitem_lookup _ _ _ Hget).
      destruct components; try apply checks_reject.
      cbn [isinstance_list negb py_len py_iter].
      apply checks_lift. intros n [= <-].
      destruct items as [|component items]; [apply checks_reject|].
      cbn [List.length Nat.eqb]. apply checks_lift. intros items' [= <-].
      cbn [subcomponents_valid].
      apply checks_forV_enumerate. intros valid' i c.
      apply checks_call, validate_subcomponent_checks.
    - rewrite (py_in_false_lookup _ _ Hcomp). apply checks_ret. }
  intros valid5. apply checks_lift. intros has_correlations Hcor.
  apply checks_bind.
  { unfold optional. destruct has_correlations.
    - apply checks_lift. intros correlations Hget.
      rewrite (py_getitem_lookup _ _ _ Hget).
      apply checks_call, validate_correlations_checks.
    - rewrite (py_in_false_lookup _ _ Hcor). apply checks_ret. }
  intros valid6. apply checks_lift. intros has_tags Htags.
  eapply checks_eq; [|apply andb_true_r].
  apply checks_bind; [now apply checks_optional|].
  intros valid7.
  apply checks_lift. intros no_description _.
  apply checks_quiet; [apply quiet_if_warning|]. intros _.
  apply checks_lift. intros no_tags _.
  apply checks_quiet; [apply quiet_if_warning|]. intros _.
  apply checks_quiet; [|intros _; apply checks_ret].
  apply quiet_forV. intros valid' field.
  apply quiet_bind; [apply quiet_lift|]. intros present.
  apply quiet_bind; [apply quiet_if_warning|]. intros _.
  apply quiet_ret.
Qed.
End ValidatorChecks.

Section ValidatorStateless.
Import Validator.
Local Open Scope validator_scope.

Lemma stateless_ret {A} (a : A) : stateless (ret a).
Proof. now intros st st'. Qed.

Lemma stateless_lift {A} (r : res A) : stateless (lift r).
Proof. now intros st st'. Qed.

Lemma stateless_add_warning file_path w : stateless (add_warning file_path w).
Proof. now intros st st'. Qed.

Lemma stateless_reject file_path e : stateless (reject file_path e).
Proof. now intros st st'. Qed.

Lemma stateless_bind {A B} (m : V A) (k : A -> V B) :
  stateless m -> (forall a, stateless (k a)) -> stateless (bind m k).
Proof.
  intros Hm Hk st st'. unfold bind. specialize (Hm st st').
  destruct (m st) as [[a|e] st1], (m st') as [[a'|e'] st1'];
    cbn [fst] in *; try discriminate Hm.
  - injection Hm as <-. apply Hk.
  - now injection Hm as <-.
Qed.

Lemma stateless_forV {A} (body : bool -> A -> V bool) valid l :
  (forall valid' a, stateless (body valid' a)) ->
  stateless (forV body valid l).
Proof.
  intros Hbody. revert valid.
  induction l as [|a l IH]; intros valid; cbn [forV].
  - apply stateless_ret.
  - apply stateless_bind; [apply Hbody|exact IH].
Qed.

Lemma stateless_forV_enumerate {A} (body : bool -> nat -> A -> V bool)
    idx valid l :
  (forall valid' i a, stateless (body valid' i a)) ->
  stateless (forV_enumerate body idx valid l).
Proof.
  intros Hbody. revert idx valid.
  induction l as [|a l IH]; intros idx valid; cbn [forV_enumerate].
  - apply stateless_ret.
  - apply stateless_bind; [apply Hbody|apply IH].
Qed.

Ltac stateless_step :=
  first
    [ apply stateless_ret
    | apply stateless_lift
    | apply stateless_add_warning
    | apply stateless_reject
    | apply stateless_forV; intros ? ?
    | apply stateless_forV_enumerate; intros ? ? ?
    | match goal with
      | |- stateless (if ?c then _ else _) => destruct c
      | |- stateless (match ?x with _ => _ end) => destruct x
      end
    | apply stateless_bind; [|intros ?] ].

(** What a validation returns, or that it raises, is the same whatever
    errors and warnings were collected before. *)
Lemma validate_security_rule_stateless rule file_path :
  stateless (validate_security_rule rule file_path).
Proof.
  unfold validate_security_rule, validate_output, validate_subcomponent,
    validate_query_definition, validate_trigger, check_tier,
    validate_correlations.
  repeat stateless_step.
Qed.
End ValidatorStateless.

(** C8 fails on the code.  The validator lets pass what is not
    schema-valid: with [true] or a NaN for [searchTimeFrameMinutes],
    where a positive number is required, it returns [True] and records
    no error.  And on a document with no subcomponent and a number
    among its [emails] it records no error either: it raises before it
    gets to [subComponents].  On the sample rule, and on the same
    document with the time frame 5, the validator and the
    specification agree. *)
Theorem validate_security_rule_passes_invalid :
  let validate rule :=
    Validator.validate_security_rule rule "rule.json" Validator.init in
  (spec_schema_valid (rule_with_time_frame (JBool true)) = false
   /\ fst (validate (rule_with_time_frame (JBool true))) = Ok true
   /\ Validator.errors (snd (validate (rule_with_time_frame (JBool true))))
      = [])
  /\ (spec_schema_valid (rule_with_time_frame (JFloat S754_nan)) = false
      /\ fst (validate (rule_with_time_frame (JFloat S754_nan))) = Ok true
      /\ Validator.errors
           (snd (validate (rule_with_time_frame (JFloat S754_nan))))
         = [])
  /\ (spec_schema_valid rule_without_components = false
      /\ fst (validate rule_without_components) = Exc TypeError
      /\ Validator.errors (snd (validate rule_without_components)) = [])
  /\ (spec_schema_valid (rule_with_time_frame (JInt 5)) = true
      /\ fst (validate (rule_with_time_frame (JInt 5))) = Ok true
      /\ spec_schema_valid sample_rule = true
      /\ fst (validate sample_rule) = Ok true).
Proof.
  cbv zeta.
  split; [|split; [|split]]; repeat split; vm_compute; reflexivity.
Qed.

(** ** The two checks of [searchTimeFrameMinutes] *)

Section TimeFrame.
Import Validator.
Local Open Scope validator_scope.

Lemma time_frame_errors_app l l' :
  time_frame_errors (l ++ l') = time_frame_errors l ++ time_frame_errors l'.
Proof. apply List.filter_app. Qed.

Lemma no_time_frame_ret {A} (a : A) : no_time_frame (ret a).
Proof. now apply run_ret. Qed.

Lemma no_time_frame_lift {A} (r : res A) : no_time_frame (lift r).
Proof. now apply run_lift. Qed.

Lemma no_time_frame_warning file_path w :
  no_time_frame (add_warning file_path w).
Proof. now apply run_add_warning. Qed.

Lemma no_time_frame_bind {A B} (m : V A) (k : A -> V B) :
  no_time_frame m -> (forall a, no_time_frame (k a)) ->
  no_time_frame (bind m k).
Proof.
  intros Hm Hk. eapply run_bind; [exact Hm| |]; cbv beta.
  - intros a ne nw Hne. eapply run_weaken; [apply Hk|]. cbv beta.
    intros r ne' nw' Hne'. now rewrite time_frame_errors_app, Hne, Hne'.
  - intros e ne nw Hne. exact Hne.
Qed.

Lemma no_time_frame_reject file_path e :
  is_time_frame_error e = false -> no_time_frame (reject file_path e).
Proof.
  intros He st. exists [(file_path, e)], []. cbn. rewrite app_nil_r.
  split; [reflexivity|]. now rewrite He.
Qed.

Lemma no_time_frame_forV {A} (body : bool -> A -> V bool) valid l :
  (forall valid' a, no_time_frame (body valid' a)) ->
  no_time_frame (forV body valid l).
Proof.
  intros Hbody. revert valid.
  induction l as [|a l IH]; intros valid; cbn [forV].
  - apply no_time_frame_ret.
  - apply no_time_frame_bind; [apply Hbody|exact IH].
Qed.

Lemma no_time_frame_forV_enumerate {A} (body : bool -> nat -> A -> V bool)
    idx valid l :
  (forall valid' i a, no_time_frame (body valid' i a)) ->
  no_time_frame (forV_enumerate body idx valid l).
Proof.
  intros Hbody. revert idx valid.
  induction l as [|a l IH]; intros idx valid; cbn [forV_enumerate].
  - apply no_time_frame_ret.
  - apply no_time_frame_bind; [apply Hbody|apply IH].
Qed.

Ltac no_time_frame_step :=
  first
    [ apply no_time_frame_ret
    | apply no_time_frame_lift
    | apply no_time_frame_warning
    | apply no_time_frame_reject; reflexivity
    | apply no_time_frame_forV; intros ? ?
    | apply no_time_frame_forV_enumerate; intros ? ? ?
    | match goal with
      | |- no_time_frame (if ?c then _ else _) => destruct c
      | |- no_time_frame (match ?x with _ => _ end) => destruct x
      end
    | apply no_time_frame_bind; [|intros ?] ].

Lemma validate_output_no_time_frame output file_path :
  no_time_frame (validate_output output file_path).
Proof. unfold validate_output. repeat no_time_frame_step. Qed.

Lemma validate_correlations_no_time_frame correlations file_path :
  no_time_frame (validate_correlations correlations file_path).
Proof. unfold validate_correlations. repeat no_time_frame_step. Qed.

Lemma validate_query_definition_no_time_frame query_def idx file_path :
  no_time_frame (validate_query_definition query_def idx file_path).
Proof. unfold validate_query_definition. repeat no_time_frame_step. Qed.

Lemma validate_trigger_no_time_frame trigger idx file_path :
  no_time_frame (validate_trigger trigger idx file_path).
Proof.
  unfold validate_trigger, check_tier. repeat no_time_frame_step.
Qed.

Lemma validate_subcomponent_no_time_frame component idx file_path :
  no_time_frame (validate_subcomponent component idx file_path).
Proof.
  unfold validate_subcomponent.
  repeat first
    [ apply validate_query_definition_no_time_frame
    | apply validate_trigger_no_time_frame
    | no_time_frame_step ].
Qed.
(** Statements around the one that may append a time-frame error. *)
Lemma time_frame_bind_left {A B} (m : V A) (k : A -> V B)
    (Q : list (string * error) -> Prop) :
  no_time_frame m -> Q [] ->
  (forall a, run (k a) (fun _ ne _ => Q (time_frame_errors ne))) ->
  run (bind m k) (fun _ ne _ => Q (time_frame_errors ne)).
Proof.
  intros Hm HQ Hk. eapply run_bind; [exact Hm| |]; cbv beta.
  - intros a ne nw Hne. eapply run_weaken; [apply Hk|]. cbv beta.
    intros r ne' nw' H. now rewrite time_frame_errors_app, Hne.
  - intros e ne nw ->. exact HQ.
Qed.

Lemma time_frame_bind_passes {A B} (m : V A) (k : A -> V B)
    (Q : list (string * error) -> Prop) :
  passes m ->
  (forall a, run (k a) (fun _ ne _ => Q (time_frame_errors ne))) ->
  run (bind m k) (fun _ ne _ => Q (time_frame_errors ne)).
Proof.
  intros Hm Hk. eapply run_bind; [exact Hm| |]; cbv beta.
  - intros a ne nw [_ Hne]. eapply run_weaken; [apply Hk|]. cbv beta.
    intros r ne' nw' H. now rewrite time_frame_errors_app, Hne.
  - intros e ne nw [[a [=]] _].
Qed.

Lemma time_frame_bind_right {A B} (m : V A) (k : A -> V B)
    (Q : list (string * error) -> Prop) :
  run m (fun _ ne _ => Q (time_frame_errors ne)) ->
  (forall a, no_time_frame (k a)) ->
  run (bind m k) (fun _ ne _ => Q (time_frame_errors ne)).
Proof.
  intros Hm Hk. eapply run_bind; [exact Hm| |]; cbv beta.
  - intros a ne nw HQ. eapply run_weaken; [apply Hk|]. cbv beta.
    intros r ne' nw' Hne'.
    now rewrite time_frame_errors_app, Hne', app_nil_r.
  - intros e ne nw HQ. exact HQ.
Qed.

Lemma passes_ret {A} (a : A) : passes (ret a).
Proof. apply run_ret. split; [now exists a|reflexivity]. Qed.

Lemma passes_reject file_path e :
  is_time_frame_error e = false -> passes (reject file_path e).
Proof.
  intros He st. exists [(file_path, e)], []. cbn. rewrite app_nil_r.
  split; [reflexivity|]. rewrite He. split; [now exists false|reflexivity].
Qed.

Lemma passes_bind {A B} (m : V A) (k : A -> V B) :
  passes m -> (forall a, passes (k a)) -> passes (bind m k).
Proof.
  intros Hm Hk. eapply run_bind; [exact Hm| |]; cbv beta.
  - intros a ne nw [_ Hne]. eapply run_weaken; [apply Hk|]. cbv beta.
    intros r ne' nw' [Hr Hne']. split; [exact Hr|].
    now rewrite time_frame_errors_app, Hne, Hne'.
  - intros e ne nw [[a [=]] _].
Qed.

Lemma passes_forV {A} (body : bool -> A -> V bool) valid l :
  (forall valid' a, passes (body valid' a)) -> passes (forV body valid l).
Proof.
  intros Hbody. revert valid.
  induction l as [|a l IH]; intros valid; cbn [forV].
  - apply passes_ret.
  - apply passes_bind; [apply Hbody|exact IH].
Qed.

Ltac rest_no_time_frame :=
  repeat first
    [ apply validate_output_no_time_frame
    | apply validate_correlations_no_time_frame
    | apply validate_subcomponent_no_time_frame
    | no_time_frame_step ].

(** On any document, a run appends at most one of the two errors. *)
Lemma validate_security_rule_time_frame_once rule file_path :
  run (validate_security_rule rule file_path)
    (fun _ ne _ => List.length (time_frame_errors ne) <= 1).
Proof.
  unfold validate_security_rule. cbv zeta.
  do 6 (apply (time_frame_bind_left _ _ (fun l => List.length l <= 1));
        [rest_no_time_frame|cbn; lia|intros ?]).
  apply (time_frame_bind_right _ _ (fun l => List.length l <= 1));
    [|intros ?; rest_no_time_frame].
  destruct a4; [|apply run_ret; cbn; lia].
  eapply run_bind with (P := fun _ ne _ => ne = []);
    [now apply run_lift| |]; cbv beta.
  2:{ intros e ne nw ->. cbn. lia. }
  intros time_frame ne _ ->. cbn [app].
  destruct (isinstance_number time_frame); cbn [negb].
  2:{ intros st. exists [(file_path, TimeFrameNotNumber)], []. cbn.
      rewrite app_nil_r. split; [reflexivity|lia]. }
  eapply run_bind with (P := fun _ ne _ => ne = []);
    [now apply run_lift| |]; cbv beta.
  2:{ intros e ne nw ->. cbn. lia. }
  intros not_positive ne _ ->. cbn [app].
  destruct not_positive; [|apply run_ret; cbn; lia].
  intros st. exists [(file_path, TimeFrameNotPositive)], []. cbn.
  rewrite app_nil_r. split; [reflexivity|lia].
Qed.

(** On a mapping, a run appends exactly what the check of
    [searchTimeFrameMinutes] gives, whether it returns or raises
    later. *)
Lemma run_bind_lift_ok {A B} (a : A) (k : A -> V B) P :
  run (k a) P -> run (bind (lift (Ok a)) k) P.
Proof. intros H st. exact (H st). Qed.

Lemma validate_security_rule_time_frame_exact (d : dict) file_path :
  run (validate_security_rule (JDict d) file_path)
    (fun _ ne _ =>
       time_frame_errors ne = expected_time_frame_errors file_path d).
Proof.
  unfold validate_security_rule. cbv zeta.
  set (Q := fun l => l = expected_time_frame_errors file_path d).
  apply (time_frame_bind_passes _ _ Q).
  { apply passes_forV. intros valid' field. cbn [py_in lift].
    apply passes_bind; [apply (passes_ret (dict_has field d))|].
    intros present.
    destruct present; [apply passes_ret|now apply passes_reject]. }
  intros valid0. cbn [py_in py_getitem].
  apply run_bind_lift_ok.
  apply (time_frame_bind_passes _ _ Q).
  { unfold dict_has.
    destruct (dict_get "title" d) as [title|]; [|apply passes_ret].
    apply passes_bind; [apply (passes_ret title)|]. intros title'.
    destruct (negb (truthy title') || negb (isinstance_str title'));
      [now apply passes_reject|apply passes_ret]. }
  intros valid1. apply run_bind_lift_ok.
  apply (time_frame_bind_passes _ _ Q).
  { unfold dict_has.
    destruct (dict_get "enabled" d) as [enabled|]; [|apply passes_ret].
    apply passes_bind; [apply (passes_ret enabled)|]. intros enabled'.
    destruct (negb (isinstance_bool enabled'));
      [now apply passes_reject|apply passes_ret]. }
  intros valid2. apply run_bind_lift_ok.
  apply (time_frame_bind_right _ _ Q); [|intros ?; rest_no_time_frame].
  unfold Q, expected_time_frame_errors, dict_has.
  destruct (dict_get "searchTimeFrameMinutes" d) as [time_frame|];
    [|now apply run_ret].
  apply run_bind_lift_ok.
  destruct (isinstance_number time_frame) eqn:Enum; cbn [negb].
  2:{ intros st. exists [(file_path, TimeFrameNotNumber)], []. cbn.
      rewrite app_nil_r. now split. }
  destruct (py_le_zero time_frame) as [[|]|e].
  - apply run_bind_lift_ok.
    intros st. exists [(file_path, TimeFrameNotPositive)], []. cbn.
    rewrite app_nil_r. now split.
  - apply run_bind_lift_ok. now apply run_ret.
  - intros st. exists [], []. cbn. rewrite !app_nil_r.
    split; [now destruct st|reflexivity].
Qed.
End TimeFrame.

Lemma appended_app (st : Validator.state) ne nw :
  appended st
    (Validator.State (Validator.errors st ++ ne) (Validator.warnings st ++ nw))
  = ne.
Proof.
  unfold appended. cbn [Validator.errors].
  rewrite List.skipn_app, List.skipn_all, Nat.sub_diag. reflexivity.
Qed.

Lemma in_time_frame_errors file_path e l :
  is_time_frame_error e = true ->
  In (file_path, e) l <-> In (file_path, e) (time_frame_errors l).
Proof.
  intros He. unfold time_frame_errors. rewrite List.filter_In. cbn [snd].
  rewrite He. tauto.
Qed.

(** C4, as stated, fails: no run of the validator, on any document,
    appends both the not-a-number and the not-positive error. *)
Lemma time_frame_checks_counterexample :
  ~ exists (rule : json) (file_path : string) (st : Validator.state),
      let st' := snd (Validator.validate_security_rule rule file_path st) in
      In (file_path, Validator.TimeFrameNotNumber) (appended st st')
      /\ In (file_path, Validator.TimeFrameNotPositive) (appended st st').
Proof.
  intros (rule & file_path & st & Hnumber & Hpositive).
  destruct (validate_security_rule_time_frame_once rule file_path st)
    as (ne & nw & Hst & Hlen).
  cbv zeta in Hnumber, Hpositive. rewrite Hst, appended_app in *.
  apply in_time_frame_errors in Hnumber; [|reflexivity].
  apply in_time_frame_errors in Hpositive; [|reflexivity].
  remember (time_frame_errors ne) as l eqn:El. clear El.
  destruct l as [|x [|y l]]; cbn in *; try lia; try contradiction.
  destruct Hnumber as [->|[]]. destruct Hpositive as [[=]|[]].
Qed.

(** C4, amended.  The two checks are alternatives: the positivity check
    is made only on a value that passed the numeric check.  On a mapping,
    a run appends the not-a-number error exactly when
    [searchTimeFrameMinutes] is present and not a number, and the
    not-positive error exactly when it is present, a number, and at most
    zero. *)
Theorem time_frame_checks_exclusive
    (d : dict) (file_path : string) (st : Validator.state) :
  let st' := snd (Validator.validate_security_rule (JDict d) file_path st) in
  (In (file_path, Validator.TimeFrameNotNumber) (appended st st')
   <-> exists v, dict_get "searchTimeFrameMinutes" d = Some v
                 /\ isinstance_number v = false)
  /\ (In (file_path, Validator.TimeFrameNotPositive) (appended st st')
      <-> exists v, dict_get "searchTimeFrameMinutes" d = Some v
                    /\ isinstance_number v = true
                    /\ py_le_zero v = Ok true).
Proof.
  cbv zeta.
  destruct (validate_security_rule_time_frame_exact d file_path st)
    as (ne & nw & -> & Hexact).
  rewrite appended_app.
  rewrite (in_time_frame_errors _ Validator.TimeFrameNotNumber ne),
    (in_time_frame_errors _ Validator.TimeFrameNotPositive ne)
    by reflexivity.
  rewrite Hexact.
  unfold expected_time_frame_errors.
  destruct (dict_get "searchTimeFrameMinutes" d) as [v|].
  2:{ split; (split; [intros []|intros (v & [=] & _)]). }
  destruct (isinstance_number v) eqn:Enum; cbn [negb].
  - split.
    + split; [|intros (v' & [= <-] & H); congruence].
      destruct (py_le_zero v) as [[|]|e]; cbn; intros [[=]|[]] || intros [].
    + destruct (py_le_zero v) as [[|]|e] eqn:Ele; cbn.
      * split; [intros _; exists v; auto|intros _; now left].
      * split; [intros []|intros (v' & [= <-] & _ & H); congruence].
      * split; [intros []|intros (v' & [= <-] & _ & H); congruence].
  - split.
    + split; [intros _; exists v; auto|intros _; now left].
    + split; [intros [[=]|[]]|intros (v' & [= <-] & H & _); congruence].
Qed.

(** C2 fails on the code: validation raises on a non-string element of
    [emails], on a [recipients] that is not a mapping, and on a
    [queryDefinition] that is not a mapping. *)
Theorem validate_security_rule_raises :
  fst (Validator.validate_security_rule
         (rule_with_output
            (JDict [("recipients", JDict [("emails", JList [JInt 5])])]))
         "rule.json" Validator.init)
  = Exc TypeError
  /\ fst (Validator.validate_security_rule
            (rule_with_output
               (JDict [("recipients", JStr "soc@example.com")]))
            "rule.json" Validator.init)
     = Exc AttributeError
  /\ fst (Validator.validate_security_rule
            (rule_with_query_definition (JInt 5))
            "rule.json" Validator.init)
     = Exc TypeError.
Proof. repeat split. Qed.

(** ** The search by title *)

Section SearchFacts.
Import Deployer.

Lemma py_eq_str (x : json) (title : string) :
  py_eq x (JStr title)
  = match x with JStr t => String.eqb t title | _ => false end.
Proof. now destruct x. Qed.

(** The loop of the source finds what [first_match] describes; when it
    raises, there is no match the scan gets to. *)
Lemma find_exact_first_match (title : string) (results : list json) :
  forall i,
    first_match title i results
    = match find_exact (JStr title) i results with
      | Ok hit => hit
      | Exc _ => None
      end.
Proof.
  induction results as [|rule rest IH]; intros i; [reflexivity|].
  cbn [first_match find_exact]. unfold scannable, has_title, title_of.
  destruct rule as [| | | | | |d]; try reflexivity.
  cbn [py_get rbind isinstance_dict andb lookup].
  set (rule_title := match dict_get "title" d with
                     | Some v => v
                     | None => JStr ""
                     end).
  assert (Hslice : forall A (k : res A),
             rbind (rbind (py_slice rule_title)
                      (fun _ => py_slice (JStr title))) (fun _ => k)
             = if sliceable rule_title then k else Exc TypeError).
  { intros A k. now destruct rule_title. }
  destruct (Nat.ltb i 3); cbn [negb orb].
  - rewrite Hslice. destruct (sliceable rule_title); [|reflexivity].
    cbn [rbind]. rewrite py_eq_str.
    destruct rule_title; try apply IH.
    destruct (String.eqb s title); [reflexivity|apply IH].
  - cbn [rbind]. rewrite py_eq_str.
    destruct rule_title; try apply IH.
    destruct (String.eqb s title); [reflexivity|apply IH].
Qed.

Lemma first_match_Some (title : string) (results : list json) :
  forall i id,
    first_match title i results = Some id <->
    exists before rule after,
      results = before ++ rule :: after
      /\ (forall j r, before !! j = Some r ->
            scannable (i + j) r = true /\ has_title title r = false)
      /\ scannable (i + List.length before) rule = true
      /\ has_title title rule = true
      /\ id = id_of rule.
Proof.
  induction results as [|rule rest IH]; intros i id; cbn [first_match].
  - split; [discriminate|].
    intros (before & r & after & H & _). now destruct before.
  - destruct (scannable i rule) eqn:Escan.
    + destruct (has_title title rule) eqn:Etitle.
      * split.
        -- intros [= <-]. exists [], rule, rest. cbn [List.length].
           rewrite Nat.add_0_r. repeat split; try assumption.
           all: match goal with H : [] !! _ = Some _ |- _ =>
                  discriminate H
                end.
        -- intros (before & r & after & H & Hbefore & _ & Hr & ->).
           destruct before as [|b before]; cbn in H.
           ++ now injection H as <- _.
           ++ injection H as <- _.
              destruct (Hbefore 0 rule eq_refl) as [_ Hno]. congruence.
      * rewrite IH. split.
        -- intros (before & r & after & -> & Hbefore & Hscan & Hr & ->).
           exists (rule :: before), r, after. cbn [List.length app].
           repeat split; try assumption.
           ++ destruct j as [|j]; cbn in H.
              ** injection H as <-. now rewrite Nat.add_0_r.
              ** replace (i + Datatypes.S j) with (Datatypes.S i + j) by lia.
                 now apply Hbefore.
           ++ destruct j as [|j]; cbn in H.
              ** now injection H as <-.
              ** now apply (Hbefore j).
           ++ now replace (i + Datatypes.S (List.length before))
                with (Datatypes.S i + List.length before) by lia.
        -- intros (before & r & after & H & Hbefore & Hscan & Hr & ->).
           destruct before as [|b before]; cbn in H.
           ++ injection H as <- _. congruence.
           ++ injection H as <- ->. exists before, r, after.
              repeat split; try assumption.
              ** replace (Datatypes.S i + j) with (i + Datatypes.S j) by lia.
                 now apply (Hbefore (Datatypes.S j)).
              ** now apply (Hbefore (Datatypes.S j)).
              ** cbn [List.length] in Hscan.
                 now replace (Datatypes.S i + List.length before)
                   with (i + Datatypes.S (List.length before)) by lia.
    + split; [discriminate|].
      intros (before & r & after & H & Hbefore & Hscan & _).
      destruct before as [|b before]; cbn in H.
      * injection H as <- _. cbn [List.length] in Hscan.
        rewrite Nat.add_0_r in Hscan. congruence.
      * injection H as <- _.
        destruct (Hbefore 0 rule eq_refl) as [Hs _].
        rewrite Nat.add_0_r in Hs. congruence.
Qed.
End SearchFacts.

Section SearchTheorems.
Import Deployer.
Variable diagnostics : json -> list json -> json -> res (list json).

Lemma search_reply_spec (title : string) (r : reply) :
  match search_reply diagnostics (JStr title) r with
  | Ok result => result
  | Exc _ => not_found
  end
  = search_spec title r.
Proof.
  destruct r as [reason|status_code body]; [reflexivity|].
  cbn [search_reply search_spec].
  destruct (status_code =? 200)%Z; [|now destruct body as [[]|]].
  destruct body as [data|]; [|reflexivity].
  destruct data as [| | | | | |data]; try reflexivity.
  cbn [isinstance_dict py_in rbind py_getitem py_get]. unfold dict_has.
  destruct (dict_get "results" data) as [results|]; [|reflexivity].
  cbn [rbind].
  destruct results as [| | | |s|results|d]; try reflexivity.
  - destruct s; reflexivity.
  - cbn [py_len rbind truthy py_iter].
    destruct results as [|rule rest]; [reflexivity|].
    cbn [List.length Nat.ltb Nat.leb andb rbind].
    rewrite find_exact_first_match.
    destruct (find_exact (JStr title) 0 (rule :: rest)) as [[id|]|e];
      cbn [rbind]; try reflexivity.
    now destruct (diagnostics _ _ _).
  - destruct d as [|[k v] d]; reflexivity.
Qed.

Lemma search_rule_by_title_with_spec service self (title : string) log :
  search_rule_by_title_with diagnostics service self (JStr title) log
  = (search_spec title (service log (search_request self)),
     log ++ [search_request self]).
Proof.
  unfold search_rule_by_title_with, io_bind, send, io_ret.
  now rewrite search_reply_spec.
Qed.
End SearchTheorems.

(** C5 fails on the code.  The listing holds one rule with the title
    looked for, [r-42]; a rule with a [null] title before it, among the
    first three, makes the search return not found: printing the
    comparison slices the title, which raises, and the exception ends
    the search.  After three other rules the same rule with the [null]
    title is passed over, and [r-42] is found.  A title that is a
    number is never found, for the same reason. *)
Theorem search_rule_by_title_misses_after_null_title :
  let search title listing :=
    fst (Deployer.search_rule_by_title
           (always (Deployer.Response 200 (Some listing)))
           sample_deployer title []) in
  let rules_with_title listing :=
    match lookup "results" listing with
    | Some (JList results) => List.filter (has_title "Alert X") results
    | _ => []
    end in
  rules_with_title listing_with_null_title
  = [JDict [("id", JStr "r-42"); ("title", JStr "Alert X")]]
  /\ search (JStr "Alert X") listing_with_null_title = Deployer.not_found
  /\ rules_with_title listing_with_null_title_fourth
     = [JDict [("id", JStr "r-42"); ("title", JStr "Alert X")]]
  /\ search (JStr "Alert X") listing_with_null_title_fourth
     = Deployer.SearchResult true (JStr "r-42")
  /\ search (JInt 5) listing_with_number_title = Deployer.not_found.
Proof.
  cbv zeta. split; [reflexivity|]. split; [vm_compute; reflexivity|].
  split; [reflexivity|]. split; vm_compute; reflexivity.
Qed.

(** X26.  What the search returns, for a title that is a text.  The
    search makes one request.  It returns exists=true with an id
    exactly when the reply is a 200 whose body is a mapping with a
    [results] list that holds a rule with the queried title (a rule
    without title counting as having the empty title) such that the
    scan gets to it: every rule before it is a mapping with another
    title and, like the rule itself, has a title that can be sliced if
    it is among the first three; the id is that of the first such rule.
    In every other case it returns exists=false with no id.  The
    diagnostic block has no influence on what is returned. *)
Theorem search_rule_by_title_first_match
    (diagnostics : json -> list json -> json -> res (list json))
    (service : Deployer.remote) (self : Deployer.deployer)
    (title : string) (log : list Deployer.request) :
  let out :=
    Deployer.search_rule_by_title_with diagnostics service self
      (JStr title) log in
  snd out = log ++ [search_request self]
  /\ fst out = fst (Deployer.search_rule_by_title service self (JStr title) log)
  /\ fst out = search_spec title (service log (search_request self))
  /\ (Deployer.found (fst out) = false -> fst out = Deployer.not_found)
  /\ forall id,
       fst out = Deployer.SearchResult true id <->
       exists data before rule after,
         service log (search_request self)
         = Deployer.Response 200 (Some (JDict data))
         /\ dict_get "results" data = Some (JList (before ++ rule :: after))
         /\ (forall j r, before !! j = Some r ->
               scannable j r = true /\ has_title title r = false)
         /\ scannable (List.length before) rule = true
         /\ has_title title rule = true
         /\ id = id_of rule.
Proof.
  cbv zeta. unfold Deployer.search_rule_by_title.
  rewrite !search_rule_by_title_with_spec. cbn [fst snd].
  split; [reflexivity|]. split; [reflexivity|]. split; [reflexivity|].
  set (r := service log (search_request self)).
  assert (Hfound : forall id,
             search_spec title r = Deployer.SearchResult true id <->
             exists data results,
               r = Deployer.Response 200 (Some (JDict data))
               /\ dict_get "results" data = Some (JList results)
               /\ first_match title 0 results = Some id).
  { intros id. unfold search_spec.
    destruct r as [reason|status_code [[| | | | | |data]|]];
      try (split; [discriminate|intros (? & ? & [=] & _)]).
    destruct (status_code =? 200)%Z eqn:Estatus.
    2:{ split; [discriminate|]. intros (? & ? & [= -> _] & _).
        discriminate Estatus. }
    apply Z.eqb_eq in Estatus as ->.
    destruct (dict_get "results" data) as [[| | | | |results|]|] eqn:Eres;
      try (split; [discriminate|intros (? & ? & [= <-] & H & _);
                                congruence]).
    destruct (first_match title 0 results) as [id'|] eqn:Ematch.
    - split.
      + intros [= <-]. now exists data, results.
      + intros (? & ? & [= <-] & H & H'). congruence.
    - split; [discriminate|].
      intros (? & ? & [= <-] & H & H'). congruence. }
  split.
  - unfold search_spec.
    destruct r as [reason|status_code [[| | | | | |data]|]]; try reflexivity.
    destruct (status_code =? 200)%Z; [|reflexivity].
    destruct (dict_get "results" data) as [[| | | | |results|]|];
      try reflexivity.
    destruct (first_match title 0 results); [discriminate|reflexivity].
  - intros id. rewrite Hfound. split.
    + intros (data & results & Hr & Hres & Hmatch).
      apply first_match_Some in Hmatch
        as (before & rule & after & -> & Hbefore & Hscan & Htitle & ->).
      exists data, before, rule, after. repeat split; try assumption.
      all: match goal with
           | H : _ !! _ = Some _ |- _ => now apply Hbefore in H
           end.
    + intros (data & before & rule & after & Hr & Hres & Hbefore & Hscan
              & Htitle & ->).
      exists data, (before ++ rule :: after). repeat split; try assumption.
      apply first_match_Some. exists before, rule, after.
      repeat split; try assumption.
      all: match goal with
           | H : _ !! _ = Some _ |- _ => now apply Hbefore in H
           end.
Qed.

(** ** Creating a rule *)

Section CreateFacts.
Import Deployer.
Variable py_str : json -> string.
Variable service : remote.
Variable self : deployer.
Variable rule_data : json.

Local Abbreviation req := (create_request self rule_data).

Lemma create_at_first_accepting (endpoints : list string) :
  forall log,
    exists tried,
      (forall i e, tried !! i = Some e ->
         rejected (service (log ++ map req (firstn i tried)) (req e)) = true)
      /\ ((tried = endpoints
           /\ create_at py_str service self rule_data endpoints log
              = ((false, "Failed to create at any endpoint"),
                 log ++ map req tried))
          \/ exists e after status_code body,
               endpoints = tried ++ e :: after
               /\ service (log ++ map req tried) (req e)
                  = Response status_code body
               /\ is_2xx status_code = true
               /\ create_at py_str service self rule_data endpoints log
                  = ((true, created_message py_str e body),
                     log ++ map req tried ++ [req e])).
Proof.
  induction endpoints as [|endpoint rest IH]; intros log.
  - exists []. split; [intros i e [=]|]. left. split; [reflexivity|].
    cbn. now rewrite app_nil_r.
  - cbn [create_at]. unfold io_bind, send. fold (req endpoint).
    destruct (service log (req endpoint)) as [reason|status_code body]
      eqn:Ereply.
    + destruct (IH (log ++ [req endpoint])) as (tried & Htried & H).
      exists (endpoint :: tried). split.
      { intros [|i] e; cbn.
        - intros [= <-]. rewrite app_nil_r. now rewrite Ereply.
        - intros Hi. specialize (Htried i e Hi).
          now rewrite <- app_assoc in Htried. }
      destruct H as [[-> H]|(e & after & s & b & -> & Hs & H2 & H)].
      * left. split; [reflexivity|]. rewrite H. cbn [map].
        now rewrite <- app_assoc.
      * right. exists e, after, s, b. cbn [map].
        rewrite <- !app_assoc in *. cbn [app] in *.
        repeat split; assumption.
    + destruct (is_2xx status_code) eqn:E2xx.
      * exists []. split; [intros i e [=]|]. right.
        exists endpoint, rest, status_code, body. cbn [map app].
        rewrite app_nil_r. repeat split; try assumption.
        unfold created_message, response_json.
        destruct body as [[| | | | | |d]|]; reflexivity.
      * destruct (IH (log ++ [req endpoint])) as (tried & Htried & H).
        exists (endpoint :: tried). split.
        { intros [|i] e; cbn.
          - intros [= <-]. rewrite app_nil_r. rewrite Ereply. cbn.
            now rewrite E2xx.
          - intros Hi. specialize (Htried i e Hi).
            now rewrite <- app_assoc in Htried. }
        destruct H as [[-> H]|(e & after & s & b & -> & Hs & H2 & H)].
        -- left. split; [reflexivity|]. rewrite H. cbn [map].
           now rewrite <- app_assoc.
        -- right. exists e, after, s, b. cbn [map].
           rewrite <- !app_assoc in *. cbn [app] in *.
           repeat split; assumption.
Qed.
End CreateFacts.

(** C6, as stated, fails: a 2xx answer whose body is not JSON gives a
    CREATED outcome that records no id, not even "unknown". *)
Lemma create_rule_counterexample :
  fst (Deployer._create_rule str_sample
         (always (Deployer.Response 201 None)) sample_deployer sample_rule
         "alert-x" [])
  = (true, "Created successfully at https://api.logz.io/v2/security/rules")
  /\ substr_in "unknown"
       (snd (fst (Deployer._create_rule str_sample
                    (always (Deployer.Response 201 None)) sample_deployer
                    sample_rule "alert-x" [])))
     = false.
Proof. split; reflexivity. Qed.

(** C6, amended.  The creation posts the document to the candidate
    endpoints in their declared order.  The endpoints [tried] without
    success are the longest prefix whose answers were a transport failure
    or a status outside 2xx.  Either that is all of them, and the outcome
    is the failure after these requests; or the next endpoint answered
    2xx, the outcome is CREATED there, after these requests and that one
    and no later one, recording the id of a body that is a mapping
    ("unknown" when the mapping has none) and no id when the body is not
    a mapping. *)
Theorem create_rule_first_accepting
    (py_str : json -> string) (service : Deployer.remote)
    (self : Deployer.deployer) (rule_data : json) (rule_name : string)
    (log : list Deployer.request) :
  let req := create_request self rule_data in
  let out := Deployer._create_rule py_str service self rule_data rule_name log in
  exists tried,
    (forall i e, tried !! i = Some e ->
       rejected (service (log ++ map req (firstn i tried)) (req e)) = true)
    /\ ((tried = Deployer.create_endpoints self
         /\ out = ((false, "Failed to create at any endpoint"),
                   log ++ map req tried))
        \/ exists e after status_code body,
             Deployer.create_endpoints self = tried ++ e :: after
             /\ service (log ++ map req tried) (req e)
                = Deployer.Response status_code body
             /\ Deployer.is_2xx status_code = true
             /\ out = ((true, created_message py_str e body),
                       log ++ map req tried ++ [req e])).
Proof.
  cbv zeta. unfold Deployer._create_rule.
  apply create_at_first_accepting.
Qed.

(** ** Updating a rule *)

Section UpdateFacts.
Import Deployer.
Variable py_str : json -> string.
Variable str_exn : exn -> string.
Variable service : remote.
Variable self : deployer.

Lemma error_message_dict (d : dict) :
  error_message (JDict d)
  = Ok (first_truthy message_keys d (JStr "No error message provided")).
Proof.
  unfold error_message. cbn [py_get rbind message_keys first_truthy].
  destruct (dict_get "message" d) as [v|]; cbn [truthy];
    [destruct (truthy v); [reflexivity|]|];
    (destruct (dict_get "error" d) as [v'|]; cbn [truthy];
     [destruct (truthy v'); [reflexivity|]|]);
    (destruct (dict_get "errorMessage" d) as [v''|]; cbn [truthy];
     [destruct (truthy v''); reflexivity|reflexivity]).
Qed.

Lemma update_rule_outcome (id rule_data : json) (rule_name : string) log :
  let put :=
    Request PUT (update_endpoint self +++ "/" +++ py_str id)
      (api_token self) rule_data in
  _update_rule py_str service self id rule_data rule_name log
  = (update_outcome py_str id (service log put), log ++ [put]).
Proof.
  cbv zeta. unfold _update_rule, io_bind, send, update_outcome.
  destruct (service log _) as [reason|status_code body]; [reflexivity|].
  destruct (is_2xx status_code); [reflexivity|].
  destruct body as [[| | | | | |d]|]; try reflexivity.
  cbn [response_json rbind]. now rewrite error_message_dict.
Qed.

Lemma search_rule_by_title_log (title : json) log :
  snd (search_rule_by_title service self title log)
  = log ++ [search_request self].
Proof. reflexivity. Qed.
End UpdateFacts.

(** C7, as stated, fails: a non-2xx answer whose body is not JSON gives a
    message with the status code, which is neither taken from the body
    nor the no-message default. *)
Lemma update_rule_counterexample :
  fst (Deployer._update_rule str_sample
         (always (Deployer.Response 500 None)) sample_deployer
         (JStr "r-42") sample_rule "alert-x" [])
  = (false, "Update failed with HTTP 500")
  /\ "Update failed with HTTP 500"
     <> "Update failed: " +++ "No error message provided".
Proof. split; [reflexivity|discriminate]. Qed.

(** C7, amended.  When the search finds a rule for the document, the
    deployment makes the search request and then one PUT of the cleaned
    document to the update endpoint of the found id, and nothing else.  A
    2xx answer gives the success that names the id.  Any other answer
    gives a failure: with the first of [message], [error], [errorMessage]
    whose value is true in a body that is a mapping, or the no-message
    default when there is none; with the status code when the body is not
    a mapping; and a transport failure gives a failure with its
    reason. *)
Theorem deploy_rule_updates_found
    (py_str : json -> string) (str_exn : exn -> string)
    (service : Deployer.remote) (self : Deployer.deployer)
    (file : Deployer.rule_file) (rule_data cleaned title id : json)
    (log : list Deployer.request) :
  Deployer.file_content file = inr rule_data ->
  py_get rule_data "title" (JStr (Deployer.file_stem file)) = Ok title ->
  Deployer.clean_rule_json rule_data = Ok cleaned ->
  fst (Deployer.search_rule_by_title service self title log)
  = Deployer.SearchResult true id ->
  let put :=
    Deployer.Request Deployer.PUT
      (Deployer.update_endpoint self +++ "/" +++ py_str id)
      (Deployer.api_token self) cleaned in
  Deployer.deploy_rule py_str str_exn service self file log
  = (update_outcome py_str id (service (log ++ [search_request self]) put),
     log ++ [search_request self; put]).
Proof.
  intros Hcontent Htitle Hclean Hsearch put.
  unfold Deployer.deploy_rule. rewrite Hcontent, Htitle, Hclean.
  cbn [rbind]. unfold Deployer.io_bind.
  pose proof (search_rule_by_title_log service self title log) as Hlog.
  destruct (Deployer.search_rule_by_title service self title log)
    as [result log'].
  cbn [fst snd] in *. subst result log'. cbn [Deployer.found Deployer.rule_id].
  rewrite update_rule_outcome. fold put. now rewrite <- app_assoc.
Qed.

Lemma deploy_rule_updates_found_witness :
  exists cleaned,
    Deployer.clean_rule_json sample_rule = Ok cleaned
    /\ Deployer.deploy_rule str_sample str_exn_sample sample_service
         sample_deployer sample_file []
       = ((false, "Update failed: bad rule"),
          [search_request sample_deployer;
           Deployer.Request Deployer.PUT
             "https://api.logz.io/v2/security/rules/r-42" "token" cleaned]).
Proof.
  eexists. split; [reflexivity|].
  apply (deploy_rule_updates_found str_sample str_exn_sample sample_service
           sample_deployer sample_file sample_rule _ (JStr "Alert X")
           (JStr "r-42") []);
    reflexivity.
Defined.

(** ** The batch *)

Section BatchFacts.
Import Deployer.
Variable py_str : json -> string.
Variable str_exn : exn -> string.
Variable service : remote.
Variable self : deployer.

Lemma record_outcome_tallied pending s file outcome :
  tallied (Datatypes.S pending) s ->
  tallied pending (record_outcome s file outcome).
Proof.
  intros (Htotal & Hok & Hfailed). destruct outcome as [[|] message];
    unfold record_outcome, tallied.
  - destruct (substr_in "Updated" message || substr_in "updated" message);
      cbn; repeat split; lia.
  - cbn. rewrite length_app. cbn. repeat split; lia.
Qed.

Lemma deploy_each_tallied (rule_files : list rule_file) :
  forall s log,
    tallied (List.length rule_files) s ->
    tallied 0 (fst (deploy_each py_str str_exn service self s rule_files log)).
Proof.
  induction rule_files as [|file rest IH]; intros s log Hs;
    cbn [deploy_each]; [exact Hs|].
  unfold io_bind.
  destruct (deploy_rule py_str str_exn service self file log)
    as [outcome log'].
  apply IH. now apply record_outcome_tallied.
Qed.
End BatchFacts.

(** C10.  The summary of a batch adds up: total is successful plus
    failed, successful is created plus updated, and the list of failed
    rules has as many entries as failed counts, whatever the directory
    holds and whatever the service answers. *)
Theorem deploy_all_rules_summary
    (py_str : json -> string) (str_exn : exn -> string)
    (service : Deployer.remote) (self : Deployer.deployer)
    (rules_directory : option (list Deployer.rule_file))
    (log : list Deployer.request) :
  let results :=
    fst (Deployer.deploy_all_rules py_str str_exn service self
           rules_directory log) in
  Deployer.total results
  = Deployer.successful results + Deployer.failed results
  /\ Deployer.successful results
     = Deployer.created results + Deployer.updated results
  /\ List.length (Deployer.failed_rules results) = Deployer.failed results.
Proof.
  cbv zeta. unfold Deployer.deploy_all_rules.
  destruct rules_directory as [[|file rest]|]; try (now cbn).
  destruct (deploy_each_tallied py_str str_exn service self (file :: rest)
              (Deployer.Summary (List.length (file :: rest)) 0 0 0 0 []) log)
    as (Htotal & Hok & Hfailed).
  { unfold tallied. cbn. repeat split; lia. }
  rewrite Nat.add_0_r in Htotal. now repeat split.
Qed.

(** ** The input document after cleaning *)

(** C3 fails on the exporter's cleaner: [clean_rule] copies the root
    dictionary only, so the components it changes are those of the input.
    After the call the input document, read through its own reference, has
    lost the [id] of its component; the deployer's cleaner, on the same
    input, leaves it as it was. *)
Theorem clean_rule_changes_its_input :
  exists rule h,
    loaded_sample = (Ok rule, h)
    /\ Store.read 6 h rule = Some sample_rule
    /\ (exists cleaned h' doc',
          Store.clean_rule rule h = (Ok cleaned, h')
          /\ Store.read 6 h' cleaned = Some doc'
          /\ Cleaner.clean_rule sample_rule = Ok doc'
          /\ Store.read 6 h' rule <> Some sample_rule
          /\ exists doc, Store.read 6 h' rule = Some doc
                         /\ components_clean sample_rule = false
                         /\ components_clean doc = true)
    /\ (exists cleaned h' doc',
          Store.clean_rule_json rule h = (Ok cleaned, h')
          /\ Store.read 6 h' cleaned = Some doc'
          /\ Deployer.clean_rule_json sample_rule = Ok doc'
          /\ Store.read 6 h' rule = Some sample_rule).
Proof.
  eexists. eexists. split; [vm_compute; reflexivity|].
  split; [vm_compute; reflexivity|]. split.
  - eexists. eexists. eexists. split; [vm_compute; reflexivity|].
    split; [vm_compute; reflexivity|]. split; [vm_compute; reflexivity|].
    split; [vm_compute; discriminate|].
    eexists. split; [vm_compute; reflexivity|]. split; vm_compute; reflexivity.
  - eexists. eexists. eexists. split; [vm_compute; reflexivity|].
    split; [vm_compute; reflexivity|]. split; vm_compute; reflexivity.
Qed.

(** ** The scenarios of the specification, run on the model *)

Example scenario_time_frame_not_positive :
  Validator.validate_security_rule
    (rule_with_time_frame_and_operator (JInt (-5)) (JStr "EQUALS"))
    "rule.json" Validator.init
  = (Ok false,
     Validator.State [("rule.json", Validator.TimeFrameNotPositive)] []).
Proof. reflexivity. Qed.

Example scenario_operator_between :
  Validator.validate_security_rule
    (rule_with_time_frame_and_operator (JInt 5) (JStr "BETWEEN"))
    "rule.json" Validator.init
  = (Ok false,
     Validator.State
       [("rule.json", Validator.InvalidOperator (JStr "BETWEEN") 0)] [])
  /\ Validator.error_text str_sample "rule.json"
       (Validator.InvalidOperator (JStr "BETWEEN") 0)
     = "Invalid operator 'BETWEEN' in subComponents[0].trigger of rule.json. Must be one of: GREATER_THAN, LESS_THAN, EQUALS, NOT_EQUALS, GREATER_THAN_OR_EQUALS, LESS_THAN_OR_EQUALS".
Proof. split; reflexivity. Qed.

Example scenario_search_is_case_sensitive :
  Deployer.search_rule_by_title
    (always (Deployer.Response 200 (Some listing))) sample_deployer
    (JStr "Alert X") []
  = (Deployer.SearchResult true (JStr "r-42"),
     [search_request sample_deployer]).
Proof. reflexivity. Qed.

Example scenario_third_endpoint_creates :
  Deployer._create_rule str_sample third_endpoint_accepts sample_deployer
    sample_rule "alert-x" []
  = ((true,
      "Created successfully at https://api.logz.io/v2/correlation-rules (ID: r-99)"),
     map (create_request sample_deployer sample_rule)
       (Deployer.create_endpoints sample_deployer)).
Proof. reflexivity. Qed.

Example scenario_no_endpoint_accepts :
  Deployer._create_rule str_sample
    (always (Deployer.Response 400 None)) sample_deployer sample_rule
    "alert-x" []
  = ((false, "Failed to create at any endpoint"),
     map (create_request sample_deployer sample_rule)
       (Deployer.create_endpoints sample_deployer)).
Proof. reflexivity. Qed.

(** ** Documents in the store *)

Section TreeFacts.
Import Store.

Lemma entries_in_items T l entries :
  forall lo kvs,
    entries_in T l entries lo kvs <->
    map fst entries = map fst kvs
    /\ items_in T l (map snd entries) lo (map snd kvs).
Proof.
  induction entries as [|[k x] entries IH]; intros lo [|[k' w] kvs];
    cbn [entries_in items_in map fst snd]; try (split; [tauto|]).
  - tauto.
  - intros [[=] _].
  - intros [[=] _].
  - split.
    + intros (-> & mid & Hx & Hrest). apply IH in Hrest as [-> Hrest].
      split; [reflexivity|]. now exists mid.
    + intros ([= -> Hkeys] & mid & Hx & Hrest). split; [reflexivity|].
      exists mid. split; [exact Hx|]. apply IH. now split.
Qed.

Lemma items_in_le T l items :
  Forall (fun x => forall a w b, T x a w b -> a <= b) items ->
  forall lo vs, items_in T l items lo vs -> lo <= l.
Proof.
  induction 1 as [|x items Hx _ IH]; intros lo [|w vs]; cbn [items_in];
    try tauto.
  intros (mid & Hw & Hrest). specialize (Hx _ _ _ Hw).
  specialize (IH _ _ Hrest). lia.
Qed.

Lemma items_in_transfer T T' l items :
  Forall (fun x => forall a w b, T x a w b -> a <= b) items ->
  forall lo0 lo vs,
    lo0 <= lo ->
    Forall (fun x => forall a w b,
                lo0 <= a -> b <= l -> T x a w b -> T' x a w b) items ->
    items_in T l items lo vs -> items_in T' l items lo vs.
Proof.
  induction 1 as [|x items Hx Hle IH]; intros lo0 lo [|w vs] Hlo HT;
    cbn [items_in]; try tauto.
  intros (mid & Hw & Hrest). apply Forall_cons in HT as [HTx HT].
  pose proof (Hx _ _ _ Hw) as Hmid.
  pose proof (items_in_le _ _ _ Hle _ _ Hrest) as Hl.
  exists mid. split; [apply HTx; [lia|lia|exact Hw]|].
  apply (IH lo0); [lia|exact HT|exact Hrest].
Qed.

Lemma items_in_widen T l items :
  Forall (fun x => forall a a' w b, T x a w b -> a' <= a -> T x a' w b)
    items ->
  forall lo lo' vs,
    lo' <= lo -> items_in T l items lo vs -> items_in T l items lo' vs.
Proof.
  intros HT lo lo' vs Hlo. destruct HT as [|x items Hx _];
    destruct vs as [|w vs]; cbn [items_in]; try tauto; [lia|].
  intros (mid & Hw & Hrest). exists mid. split; [|exact Hrest].
  now apply (Hx lo).
Qed.

Variable h : store.

Lemma tree_le (j : json) : forall lo v hi, tree h j lo v hi -> lo <= hi.
Proof.
  induction j as [| | | | |items IH|entries IH] using json_rect';
    intros lo v hi; cbn [tree]; try tauto.
  - intros (l & vs & _ & Hl & _ & Hitems).
    pose proof (items_in_le _ _ _ IH _ _ Hitems). lia.
  - intros (l & kvs & _ & Hl & _ & Hentries).
    apply entries_in_items in Hentries as [_ Hitems].
    pose proof (items_in_le _ _ _ IH _ _ Hitems). lia.
Qed.

Lemma tree_mono (j : json) :
  forall lo lo' v hi hi',
    tree h j lo v hi -> lo' <= lo -> hi <= hi' -> tree h j lo' v hi'.
Proof.
  induction j as [| | | | |items IH|entries IH] using json_rect';
    intros lo lo' v hi hi'; cbn [tree];
    try (intros [-> H] ? ?; split; [reflexivity|lia]).
  - intros (l & vs & -> & Hl & Hobj & Hitems) Hlo Hhi.
    exists l, vs. repeat split; try assumption; [lia|].
    refine (items_in_widen _ _ _ _ _ _ _ Hlo Hitems).
    eapply Forall_impl; [exact IH|]. cbv beta.
    intros x Hx a a' w b Hw Ha. exact (Hx _ _ _ _ _ Hw Ha (Nat.le_refl b)).
  - intros (l & kvs & -> & Hl & Hobj & Hentries) Hlo Hhi.
    exists l, kvs. repeat split; try assumption; [lia|].
    apply entries_in_items in Hentries as [Hkeys Hitems].
    apply entries_in_items. split; [exact Hkeys|].
    refine (items_in_widen _ _ _ _ _ _ _ Hlo Hitems).
    eapply Forall_impl; [exact IH|]. cbv beta.
    intros x Hx a a' w b Hw Ha. exact (Hx _ _ _ _ _ Hw Ha (Nat.le_refl b)).
Qed.
End TreeFacts.

Section TreeStore.
Import Store.

(** A tree is seen in every store that has the same objects at its
    locations. *)
Lemma tree_frame (h h' : store) (j : json) :
  forall lo v hi,
    tree h j lo v hi ->
    (forall loc, lo <= loc < hi -> h' !! loc = h !! loc) ->
    tree h' j lo v hi.
Proof.
  induction j as [| | | | |items IH|entries IH] using json_rect';
    intros lo v hi; cbn [tree]; try tauto.
  - intros (l & vs & -> & Hl & Hobj & Hitems) Hsame.
    assert (Hle : Forall (fun x => forall a w b, tree h x a w b -> a <= b)
                    items).
    { apply Forall_forall. intros x _. apply tree_le. }
    pose proof (items_in_le _ _ _ Hle _ _ Hitems) as Hlo.
    exists l, vs. repeat split; try assumption.
    + rewrite Hsame by lia. exact Hobj.
    + refine (items_in_transfer _ _ _ _ Hle lo lo vs (Nat.le_refl _) _ Hitems).
      eapply Forall_impl; [exact IH|]. cbv beta.
      intros x Hx a w b Ha Hb Hw. apply (Hx _ _ _ Hw).
      intros loc Hloc. apply Hsame. lia.
  - intros (l & kvs & -> & Hl & Hobj & Hentries) Hsame.
    apply entries_in_items in Hentries as [Hkeys Hitems].
    assert (Hle : Forall (fun x => forall a w b, tree h x a w b -> a <= b)
                    (map snd entries)).
    { apply Forall_forall. intros x _. apply tree_le. }
    pose proof (items_in_le _ _ _ Hle _ _ Hitems) as Hlo.
    exists l, kvs. repeat split; try assumption.
    + rewrite Hsame by lia. exact Hobj.
    + apply entries_in_items. split; [exact Hkeys|].
      refine (items_in_transfer _ _ _ _ Hle lo lo _ (Nat.le_refl _) _ Hitems).
      eapply Forall_impl; [exact IH|]. cbv beta.
      intros x Hx a w b Ha Hb Hw. apply (Hx _ _ _ Hw).
      intros loc Hloc. apply Hsame. lia.
Qed.

Lemma tree_app (h ext : store) (j : json) lo v hi :
  tree h j lo v hi -> hi <= List.length h -> tree (h ++ ext) j lo v hi.
Proof.
  intros Ht Hhi. apply (tree_frame h); [exact Ht|].
  intros loc Hloc. apply lookup_app_l. lia.
Qed.

(** [json.load] appends a tree for the document. *)
Lemma load_tree (j : json) :
  forall h, exists v ext,
    load j h = (Ok v, h ++ ext)
    /\ tree (h ++ ext) j (List.length h) v (List.length (h ++ ext)).
Proof.
  induction j as [| | | | |items IH|entries IH] using json_rect'; intros h;
    try (eexists; exists []; rewrite app_nil_r; cbn; now repeat split).
  - assert (Hitems : forall h, exists vs ext,
               mapS load items h = (Ok vs, h ++ ext)
               /\ items_in (tree (h ++ ext)) (List.length (h ++ ext)) items
                    (List.length h) vs).
    { clear h. induction IH as [|x items Hx _ IHitems]; intros h.
      - exists [], []. rewrite app_nil_r. cbn. now split.
      - destruct (Hx h) as (v & e1 & Hload & Hv).
        destruct (IHitems (h ++ e1)) as (vs & e2 & Hrest & Hvs).
        exists (v :: vs), (e1 ++ e2). cbn [mapS]. unfold bind.
        rewrite Hload, Hrest. rewrite app_assoc. split; [reflexivity|].
        cbn [items_in]. exists (List.length (h ++ e1)).
        split; [now apply tree_app|exact Hvs]. }
    destruct (Hitems h) as (vs & ext & Hmap & Hvs).
    exists (VRef (List.length (h ++ ext))), (ext ++ [OList vs]).
    cbn [load]. unfold bind, alloc. rewrite Hmap, app_assoc.
    split; [reflexivity|]. cbn [tree].
    exists (List.length (h ++ ext)), vs. repeat split.
    + rewrite (length_app (h ++ ext)). cbn. lia.
    + now rewrite lookup_app_r, Nat.sub_diag.
    + assert (Hle : Forall (fun x => forall a w b,
                          tree (h ++ ext) x a w b -> a <= b) items).
      { apply Forall_forall. intros x _. apply tree_le. }
      refine (items_in_transfer _ _ _ _ Hle _ _ _ (Nat.le_refl _) _ Hvs).
      apply Forall_forall. intros x _ a w b _ Hb Hw. now apply tree_app.
  - assert (Hentries : forall h, exists kvs ext,
               mapS (fun kv : string * json =>
                       bind (load (snd kv)) (fun v => ret (fst kv, v)))
                 entries h = (Ok kvs, h ++ ext)
               /\ entries_in (tree (h ++ ext)) (List.length (h ++ ext))
                    entries (List.length h) kvs).
    { clear h. induction entries as [|[k x] entries IHentries]; intros h.
      - exists [], []. rewrite app_nil_r. cbn. now split.
      - cbn [map snd] in IH. apply Forall_cons in IH as [Hx IH].
        destruct (Hx h) as (v & e1 & Hload & Hv).
        destruct (IHentries IH (h ++ e1)) as (kvs & e2 & Hrest & Hkvs).
        exists ((k, v) :: kvs), (e1 ++ e2). cbn [mapS fst snd].
        unfold bind, ret. rewrite Hload. unfold bind, ret in Hrest.
        rewrite Hrest. rewrite app_assoc. split; [reflexivity|].
        cbn [entries_in]. split; [reflexivity|].
        exists (List.length (h ++ e1)).
        split; [now apply tree_app|exact Hkvs]. }
    destruct (Hentries h) as (kvs & ext & Hmap & Hkvs).
    exists (VRef (List.length (h ++ ext))), (ext ++ [ODict kvs]).
    cbn [load]. unfold bind, alloc. unfold bind in Hmap.
    rewrite Hmap, app_assoc.
    split; [reflexivity|]. cbn [tree].
    exists (List.length (h ++ ext)), kvs. repeat split.
    + rewrite (length_app (h ++ ext)). cbn. lia.
    + now rewrite lookup_app_r, Nat.sub_diag.
    + apply entries_in_items in Hkvs as [Hkeys Hvs].
      apply entries_in_items. split; [exact Hkeys|].
      assert (Hle : Forall (fun x => forall a w b,
                          tree (h ++ ext) x a w b -> a <= b)
                      (map snd entries)).
      { apply Forall_forall. intros x _. apply tree_le. }
      refine (items_in_transfer _ _ _ _ Hle _ _ _ (Nat.le_refl _) _ Hvs).
      apply Forall_forall. intros x _ a w b _ Hb Hw. now apply tree_app.
Qed.
Lemma read_scalar (d : nat) (h : store) (v : val) :
  match v with VRef _ => False | _ => True end ->
  read d h v
  = match v with
    | VNull => Some JNull
    | VBool b => Some (JBool b)
    | VInt n => Some (JInt n)
    | VFloat f => Some (JFloat f)
    | VStr s => Some (JStr s)
    | VRef _ => None
    end.
Proof. destruct v, d; cbn; tauto. Qed.

Lemma items_in_items_le (h : store) l items :
  forall lo vs, items_in (tree h) l items lo vs -> lo <= l.
Proof.
  apply items_in_le. apply Forall_forall. intros x _. apply tree_le.
Qed.

(** A tree reads back as its document. *)
Lemma tree_read (h : store) (j : json) :
  forall lo v hi d,
    tree h j lo v hi -> hi - lo <= d -> read d h v = Some j.
Proof.
  induction j as [| | | | |items IH|entries IH] using json_rect';
    intros lo v hi d; cbn [tree];
    try (intros [-> _] _; now rewrite read_scalar).
  - intros (l & vs & -> & Hl & Hobj & Hitems) Hd.
    pose proof (items_in_items_le _ _ _ _ _ Hitems) as Hlo.
    destruct d as [|d]; [lia|]. cbn [read]. rewrite Hobj.
    assert (Hmap : mapO (read d h) vs = Some items); [|now rewrite Hmap].
    assert (Hd' : l - lo <= d) by lia. clear Hobj Hl Hd.
    revert lo vs Hitems Hlo Hd'.
    induction IH as [|x items Hx _ IHitems]; intros lo [|w vs];
      cbn [items_in mapO]; try tauto.
    intros (mid & Hw & Hrest) Hlo Hd'.
    pose proof (tree_le _ _ _ _ _ Hw) as Hmid.
    pose proof (items_in_items_le _ _ _ _ _ Hrest) as Hl.
    rewrite (Hx _ _ _ d Hw) by lia.
    now rewrite (IHitems mid vs Hrest) by lia.
  - intros (l & kvs & -> & Hl & Hobj & Hentries) Hd.
    apply entries_in_items in Hentries as Hitems. destruct Hitems as [_ Hitems].
    pose proof (items_in_items_le _ _ _ _ _ Hitems) as Hlo. clear Hitems.
    destruct d as [|d]; [lia|]. cbn [read]. rewrite Hobj.
    assert (Hmap : mapO (fun kv : string * val =>
                           option_map (pair (fst kv)) (read d h (snd kv)))
                     kvs = Some entries); [|now rewrite Hmap].
    assert (Hd' : l - lo <= d) by lia. clear Hobj Hl Hd Hlo.
    revert lo kvs Hentries Hd'.
    induction entries as [|[k x] entries IHentries]; intros lo [|[k' w] kvs];
      cbn [entries_in mapO]; try tauto.
    cbn [map snd] in IH. apply Forall_cons in IH as [Hx IH].
    intros (<- & mid & Hw & Hrest) Hd'.
    pose proof (tree_le _ _ _ _ _ Hw) as Hmid.
    apply entries_in_items in Hrest as Hrest'. destruct Hrest' as [_ Hrest'].
    pose proof (items_in_items_le _ _ _ _ _ Hrest') as Hl.
    cbn [fst snd]. rewrite (Hx _ _ _ d Hw) by lia. cbn [option_map].
    now rewrite (IHentries IH mid kvs Hrest) by lia.
Qed.

(** A deep copy of a tree appends a tree for the same document. *)
Lemma deepcopy_tree (j : json) :
  forall h lo v hi d,
    tree h j lo v hi -> hi <= List.length h -> hi - lo <= d ->
    exists v' ext,
      deepcopy_to d v h = (Ok v', h ++ ext)
      /\ tree (h ++ ext) j (List.length h) v' (List.length (h ++ ext)).
Proof.
  induction j as [| | | | |items IH|entries IH] using json_rect';
    intros h lo v hi d; cbn [tree];
    try (intros [-> _] _ _; eexists; exists []; rewrite app_nil_r;
         destruct d; cbn; now repeat split).
  - intros (l & vs & -> & Hl & Hobj & Hitems) Hhi Hd.
    pose proof (items_in_items_le _ _ _ _ _ Hitems) as Hlo.
    destruct d as [|d]; [lia|]. cbn [deepcopy_to]. unfold bind at 1, deref.
    rewrite Hobj.
    assert (Hcopy : exists vs' ext,
               mapS (deepcopy_to d) vs h = (Ok vs', h ++ ext)
               /\ items_in (tree (h ++ ext)) (List.length (h ++ ext)) items
                    (List.length h) vs').
    { assert (Hd' : l - lo <= d) by lia.
      assert (Hlh : l <= List.length h) by lia.
      clear Hobj Hl Hd Hhi. revert h lo vs Hitems Hlo Hd' Hlh.
      induction IH as [|x items Hx _ IHitems]; intros h lo [|w vs];
        cbn [items_in]; try tauto.
      - intros _ _ _ _. exists [], []. rewrite app_nil_r. cbn. now split.
      - intros (mid & Hw & Hrest) Hlo Hd' Hlh.
        pose proof (tree_le _ _ _ _ _ Hw) as Hmid.
        pose proof (items_in_items_le _ _ _ _ _ Hrest) as Hl.
        destruct (Hx h lo w mid d Hw) as (w' & e1 & Hcopy & Hw');
          [lia|lia|].
        destruct (IHitems (h ++ e1) mid vs) as (vs' & e2 & Hrest' & Hvs');
          [|lia|lia|rewrite length_app; lia|].
        { refine (items_in_transfer _ _ _ _ _ mid mid vs (Nat.le_refl _) _
                    Hrest).
          - apply Forall_forall. intros y _. apply tree_le.
          - apply Forall_forall. intros y _ a u b _ Hb Hu.
            apply tree_app; [exact Hu|lia]. }
        exists (w' :: vs'), (e1 ++ e2). cbn [mapS]. unfold bind.
        rewrite Hcopy, Hrest', app_assoc. split; [reflexivity|].
        cbn [items_in]. exists (List.length (h ++ e1)).
        split; [now apply tree_app|exact Hvs']. }
    destruct Hcopy as (vs' & ext & Hmap & Hvs').
    exists (VRef (List.length (h ++ ext))), (ext ++ [OList vs']).
    unfold bind, alloc. rewrite Hmap, app_assoc. split; [reflexivity|].
    cbn [tree]. exists (List.length (h ++ ext)), vs'. repeat split.
    + rewrite (length_app (h ++ ext)). cbn. lia.
    + now rewrite lookup_app_r, Nat.sub_diag.
    + refine (items_in_transfer _ _ _ _ _ _ _ _ (Nat.le_refl _) _ Hvs').
      * apply Forall_forall. intros y _. apply tree_le.
      * apply Forall_forall. intros y _ a u b _ Hb Hu. now apply tree_app.
  - intros (l & kvs & -> & Hl & Hobj & Hentries) Hhi Hd.
    apply entries_in_items in Hentries as Hitems. destruct Hitems as [_ Hitems].
    pose proof (items_in_items_le _ _ _ _ _ Hitems) as Hlo. clear Hitems.
    destruct d as [|d]; [lia|]. cbn [deepcopy_to]. unfold bind at 1, deref.
    rewrite Hobj.
    assert (Hcopy : exists kvs' ext,
               mapS (fun kv : string * val =>
                       bind (deepcopy_to d (snd kv))
                         (fun v => ret (fst kv, v))) kvs h
               = (Ok kvs', h ++ ext)
               /\ entries_in (tree (h ++ ext)) (List.length (h ++ ext))
                    entries (List.length h) kvs').
    { assert (Hd' : l - lo <= d) by lia.
      assert (Hlh : l <= List.length h) by lia.
      clear Hobj Hl Hd Hhi. revert h lo kvs Hentries Hlo Hd' Hlh.
      induction entries as [|[k x] entries IHentries];
        intros h lo [|[k' w] kvs]; cbn [entries_in]; try tauto.
      - intros _ _ _ _. exists [], []. rewrite app_nil_r. cbn. now split.
      - cbn [map snd] in IH. apply Forall_cons in IH as [Hx IH].
        intros (<- & mid & Hw & Hrest) Hlo Hd' Hlh.
        pose proof (tree_le _ _ _ _ _ Hw) as Hmid.
        apply entries_in_items in Hrest as Hrest0.
        destruct Hrest0 as [Hkeys Hrest0].
        pose proof (items_in_items_le _ _ _ _ _ Hrest0) as Hl.
        destruct (Hx h lo w mid d Hw) as (w' & e1 & Hcopy & Hw');
          [lia|lia|].
        destruct (IHentries IH (h ++ e1) mid kvs)
          as (kvs' & e2 & Hrest' & Hkvs');
          [|lia|lia|rewrite length_app; lia|].
        { apply entries_in_items. split; [exact Hkeys|].
          refine (items_in_transfer _ _ _ _ _ mid mid _ (Nat.le_refl _) _
                    Hrest0).
          - apply Forall_forall. intros y _. apply tree_le.
          - apply Forall_forall. intros y _ a u b _ Hb Hu.
            apply tree_app; [exact Hu|lia]. }
        exists ((k, w') :: kvs'), (e1 ++ e2). cbn [mapS fst snd].
        unfold bind, ret. rewrite Hcopy. unfold bind, ret in Hrest'.
        rewrite Hrest', app_assoc. split; [reflexivity|].
        cbn [entries_in]. split; [reflexivity|].
        exists (List.length (h ++ e1)).
        split; [now apply tree_app|exact Hkvs']. }
    destruct Hcopy as (kvs' & ext & Hmap & Hkvs').
    exists (VRef (List.length (h ++ ext))), (ext ++ [ODict kvs']).
    unfold bind, alloc. unfold bind in Hmap. rewrite Hmap, app_assoc.
    split; [reflexivity|].
    cbn [tree]. exists (List.length (h ++ ext)), kvs'. repeat split.
    + rewrite (length_app (h ++ ext)). cbn. lia.
    + now rewrite lookup_app_r, Nat.sub_diag.
    + apply entries_in_items in Hkvs' as [Hkeys Hvs'].
      apply entries_in_items. split; [exact Hkeys|].
      refine (items_in_transfer _ _ _ _ _ _ _ _ (Nat.le_refl _) _ Hvs').
      * apply Forall_forall. intros y _. apply tree_le.
      * apply Forall_forall. intros y _ a u b _ Hb Hu. now apply tree_app.
Qed.
End TreeStore.

(** ** The operations on a tree *)

Section TreeOperations.
Import Store.

Lemma tree_str (h : store) (j : json) lo v hi (k : string) :
  tree h j lo v hi -> val_is_str k v = is_str k j.
Proof. destruct j; cbn [tree]; try (now intros [-> _]); now intros (? & ? & -> & _). Qed.

Lemma items_in_is_str (h : store) l (k : string) items :
  forall lo vs,
    items_in (tree h) l items lo vs ->
    existsb (val_is_str k) vs = existsb (is_str k) items.
Proof.
  induction items as [|x items IH]; intros lo [|w vs]; cbn [items_in existsb];
    try tauto.
  intros (mid & Hw & Hrest).
  now rewrite (tree_str _ _ _ _ _ k Hw), (IH _ _ Hrest).
Qed.

Lemma entries_in_raise T l l' entries :
  forall lo kvs,
    entries_in T l entries lo kvs -> l <= l' -> entries_in T l' entries lo kvs.
Proof.
  induction entries as [|[k x] entries IH]; intros lo [|[k' w] kvs];
    cbn [entries_in]; try tauto; [lia|].
  intros (-> & mid & Hw & Hrest) Hl. split; [reflexivity|].
  exists mid. split; [exact Hw|]. now apply IH.
Qed.

Lemma entries_in_le (h : store) l entries :
  forall lo kvs, entries_in (tree h) l entries lo kvs -> lo <= l.
Proof.
  intros lo kvs H. apply entries_in_items in H as [_ H].
  exact (items_in_items_le _ _ _ _ _ H).
Qed.

Lemma entries_in_widen (h : store) l entries :
  forall lo lo' kvs,
    lo' <= lo -> entries_in (tree h) l entries lo kvs ->
    entries_in (tree h) l entries lo' kvs.
Proof.
  intros lo lo' kvs Hlo. destruct entries as [|[k x] entries];
    destruct kvs as [|[k' w] kvs]; cbn [entries_in]; try tauto; [lia|].
  intros (-> & mid & Hw & Hrest). split; [reflexivity|]. exists mid.
  split; [|exact Hrest]. exact (tree_mono _ _ _ _ _ _ _ Hw Hlo (Nat.le_refl _)).
Qed.

Lemma entries_in_frame (h h' : store) l entries :
  forall lo kvs,
    entries_in (tree h) l entries lo kvs ->
    (forall loc, lo <= loc < l -> h' !! loc = h !! loc) ->
    entries_in (tree h') l entries lo kvs.
Proof.
  induction entries as [|[k x] entries IH]; intros lo [|[k' w] kvs];
    cbn [entries_in]; try tauto.
  intros (-> & mid & Hw & Hrest) Hsame.
  pose proof (tree_le _ _ _ _ _ Hw) as Hmid.
  pose proof (entries_in_le _ _ _ _ _ Hrest) as Hl.
  split; [reflexivity|]. exists mid. split.
  - apply (tree_frame h); [exact Hw|]. intros loc Hloc. apply Hsame. lia.
  - apply IH; [exact Hrest|]. intros loc Hloc. apply Hsame. lia.
Qed.

(** The entry a key has in the object is the tree of the entry it has in
    the document; on that tree the whole can be rebuilt. *)
Lemma entries_in_focus (h : store) l (k : string) entries :
  forall lo kvs,
    entries_in (tree h) l entries lo kvs ->
    match dict_get k entries with
    | Some x =>
        exists w a b,
          entry_get k kvs = Some w /\ lo <= a /\ b <= l /\ tree h x a w b
          /\ forall h' x',
               (forall loc, lo <= loc < l -> ~ (a <= loc < b) ->
                  h' !! loc = h !! loc) ->
               tree h' x' a w b ->
               entries_in (tree h') l (dict_set k x' entries) lo kvs
    | None => entry_get k kvs = None
    end.
Proof.
  induction entries as [|[k0 x0] entries IH]; intros lo [|[k' w0] kvs];
    cbn [entries_in dict_get entry_get]; try tauto.
  intros (<- & mid & Hw & Hrest).
  pose proof (tree_le _ _ _ _ _ Hw) as Hmid.
  pose proof (entries_in_le _ _ _ _ _ Hrest) as Hl.
  destruct (String.eqb k k0) eqn:Ek.
  - exists w0, lo, mid. repeat split; try assumption; try lia.
    intros h' x' Hsame Hx'. cbn [dict_set]. rewrite Ek. cbn [entries_in].
    split; [reflexivity|]. exists mid. split; [exact Hx'|].
    apply (entries_in_frame h); [exact Hrest|].
    intros loc Hloc. apply Hsame; lia.
  - specialize (IH mid kvs Hrest).
    destruct (dict_get k entries) as [x|]; [|exact IH].
    destruct IH as (w & a & b & Hget & Ha & Hb & Hx & Hset).
    exists w, a, b. repeat split; try assumption; try lia.
    intros h' x' Hsame Hx'. cbn [dict_set]. rewrite Ek. cbn [entries_in].
    split; [reflexivity|]. exists mid. split.
    + apply (tree_frame h); [exact Hw|]. intros loc Hloc. apply Hsame; lia.
    + apply Hset; [|exact Hx']. intros loc Hloc Hout. apply Hsame; lia.
Qed.

Lemma entries_in_del (h : store) l (k : string) entries :
  forall lo kvs,
    entries_in (tree h) l entries lo kvs ->
    entries_in (tree h) l (dict_del k entries) lo (entry_del k kvs).
Proof.
  unfold dict_del, entry_del.
  induction entries as [|[k0 x0] entries IH]; intros lo [|[k' w0] kvs];
    cbn [entries_in List.filter fst]; try tauto.
  intros (<- & mid & Hw & Hrest).
  pose proof (tree_le _ _ _ _ _ Hw) as Hmid.
  destruct (negb (String.eqb k k0)); cbn [entries_in].
  - split; [reflexivity|]. exists mid. split; [exact Hw|]. now apply IH.
  - apply (entries_in_widen _ _ _ mid); [exact Hmid|]. now apply IH.
Qed.
End TreeOperations.

(** ** The statements on a tree *)

Section TreeStatements.
Import Store.

Lemma changed_at_refl (h : store) v : changed_at h h v.
Proof. now split. Qed.

Lemma changed_at_trans (h1 h2 h3 : store) v :
  changed_at h1 h2 v -> changed_at h2 h3 v -> changed_at h1 h3 v.
Proof.
  intros [Hl1 H1] [Hl2 H2]. split; [congruence|].
  intros loc Hloc. now rewrite H2, H1.
Qed.

Lemma changed_within_refl (h : store) a b : changed_within h h a b.
Proof. now split. Qed.

Lemma changed_within_trans (h1 h2 h3 : store) a b :
  changed_within h1 h2 a b -> changed_within h2 h3 a b ->
  changed_within h1 h3 a b.
Proof.
  intros [Hl1 H1] [Hl2 H2]. split; [congruence|].
  intros loc Hloc. now rewrite H2, H1.
Qed.

Lemma changed_within_mono (h h' : store) a b a' b' :
  changed_within h h' a b -> a' <= a -> b <= b' ->
  changed_within h h' a' b'.
Proof.
  intros [Hl H] Ha Hb. split; [exact Hl|]. intros loc Hloc. apply H. lia.
Qed.

Lemma changed_within_empty (h h' : store) a :
  changed_within h h' a a -> h' = h.
Proof.
  intros [_ H]. apply list_eq. intros loc. apply H. lia.
Qed.

Lemma tree_root (h : store) (j : json) lo hi l :
  tree h j lo (VRef l) hi -> lo <= l < hi.
Proof.
  destruct j; cbn [tree]; try (now intros [[=] _]).
  - intros (l' & vs & [= ->] & Hl & _ & Hitems).
    pose proof (items_in_items_le _ _ _ _ _ Hitems). lia.
  - intros (l' & kvs & [= ->] & Hl & _ & Hentries).
    pose proof (entries_in_le _ _ _ _ _ Hentries). lia.
Qed.

Lemma changed_at_within (h h' : store) (j : json) lo v hi :
  tree h j lo v hi -> changed_at h h' v -> changed_within h h' lo hi.
Proof.
  intros Ht [Hl H]. split; [exact Hl|]. intros loc Hloc. apply H.
  intros ->. apply tree_root in Ht. lia.
Qed.

Lemma changed_assign (h : store) (l : loc) (o : obj) :
  changed_at h (<[l := o]> h) (VRef l).
Proof.
  split; [apply length_insert|]. intros loc Hloc.
  apply list_lookup_insert_ne. congruence.
Qed.

(** ['k' in x] *)
Lemma s_in_tree (h : store) (j : json) lo v hi (k : string) :
  tree h j lo v hi -> s_in k v h = (py_in k j, h).
Proof.
  destruct j; cbn [tree]; try (now intros [-> _]).
  - intros (l & vs & -> & _ & Hobj & Hitems). cbn [s_in py_in].
    unfold bind, deref. rewrite Hobj. unfold ret.
    now rewrite (items_in_is_str _ _ k _ _ _ Hitems).
  - intros (l & kvs & -> & _ & Hobj & Hentries). cbn [s_in py_in].
    unfold bind, deref. rewrite Hobj. unfold ret, dict_has.
    pose proof (entries_in_focus _ _ k _ _ _ Hentries) as Hk.
    destruct (dict_get k entries).
    + destruct Hk as (w & a & b & -> & _). reflexivity.
    + now rewrite Hk.
Qed.

(** [x['k']]: the tree of the entry, in which the tree of [x] can be
    rebuilt after a change to the entry. *)
Lemma s_getitem_tree (h : store) (j : json) lo v hi (k : string) :
  tree h j lo v hi ->
  match py_getitem j k with
  | Ok x =>
      exists w a b,
        s_getitem v k h = (Ok w, h) /\ lo <= a /\ b <= hi /\ tree h x a w b
        /\ forall h' x',
             changed_within h h' a b -> tree h' x' a w b ->
             exists j', py_setitem j k x' = Ok j' /\ tree h' j' lo v hi
  | Exc e => s_getitem v k h = (Exc e, h)
  end.
Proof.
  destruct j; cbn [tree]; try (now intros [-> _]).
  - now intros (l & vs & -> & _ & Hobj & _); cbn; unfold bind, deref;
      rewrite Hobj.
  - intros (l & kvs & -> & Hl & Hobj & Hentries). cbn [s_getitem py_getitem].
    unfold bind, deref. rewrite Hobj.
    pose proof (entries_in_focus _ _ k _ _ _ Hentries) as Hk.
    destruct (dict_get k entries) as [x|]; [|now rewrite Hk].
    destruct Hk as (w & a & b & -> & Ha & Hb & Hx & Hset).
    exists w, a, b. repeat split; try assumption; try lia.
    intros h' x' [_ Hsame] Hx'. eexists. split; [reflexivity|].
    cbn [tree]. exists l, kvs. repeat split; try assumption.
    + rewrite Hsame by lia. exact Hobj.
    + apply Hset; [|exact Hx']. intros loc _ Hout. now apply Hsame.
Qed.

Lemma tree_entry_del (h : store) l kvs entries lo hi (k : string) :
  l < hi -> h !! l = Some (ODict kvs) ->
  entries_in (tree h) l entries lo kvs ->
  tree (<[l := ODict (entry_del k kvs)]> h) (JDict (dict_del k entries)) lo
    (VRef l) hi.
Proof.
  intros Hl Hobj Hentries. cbn [tree].
  exists l, (entry_del k kvs). repeat split; [exact Hl| |].
  - apply list_lookup_insert_eq. now apply lookup_lt_Some in Hobj.
  - apply (entries_in_frame h); [now apply entries_in_del|].
    intros loc Hloc. apply list_lookup_insert_ne. lia.
Qed.

(** [del x['k']] *)
Lemma s_delitem_tree (h : store) (j : json) lo v hi (k : string) :
  tree h j lo v hi ->
  match py_delitem j k with
  | Ok j' =>
      exists h',
        s_delitem v k h = (Ok tt, h') /\ tree h' j' lo v hi
        /\ changed_at h h' v
  | Exc e => s_delitem v k h = (Exc e, h)
  end.
Proof.
  destruct j; cbn [tree]; try (now intros [-> _]).
  - now intros (l & vs & -> & _ & Hobj & _); cbn; unfold bind, deref;
      rewrite Hobj.
  - intros (l & kvs & -> & Hl & Hobj & Hentries). cbn [s_delitem py_delitem].
    unfold bind, deref. rewrite Hobj. unfold dict_has.
    pose proof (entries_in_focus _ _ k _ _ _ Hentries) as Hk.
    destruct (dict_get k entries) as [x|]; [|now rewrite Hk].
    destruct Hk as (w & a & b & -> & _).
    eexists. split; [reflexivity|]. split.
    + now apply tree_entry_del.
    + apply changed_assign.
Qed.

(** [x.pop('k', None)] *)
Lemma s_pop_tree (h : store) (j : json) lo v hi (k : string) :
  tree h j lo v hi ->
  match py_pop j k with
  | Ok j' =>
      exists h',
        s_pop v k h = (Ok tt, h') /\ tree h' j' lo v hi /\ changed_at h h' v
  | Exc e => s_pop v k h = (Exc e, h)
  end.
Proof.
  destruct j; cbn [tree]; try (now intros [-> _]).
  - now intros (l & vs & -> & _ & Hobj & _); cbn; unfold bind, deref;
      rewrite Hobj.
  - intros (l & kvs & -> & Hl & Hobj & Hentries). cbn [s_pop py_pop].
    unfold bind, deref. rewrite Hobj.
    eexists. split; [reflexivity|]. split.
    + now apply tree_entry_del.
    + apply changed_assign.
Qed.

(** [if field in x: del x[field]] *)
Lemma del_if_present_tree (h : store) (j : json) lo v hi (k : string) :
  tree h j lo v hi ->
  match Cleaner.del_if_present j k with
  | Ok j' =>
      exists h',
        Store.del_if_present v k h = (Ok tt, h') /\ tree h' j' lo v hi
        /\ changed_at h h' v
  | Exc e => Store.del_if_present v k h = (Exc e, h)
  end.
Proof.
  intros Ht. unfold Cleaner.del_if_present, Store.del_if_present, bind.
  rewrite (s_in_tree _ _ _ _ _ k Ht).
  destruct (py_in k j) as [[|]|e]; cbn [rbind]; [| |reflexivity].
  - exact (s_delitem_tree _ _ _ _ _ k Ht).
  - exists h. split; [reflexivity|]. split; [exact Ht|apply changed_at_refl].
Qed.

(** A loop of statements on one object, each of them as above. *)
Lemma forS_tree (f : json -> string -> res json)
    (body : val -> string -> S unit) :
  (forall h j lo v hi k,
      tree h j lo v hi ->
      match f j k with
      | Ok j' =>
          exists h',
            body v k h = (Ok tt, h') /\ tree h' j' lo v hi
            /\ changed_at h h' v
      | Exc e => body v k h = (Exc e, h)
      end) ->
  forall fields h j lo v hi,
    tree h j lo v hi ->
    exists h',
      changed_at h h' v
      /\ match foldM f j fields with
         | Ok j' =>
             forS (body v) fields h = (Ok tt, h') /\ tree h' j' lo v hi
         | Exc e => forS (body v) fields h = (Exc e, h')
         end.
Proof.
  intros Hbody fields.
  induction fields as [|k fields IH]; intros h j lo v hi Ht;
    cbn [foldM forS].
  - exists h. split; [apply changed_at_refl|]. now split.
  - specialize (Hbody h j lo v hi k Ht). unfold bind.
    destruct (f j k) as [j1|e]; cbn [rbind].
    + destruct Hbody as (h1 & -> & Ht1 & Hch1).
      destruct (IH h1 j1 lo v hi Ht1) as (h' & Hch & Hrest).
      exists h'. split; [exact (changed_at_trans _ _ _ _ Hch1 Hch)|].
      exact Hrest.
    + exists h. split; [apply changed_at_refl|]. now rewrite Hbody.
Qed.
End TreeStatements.

(** ** The deployer's cleaner on loaded documents *)

Section CleanRuleJsonOnStore.
Import Store.

Lemma clean_rule_json_tree (h : store) (doc : json) lo v hi :
  tree h doc lo v hi -> hi <= List.length h ->
  refines h (Deployer.clean_rule_json doc) (Store.clean_rule_json v h).
Proof.
  intros Hdoc Hhi.
  pose proof (tree_le _ _ _ _ _ Hdoc) as Hlo.
  destruct (deepcopy_tree doc h lo v hi (List.length h) Hdoc Hhi ltac:(lia))
    as (c & ext & Hcopy & Hc).
  remember (h ++ ext) as h1 eqn:Eh1.
  destruct (forS_tree py_pop s_pop s_pop_tree Deployer.readonly_fields
              h1 doc _ c _ Hc) as (h2 & Hch2 & Hpop).
  pose proof (changed_at_within _ _ _ _ _ _ Hc Hch2) as [Hlen2 Hsame2].
  assert (Hframe : forall h3,
             changed_within h2 h3 (List.length h) (List.length h1) ->
             List.length h <= List.length h3
             /\ forall loc, loc < List.length h -> h3 !! loc = h !! loc).
  { intros h3 [Hlen3 Hsame3]. split.
    - rewrite Hlen3, Hlen2. subst h1. rewrite length_app. lia.
    - intros loc Hloc. rewrite Hsame3, Hsame2 by lia.
      subst h1. now apply lookup_app_l. }
  unfold refines, Deployer.clean_rule_json, Store.clean_rule_json, deepcopy.
  unfold bind. rewrite Hcopy.
  destruct (foldM py_pop doc Deployer.readonly_fields) as [j1|e];
    cbn [rbind].
  2:{ rewrite Hpop. 
      destruct (Hframe h2 (changed_within_refl _ _ _)). now repeat split. }
  destruct Hpop as [-> Hj1]. rewrite <- Hlen2 in Hj1.
  rewrite (s_in_tree _ _ _ _ _ "output" Hj1).
  assert (Hstop : forall e : exn,
             List.length h <= List.length h2
             /\ (forall loc, loc < List.length h -> h2 !! loc = h !! loc)
             /\ e = e).
  { intros e. destruct (Hframe h2 (changed_within_refl _ _ _)).
    now repeat split. }
  assert (Hsame : List.length h <= List.length h2
             /\ (forall loc, loc < List.length h -> h2 !! loc = h !! loc)
             /\ tree h2 j1 (List.length h) c (List.length h2)).
  { destruct (Hframe h2 (changed_within_refl _ _ _)). now repeat split. }
  destruct (py_in "output" j1) as [[|]|e]; cbn [rbind];
    [|exact Hsame|apply Hstop].
  pose proof (s_getitem_tree _ _ _ _ _ "output" Hj1) as Hout.
  destruct (py_getitem j1 "output") as [output|e]; cbn [rbind];
    [|rewrite Hout; apply Hstop].
  destruct Hout as (w & a & b & -> & Ha & Hb & Hw & Hset).
  rewrite (s_in_tree _ _ _ _ _ "recipients" Hw).
  destruct (py_in "recipients" output) as [[|]|e]; cbn [rbind];
    [|exact Hsame|apply Hstop].
  pose proof (s_getitem_tree _ _ _ _ _ "recipients" Hw) as Hrec.
  destruct (py_getitem output "recipients") as [recipients|e]; cbn [rbind];
    [|rewrite Hrec; apply Hstop].
  destruct Hrec as (w' & a' & b' & -> & Ha' & Hb' & Hw' & Hset').
  rewrite (s_in_tree _ _ _ _ _ "notificationEndpointIds" Hw').
  destruct (py_in "notificationEndpointIds" recipients) as [[|]|e];
    cbn [rbind]; [|exact Hsame|apply Hstop].
  pose proof (s_delitem_tree _ _ _ _ _ "notificationEndpointIds" Hw') as Hdel.
  destruct (py_delitem recipients "notificationEndpointIds")
    as [recipients'|e]; cbn [rbind]; [|rewrite Hdel; apply Hstop].
  destruct Hdel as (h3 & -> & Hw3 & Hch3).
  pose proof (changed_at_within _ _ _ _ _ _ Hw' Hch3) as Hin3.
  destruct (Hset' h3 recipients' Hin3 Hw3) as (output' & -> & Houtput').
  cbn [rbind].
  assert (Hin3' : changed_within h2 h3 a b).
  { apply (changed_within_mono _ _ _ _ _ _ Hin3); lia. }
  destruct (Hset h3 output' Hin3' Houtput') as (j' & -> & Hj').
  assert (Hin3'' : changed_within h2 h3 (List.length h) (List.length h1)).
  { apply (changed_within_mono _ _ _ _ _ _ Hin3'); lia. }
  destruct (Hframe h3 Hin3'') as [Hlen3 Hsame3].
  unfold ret. repeat split; try assumption.
  destruct Hin3 as [-> _]. exact Hj'.
Qed.

(** X1.  [clean_rule_json] on a document that [json.load] has just put
    in the store [h]: whether the run returns or raises, the loaded
    value still reads as the document; and when the run returns, the
    cleaner on documents returns too, and the returned value reads as
    the document it returns. *)
Theorem clean_rule_json_on_store (doc : json) (h : store) :
  exists rule_data h1 r h2,
    load doc h = (Ok rule_data, h1)
    /\ Store.clean_rule_json rule_data h1 = (r, h2)
    /\ read (List.length h2) h2 rule_data = Some doc
    /\ forall cleaned_data,
         r = Ok cleaned_data ->
         exists doc',
           Deployer.clean_rule_json doc = Ok doc'
           /\ read (List.length h2) h2 cleaned_data = Some doc'.
Proof.
  destruct (load_tree doc h) as (v & ext & Hload & Hv).
  pose proof (clean_rule_json_tree _ _ _ _ _ Hv (Nat.le_refl _)) as Hrun.
  destruct (Store.clean_rule_json v (h ++ ext)) as [r h2] eqn:Erun.
  destruct Hrun as (Hlen & Hsame & Hres).
  exists v, (h ++ ext), r, h2. repeat split; try assumption.
  - apply (tree_read _ _ (List.length h) _ (List.length (h ++ ext))); [|lia].
    apply (tree_frame (h ++ ext)); [exact Hv|].
    intros loc Hloc. apply Hsame. lia.
  - intros cleaned_data ->.
    destruct (Deployer.clean_rule_json doc) as [doc'|e]; [|contradiction].
    exists doc'. split; [reflexivity|].
    apply (tree_read _ _ _ _ _ _ Hres). lia.
Qed.
End CleanRuleJsonOnStore.

(** ** The exporter's cleaner on loaded documents *)

Section CleanRuleOnStore.
Import Store.

Lemma entry_get_del_sub (k : string) kvs : sub_entries (entry_del k kvs) kvs.
Proof.
  intros k' w. unfold entry_del.
  induction kvs as [|[k0 w0] kvs IH]; cbn [List.filter entry_get fst];
    [discriminate|].
  destruct (String.eqb k k0) eqn:E; cbn [negb entry_get].
  - intros H. specialize (IH H). apply String.eqb_eq in E as <-.
    destruct (String.eqb k' k) eqn:E'; [|exact IH].
    apply String.eqb_eq in E' as ->.
    exfalso. clear IH. revert H. clear.
    induction kvs as [|[k1 w1] kvs IH]; cbn [List.filter entry_get fst];
      [discriminate|].
    destruct (String.eqb k k1) eqn:E; cbn [negb entry_get]; [exact IH|].
    now rewrite E.
  - destruct (String.eqb k' k0); [trivial|exact IH].
Qed.

Lemma items_in_raise T l l' items :
  forall lo vs,
    items_in T l items lo vs -> l <= l' -> items_in T l' items lo vs.
Proof.
  induction items as [|x items IH]; intros lo [|w vs]; cbn [items_in];
    try tauto; [lia|].
  intros (mid & Hw & Hrest) Hl. exists mid. split; [exact Hw|]. now apply IH.
Qed.

Lemma items_in_frame (h h' : store) l items :
  forall lo vs,
    items_in (tree h) l items lo vs ->
    (forall loc, lo <= loc < l -> h' !! loc = h !! loc) ->
    items_in (tree h') l items lo vs.
Proof.
  induction items as [|x items IH]; intros lo [|w vs]; cbn [items_in];
    try tauto.
  intros (mid & Hw & Hrest) Hsame.
  pose proof (tree_le _ _ _ _ _ Hw) as Hmid.
  pose proof (items_in_items_le _ _ _ _ _ Hrest) as Hl.
  exists mid. split.
  - apply (tree_frame h); [exact Hw|]. intros loc Hloc. apply Hsame. lia.
  - apply IH; [exact Hrest|]. intros loc Hloc. apply Hsame. lia.
Qed.

(** [x.copy()]: one new object over the parts of [x]. *)
Lemma s_copy_tree (h : store) (j : json) lo v hi :
  tree h j lo v hi -> hi <= List.length h ->
  match py_copy j with
  | Ok j' =>
      exists o,
        s_copy v h = (Ok (VRef (List.length h)), h ++ [o])
        /\ tree (h ++ [o]) j' lo (VRef (List.length h))
             (Datatypes.S (List.length h))
  | Exc e => s_copy v h = (Exc e, h)
  end.
Proof.
  intros Ht Hhi.
  destruct j; cbn [tree] in Ht; try (now destruct Ht as [-> _]).
  - destruct Ht as (l & vs & -> & Hl & Hobj & Hitems). cbn [py_copy s_copy].
    unfold bind, deref, alloc. rewrite Hobj. eexists. split; [reflexivity|].
    cbn [tree]. exists (List.length h), vs. repeat split; [lia| |].
    + now rewrite lookup_app_r, Nat.sub_diag.
    + apply (items_in_frame h).
      * apply (items_in_raise _ l); [exact Hitems|lia].
      * intros loc Hloc. apply lookup_app_l. lia.
  - destruct Ht as (l & kvs & -> & Hl & Hobj & Hentries).
    cbn [py_copy s_copy].
    unfold bind, deref, alloc. rewrite Hobj. eexists. split; [reflexivity|].
    cbn [tree]. exists (List.length h), kvs. repeat split; [lia| |].
    + now rewrite lookup_app_r, Nat.sub_diag.
    + apply (entries_in_frame h).
      * apply (entries_in_raise _ l); [exact Hentries|lia].
      * intros loc Hloc. apply lookup_app_l. lia.
Qed.

(** The loop over the components, each of them changed behind its own
    reference. *)
Lemma components_loop_tree (l : nat) (items : list json) :
  forall (h : store) lo vs,
    items_in (tree h) l items lo vs ->
    exists h',
      changed_within h h' lo l
      /\ match mapM Cleaner.clean_component items with
         | Ok items' =>
             forS (fun component =>
                     forS (Store.del_if_present component)
                       Cleaner.SUBCOMPONENT_READONLY_FIELDS) vs h
             = (Ok tt, h')
             /\ items_in (tree h') l items' lo vs
         | Exc e =>
             forS (fun component =>
                     forS (Store.del_if_present component)
                       Cleaner.SUBCOMPONENT_READONLY_FIELDS) vs h
             = (Exc e, h')
         end.
Proof.
  induction items as [|x items IH]; intros h lo [|w vs]; cbn [items_in];
    try tauto.
  - intros Hlo. exists h. split; [apply changed_within_refl|]. now split.
  - intros (mid & Hw & Hrest).
    pose proof (tree_le _ _ _ _ _ Hw) as Hmid.
    pose proof (items_in_items_le _ _ _ _ _ Hrest) as Hl.
    destruct (forS_tree Cleaner.del_if_present Store.del_if_present
                del_if_present_tree Cleaner.SUBCOMPONENT_READONLY_FIELDS
                h x lo w mid Hw) as (h1 & Hch1 & Hhead).
    pose proof (changed_at_within _ _ _ _ _ _ Hw Hch1) as Hin1.
    cbn [mapM forS]. unfold bind. fold (Cleaner.clean_component x).
    unfold Cleaner.clean_component at 1.
    destruct (foldM Cleaner.del_if_present x
                Cleaner.SUBCOMPONENT_READONLY_FIELDS) as [x'|e];
      cbn [rbind].
    + destruct Hhead as [-> Hx'].
      assert (Hrest1 : items_in (tree h1) l items mid vs).
      { apply (items_in_frame h); [exact Hrest|].
        intros loc Hloc. apply Hin1. lia. }
      destruct (IH h1 mid vs Hrest1) as (h' & Hin' & Htail).
      exists h'. split.
      { apply (changed_within_trans _ h1).
        - apply (changed_within_mono _ _ _ _ _ _ Hin1); lia.
        - apply (changed_within_mono _ _ _ _ _ _ Hin'); lia. }
      destruct (mapM Cleaner.clean_component items) as [items'|e];
        cbn [rbind]; [|exact Htail].
      destruct Htail as [-> Hitems']. split; [reflexivity|].
      cbn [items_in]. exists mid. split; [|exact Hitems'].
      apply (tree_frame h1); [exact Hx'|].
      intros loc Hloc. apply Hin'. lia.
    + exists h1. rewrite Hhead. split; [|reflexivity].
      apply (changed_within_mono _ _ _ _ _ _ Hin1); lia.
Qed.

(** A sequence of strings stands for itself, in no object at all. *)
Lemma items_in_strings (h : store) (a : nat) (ks : list string) :
  items_in (tree h) a (map JStr ks) a (map VStr ks).
Proof.
  induction ks as [|k ks IH]; cbn [map items_in]; [lia|].
  exists a. split; [|exact IH]. now split.
Qed.

Lemma chars_strings (s : string) :
  chars s
  = map JStr (map (fun c => String c EmptyString) (list_ascii_of_string s)).
Proof. induction s as [|c s IH]; cbn; [reflexivity|now rewrite IH]. Qed.
End CleanRuleOnStore.

(** ** The exporter's cleaner: what the copy shares with the argument *)

Section CleanRuleShares.
Import Store.

Lemma bind_Ok {A B} (m : S A) (k : A -> S B) (h h' : store) (a : A) :
  m h = (Ok a, h') -> bind m k h = k a h'.
Proof. unfold bind. now intros ->. Qed.

Lemma bind_Exc {A B} (m : S A) (k : A -> S B) (h h' : store) (e : exn) :
  m h = (Exc e, h') -> bind m k h = (Exc e, h').
Proof. unfold bind. now intros ->. Qed.

(** The deletion changes the object behind its reference only, and a
    list not at all. *)
Lemma del_if_present_object (h : store) (n : loc) (o : obj) (k : string)
    r h' :
  h !! n = Some o ->
  Store.del_if_present (VRef n) k h = (r, h') ->
  (forall loc, loc <> n -> h' !! loc = h !! loc)
  /\ match o with
     | ODict kvs =>
         exists kvs', h' !! n = Some (ODict kvs') /\ sub_entries kvs' kvs
     | OList vs => h' !! n = Some (OList vs)
     end.
Proof.
  intros Hobj. unfold Store.del_if_present, s_in, s_delitem, bind, deref.
  rewrite Hobj. unfold ret. destruct o as [kvs|vs].
  - destruct (entry_get k kvs) eqn:Ek.
    + rewrite Hobj, Ek. unfold assign. intros [= _ <-]. split.
      * intros loc Hloc. apply list_lookup_insert_ne. congruence.
      * exists (entry_del k kvs). split; [|apply entry_get_del_sub].
        apply list_lookup_insert_eq. now apply lookup_lt_Some in Hobj.
    + intros [= _ <-]. split; [reflexivity|].
      exists kvs. split; [exact Hobj|]. now intros k' w.
  - destruct (existsb (val_is_str k) vs).
    + rewrite Hobj. unfold raise. now intros [= _ <-].
    + now intros [= _ <-].
Qed.

Lemma del_loop_object (n : loc) (fields : list string) :
  forall (h : store) (o : obj) r h',
    h !! n = Some o ->
    forS (Store.del_if_present (VRef n)) fields h = (r, h') ->
    (forall loc, loc <> n -> h' !! loc = h !! loc)
    /\ match o with
       | ODict kvs =>
           exists kvs', h' !! n = Some (ODict kvs') /\ sub_entries kvs' kvs
       | OList vs => h' !! n = Some (OList vs)
       end.
Proof.
  induction fields as [|k fields IH]; intros h o r h' Hobj; cbn [forS].
  - intros [= _ <-]. split; [reflexivity|]. destruct o as [kvs|vs].
    + exists kvs. split; [exact Hobj|]. now intros k' w.
    + exact Hobj.
  - unfold bind.
    destruct (Store.del_if_present (VRef n) k h) as [r1 h1] eqn:E1.
    destruct (del_if_present_object _ _ _ _ _ _ Hobj E1) as [Hsame1 Hobj1].
    destruct r1 as [[]|e].
    + intros Hrest. destruct o as [kvs|vs].
      * destruct Hobj1 as (kvs1 & Hobj1 & Hsub1).
        destruct (IH _ _ _ _ Hobj1 Hrest) as [Hsame' (kvs' & Hobj' & Hsub')].
        split.
        -- intros loc Hloc. now rewrite Hsame', Hsame1.
        -- exists kvs'. split; [exact Hobj'|].
           intros k' w Hw. now apply Hsub1, Hsub'.
      * destruct (IH _ _ _ _ Hobj1 Hrest) as [Hsame' Hobj'].
        split; [|exact Hobj'].
        intros loc Hloc. now rewrite Hsame', Hsame1.
    + intros [= _ <-]. split; [exact Hsame1|exact Hobj1].
Qed.

(** After the deletions in the copy, what the copy has under a key is
    the very value the argument has under it. *)
Lemma copy_shares (h h1 h2 : store) (v c : val) (fields : list string) r :
  s_copy v h = (Ok c, h1) ->
  forS (Store.del_if_present c) fields h1 = (r, h2) ->
  forall k w,
    s_getitem c k h2 = (Ok w, h2) -> s_getitem v k h2 = (Ok w, h2).
Proof.
  destruct v as [| | | | |l]; try discriminate.
  unfold s_copy, bind, deref, alloc.
  destruct (h !! l) as [o|] eqn:Hobj; [|discriminate].
  intros [= <- <-] Hloop k w.
  pose proof (lookup_lt_Some _ _ _ Hobj) as Hl.
  assert (Hnew : (h ++ [o]) !! List.length h = Some o).
  { now rewrite lookup_app_r, Nat.sub_diag. }
  destruct (del_loop_object _ _ _ _ _ _ Hnew Hloop) as [Hsame Hcopy].
  assert (Hold : h2 !! l = Some o).
  { rewrite Hsame by lia. now apply lookup_app_l_Some. }
  unfold s_getitem, bind, deref. rewrite Hold.
  destruct o as [kvs|vs].
  - destruct Hcopy as (kvs' & -> & Hsub).
    destruct (entry_get k kvs') as [w'|] eqn:Ek; [|discriminate].
    intros [= <-]. now rewrite (Hsub _ _ Ek).
  - rewrite Hcopy. discriminate.
Qed.

Lemma input_after_absent (rule cleaned : json) :
  py_in "subComponents" cleaned = Ok false -> input_after rule cleaned = rule.
Proof.
  unfold input_after.
  destruct cleaned as [| | | | | |d]; cbn [py_in py_getitem];
    try reflexivity.
  unfold dict_has. now destruct (dict_get "subComponents" d).
Qed.

Lemma input_after_same (rule cleaned x : json) :
  py_getitem cleaned "subComponents" = Ok x ->
  py_getitem rule "subComponents" = Ok x ->
  input_after rule cleaned = rule.
Proof.
  unfold input_after. intros -> Hrule.
  destruct rule as [| | | | | |d]; try reflexivity. cbn [py_setitem].
  cbn [py_getitem] in Hrule.
  destruct (dict_get "subComponents" d) as [x'|] eqn:Ed; [|discriminate].
  injection Hrule as ->. now rewrite (dict_set_same_value _ _ _ Ed).
Qed.

Lemma input_after_set (rule cleaned cleaned' rule' x : json) :
  py_setitem cleaned "subComponents" x = Ok cleaned' ->
  py_setitem rule "subComponents" x = Ok rule' ->
  input_after rule cleaned' = rule'.
Proof.
  unfold input_after.
  destruct cleaned as [| | | | | |d]; cbn [py_setitem]; try discriminate.
  intros [= <-]. cbn [py_getitem]. rewrite dict_get_set_same. now intros ->.
Qed.

(** The statements about [output]: they read, and change nothing. *)
Lemma output_block (h : store) (j : json) lo c hi (has_output : bool) :
  tree h j lo c hi ->
  exists r,
    (if has_output then
       bind (s_getitem c "output") (fun output =>
       bind (s_in "recipients" output) (fun has_recipients =>
       if has_recipients then
         bind (s_getitem output "recipients") (fun _ => ret tt)
       else ret tt))
     else ret tt) h = (r, h)
    /\ match (if has_output then
                let? output := py_getitem j "output" in
                let? has_recipients := py_in "recipients" output in
                if has_recipients then py_getitem output "recipients"
                else Ok JNull
              else Ok JNull), r with
       | Ok _, Ok _ => True
       | Exc e, Exc e' => e = e'
       | _, _ => False
       end.
Proof.
  intros Hj. destruct has_output; [|now exists (Ok tt)].
  pose proof (s_getitem_tree _ _ _ _ _ "output" Hj) as Hout.
  destruct (py_getitem j "output") as [output|e]; cbn [rbind].
  2:{ exists (Exc e). now rewrite (bind_Exc _ _ _ _ _ Hout). }
  destruct Hout as (w & a & b & Hout & _ & _ & Hw & _).
  rewrite (bind_Ok _ _ _ _ _ Hout).
  pose proof (s_in_tree _ _ _ _ _ "recipients" Hw) as Hin.
  destruct (py_in "recipients" output) as [[|]|e]; cbn [rbind].
  - rewrite (bind_Ok _ _ _ _ _ Hin).
    pose proof (s_getitem_tree _ _ _ _ _ "recipients" Hw) as Hrec.
    destruct (py_getitem output "recipients") as [recipients|e].
    + destruct Hrec as (w' & a' & b' & Hrec & _).
      exists (Ok tt). now rewrite (bind_Ok _ _ _ _ _ Hrec).
    + exists (Exc e). now rewrite (bind_Exc _ _ _ _ _ Hrec).
  - exists (Ok tt). now rewrite (bind_Ok _ _ _ _ _ Hin).
  - exists (Exc e). now rewrite (bind_Exc _ _ _ _ _ Hin).
Qed.
End CleanRuleShares.

(** ** The exporter's cleaner on loaded documents: the components *)

Section CleanRuleComponents.
Import Store.

Lemma strings_loop (h : store) (ks : list string) :
  match mapM Cleaner.clean_component (map JStr ks) with
  | Ok _ =>
      forS (fun component =>
              forS (Store.del_if_present component)
                Cleaner.SUBCOMPONENT_READONLY_FIELDS) (map VStr ks) h
      = (Ok tt, h)
  | Exc e =>
      forS (fun component =>
              forS (Store.del_if_present component)
                Cleaner.SUBCOMPONENT_READONLY_FIELDS) (map VStr ks) h
      = (Exc e, h)
  end.
Proof.
  destruct (components_loop_tree 0 _ h 0 _ (items_in_strings h 0 ks))
    as (h' & Hin & Hloop).
  apply changed_within_empty in Hin as ->.
  destruct (mapM Cleaner.clean_component (map JStr ks)); [|exact Hloop].
  now destruct Hloop.
Qed.

Lemma s_iter_str (h : store) (s : string) :
  s_iter (VStr s) h
  = (Ok (map VStr (map (fun c => String c EmptyString)
                     (list_ascii_of_string s))), h).
Proof. cbn [s_iter]. unfold ret. now rewrite List.map_map. Qed.

Lemma s_iter_dict (h : store) (l : loc) kvs :
  h !! l = Some (ODict kvs) ->
  s_iter (VRef l) h = (Ok (map VStr (map fst kvs)), h).
Proof.
  intros Hobj. cbn [s_iter]. unfold bind, deref. rewrite Hobj.
  unfold ret. now rewrite List.map_map.
Qed.

Lemma s_iter_list (h : store) (l : loc) vs :
  h !! l = Some (OList vs) -> s_iter (VRef l) h = (Ok vs, h).
Proof.
  intros Hobj. cbn [s_iter]. unfold bind, deref. now rewrite Hobj.
Qed.

Lemma components_block (h : store) (j doc : json) lo c top lo0 v hi :
  tree h j lo c top -> tree h doc lo0 v hi ->
  (forall w, s_getitem c "subComponents" h = (Ok w, h) ->
             s_getitem v "subComponents" h = (Ok w, h)) ->
  let (r, h') :=
    bind (s_in "subComponents" c) (fun has_components =>
    bind (if has_components then
            bind (s_getitem c "subComponents") (fun components =>
            bind (s_iter components) (fun items =>
            forS (fun component =>
                    forS (Store.del_if_present component)
                      Cleaner.SUBCOMPONENT_READONLY_FIELDS) items))
          else ret tt) (fun _ =>
    ret c)) h in
  List.length h' = List.length h
  /\ match (let? has_components := py_in "subComponents" j in
            if has_components then
              let? components := py_getitem j "subComponents" in
              let? items := py_iter components in
              let? items' := mapM Cleaner.clean_component items in
              match components with
              | JList _ => py_setitem j "subComponents" (JList items')
              | _ => Ok j
              end
            else Ok j), r with
     | Ok doc', Ok cleaned =>
         cleaned = c /\ tree h' doc' lo c top
         /\ tree h' (input_after doc doc') lo0 v hi
     | Exc e, Exc e' => e = e'
     | _, _ => False
     end.
Proof.
  intros Hj Hdoc Hshare.
  pose proof (s_in_tree _ _ _ _ _ "subComponents" Hj) as Hin.
  destruct (py_in "subComponents" j) as [[|]|e] eqn:Ein; cbn [rbind].
  3:{ now rewrite (bind_Exc _ _ _ _ _ Hin). }
  2:{ rewrite (bind_Ok _ _ _ _ _ Hin). cbn. repeat split; [exact Hj|].
      now rewrite input_after_absent. }
  rewrite (bind_Ok _ _ _ _ _ Hin).
  pose proof (s_getitem_tree _ _ _ _ _ "subComponents" Hj) as Hget.
  destruct (py_getitem j "subComponents") as [x|e] eqn:Ex; cbn [rbind].
  2:{ rewrite (bind_Exc _ _ h h e); [now split|].
      now rewrite (bind_Exc _ _ _ _ _ Hget). }
  destruct Hget as (w & a & b & Hgetc & Ha & Hb & Hx & Hset).
  specialize (Hshare w Hgetc).
  pose proof (s_getitem_tree _ _ _ _ _ "subComponents" Hdoc) as Hgetv.
  rewrite Hshare in Hgetv.
  destruct (py_getitem doc "subComponents") as [xv|e] eqn:Exv;
    [|discriminate].
  destruct Hgetv as (w_ & av & bv & [= <-] & Hav & Hbv & Hxv & Hsetv).
  assert (xv = x) as ->.
  { pose proof (tree_le _ _ _ _ _ Hx). pose proof (tree_le _ _ _ _ _ Hxv). 
    pose proof (tree_read _ _ _ _ _ (b + bv) Hx ltac:(lia)) as H1.
    pose proof (tree_read _ _ _ _ _ (b + bv) Hxv ltac:(lia)) as H2.
    congruence. }
  unfold bind at 1. rewrite (bind_Ok _ _ _ _ _ Hgetc).
  assert (Hstrings : forall ks,
             s_iter w h = (Ok (map VStr ks), h) ->
             let (r, h') :=
               let (r, h') :=
                 bind (s_iter w) (fun items =>
                   forS (fun component =>
                           forS (Store.del_if_present component)
                             Cleaner.SUBCOMPONENT_READONLY_FIELDS) items) h in
               match r with
               | Ok _ => ret c h'
               | Exc e => (Exc e, h')
               end in
             List.length h' = List.length h
             /\ match (let? _ := mapM Cleaner.clean_component (map JStr ks) in
                       Ok j), r with
                | Ok doc', Ok cleaned =>
                    cleaned = c /\ tree h' doc' lo c top
                    /\ tree h' (input_after doc doc') lo0 v hi
                | Exc e, Exc e' => e = e'
                | _, _ => False
                end).
  { intros ks Hiter. rewrite (bind_Ok _ _ _ _ _ Hiter).
    pose proof (strings_loop h ks) as Hloop.
    destruct (mapM Cleaner.clean_component (map JStr ks)) as [items'|e];
      cbn [rbind]; rewrite Hloop; [|now split].
    cbn. repeat split; [exact Hj|].
    now rewrite (input_after_same _ _ _ Ex Exv). }
  destruct x as [| | | |s|items|entries]; cbn [tree] in Hx, Hxv;
    try (destruct Hx as [-> _]; cbn; now split).
  - destruct Hx as [-> _]. cbn [py_iter rbind]. rewrite chars_strings.
    apply Hstrings, s_iter_str.
  - destruct Hx as (l & vs & -> & Hl & Hobj & Hitems).
    destruct Hxv as (l_ & vs_ & [= <-] & Hlv & Hobjv & Hitemsv).
    rewrite Hobj in Hobjv. injection Hobjv as <-.
    rewrite (bind_Ok _ _ _ _ _ (s_iter_list _ _ _ Hobj)).
    cbn [py_iter rbind].
    destruct (components_loop_tree _ _ _ _ _ Hitems) as (h' & Hch & Hloop).
    destruct (components_loop_tree _ _ _ _ _ Hitemsv)
      as (h'' & Hinv & Hloopv).
    destruct (mapM Cleaner.clean_component items) as [items'|e];
      cbn [rbind].
    2:{ rewrite Hloop. split; [apply Hch|reflexivity]. }
    destruct Hloop as [Hrun Hitems']. destruct Hloopv as [Hrunv Hitemsv'].
    rewrite Hrun in Hrunv. injection Hrunv as <-. rewrite Hrun.
    pose proof (items_in_items_le _ _ _ _ _ Hitems) as Hle.
    pose proof (items_in_items_le _ _ _ _ _ Hitemsv) as Hlev.
    assert (Hobj' : h' !! l = Some (OList vs)).
    { destruct Hch as [_ Hsame]. rewrite Hsame by lia. exact Hobj. }
    destruct (Hset h' (JList items')) as (j' & Ej' & Hj').
    { apply (changed_within_mono _ _ _ _ _ _ Hch); lia. }
    { cbn [tree]. now exists l, vs. }
    destruct (Hsetv h' (JList items')) as (doc' & Hdoc' & Htree').
    { apply (changed_within_mono _ _ _ _ _ _ Hinv); lia. }
    { cbn [tree]. now exists l, vs. }
    rewrite Ej'. cbn. split; [apply Hch|]. repeat split; [exact Hj'|].
    now rewrite (input_after_set _ _ _ _ _ Ej' Hdoc').
  - destruct Hx as (l & kvs & -> & Hl & Hobj & Hentries).
    cbn [py_iter rbind]. unfold dict_keys.
    apply entries_in_items in Hentries as [-> _].
    apply Hstrings. now apply s_iter_dict.
Qed.

Lemma clean_rule_tree (h : store) (doc : json) lo v hi :
  tree h doc lo v hi -> hi <= List.length h ->
  let (r, h') := Store.clean_rule v h in
  match Cleaner.clean_rule doc, r with
  | Ok doc', Ok cleaned =>
      List.length h <= List.length h'
      /\ tree h' doc' lo cleaned (List.length h')
      /\ tree h' (input_after doc doc') lo v hi
  | Exc e, Exc e' => e = e'
  | _, _ => False
  end.
Proof.
  intros Hdoc Hhi.
  pose proof (s_copy_tree _ _ _ _ _ Hdoc Hhi) as Hcopy.
  unfold Cleaner.clean_rule, Store.clean_rule.
  destruct (py_copy doc) as [doc0|e] eqn:Ecopy; cbn [rbind];
    [|now rewrite (bind_Exc _ _ _ _ _ Hcopy)].
  assert (doc0 = doc) as ->.
  { destruct doc; cbn in Ecopy; congruence. }
  destruct Hcopy as (o & Hcopy & Hc).
  rewrite (bind_Ok _ _ _ _ _ Hcopy).
  set (c := VRef (List.length h)) in *.
  destruct (forS_tree Cleaner.del_if_present Store.del_if_present
              del_if_present_tree Cleaner.READ_ONLY_FIELDS
              _ _ _ _ _ Hc) as (h2 & Hch2 & Hdel).
  assert (Hlen2 : List.length h2 = Datatypes.S (List.length h)).
  { destruct Hch2 as [-> _]. rewrite length_app. cbn. lia. }
  assert (Hv2 : tree h2 doc lo v hi).
  { apply (tree_frame (h ++ [o])); [now apply tree_app|].
    intros loc Hloc. apply Hch2. subst c. intros [= <-]. lia. }
  destruct (foldM Cleaner.del_if_present doc Cleaner.READ_ONLY_FIELDS)
    as [j1|e]; cbn [rbind]; [|now rewrite (bind_Exc _ _ _ _ _ Hdel)].
  destruct Hdel as [Hdel Hj1]. rewrite (bind_Ok _ _ _ _ _ Hdel).
  pose proof (s_in_tree _ _ _ _ _ "output" Hj1) as Hin.
  destruct (py_in "output" j1) as [has_output|e]; cbn [rbind];
    [|now rewrite (bind_Exc _ _ _ _ _ Hin)].
  rewrite (bind_Ok _ _ _ _ _ Hin).
  destruct (output_block _ _ _ _ _ has_output Hj1) as (r & Hout & Hres).
  unfold bind in Hout. 
  match type of Hres with
  | match ?b with _ => _ end => destruct b as [x|e]
  end; destruct r as [[]|e']; try contradiction; cbn [rbind].
  2:{ subst e'. now rewrite (bind_Exc _ _ _ _ _ Hout). }
  rewrite (bind_Ok _ _ _ _ _ Hout).
  pose proof (components_block _ _ _ _ _ _ _ _ _ Hj1 Hv2
                (copy_shares _ _ _ _ _ _ _ Hcopy Hdel "subComponents"))
    as Hblock.
  unfold bind in Hblock |- *.
  match type of Hblock with
  | let (_, _) := ?run in _ => destruct run as [r h3]
  end.
  destruct Hblock as [Hlen3 Hblock].
  match type of Hblock with
  | match ?b with _ => _ end => destruct b as [doc'|e]
  end; destruct r as [cleaned|e']; try contradiction; [|exact Hblock].
  destruct Hblock as (-> & Hdoc' & Hafter).
  rewrite Hlen3, Hlen2. repeat split; [lia| |exact Hafter].
  now rewrite <- Hlen2, <- Hlen3 in Hdoc' |- *.
Qed.

(** X2.  [clean_rule] on a document that [json.load] has just put in
    the store [h]: the run raises what the cleaner on documents raises, or
    returns a value that reads as the document that cleaner returns; the
    loaded value then reads as the document with the components of the
    result. *)
Theorem clean_rule_on_store (doc : json) (h : store) :
  exists rule h1 r h2,
    load doc h = (Ok rule, h1)
    /\ Store.clean_rule rule h1 = (r, h2)
    /\ match Cleaner.clean_rule doc, r with
       | Ok doc', Ok cleaned =>
           read (List.length h2) h2 cleaned = Some doc'
           /\ read (List.length h2) h2 rule = Some (input_after doc doc')
       | Exc e, Exc e' => e = e'
       | _, _ => False
       end.
Proof.
  destruct (load_tree doc h) as (v & ext & Hload & Hv).
  pose proof (clean_rule_tree _ _ _ _ _ Hv (Nat.le_refl _)) as Hrun.
  destruct (Store.clean_rule v (h ++ ext)) as [r h2] eqn:Erun.
  exists v, (h ++ ext), r, h2. repeat split; try assumption.
  destruct (Cleaner.clean_rule doc) as [doc'|e], r as [c|e'];
    try assumption.
  destruct Hrun as (Hlen & Hc & Hafter).
  split.
  - apply (tree_read _ _ _ _ _ _ Hc). lia.
  - apply (tree_read _ _ _ _ _ _ Hafter). lia.
Qed.
End CleanRuleComponents.

(** * Further properties of the code *)

(** ** The exporter's cleaner applied twice *)

Section CleanRuleTwice.
Implicit Types (k : string) (v : json) (d : dict).

Lemma dict_del_set_comm k k' v d :
  String.eqb k' k = false ->
  dict_del k' (dict_set k v d) = dict_set k v (dict_del k' d).
Proof.
  intros Hne. unfold dict_del.
  induction d as [|[k0 v0] d IH]; cbn [dict_set List.filter fst].
  - now rewrite Hne.
  - destruct (String.eqb k k0) eqn:E; cbn [List.filter fst].
    + apply String.eqb_eq in E as <-. rewrite Hne. cbn [negb dict_set].
      now rewrite String.eqb_refl.
    + destruct (String.eqb k' k0); cbn [negb dict_set]; [exact IH|].
      now rewrite E, IH.
Qed.

Lemma dict_del_all_set_comm k keys v d :
  existsb (String.eqb k) keys = false ->
  dict_del_all keys (dict_set k v d) = dict_set k v (dict_del_all keys d).
Proof.
  unfold dict_del_all. revert d.
  induction keys as [|k0 keys IH]; intros d H; cbn [fold_left];
    [reflexivity|].
  cbn [existsb] in H. apply orb_false_iff in H as [H0 H1].
  rewrite dict_del_set_comm by now rewrite String.eqb_sym.
  now apply IH.
Qed.

Lemma dict_set_set k v v' d :
  dict_set k v (dict_set k v' d) = dict_set k v d.
Proof.
  induction d as [|[k0 v0] d IH]; cbn [dict_set].
  - now rewrite String.eqb_refl.
  - destruct (String.eqb k k0) eqn:E; cbn [dict_set]; rewrite E;
      [reflexivity|now rewrite IH].
Qed.

Lemma clean_component_twice (c c' : json) :
  Cleaner.clean_component c = Ok c' -> Cleaner.clean_component c' = Ok c'.
Proof.
  unfold Cleaner.clean_component. intros H.
  destruct (isinstance_dict c) eqn:Ec.
  - destruct c; try discriminate Ec.
    rewrite foldM_del_if_present_dict in H.
    assert (c' = JDict (dict_del_all Cleaner.SUBCOMPONENT_READONLY_FIELDS
                          entries)) as -> by congruence.
    rewrite foldM_del_if_present_dict. now rewrite dict_del_all_idem.
  - pose proof (foldM_del_if_present_other _ _ _ Ec H) as ->. exact H.
Qed.

Lemma mapM_clean_component_twice (items items' : list json) :
  mapM Cleaner.clean_component items = Ok items' ->
  mapM Cleaner.clean_component items' = Ok items'.
Proof.
  revert items'. induction items as [|c items IH]; intros items'; cbn [mapM].
  - now intros [= <-].
  - destruct (Cleaner.clean_component c) as [c'|e] eqn:Ec;
      cbn [rbind]; [|discriminate].
    destruct (mapM Cleaner.clean_component items) as [cs|e] eqn:Ecs;
      cbn [rbind]; [|discriminate].
    intros [= <-]. cbn [mapM].
    now rewrite (clean_component_twice _ _ Ec), (IH cs eq_refl).
Qed.

(** What [clean_rule] does after the copy and the deletions at the
    root, on a mapping with no read-only key. *)
Lemma clean_rule_root_clean (c : dict) :
  dict_del_all Cleaner.READ_ONLY_FIELDS c = c ->
  Cleaner.clean_rule (JDict c)
  = (let? _ :=
       (if dict_has "output" c then
          let? output := py_getitem (JDict c) "output" in
          let? has_recipients := py_in "recipients" output in
          if has_recipients then py_getitem output "recipients" else Ok JNull
        else Ok JNull) in
     if dict_has "subComponents" c then
       let? components := py_getitem (JDict c) "subComponents" in
       let? items := py_iter components in
       let? items' := mapM Cleaner.clean_component items in
       match components with
       | JList _ => py_setitem (JDict c) "subComponents" (JList items')
       | _ => Ok (JDict c)
       end
     else Ok (JDict c))%res.
Proof.
  intros Hc. unfold Cleaner.clean_rule. cbn [py_copy rbind].
  rewrite foldM_del_if_present_dict, Hc. reflexivity.
Qed.
End CleanRuleTwice.

(** X3.  The exporter's cleaner is idempotent on documents: [clean_rule]
    applied to a document it returned returns that document again. *)
Theorem clean_rule_idempotent (rule cleaned : json) :
  Cleaner.clean_rule rule = Ok cleaned ->
  Cleaner.clean_rule cleaned = Ok cleaned.
Proof.
  intros H.
  destruct (isinstance_dict rule) eqn:Erule.
  - destruct rule as [| | | | | |d]; try discriminate Erule.
    pose proof (clean_rule_scope _ _ H) as [Hroot _].
    unfold Cleaner.clean_rule in H. cbn [py_copy rbind] in H.
    rewrite foldM_del_if_present_dict in H. cbn [rbind py_in] in H.
    set (c := dict_del_all Cleaner.READ_ONLY_FIELDS d) in *.
    assert (Hc : dict_del_all Cleaner.READ_ONLY_FIELDS c = c)
      by apply dict_del_all_idem.
    match type of H with
    | rbind ?m _ = _ => destruct m as [u|e] eqn:Eout; [|discriminate H]
    end.
    cbn [rbind] in H.
    destruct (dict_has "subComponents" c) eqn:Ehas.
    2:{ injection H as <-. rewrite (clean_rule_root_clean c Hc).
        rewrite Eout, Ehas. reflexivity. }
    cbn [py_getitem] in H. unfold dict_has in Ehas.
    destruct (dict_get "subComponents" c) as [components|] eqn:Ecomp;
      [|discriminate Ehas].
    cbn [rbind] in H.
    destruct (py_iter components) as [items|e] eqn:Eiter; [|discriminate H].
    cbn [rbind] in H.
    destruct (mapM Cleaner.clean_component items) as [items'|e] eqn:Emap;
      [|discriminate H].
    cbn [rbind] in H.
    destruct components as [| | | | |l|];
      try (cbn [py_setitem] in H; injection H as <-;
           rewrite (clean_rule_root_clean c Hc), Eout; cbn [rbind];
           unfold dict_has; cbn [py_getitem]; rewrite Ecomp; cbn [rbind];
           rewrite Eiter; cbn [rbind]; rewrite Emap; reflexivity).
    cbn [py_setitem] in H. injection H as <-.
    cbn [py_iter] in Eiter. injection Eiter as <-.
    set (c' := dict_set "subComponents" (JList items') c).
    assert (Hc' : dict_del_all Cleaner.READ_ONLY_FIELDS c' = c').
    { unfold c'. rewrite dict_del_all_set_comm by reflexivity.
      now rewrite Hc. }
    rewrite (clean_rule_root_clean c' Hc').
    assert (Hout : dict_get "output" c' = dict_get "output" c).
    { unfold c'. now apply dict_get_set_other. }
    unfold dict_has in Eout |- *. cbn [py_getitem] in Eout |- *.
    rewrite Hout, Eout. cbn [rbind].
    unfold c' at 1 2. rewrite dict_get_set_same. cbn [rbind py_iter].
    rewrite (mapM_clean_component_twice _ _ Emap). cbn [rbind py_setitem].
    unfold c'. now rewrite dict_set_set.
  - destruct rule as [| | | | |l|]; try discriminate Erule;
      try discriminate H.
    assert (cleaned = JList l) as ->; [|exact H].
    unfold Cleaner.clean_rule in H. cbn [py_copy rbind] in H.
    destruct (foldM Cleaner.del_if_present (JList l) Cleaner.READ_ONLY_FIELDS)
      as [x|e] eqn:Ex; [|discriminate H].
    apply foldM_del_if_present_other in Ex; [|reflexivity]. subst x.
    cbn [rbind py_in] in H.
    destruct (existsb (is_str "output") l); [discriminate H|].
    cbn [rbind] in H.
    destruct (existsb (is_str "subComponents") l); [discriminate H|].
    now injection H as <-.
Qed.

Lemma clean_rule_idempotent_witness :
  exists cleaned,
    Cleaner.clean_rule sample_rule = Ok cleaned
    /\ Cleaner.clean_rule cleaned = Ok cleaned.
Proof.
  eexists. split; [reflexivity|].
  apply (clean_rule_idempotent sample_rule). reflexivity.
Defined.

(** ** Documents the cleaners accept, and what they keep *)

Section CleanersKeep.
Implicit Types (k : string) (v : json) (d : dict).

Lemma dict_keys_del k d :
  dict_keys (dict_del k d)
  = List.filter (fun k' => negb (String.eqb k k')) (dict_keys d).
Proof.
  unfold dict_del, dict_keys.
  induction d as [|[k0 v0] d IH]; cbn [List.filter map fst]; [reflexivity|].
  destruct (String.eqb k k0); cbn [negb map fst]; now rewrite IH.
Qed.

Lemma dict_keys_del_all keys d :
  dict_keys (dict_del_all keys d) = keys_without keys d.
Proof.
  unfold dict_del_all, keys_without. revert d.
  induction keys as [|k0 keys IH]; intros d; cbn [fold_left existsb].
  - induction (dict_keys d) as [|k l IHl]; cbn; [reflexivity|].
    now f_equal.
  - rewrite IH, dict_keys_del.
    induction (dict_keys d) as [|k l IHl]; cbn [List.filter]; [reflexivity|].
    rewrite (String.eqb_sym k k0).
    destruct (String.eqb k0 k); cbn [negb orb List.filter]; [exact IHl|].
    destruct (existsb (String.eqb k) keys); cbn [negb]; [exact IHl|].
    now rewrite IHl.
Qed.

Lemma dict_keys_set_present k v d :
  dict_has k d = true -> dict_keys (dict_set k v d) = dict_keys d.
Proof.
  unfold dict_has, dict_keys.
  induction d as [|[k0 v0] d IH]; cbn [dict_get dict_set map fst];
    [discriminate|].
  destruct (String.eqb k k0); cbn [map fst]; [reflexivity|].
  intros H. now rewrite IH.
Qed.
End CleanersKeep.

(** X5.  What the deployer's cleaner keeps: the keys of the result are
    the keys of the rule without the five read-only ones, in the same
    order, and every entry other than [output] is as it was. *)
Theorem clean_rule_json_keeps (d : dict) (cleaned : json) :
  Deployer.clean_rule_json (JDict d) = Ok cleaned ->
  exists c,
    cleaned = JDict c
    /\ dict_keys c = keys_without Deployer.readonly_fields d
    /\ forall k,
         existsb (String.eqb k) Deployer.readonly_fields = false ->
         String.eqb k "output" = false ->
         dict_get k c = dict_get k d.
Proof.
  intros H. apply clean_rule_json_inv in H as (d0 & [= <-] & H).
  cbv zeta in H.
  destruct H as [(-> & _ & _)|(o & rc & Hout & _ & _ & ->)].
  - eexists. split; [reflexivity|]. split; [apply dict_keys_del_all|].
    intros k Hk _. now apply dict_get_del_all_other.
  - eexists. split; [reflexivity|]. split.
    + rewrite dict_keys_set_present; [apply dict_keys_del_all|].
      unfold dict_has. now rewrite Hout.
    + intros k Hk Hk'. rewrite dict_get_set_other by exact Hk'.
      now apply dict_get_del_all_other.
Qed.

Lemma clean_rule_json_keeps_witness :
  exists c,
    JDict
      (dict_del_all Deployer.readonly_fields
         [("id", JStr "r-1"); ("title", JStr "Alert X")]) = JDict c
    /\ dict_keys c
       = keys_without Deployer.readonly_fields
           [("id", JStr "r-1"); ("title", JStr "Alert X")]
    /\ forall k,
         existsb (String.eqb k) Deployer.readonly_fields = false ->
         String.eqb k "output" = false ->
         dict_get k c
         = dict_get k [("id", JStr "r-1"); ("title", JStr "Alert X")].
Proof.
  apply (clean_rule_json_keeps
           [("id", JStr "r-1"); ("title", JStr "Alert X")]).
  reflexivity.
Defined.

Section CleanRuleKeeps.

Lemma mapM_clean_component_dicts (items : list json) :
  forallb isinstance_dict items = true ->
  exists items', mapM Cleaner.clean_component items = Ok items'.
Proof.
  induction items as [|c items IH]; cbn [forallb mapM]; [now eexists|].
  intros H. apply andb_prop in H as [Hc Hitems].
  destruct c as [| | | | | |d]; try discriminate Hc.
  unfold Cleaner.clean_component at 1. rewrite foldM_del_if_present_dict.
  cbn [rbind]. destruct (IH Hitems) as (items' & ->). now eexists.
Qed.

(** What [clean_rule] returns for a mapping. *)
Lemma clean_rule_dict_inv (d : dict) (cleaned : json) :
  Cleaner.clean_rule (JDict d) = Ok cleaned ->
  let c := dict_del_all Cleaner.READ_ONLY_FIELDS d in
  cleaned = JDict c
  \/ exists items items',
       dict_get "subComponents" c = Some (JList items)
       /\ mapM Cleaner.clean_component items = Ok items'
       /\ cleaned = JDict (dict_set "subComponents" (JList items') c).
Proof.
  intros H. unfold Cleaner.clean_rule in H. cbn [py_copy rbind] in H.
  rewrite foldM_del_if_present_dict in H. cbn [rbind py_in] in H.
  cbv zeta. set (c := dict_del_all Cleaner.READ_ONLY_FIELDS d) in *.
  match type of H with
  | rbind ?m _ = _ => destruct m as [u|e]; [|discriminate H]
  end.
  cbn [rbind] in H. unfold dict_has in H. cbn [py_getitem] in H.
  destruct (dict_get "subComponents" c) as [components|];
    [|left; now injection H as <-].
  cbn [rbind] in H.
  destruct (py_iter components) as [items|e] eqn:Eiter; [|discriminate H].
  cbn [rbind] in H.
  destruct (mapM Cleaner.clean_component items) as [items'|e] eqn:Emap;
    [|discriminate H].
  cbn [rbind] in H.
  destruct components as [| | | | |l|]; cbn [py_setitem] in H;
    injection H as <-; try (now left).
  right. cbn [py_iter] in Eiter. injection Eiter as <-.
  now exists l, items'.
Qed.
End CleanRuleKeeps.

(** X6.  The exporter's cleaner returns on every rule of the expected
    shape: a mapping whose [output], if any, is a mapping whose
    [recipients], if any, is a mapping, and whose [subComponents], if
    any, is a list of mappings. *)
Theorem clean_rule_returns (d : dict) :
  optional "output" (JDict d) output_shaped = true ->
  optional "subComponents" (JDict d) components_shaped = true ->
  exists c, Cleaner.clean_rule (JDict d) = Ok (JDict c).
Proof.
  unfold optional, lookup. intros Hout Hcomp.
  unfold Cleaner.clean_rule. cbn [py_copy rbind].
  rewrite foldM_del_if_present_dict. cbn [rbind py_in].
  set (c := dict_del_all Cleaner.READ_ONLY_FIELDS d).
  assert (Eout : dict_get "output" c = dict_get "output" d)
    by now apply dict_get_del_all_other.
  assert (Ecomp : dict_get "subComponents" c = dict_get "subComponents" d)
    by now apply dict_get_del_all_other.
  assert (Hblock : exists u,
             (if dict_has "output" c then
                let? output := py_getitem (JDict c) "output" in
                let? has_recipients := py_in "recipients" output in
                if has_recipients then py_getitem output "recipients"
                else Ok JNull
              else Ok JNull)%res = Ok u).
  { unfold dict_has. cbn [py_getitem]. rewrite Eout.
    destruct (dict_get "output" d) as [output|]; [|now eexists].
    cbn [rbind]. unfold output_shaped in Hout.
    apply andb_prop in Hout as [Hdict Hrec].
    destruct output as [| | | | | |o]; try discriminate Hdict.
    cbn [py_in py_getitem rbind]. unfold dict_has.
    destruct (dict_get "recipients" o); now eexists. }
  destruct Hblock as (u & ->). cbn [rbind].
  unfold dict_has. cbn [py_getitem]. rewrite Ecomp.
  destruct (dict_get "subComponents" d) as [components|]; [|now exists c].
  cbn [rbind].
  destruct components as [| | | | |items|]; try discriminate Hcomp.
  cbn [py_iter rbind]. cbn [components_shaped] in Hcomp.
  destruct (mapM_clean_component_dicts items Hcomp) as (items' & ->).
  cbn [rbind py_setitem]. now eexists.
Qed.

Lemma clean_rule_returns_witness :
  exists c, Cleaner.clean_rule sample_rule = Ok (JDict c).
Proof.
  unfold sample_rule. apply clean_rule_returns; reflexivity.
Defined.

(** X7.  What the exporter's cleaner keeps: the keys of the result are
    the keys of the rule without the five read-only ones, in the same
    order, and every entry other than [subComponents] is as it was;
    [output], with its recipients and their endpoint ids, among them. *)
Theorem clean_rule_keeps (d : dict) (cleaned : json) :
  Cleaner.clean_rule (JDict d) = Ok cleaned ->
  exists c,
    cleaned = JDict c
    /\ dict_keys c = keys_without Cleaner.READ_ONLY_FIELDS d
    /\ forall k,
         existsb (String.eqb k) Cleaner.READ_ONLY_FIELDS = false ->
         String.eqb k "subComponents" = false ->
         dict_get k c = dict_get k d.
Proof.
  intros H. apply clean_rule_dict_inv in H. cbv zeta in H.
  destruct H as [->|(items & items' & Hcomp & _ & ->)].
  - eexists. split; [reflexivity|]. split; [apply dict_keys_del_all|].
    intros k Hk _. now apply dict_get_del_all_other.
  - eexists. split; [reflexivity|]. split.
    + rewrite dict_keys_set_present; [apply dict_keys_del_all|].
      unfold dict_has. now rewrite Hcomp.
    + intros k Hk Hk'. rewrite dict_get_set_other by exact Hk'.
      now apply dict_get_del_all_other.
Qed.

Lemma clean_rule_keeps_witness :
  exists c,
    JDict
      (dict_del_all Cleaner.READ_ONLY_FIELDS
         [("id", JStr "r-1"); ("title", JStr "Alert X")]) = JDict c
    /\ dict_keys c
       = keys_without Cleaner.READ_ONLY_FIELDS
           [("id", JStr "r-1"); ("title", JStr "Alert X")]
    /\ forall k,
         existsb (String.eqb k) Cleaner.READ_ONLY_FIELDS = false ->
         String.eqb k "subComponents" = false ->
         dict_get k c
         = dict_get k [("id", JStr "r-1"); ("title", JStr "Alert X")].
Proof.
  apply (clean_rule_keeps [("id", JStr "r-1"); ("title", JStr "Alert X")]).
  reflexivity.
Defined.

(** ** Validation of any decoded document *)

Section ValidateAny.
Import Validator.
Local Open Scope validator_scope.

Lemma validate_security_rule_checks_any (rule : json) file_path :
  checks (validate_security_rule rule file_path) true
    (forallb (field_present rule) required_fields && fields_valid rule).
Proof.
  unfold validate_security_rule, fields_valid. cbv zeta.
  apply checks_bind.
  { apply checks_forV. intros valid' field.
    apply checks_lift. intros present Hp. unfold field_present.
    rewrite Hp. apply checks_test. }
  intros valid0. apply checks_lift. intros has_title Htitle.
  apply checks_bind.
  { unfold optional. destruct has_title.
    - apply checks_lift. intros title Hget.
      rewrite (py_getitem_lookup _ _ _ Hget).
      rewrite <- negb_andb. apply checks_test.
    - rewrite (py_in_false_lookup _ _ Htitle). apply checks_ret. }
  intros valid1. apply checks_lift. intros has_enabled Henabled.
  apply checks_bind; [now apply checks_optional|].
  intros valid2. apply checks_lift. intros has_time_frame Htf.
  apply checks_bind.
  { unfold optional. destruct has_time_frame.
    - apply checks_lift. intros time_frame Hget.
      rewrite (py_getitem_lookup _ _ _ Hget). unfold time_frame_passes.
      destruct (isinstance_number time_frame); cbn [negb andb];
        [|apply checks_reject].
      apply checks_lift. intros not_positive ->.
      destruct not_positive; [apply checks_reject|apply checks_ret].
    - rewrite (py_in_false_lookup _ _ Htf). apply checks_ret. }
  intros valid3. apply checks_lift. intros has_output Hout.
  apply checks_bind.
  { unfold optional. destruct has_output.
    - apply checks_lift. intros output Hget.
      rewrite (py_getitem_lookup _ _ _ Hget).
      apply checks_call, validate_output_checks.
    - rewrite (py_in_false_lookup _ _ Hout).
      apply checks_warning, checks_ret. }
  intros valid4. apply checks_lift. intros has_components Hcomp.
  apply checks_bind.
  { unfold optional. destruct has_components.
    - apply checks_lift. intros components Hget.
      rewrite (py_getitem_lookup _ _ _ Hget).
      destruct components; try apply checks_reject.
      cbn [isinstance_list negb py_len py_iter].
      apply checks_lift. intros n [= <-].
      destruct items as [|component items]; [apply checks_reject|].
      cbn [List.length Nat.eqb]. apply checks_lift. intros items' [= <-].
      cbn [subcomponents_valid].
      apply checks_forV_enumerate. intros valid' i c.
      apply checks_call, validate_subcomponent_checks.
    - rewrite (py_in_false_lookup _ _ Hcomp). apply checks_ret. }
  intros valid5. apply checks_lift. intros has_correlations Hcor.
  apply checks_bind.
  { unfold optional. destruct has_correlations.
    - apply checks_lift. intros correlations Hget.
      rewrite (py_getitem_lookup _ _ _ Hget).
      apply checks_call, validate_correlations_checks.
    - rewrite (py_in_false_lookup _ _ Hcor). apply checks_ret. }
  intros valid6. apply checks_lift. intros has_tags Htags.
  eapply checks_eq; [|apply andb_true_r].
  apply checks_bind; [now apply checks_optional|].
  intros valid7.
  apply checks_lift. intros no_description _.
  apply checks_quiet; [apply quiet_if_warning|]. intros _.
  apply checks_lift. intros no_tags _.
  apply checks_quiet; [apply quiet_if_warning|]. intros _.
  apply checks_quiet; [|intros _; apply checks_ret].
  apply quiet_forV. intros valid' field.
  apply quiet_bind; [apply quiet_lift|]. intros present.
  apply quiet_bind; [apply quiet_if_warning|]. intros _.
  apply quiet_ret.
Qed.

Lemma raises_bind {A B} (m : V A) (k : A -> V B) :
  (forall a, raises (k a)) -> raises (bind m k).
Proof.
  intros Hk st. unfold bind. destruct (m st) as [[a|e] st1].
  - apply Hk.
  - now exists e.
Qed.

Lemma raises_lift {A B} (e : exn) (k : A -> V B) :
  raises (bind (lift (Exc e)) k).
Proof. intros st. now exists e. Qed.

Lemma raises_first {A B} (m : V A) (k : A -> V B) :
  raises m -> raises (bind m k).
Proof.
  intros Hm st. unfold bind. destruct (Hm st) as (e & He).
  destruct (m st) as [[a|e'] st1]; [discriminate He|]. now exists e'.
Qed.

Lemma raises_lift_ok {A B} (a : A) (k : A -> V B) :
  raises (k a) -> raises (bind (lift (Ok a)) k).
Proof. intros Hk st. apply Hk. Qed.

(** On a list or a string that holds ['title'], [rule['title']]
    raises. *)
Lemma validate_security_rule_raises_on_title (rule : json) file_path :
  isinstance_dict rule = false ->
  field_present rule "title" = true ->
  raises (validate_security_rule rule file_path).
Proof.
  intros Hrule Hpresent. unfold validate_security_rule. cbv zeta.
  apply raises_bind. intros valid0.
  unfold field_present in Hpresent.
  destruct (py_in "title" rule) as [[|]|e] eqn:Ein; try discriminate.
  apply raises_lift_ok.
  destruct rule; try discriminate Hrule; try discriminate Ein;
    apply raises_first, raises_lift.
Qed.

(** What a validation run does, for any document. *)
Lemma validate_security_rule_run (rule : json) file_path st :
  exists new_errors new_warnings,
    snd (validate_security_rule rule file_path st)
    = State (errors st ++ new_errors) (warnings st ++ new_warnings)
    /\ forall valid,
         fst (validate_security_rule rule file_path st) = Ok valid ->
         valid = checks_pass rule /\ (valid = true <-> new_errors = []).
Proof.
  destruct (validate_security_rule_checks_any rule file_path st)
    as (ne & nw & Hst & Hflag).
  exists ne, nw. split; [exact Hst|]. intros valid Hrun.
  destruct (Hflag valid Hrun) as [Hvalid Hne]. cbn [andb] in Hvalid.
  split.
  - destruct (isinstance_dict rule) eqn:Erule.
    + destruct rule; try discriminate Erule. exact Hvalid.
    + assert (Hschema : checks_pass rule = false)
        by now destruct rule.
      rewrite Hschema, Hvalid.
      destruct (field_present rule "title") eqn:Etitle.
      * destruct (validate_security_rule_raises_on_title rule file_path
                    Erule Etitle st) as (e & He).
        rewrite He in Hrun. discriminate Hrun.
      * cbn [required_fields forallb]. now rewrite Etitle.
  - rewrite Hvalid, <- Hne. now destruct ne.
Qed.

End ValidateAny.

(** X8.  Validation of any decoded document, a mapping or not: the run
    only appends to the two lists, also when it raises; what it returns
    or raises does not depend on what the lists hold; and when it
    returns, its boolean is true exactly when the run appended no
    error, and is false for anything but a mapping. *)
Theorem validate_security_rule_any_document
    (rule : json) (file_path : string) (st : Validator.state) :
  exists new_errors new_warnings,
    snd (Validator.validate_security_rule rule file_path st)
    = Validator.State (Validator.errors st ++ new_errors)
        (Validator.warnings st ++ new_warnings)
    /\ (forall st',
          fst (Validator.validate_security_rule rule file_path st')
          = fst (Validator.validate_security_rule rule file_path st))
    /\ match fst (Validator.validate_security_rule rule file_path st) with
       | Ok valid =>
           (valid = true <-> new_errors = [])
           /\ (isinstance_dict rule = false -> valid = false)
       | Exc _ => True
       end.
Proof.
  destruct (validate_security_rule_run rule file_path st)
    as (ne & nw & Hst & Hflag).
  exists ne, nw. split; [exact Hst|].
  split; [intros st'; apply validate_security_rule_stateless|].
  destruct (fst (Validator.validate_security_rule rule file_path st))
    as [valid|e]; [|trivial].
  destruct (Hflag valid eq_refl) as [Hvalid Hne].
  split; [exact Hne|].
  intros Hrule. rewrite Hvalid. now destruct rule.
Qed.

(** ** The requests of a deployment *)

Section DeploymentRequests.
Import Deployer.
Variable py_str : json -> string.
Variable str_exn : exn -> string.
Variable service : remote.
Variable self : deployer.

Lemma create_at_log (rule_data : json) (endpoints : list string) :
  forall log,
    exists n,
      n <= List.length endpoints
      /\ (endpoints <> [] -> 1 <= n)
      /\ snd (create_at py_str service self rule_data endpoints log)
         = log ++ map (create_request self rule_data) (firstn n endpoints).
Proof.
  induction endpoints as [|endpoint rest IH]; intros log.
  - exists 0. cbn. rewrite app_nil_r. repeat split; [lia|congruence].
  - cbn [create_at]. unfold io_bind, send.
    fold (create_request self rule_data endpoint).
    assert (Hnext : exists n,
               n <= List.length (endpoint :: rest)
               /\ (endpoint :: rest <> [] -> 1 <= n)
               /\ snd (create_at py_str service self rule_data rest
                         (log ++ [create_request self rule_data endpoint]))
                  = log ++ map (create_request self rule_data)
                             (firstn n (endpoint :: rest))).
    { destruct (IH (log ++ [create_request self rule_data endpoint]))
        as (n & Hn & _ & Hlog).
      exists (Datatypes.S n). cbn [List.length firstn map].
      rewrite Hlog, <- app_assoc. repeat split; lia. }
    destruct (service log _) as [reason|status_code body]; [exact Hnext|].
    destruct (is_2xx status_code); [|exact Hnext].
    exists 1. cbn [List.length firstn map]. repeat split; try lia.
    now destruct (rbind _ _).
Qed.

(** What [deploy_rule] sends, by what the file holds and what the
    search returns. *)
Lemma deploy_rule_sends (file : rule_file) log :
  exists new,
    snd (deploy_rule py_str str_exn service self file log) = log ++ new
    /\ match file_content file with
       | inl _ => new = []
       | inr doc =>
           match py_get doc "title" (JStr (file_stem file)),
                 clean_rule_json doc with
           | Ok title, Ok cleaned =>
               let result :=
                 fst (search_rule_by_title service self title log) in
               if found result then
                 new = [search_request self;
                        update_request py_str self (rule_id result) cleaned]
               else
                 exists n,
                   1 <= n <= 3
                   /\ new = search_request self
                            :: map (create_request self cleaned)
                                 (firstn n (create_endpoints self))
           | _, _ => new = []
           end
       end.
Proof.
  unfold deploy_rule.
  destruct (file_content file) as [decode_error|doc] eqn:Efile.
  { exists []. cbn. now rewrite app_nil_r. }
  destruct (py_get doc "title" (JStr (file_stem file))) as [title|e];
    cbn [rbind].
  2:{ exists []. cbn. now rewrite app_nil_r. }
  destruct (clean_rule_json doc) as [cleaned|e] eqn:Eclean; cbn [rbind].
  2:{ exists []. cbn. now rewrite app_nil_r. }
  unfold io_bind. cbv zeta.
  destruct (search_rule_by_title service self title log)
    as [result log1] eqn:Esearch.
  assert (log1 = log ++ [search_request self]) as ->.
  { now rewrite <- (search_rule_by_title_log service self title log),
      Esearch. }
  cbn [fst].
  destruct (found result).
  - rewrite update_rule_outcome. cbn [snd].
    exists [search_request self;
            update_request py_str self (rule_id result) cleaned].
    rewrite <- app_assoc. now split.
  - unfold _create_rule.
    destruct (create_at_log cleaned (create_endpoints self)
                (log ++ [search_request self])) as (n & Hn & Hpos & ->).
    eexists. rewrite <- app_assoc. split; [reflexivity|].
    exists n. split; [|reflexivity].
    cbn [create_endpoints List.length] in Hn. split; [|exact Hn].
    now apply Hpos.
Qed.

Lemma deploy_rule_deployment (file : rule_file) log :
  exists new,
    snd (deploy_rule py_str str_exn service self file log) = log ++ new
    /\ deployment py_str self file new.
Proof.
  destruct (deploy_rule_sends file log) as (new & Hlog & Hnew).
  exists new. split; [exact Hlog|].
  destruct (file_content file) as [decode_error|doc] eqn:Efile.
  { subst new. constructor. intros doc title cleaned H.
    rewrite Efile in H. discriminate H. }
  destruct (py_get doc "title" (JStr (file_stem file))) as [title|e]
    eqn:Etitle.
  2:{ subst new. constructor. intros doc' title cleaned Hdoc H.
      rewrite Efile in Hdoc. injection Hdoc as <-.
      rewrite Etitle in H. discriminate H. }
  destruct (clean_rule_json doc) as [cleaned|e] eqn:Eclean.
  2:{ subst new. constructor. intros doc' title' cleaned Hdoc _ H.
      rewrite Efile in Hdoc. injection Hdoc as <-.
      rewrite Eclean in H. discriminate H. }
  cbv zeta in Hnew.
  destruct (found (fst (search_rule_by_title service self title log))).
  - subst new. now apply (SearchUpdate _ _ _ doc title).
  - destruct Hnew as (n & Hn & ->).
    now apply (SearchCreate _ _ _ doc title).
Qed.

Lemma prefix_append (s t : string) : String.prefix s (s +++ t) = true.
Proof.
  induction s as [|c s IH]; cbn [String.append]; [now destruct t|].
  cbn [String.prefix]. now destruct (ascii_dec c c).
Qed.

Lemma append_assoc (s t u : string) : (s +++ t) +++ u = s +++ (t +++ u).
Proof. induction s as [|c s IH]; cbn; [reflexivity|now rewrite IH]. Qed.

Lemma of_deployer_search : of_deployer self (search_request self).
Proof. split; [reflexivity|apply prefix_append]. Qed.

Lemma of_deployer_update (id cleaned : json) :
  of_deployer self (update_request py_str self id cleaned).
Proof.
  split; [reflexivity|]. cbn [update_request url]. unfold update_endpoint.
  rewrite append_assoc. apply prefix_append.
Qed.

Lemma of_deployer_create (cleaned : json) (n : nat) :
  Forall (of_deployer self)
    (map (create_request self cleaned) (firstn n (create_endpoints self))).
Proof.
  unfold create_endpoints.
  destruct n as [|[|[|n]]]; cbn [firstn map]; try rewrite List.firstn_nil;
    cbn [map];
    repeat (constructor; [split; [reflexivity|apply prefix_append]|]);
    constructor.
Qed.

Lemma clean_rule_json_clean (doc cleaned : json) :
  clean_rule_json doc = Ok cleaned ->
  root_clean cleaned = true /\ recipients_clean cleaned = true.
Proof.
  intros H. apply clean_rule_json_inv in H as (d & _ & H). cbv zeta in H.
  destruct H as [(-> & Hrec & _)|(o & rc & Eo & Erc & Eids & ->)].
  - split; [apply root_clean_del_all|exact Hrec].
  - split.
    + apply root_clean_dict. intros k Hk.
      rewrite dict_has_set_other by now apply server_owned_not_output.
      now apply dict_has_del_all_in.
    + unfold recipients_clean. rewrite !dict_get_set_same.
      cbn [has_key]. now rewrite dict_has_del_same.
Qed.

Lemma deployment_facts (file : rule_file) (new : list request) :
  deployment py_str self file new ->
  List.length new <= 4
  /\ Forall (of_deployer self) new
  /\ Forall (fun r => r = search_request self \/ sends_cleaned r) new.
Proof.
  intros [_|doc title cleaned id _ _ Hc|doc title cleaned n _ _ Hc Hn].
  - repeat split; [cbn; lia|constructor|constructor].
  - repeat split; [cbn; lia| |].
    + constructor; [apply of_deployer_search|].
      constructor; [apply of_deployer_update|constructor].
    + constructor; [now left|]. constructor; [|constructor]. right.
      exact (clean_rule_json_clean _ _ Hc).
  - repeat split.
    + cbn [List.length]. rewrite length_map, length_firstn. cbn. lia.
    + constructor; [apply of_deployer_search|apply of_deployer_create].
    + constructor; [now left|].
      apply Forall_map, List.Forall_forall. intros endpoint _. right.
      exact (clean_rule_json_clean _ _ Hc).
Qed.

Lemma deploy_each_requests (rule_files : list rule_file) :
  forall results log,
    exists new,
      snd (deploy_each py_str str_exn service self results rule_files log)
      = log ++ new
      /\ List.length new <= 4 * List.length rule_files
      /\ Forall (of_deployer self) new
      /\ Forall (fun r => r = search_request self \/ sends_cleaned r) new.
Proof.
  induction rule_files as [|file rest IH]; intros results log.
  - exists []. cbn. rewrite app_nil_r. repeat split; constructor.
  - cbn [deploy_each]. unfold io_bind.
    destruct (deploy_rule_deployment file log) as (new1 & Hlog1 & Hnew1).
    destruct (deploy_rule py_str str_exn service self file log)
      as [outcome log1]. cbn [snd] in Hlog1. subst log1.
    destruct (deployment_facts _ _ Hnew1) as (Hlen1 & Hof1 & Hclean1).
    destruct (IH (record_outcome results file outcome) (log ++ new1))
      as (new2 & -> & Hlen2 & Hof2 & Hclean2).
    exists (new1 ++ new2). rewrite app_assoc.
    repeat split; try (now apply Forall_app).
    rewrite length_app. cbn [List.length]. lia.
Qed.
End DeploymentRequests.

(** X9.  The requests of [deploy_rule] for one file.  It sends none
    when the file does not decode, or when reading the rule's title or
    cleaning the rule raises.  In every other case it sends the search
    first; when the search finds a rule, exactly one more request, the
    PUT of the cleaned document to that rule's URL; when it finds none,
    the POST of the cleaned document to the first one, two or three
    candidate endpoints in their declared order.  So at least two and
    at most four requests for a file that can be deployed. *)
Theorem deploy_rule_requests
    (py_str : json -> string) (str_exn : exn -> string)
    (service : Deployer.remote) (self : Deployer.deployer)
    (file : Deployer.rule_file) (log : list Deployer.request) :
  exists new,
    snd (Deployer.deploy_rule py_str str_exn service self file log)
    = log ++ new
    /\ List.length new <= 4
    /\ match Deployer.file_content file with
       | inl _ => new = []
       | inr doc =>
           match py_get doc "title" (JStr (Deployer.file_stem file)),
                 Deployer.clean_rule_json doc with
           | Ok title, Ok cleaned =>
               let result :=
                 fst (Deployer.search_rule_by_title service self title
                        log) in
               2 <= List.length new
               /\ if Deployer.found result then
                    new = [search_request self;
                           update_request py_str self
                             (Deployer.rule_id result) cleaned]
                  else
                    exists n,
                      1 <= n <= 3
                      /\ new = search_request self
                               :: map (create_request self cleaned)
                                    (firstn n
                                       (Deployer.create_endpoints self))
           | _, _ => new = []
           end
       end.
Proof.
  destruct (deploy_rule_sends py_str str_exn service self file log)
    as (new & Hlog & Hnew).
  exists new. split; [exact Hlog|].
  destruct (Deployer.file_content file) as [decode_error|doc].
  { subst new. split; [cbn; lia|reflexivity]. }
  destruct (py_get doc "title" (JStr (Deployer.file_stem file)))
    as [title|e].
  2:{ subst new. split; [cbn; lia|reflexivity]. }
  destruct (Deployer.clean_rule_json doc) as [cleaned|e].
  2:{ subst new. split; [cbn; lia|reflexivity]. }
  cbv zeta in Hnew |- *.
  destruct (Deployer.found
              (fst (Deployer.search_rule_by_title service self title log))).
  - subst new. cbn [List.length]. repeat split; lia.
  - destruct Hnew as (n & Hn & ->).
    assert (Hlen : List.length
                     (map (create_request self cleaned)
                        (firstn n (Deployer.create_endpoints self)))
                   = n).
    { rewrite length_map, length_firstn.
      cbn [Deployer.create_endpoints List.length]. lia. }
    cbn [List.length]. rewrite Hlen.
    split; [lia|]. split; [lia|]. now exists n.
Qed.

(** X10.  Every request [deploy_rule] sends carries the deployer's
    token and goes to a URL under its base URL; and every request other
    than the search carries a cleaned document: none of the five
    read-only keys at its root, no [notificationEndpointIds] under
    [output.recipients]. *)
Theorem deploy_rule_sends_cleaned
    (py_str : json -> string) (str_exn : exn -> string)
    (service : Deployer.remote) (self : Deployer.deployer)
    (file : Deployer.rule_file) (log : list Deployer.request) :
  exists new,
    snd (Deployer.deploy_rule py_str str_exn service self file log)
    = log ++ new
    /\ Forall (of_deployer self) new
    /\ Forall (fun r => r = search_request self \/ sends_cleaned r) new.
Proof.
  destruct (deploy_rule_deployment py_str str_exn service self file log)
    as (new & Hlog & Hnew).
  exists new. split; [exact Hlog|].
  exact (proj2 (deployment_facts py_str self file new Hnew)).
Qed.

(** X11.  The requests of a batch: none when the rules directory is
    missing or holds no JSON file; otherwise at most four per file, each
    with the deployer's token, under its base URL, and, the searches
    apart, with a cleaned document. *)
Theorem deploy_all_rules_requests
    (py_str : json -> string) (str_exn : exn -> string)
    (service : Deployer.remote) (self : Deployer.deployer)
    (rules_directory : option (list Deployer.rule_file))
    (log : list Deployer.request) :
  exists new,
    snd (Deployer.deploy_all_rules py_str str_exn service self
           rules_directory log)
    = log ++ new
    /\ List.length new
       <= 4 * match rules_directory with
              | Some rule_files => List.length rule_files
              | None => 0
              end
    /\ Forall (of_deployer self) new
    /\ Forall (fun r => r = search_request self \/ sends_cleaned r) new.
Proof.
  unfold Deployer.deploy_all_rules.
  destruct rules_directory as [[|file rest]|].
  - exists []. cbn. rewrite app_nil_r. repeat split; constructor.
  - apply deploy_each_requests.
  - exists []. cbn. rewrite app_nil_r. repeat split; constructor.
Qed.

(** ** The deployer's entry point and its base URL *)

Section DeployerEntry.
Import Deployer.


Lemma rstrip_slash_slashes (n : nat) : rstrip_slash (slashes n) = "".
Proof. induction n as [|n IH]; cbn; [reflexivity|now rewrite IH]. Qed.

Lemma rstrip_slash_append_slashes (s : string) (n : nat) :
  rstrip_slash (s +++ slashes n) = rstrip_slash s.
Proof.
  induction s as [|c s IH]; cbn [String.append rstrip_slash].
  - apply rstrip_slash_slashes.
  - now rewrite IH.
Qed.

Lemma rstrip_slash_decompose (s : string) :
  exists n, s = rstrip_slash s +++ slashes n.
Proof.
  induction s as [|c s (n & IH)]; [now exists 0|].
  cbn [rstrip_slash]. destruct (rstrip_slash s) as [|c' t] eqn:E.
  - destruct (Ascii.eqb c "/") eqn:Ec.
    + apply Ascii.eqb_eq in Ec as ->. exists (Datatypes.S n).
      cbn in IH |- *. now rewrite <- IH.
    + exists n. cbn in IH |- *. now rewrite <- IH.
  - exists n. cbn [String.append] in IH |- *. now rewrite <- IH.
Qed.

Lemma rstrip_slash_last (s : string) (c : ascii) (t : string) :
  rstrip_slash s <> t +++ String c "" \/ c <> "/"%char.
Proof.
  revert t. induction s as [|c0 s IH]; intros t; cbn [rstrip_slash].
  - left. now destruct t.
  - destruct (rstrip_slash s) as [|c' u] eqn:E.
    + destruct (Ascii.eqb c0 "/") eqn:Ec.
      * left. now destruct t.
      * destruct t as [|c1 [|c2 t]]; cbn; try (left; congruence).
        destruct (Ascii.eqb c "/") eqn:Ec'; [|right; intros ->; discriminate].
        apply Ascii.eqb_eq in Ec' as ->. left. intros [= ->]. discriminate.
    + destruct t as [|c1 t]; cbn [String.append].
      * left. congruence.
      * destruct (IH t) as [Hne|Hc]; [|now right].
        left. intros [= _ H]. now apply Hne.
Qed.
End DeployerEntry.


(** X13.  The deployer's base URL is the given URL without its
    trailing slashes: it does not end in a slash, the given URL is the
    base URL followed by slashes only, and URLs that differ in trailing
    slashes give the same deployer. *)
Theorem new_strips_trailing_slashes
    (api_token api_url environment : string) :
  let self := Deployer.new api_token api_url environment in
  (exists n, api_url = Deployer.api_url self +++ slashes n)
  /\ (forall t, Deployer.api_url self <> t +++ "/")
  /\ (forall n,
        Deployer.new api_token (api_url +++ slashes n) environment = self).
Proof.
  cbv zeta. unfold Deployer.new. cbn [Deployer.api_url]. repeat split.
  - apply rstrip_slash_decompose.
  - intros t. now destruct (rstrip_slash_last api_url "/" t).
  - intros n. now rewrite rstrip_slash_append_slashes.
Qed.

(** ** File names of exported rules *)

Section SanitizeFilename.
Import Exporter.

Lemma hyphen_safe : safe_char "-" = true.
Proof. reflexivity. Qed.

Lemma forall_chars_impl (p q : ascii -> bool) (s : string) :
  (forall c, p c = true -> q c = true) ->
  forall_chars p s = true -> forall_chars q s = true.
Proof.
  intros Hpq. induction s as [|c s IH]; cbn [forall_chars]; [trivial|].
  intros H. apply andb_prop in H as [Hc Hs].
  now rewrite (Hpq c Hc), (IH Hs).
Qed.

Lemma replace_forbidden_free (s : string) :
  forall_chars (fun c => negb (forbidden c)) (replace_forbidden s) = true.
Proof.
  induction s as [|c s IH]; cbn [replace_forbidden forall_chars];
    [reflexivity|].
  rewrite IH, andb_true_r. now destruct (forbidden c) eqn:E; [|rewrite E].
Qed.

Lemma lstrip_chars (p : ascii -> bool) (s : string) :
  forall_chars p s = true -> forall_chars p (lstrip s) = true.
Proof.
  induction s as [|c s IH]; cbn [lstrip forall_chars]; [trivial|].
  intros H. destruct (is_space c); [|exact H].
  apply andb_prop in H as [_ Hs]. now apply IH.
Qed.

Lemma rstrip_chars (p : ascii -> bool) (s : string) :
  forall_chars p s = true -> forall_chars p (rstrip s) = true.
Proof.
  induction s as [|c s IH]; cbn [rstrip forall_chars]; [trivial|].
  intros H. apply andb_prop in H as [Hc Hs]. specialize (IH Hs).
  destruct (rstrip s) as [|c' t].
  - destruct (is_space c); cbn [forall_chars]; [reflexivity|].
    now rewrite Hc.
  - cbn [forall_chars] in IH |- *. now rewrite Hc, IH.
Qed.

Lemma collapse_from_safe (s : string) :
  forall in_run,
    forall_chars (fun c => negb (forbidden c)) s = true ->
    forall_chars safe_char (collapse_from in_run s) = true.
Proof.
  induction s as [|c s IH]; intros in_run; cbn [collapse_from forall_chars];
    [trivial|].
  intros H. apply andb_prop in H as [Hc Hs].
  destruct (is_space c) eqn:Esp.
  - destruct in_run; [now apply IH|].
    cbn [forall_chars]. now rewrite hyphen_safe, IH.
  - cbn [forall_chars]. unfold safe_char at 1. now rewrite Hc, Esp, IH.
Qed.

Lemma substring_chars (p : ascii -> bool) (n : nat) :
  forall s, forall_chars p s = true ->
            forall_chars p (String.substring 0 n s) = true.
Proof.
  induction n as [|n IH]; intros [|c s]; cbn [String.substring forall_chars];
    try reflexivity.
  intros H. apply andb_prop in H as [Hc Hs]. now rewrite Hc, IH.
Qed.

Lemma substring_length (n : nat) :
  forall s, String.length (String.substring 0 n s) <= n.
Proof.
  induction n as [|n IH]; intros [|c s]; cbn [String.substring String.length];
    try lia.
  specialize (IH s). lia.
Qed.

Lemma substring_short (n : nat) :
  forall s, String.length s <= n -> String.substring 0 n s = s.
Proof.
  induction n as [|n IH]; intros [|c s]; cbn [String.substring String.length];
    try reflexivity; try lia.
  intros H. rewrite IH by lia. reflexivity.
Qed.

(** On a string of safe characters the three rewritings change
    nothing. *)
Lemma replace_forbidden_safe (s : string) :
  forall_chars safe_char s = true -> replace_forbidden s = s.
Proof.
  induction s as [|c s IH]; cbn [replace_forbidden forall_chars];
    [trivial|].
  intros H. apply andb_prop in H as [Hc Hs]. rewrite (IH Hs).
  unfold safe_char in Hc. apply andb_prop in Hc as [Hf _].
  now destruct (forbidden c).
Qed.

Lemma lstrip_safe (s : string) :
  forall_chars safe_char s = true -> lstrip s = s.
Proof.
  destruct s as [|c s]; cbn [lstrip forall_chars]; [trivial|].
  intros H. apply andb_prop in H as [Hc _].
  unfold safe_char in Hc. apply andb_prop in Hc as [_ Hsp].
  now destruct (is_space c).
Qed.

Lemma rstrip_safe (s : string) :
  forall_chars safe_char s = true -> rstrip s = s.
Proof.
  induction s as [|c s IH]; cbn [rstrip forall_chars]; [trivial|].
  intros H. apply andb_prop in H as [Hc Hs]. rewrite (IH Hs).
  unfold safe_char in Hc. apply andb_prop in Hc as [_ Hsp].
  destruct s; [|reflexivity]. now destruct (is_space c).
Qed.

Lemma collapse_safe (s : string) :
  forall_chars safe_char s = true -> collapse_from false s = s.
Proof.
  induction s as [|c s IH]; cbn [collapse_from forall_chars]; [trivial|].
  intros H. apply andb_prop in H as [Hc Hs]. rewrite (IH Hs).
  unfold safe_char in Hc. apply andb_prop in Hc as [_ Hsp].
  now destruct (is_space c).
Qed.

Lemma sanitize_filename_safe_name (s : string) :
  exists name,
    sanitize_filename (JStr s) = Ok name
    /\ String.length name <= 100
    /\ forall_chars safe_char name = true.
Proof.
  eexists. split; [reflexivity|]. split; [apply substring_length|].
  apply substring_chars. unfold collapse, strip.
  apply collapse_from_safe, rstrip_chars, lstrip_chars.
  apply replace_forbidden_free.
Qed.

Lemma sanitize_filename_fixed (s : string) :
  String.length s <= 100 -> forall_chars safe_char s = true ->
  sanitize_filename (JStr s) = Ok s.
Proof.
  intros Hlen Hsafe. cbn [sanitize_filename]. unfold collapse, strip.
  rewrite (replace_forbidden_safe _ Hsafe), (lstrip_safe _ Hsafe),
    (rstrip_safe _ Hsafe), (collapse_safe _ Hsafe).
  now rewrite substring_short.
Qed.
End SanitizeFilename.

(** X14.  The file name [sanitize_filename] makes of a title has at
    most 100 characters, and none of them is whitespace or one of the
    nine characters the function replaces (less-than, greater-than,
    colon, double quote, slash, backslash, bar, question mark, star);
    anything but a string raises [TypeError]. *)
Theorem sanitize_filename_safe (title : json) :
  match title with
  | JStr _ =>
      exists name,
        Exporter.sanitize_filename title = Ok name
        /\ String.length name <= 100
        /\ forall_chars safe_char name = true
  | _ => Exporter.sanitize_filename title = Exc TypeError
  end.
Proof.
  destruct title; try reflexivity. apply sanitize_filename_safe_name.
Qed.

(** X15.  [sanitize_filename] changes nothing in a name that is safe
    already (at most 100 characters, none of them forbidden or
    whitespace), so it is idempotent. *)
Theorem sanitize_filename_idempotent (title : json) (name : string) :
  Exporter.sanitize_filename title = Ok name ->
  Exporter.sanitize_filename (JStr name) = Ok name.
Proof.
  destruct title as [| | | |s| |]; try discriminate.
  destruct (sanitize_filename_safe_name s) as (name' & -> & Hlen & Hsafe).
  intros [= <-]. now apply sanitize_filename_fixed.
Qed.

Lemma sanitize_filename_idempotent_witness :
  Exporter.sanitize_filename (JStr "Alert-X--failed-logins")
  = Ok "Alert-X--failed-logins".
Proof.
  apply (sanitize_filename_idempotent (JStr "Alert X: failed  logins ")).
  reflexivity.
Defined.

(** ** Fetching the rules *)

Section FetchRules.
Import Deployer Exporter.
Variable service : remote.
Variable api_token api_url : string.
Variable caught : bool.
Variable tags : option (list string).
Variable page_size : Z.

Local Abbreviation pages' :=
  (pages service api_token caught tags page_size).
Local Abbreviation fetch_from' :=
  (fetch_from service api_token api_url caught tags page_size).

(** A page that does not end the loop has added a rule. *)
Lemma page_continues (data : json) (all_rules all_rules' : list json) :
  page data all_rules = Ok (all_rules', false) ->
  List.length all_rules < List.length all_rules'
  /\ exists pagination total,
       py_get data "pagination" (JDict []) = Ok pagination
       /\ py_get pagination "total"
            (JInt (Z.of_nat (List.length all_rules'))) = Ok total
       /\ py_ge_nat (List.length all_rules') total = Ok false.
Proof.
  unfold page.
  destruct (page_rules data) as [rules|e]; cbn [rbind]; [|discriminate].
  destruct (truthy rules) eqn:Etruthy; cbn [negb]; [|discriminate].
  destruct (py_len rules) as [n|e] eqn:Elen; cbn [rbind]; [|discriminate].
  destruct (py_iter rules) as [items|e] eqn:Eiter; cbn [rbind];
    [|discriminate].
  destruct (py_get data "pagination" (JDict [])) as [pagination|e];
    cbn [rbind]; [|discriminate].
  destruct (py_get pagination "total" _) as [total|e] eqn:Etotal;
    cbn [rbind]; [|discriminate].
  destruct (py_ge_nat _ total) as [enough|e] eqn:Eenough; cbn [rbind];
    [|discriminate].
  intros [= <- ->]. split.
  - rewrite length_app.
    assert (0 < List.length items); [|lia].
    destruct rules as [| | | |s|l|d]; try discriminate Elen;
      cbn [py_iter] in Eiter; injection Eiter as <-;
      cbn [truthy] in Etruthy.
    + destruct s; [discriminate Etruthy|cbn; lia].
    + destruct l; [discriminate Etruthy|cbn; lia].
    + destruct d; [discriminate Etruthy|cbn; lia].
  - now exists pagination, total.
Qed.

Lemma page_continues_below (T : Z) (data : json)
    (all_rules all_rules' : list json) :
  reports_at_most T data ->
  page data all_rules = Ok (all_rules', false) ->
  List.length all_rules < List.length all_rules'
  /\ (Z.of_nat (List.length all_rules') < T)%Z.
Proof.
  intros Hdata Hpage.
  destruct (page_continues _ _ _ Hpage)
    as (Hlen & pagination & total & Hpag & Htotal & Hge).
  split; [exact Hlen|].
  destruct data as [| | | | | |d]; try discriminate Hpag.
  cbn [py_get] in Hpag. injection Hpag as Hpag.
  destruct (dict_get "pagination" d) as [pg|] eqn:Epg.
  - subst pg. destruct pagination as [| | | | | |pd]; try discriminate Htotal.
    cbn [py_get] in Htotal. injection Htotal as Htotal.
    destruct (dict_get "total" pd) as [t|] eqn:Et.
    + subst t. destruct (Hdata (JDict pd) total) as (t & -> & Ht);
        [exact Epg|exact Et|].
      cbn [py_ge_nat] in Hge. injection Hge as Hge.
      apply Z.leb_gt in Hge. lia.
    + subst total. cbn [py_ge_nat] in Hge. injection Hge as Hge.
      apply Z.leb_gt in Hge. lia.
  - subst pagination. cbn [py_get dict_get] in Htotal.
    injection Htotal as <-. cbn [py_ge_nat] in Hge. injection Hge as Hge.
    apply Z.leb_gt in Hge. lia.
Qed.

Section Bounded.
Variable T : Z.
Hypothesis Hservice :
  forall log r status_code data,
    service log r = Response status_code (Some data) ->
    reports_at_most T data.

Lemma pages_terminates (fuel : nat) :
  forall url page_number all_rules current_page log,
    (T < Z.of_nat (fuel + List.length all_rules))%Z -> 0 < fuel ->
    match fst (pages' fuel url page_number all_rules current_page log) with
    | None => False
    | Some (NextEndpoint all_rules' _) =>
        List.length all_rules <= List.length all_rules'
    | Some _ => True
    end.
Proof.
  induction fuel as [|fuel IH];
    intros url page_number all_rules current_page log Hfuel Hpos; [lia|].
  cbn [pages]. unfold io_bind, post, send.
  destruct (service log _) as [reason|status_code body] eqn:Ereply;
    [cbn; lia|].
  destruct (negb (status_code =? 200)%Z); [exact I|].
  destruct body as [data|]; [|destruct caught; cbn; lia].
  destruct (page data all_rules) as [[all_rules' [|]]|e] eqn:Epage;
    try exact I.
  destruct (page_continues_below T _ _ _ (Hservice _ _ _ _ Ereply) Epage)
    as [Hlen Hbelow].
  assert (Hfuel' : (T < Z.of_nat (fuel + List.length all_rules'))%Z) by lia.
  assert (Hpos' : 0 < fuel) by lia.
  specialize (IH url (current_page + 1) all_rules' (current_page + 1)
                (log ++ [Request POST url api_token
                           (payload tags page_size page_number)])
                Hfuel' Hpos').
  destruct (fst (pages' fuel url _ all_rules' _ _)) as [[| |]|];
    try exact IH. lia.
Qed.

Lemma fetch_from_terminates (fuel : nat) (endpoints : list string) :
  forall all_rules current_page log,
    (T < Z.of_nat (fuel + List.length all_rules))%Z -> 0 < fuel ->
    fst (fetch_from' fuel endpoints all_rules current_page log) <> None.
Proof.
  induction endpoints as [|endpoint rest IH];
    intros all_rules current_page log Hfuel Hpos; [discriminate|].
  cbn [fetch_from]. unfold io_bind at 1. unfold post at 1, send.
  destruct (service log _) as [reason|status_code body];
    [now apply IH|].
  destruct (status_code =? 200)%Z; [|now apply IH].
  unfold io_bind.
  match goal with
  | |- context [pages' fuel ?u 1 all_rules current_page ?l] =>
      pose proof (pages_terminates fuel u 1 all_rules current_page l
                    Hfuel Hpos) as Hpages;
      destruct (pages' fuel u 1 all_rules current_page l)
        as [[[all'|all' page'|e]|] log']
  end; cbn [fst] in Hpages; try discriminate; [|contradiction].
  apply IH; [lia|exact Hpos].
Qed.
End Bounded.

(** Against a service that paginates [rules]. *)
Section Paging.
Variable p : nat.
Variable rules : list json.
Variable url : string.
Hypothesis Hp : 0 < p.
Hypothesis Hsize : page_size = Z.of_nat p.
Hypothesis Hpages :
  forall log k,
    service log (Request POST url api_token (payload tags page_size k))
    = Response 200 (Some (page_response p rules k)).

Lemma firstn_page (j : nat) :
  firstn (j * p) rules ++ page_of p rules (Datatypes.S j)
  = firstn ((j + 1) * p) rules.
Proof.
  unfold page_of. replace (Datatypes.S j - 1) with j by lia.
  replace ((j + 1) * p) with (j * p + p) by lia.
  rewrite <- (firstn_skipn (j * p) (firstn (j * p + p) rules)).
  rewrite List.firstn_firstn, Nat.min_l by lia.
  f_equal. rewrite List.skipn_firstn_comm. f_equal. lia.
Qed.

Lemma pages_of_service (fuel : nat) :
  forall j log,
    List.length rules < fuel + j * p -> j * p <= List.length rules ->
    fst (pages' fuel url (j + 1) (firstn (j * p) rules) (j + 1) log)
    = Some (Returned rules).
Proof.
  induction fuel as [|fuel IH]; intros j log Hfuel Hj; [lia|].
  cbn [pages]. unfold io_bind, post, send. rewrite Hpages.
  cbn [Z.eqb Pos.eqb negb]. unfold page, page_response.
  cbn [page_rules py_in dict_has dict_get String.eqb Ascii.eqb Bool.eqb
         rbind py_getitem].
  replace (j + 1) with (Datatypes.S j) by lia.
  destruct (page_of p rules (Datatypes.S j)) as [|rule rest] eqn:Epage.
  - cbn [truthy negb]. unfold io_ret. cbn [fst]. do 2 f_equal.
    apply List.firstn_all2.
    unfold page_of in Epage. replace (Datatypes.S j - 1) with j in Epage
      by lia.
    destruct (skipn (j * p) rules) as [|x l] eqn:Eskip.
    + apply (f_equal (@List.length json)) in Eskip.
      rewrite List.length_skipn in Eskip. cbn [List.length] in Eskip. lia.
    + destruct p; [lia|discriminate Epage].
  - cbn [truthy negb py_len rbind py_iter py_get dict_get String.eqb
           Ascii.eqb Bool.eqb py_ge_nat].
    rewrite <- Epage, firstn_page.
    assert (Hlen : List.length (firstn ((j + 1) * p) rules)
                   = Nat.min ((j + 1) * p) (List.length rules))
      by apply List.length_firstn.
    destruct (Z.leb_spec (Z.of_nat (List.length rules))
                (Z.of_nat (List.length (firstn ((j + 1) * p) rules))))
      as [Hge|Hlt].
    + unfold io_ret. cbn [fst]. do 2 f_equal. apply List.firstn_all2. lia.
    + replace (Datatypes.S j + 1) with (j + 1 + 1) by lia.
      apply IH; lia.
Qed.
End Paging.
End FetchRules.

(** X16.  When no endpoint answers its probe with a 200,
    [fetch_rules] returns [None] after exactly three requests: the
    probe of each endpoint, in the declared order. *)
Theorem fetch_rules_no_endpoint
    (service : Deployer.remote) (api_token api_url : string)
    (caught : bool) (tags : option (list string)) (page_size : Z)
    (fuel : nat) (log : list Deployer.request) :
  (forall log r, usable (service log r) = false) ->
  Exporter.fetch_rules service api_token api_url caught tags page_size
    fuel log
  = (Some (Ok None),
     log ++ map (probe api_token api_url tags page_size) Exporter.ENDPOINTS).
Proof.
  intros Hservice. unfold Exporter.fetch_rules.
  generalize (@nil json) at 1. generalize 1 at 1.
  revert log. induction Exporter.ENDPOINTS as [|endpoint rest IH];
    intros log current_page all_rules.
  - cbn. now rewrite app_nil_r.
  - cbn [Exporter.fetch_from map].
    unfold Deployer.io_bind at 1. unfold Exporter.post at 1, Deployer.send.
    fold (probe api_token api_url tags page_size endpoint).
    pose proof (Hservice log
                  (probe api_token api_url tags page_size endpoint)) as Hr.
    destruct (service log _) as [reason|status_code body]; cbn [usable] in Hr.
    + rewrite IH. now rewrite <- app_assoc.
    + rewrite Hr, IH. now rewrite <- app_assoc.
Qed.

Lemma fetch_rules_no_endpoint_witness :
  Exporter.fetch_rules (always (Deployer.Response 404 None)) "token"
    "https://api.logz.io/v2" true (Some ["prod"; "security"]) 1000 5 []
  = (Some (Ok None),
     [] ++ map (probe "token" "https://api.logz.io/v2"
                  (Some ["prod"; "security"]) 1000)
             Exporter.ENDPOINTS).
Proof.
  apply (fetch_rules_no_endpoint (always (Deployer.Response 404 None))).
  intros log r. reflexivity.
Defined.

(** X17.  Pagination terminates against a service whose every
    [pagination.total] is an integer, and at most [T]: every round that
    goes on has added a rule and found fewer than [T], so more than [T]
    rounds are never needed, whatever else the service answers. *)
Theorem fetch_rules_terminates
    (service : Deployer.remote) (api_token api_url : string)
    (caught : bool) (tags : option (list string)) (page_size : Z)
    (T : Z) (fuel : nat) (log : list Deployer.request) :
  (forall log r status_code data,
      service log r = Deployer.Response status_code (Some data) ->
      reports_at_most T data) ->
  (T < Z.of_nat fuel)%Z -> 0 < fuel ->
  exists outcome,
    fst (Exporter.fetch_rules service api_token api_url caught tags
           page_size fuel log)
    = Some outcome.
Proof.
  intros Hservice Hfuel Hpos.
  pose proof (fetch_from_terminates service api_token api_url caught tags
                page_size T Hservice fuel Exporter.ENDPOINTS [] 1 log)
    as Hend.
  unfold Exporter.fetch_rules.
  destruct (fst (Exporter.fetch_from _ _ _ _ _ _ _ _ _ _ _))
    as [outcome|]; [now exists outcome|].
  exfalso. apply Hend; [cbn [List.length]; lia|exact Hpos|reflexivity].
Qed.

Lemma fetch_rules_terminates_witness :
  exists outcome,
    fst (Exporter.fetch_rules (paging_service 2 three_rules) "token"
           "https://api.logz.io/v2" true None 2 4 [])
    = Some outcome.
Proof.
  apply (fetch_rules_terminates (paging_service 2 three_rules) "token"
           "https://api.logz.io/v2" true None 2 3 4 []); [|lia|lia].
  intros log r status_code data [= _ <-] pagination total.
  cbn. intros [= <-]. cbn. intros [= <-].
  exists 3%Z. split; [reflexivity|lia].
Defined.

(** X18.  Against a service whose first endpoint serves the pages of a
    list of rules, [p] rules to a page, and reports their number as the
    total, [fetch_rules] returns exactly that list: every rule once, in
    the order of the pages. *)
Theorem fetch_rules_complete
    (service : Deployer.remote) (api_token api_url : string)
    (caught : bool) (tags : option (list string))
    (p : nat) (rules : list json) (fuel : nat)
    (log : list Deployer.request) :
  0 < p ->
  (forall log k,
      service log
        (Deployer.Request Deployer.POST
           (api_url +++ "/security/rules/search") api_token
           (Exporter.payload tags (Z.of_nat p) k))
      = Deployer.Response 200 (Some (page_response p rules k))) ->
  List.length rules < fuel ->
  fst (Exporter.fetch_rules service api_token api_url caught tags
         (Z.of_nat p) fuel log)
  = Some (Ok (Some rules)).
Proof.
  intros Hp Hpages Hfuel. unfold Exporter.fetch_rules, Exporter.ENDPOINTS.
  cbn [Exporter.fetch_from]. unfold Deployer.io_bind at 1.
  unfold Exporter.post at 1, Deployer.send. rewrite Hpages.
  cbn [Z.eqb Pos.eqb]. unfold Deployer.io_bind.
  pose proof (pages_of_service service api_token caught tags (Z.of_nat p)
                p rules (api_url +++ "/security/rules/search") Hp eq_refl
                Hpages fuel 0) as Hrun.
  match goal with
  | |- context [Exporter.pages _ _ _ _ _ _ _ _ _ _ ?l] =>
      specialize (Hrun l ltac:(lia) ltac:(lia));
      change (fst (Exporter.pages service api_token caught tags
                     (Z.of_nat p) fuel
                     (api_url +++ "/security/rules/search") 1 [] 1 l)
              = Some (Exporter.Returned rules)) in Hrun;
      destruct (Exporter.pages service api_token caught tags (Z.of_nat p)
                  fuel (api_url +++ "/security/rules/search") 1 [] 1 l)
        as [ended log']
  end.
  cbn [fst] in Hrun. subst ended. reflexivity.
Qed.

Lemma fetch_rules_complete_witness :
  fst (Exporter.fetch_rules (paging_service 2 three_rules) "token"
         "https://api.logz.io/v2" true (Some ["prod"]) (Z.of_nat 2) 4 [])
  = Some (Ok (Some three_rules)).
Proof.
  apply (fetch_rules_complete (paging_service 2 three_rules) "token"
           "https://api.logz.io/v2" true (Some ["prod"]) 2 three_rules 4
           []).
  - lia.
  - intros log k. unfold paging_service, page_number_of. cbn.
    now rewrite Nat2Z.id.
  - cbn. lia.
Defined.

(** ** Saving the rules *)

Section SaveRules.
Import Exporter.
Variable py_str : json -> string.
Variable fs : disk.

Lemma forall_chars_app (p : ascii -> bool) (s t : string) :
  forall_chars p (s +++ t) = forall_chars p s && forall_chars p t.
Proof.
  induction s as [|c s IH]; cbn [String.append forall_chars]; [reflexivity|].
  now rewrite IH, andb_assoc.
Qed.

Lemma filename_of_safe (idx : nat) (rule : json) (filename : string) :
  filename_of py_str idx rule = Ok filename ->
  exists safe_title,
    filename = id_part py_str idx rule +++ "_" +++ safe_title +++ ".json"
    /\ String.length safe_title <= 100
    /\ forall_chars safe_char safe_title = true.
Proof.
  unfold filename_of, id_part.
  destruct (py_get rule "name" _) as [name|e]; cbn [rbind]; [|discriminate].
  destruct (py_get rule "title" name) as [title|e]; cbn [rbind];
    [|discriminate].
  destruct (py_get rule "id" _) as [rule_id|e] eqn:Eid; cbn [rbind];
    [|discriminate].
  destruct title as [| | | |s| |]; try discriminate.
  destruct (sanitize_filename_safe_name s) as (safe & -> & Hlen & Hsafe).
  cbn [rbind]. intros [= <-]. exists safe.
  split; [|now split].
  destruct rule as [| | | | | |d]; try discriminate Eid.
  cbn [py_get lookup] in Eid |- *.
  destruct (dict_get "id" d); now injection Eid as <-.
Qed.

Lemma rule_dump_next (output_dir : string) (first : nat) (rule : json)
    (rest : list json) (ops : list fs_operation) :
  Forall (rule_dump py_str output_dir (Datatypes.S first) rest) ops ->
  Forall (rule_dump py_str output_dir first (rule :: rest)) ops.
Proof.
  intros Hops. eapply Forall_impl; [exact Hops|]. cbv beta.
  intros op (i & r & safe & Hi & -> & Hlen & Hsafe & Hname).
  exists (Datatypes.S i), r, safe.
  replace (first + Datatypes.S i) with (Datatypes.S first + i) by lia.
  now repeat split.
Qed.

Lemma save_each_writes (output_dir : string) (rules : list json) :
  forall idx counts done,
    exists ops,
      snd (save_each py_str fs output_dir idx counts rules done)
      = done ++ ops
      /\ List.length ops <= List.length rules
      /\ Forall (rule_dump py_str output_dir idx rules) ops
      /\ saved_count
           (fst (save_each py_str fs output_dir idx counts rules done))
         + failed_count
             (fst (save_each py_str fs output_dir idx counts rules done))
         = saved_count counts + failed_count counts + List.length rules.
Proof.
  induction rules as [|rule rest IH]; intros idx counts done.
  - exists []. cbn. rewrite app_nil_r.
    split; [reflexivity|]. split; [lia|]. split; [constructor|lia].
  - cbn [save_each].
    destruct (filename_of py_str idx rule) as [filename|e] eqn:Ename.
    + unfold perform.
      destruct (IH (Datatypes.S idx)
                  (if fs done (Dump output_dir filename rule)
                   then Saved (saved_count counts + 1) (failed_count counts)
                   else Saved (saved_count counts) (failed_count counts + 1))
                  (done ++ [Dump output_dir filename rule]))
        as (ops & Hops & Hlen & Hall & Hcount).
      exists (Dump output_dir filename rule :: ops).
      rewrite Hops, <- app_assoc. split; [reflexivity|].
      split; [cbn [List.length]; lia|]. split.
      * constructor; [|now apply rule_dump_next].
        destruct (filename_of_safe _ _ _ Ename) as (safe & -> & Hl & Hs).
        exists 0, rule, safe. rewrite Nat.add_0_r.
        split; [reflexivity|]. split; [reflexivity|].
        split; [exact Hl|]. split; [exact Hs|].
        intros Hid. rewrite !forall_chars_app, Hid, Hs. reflexivity.
      * rewrite Hcount. cbn [List.length].
        destruct (fs done _); cbn [saved_count failed_count]; lia.
    + destruct (IH (Datatypes.S idx)
                  (Saved (saved_count counts) (failed_count counts + 1))
                  done) as (ops & Hops & Hlen & Hall & Hcount).
      exists ops. split; [exact Hops|]. split; [cbn [List.length]; lia|].
      split; [now apply rule_dump_next|].
      rewrite Hcount. cbn [List.length saved_count failed_count]. lia.
Qed.

End SaveRules.


(** X20.  What the exporter's [main] leaves on the disk: unless it
    exits with status 0 it has written no rule file (it has done
    nothing, or created the output directory only); and when it exits
    with status 0, the rules were fetched, and after the directory it
    has attempted at most one file per rule. *)
Theorem export_files_after_fetch
    (py_str : json -> string) (service : Deployer.remote)
    (fs : Exporter.disk) (api_token : option string) (api_url : string)
    (caught : bool) (fuel : nat) (args : Exporter.arguments)
    (log : list Deployer.request) (done : list Exporter.fs_operation) :
  let out :=
    Exporter.main py_str service fs api_token api_url caught fuel args
      log done in
  exists ops,
    snd out = done ++ ops
    /\ match fst (fst out) with
       | Some 0%Z =>
           exists token rules dumps,
             api_token = Some token
             /\ fst (Exporter.fetch_rules service token api_url caught
                       (if Exporter.arg_all args then None
                        else Exporter.arg_tags args)
                       (Exporter.arg_page_size args) fuel log)
                = Some (Ok (Some rules))
             /\ ops = Exporter.Mkdir (Exporter.arg_output args) :: dumps
             /\ List.length dumps <= List.length rules
       | _ => ops = [] \/ ops = [Exporter.Mkdir (Exporter.arg_output args)]
       end.
Proof.
  cbv zeta. unfold Exporter.main.
  assert (Hargs : forall args', Exporter.parse_arguments args = inr args' ->
                                args' = args).
  { unfold Exporter.parse_arguments. intros args'.
    destruct (_ && _); [discriminate|].
    destruct (_ && _); [discriminate|]. now intros [= <-]. }
  destruct (Exporter.parse_arguments args) as [status|args'] eqn:Eargs.
  { exists []. cbn [fst snd]. rewrite app_nil_r. split; [reflexivity|].
    unfold Exporter.parse_arguments in Eargs.
    destruct (_ && _); [injection Eargs as <-; now left|].
    destruct (_ && _); [injection Eargs as <-; now left|discriminate]. }
  rewrite (Hargs args' eq_refl). clear Eargs Hargs args'.
  destruct api_token as [[|c token]|];
    try (exists []; cbn [fst snd]; rewrite app_nil_r; split;
         [reflexivity|now left]).
  unfold Exporter.perform.
  destruct (fs done (Exporter.Mkdir (Exporter.arg_output args)));
    cbn [negb].
  2:{ exists [Exporter.Mkdir (Exporter.arg_output args)].
      cbn [fst snd]. split; [reflexivity|now right]. }
  destruct (Exporter.fetch_rules _ _ _ _ _ _ _ _)
    as [[[[[|rule rest]|]|e]|] log'] eqn:Efetch;
    try (exists [Exporter.Mkdir (Exporter.arg_output args)];
         cbn [fst snd]; split; [reflexivity|now right]).
  - exists [Exporter.Mkdir (Exporter.arg_output args)]. cbn [fst snd].
    split; [reflexivity|].
    exists (String c token), [], [].
    split; [reflexivity|]. split; [now rewrite Efetch|].
    split; [reflexivity|cbn; lia].
  - unfold Exporter.save_rules_to_files.
    destruct (save_each_writes py_str fs (Exporter.arg_output args)
                (rule :: rest) 1 (Exporter.Saved 0 0)
                (done ++ [Exporter.Mkdir (Exporter.arg_output args)]))
      as (dumps & Hdumps & Hlen & _).
    destruct (Exporter.save_each _ _ _ _ _ _ _) as [counts done'].
    cbn [fst snd] in *. subst done'.
    exists (Exporter.Mkdir (Exporter.arg_output args) :: dumps).
    rewrite <- app_assoc. split; [reflexivity|].
    exists (String c token), (rule :: rest), dumps.
    split; [reflexivity|]. split; [now rewrite Efetch|].
    split; [reflexivity|exact Hlen].
Qed.

(** X21.  The exit status and the requests of the exporter's [main] do
    not depend on the disk once the output directory is created: a
    rule file that cannot be written is counted and printed, and the
    process still exits as if it had been. *)
Theorem export_status_ignores_dumps
    (py_str : json -> string) (service : Deployer.remote)
    (fs fs' : Exporter.disk) (api_token : option string)
    (api_url : string) (caught : bool) (fuel : nat)
    (args : Exporter.arguments)
    (log : list Deployer.request) (done : list Exporter.fs_operation) :
  fs done (Exporter.Mkdir (Exporter.arg_output args))
  = fs' done (Exporter.Mkdir (Exporter.arg_output args)) ->
  fst (Exporter.main py_str service fs api_token api_url caught fuel args
         log done)
  = fst (Exporter.main py_str service fs' api_token api_url caught fuel
           args log done).
Proof.
  intros Hmkdir. unfold Exporter.main.
  assert (Hargs : forall args', Exporter.parse_arguments args = inr args' ->
                                args' = args).
  { unfold Exporter.parse_arguments. intros args'.
    destruct (_ && _); [discriminate|].
    destruct (_ && _); [discriminate|]. now intros [= <-]. }
  destruct (Exporter.parse_arguments args) as [status|args'] eqn:Eargs;
    [reflexivity|].
  rewrite (Hargs args' eq_refl). clear Eargs Hargs args'.
  destruct api_token as [[|c token]|]; try reflexivity.
  unfold Exporter.perform. rewrite <- Hmkdir.
  destruct (fs done _); cbn [negb]; [|reflexivity].
  destruct (Exporter.fetch_rules _ _ _ _ _ _ _ _)
    as [[[[[|rule rest]|]|e]|] log']; try reflexivity.
  now do 2 destruct (Exporter.save_rules_to_files _ _ _ _ _).
Qed.

Lemma export_status_ignores_dumps_witness :
  fst (Exporter.main (fun _ => "r") (paging_service 2 three_rules)
         good_disk (Some "token") "https://api.logz.io/v2" true 4
         export_all [] [])
  = fst (Exporter.main (fun _ => "r") (paging_service 2 three_rules)
           (fun _ op => match op with
                        | Exporter.Mkdir _ => true
                        | Exporter.Dump _ _ _ => false
                        end)
           (Some "token") "https://api.logz.io/v2" true 4 export_all
           [] []).
Proof.
  apply (export_status_ignores_dumps (fun _ => "r")
           (paging_service 2 three_rules) good_disk).
  reflexivity.
Defined.

(** ** The validator over files *)

Section ValidateFiles.
Import ValidatorFiles.

Lemma bind_returns {A B} (m : F A) (k : A -> F B) st a st' :
  m st = (Returns a, st') -> bind m k st = k a st'.
Proof. intros H. unfold bind. now rewrite H. Qed.

Lemma bind_raises {A B} (m : F A) (k : A -> F B) st e st' :
  m st = (Raises e, st') -> bind m k st = (Raises e, st').
Proof. intros H. unfold bind. now rewrite H. Qed.

Lemma flags_ret (b : bool) : flags (ret b) b.
Proof.
  intros st. exists [], []. cbn. rewrite !app_nil_r.
  split; [now destruct st|].
  intros valid [= <-]. tauto.
Qed.

Lemma flags_raise (e : raised) (start : bool) : flags (raise e) start.
Proof.
  intros st. exists [], []. cbn. rewrite !app_nil_r.
  split; [now destruct st|]. intros valid Hrun. discriminate Hrun.
Qed.

Lemma flags_error (e : error) (start : bool) :
  flags (bind (add_error e) (fun _ => ret false)) start.
Proof.
  intros st. exists [e], []. cbn. rewrite app_nil_r.
  split; [reflexivity|].
  intros valid [= <-]. split; [discriminate|]. intros [_ H]. discriminate H.
Qed.

Lemma flags_call (rule : json) (path : string) :
  flags (call (Validator.validate_security_rule rule path)) true.
Proof.
  intros st.
  destruct (validate_security_rule_run rule path (rule_view st))
    as (ne & nw & Hst & Hflag).
  unfold call.
  destruct (Validator.validate_security_rule rule path (rule_view st))
    as [r st'] eqn:Erun.
  cbn [fst snd] in Hst, Hflag. subst st'.
  cbn [Validator.errors Validator.warnings rule_view].
  rewrite !skipn_app, !skipn_all, !Nat.sub_diag. cbn [skipn app].
  exists (map OfRule ne), (map WarningOfRule nw).
  split; [reflexivity|].
  intros valid Hrun. cbn [fst] in Hrun.
  destruct r as [b|e]; [|discriminate Hrun].
  injection Hrun as <-.
  destruct (Hflag b eq_refl) as [_ Hne].
  rewrite Hne. split.
  - intros ->. now split.
  - intros [_ H]. now destruct ne.
Qed.

Lemma flags_checked (syntax : F bool) (f : file) :
  (forall st,
     match file_content f with
     | Unreadable => syntax st = (Raises OSError, st)
     | Malformed message =>
         exists e,
           syntax st
           = (Returns false, State (errors st ++ [e]) (warnings st))
     | Document _ => syntax st = (Returns true, st)
     end) ->
  flags
    (bind syntax (fun ok =>
     if negb ok then ret false
     else
       bind (load f) (fun rule =>
       call (Validator.validate_security_rule rule (file_path f)))))
    true.
Proof.
  intros Hsyntax st. specialize (Hsyntax st).
  destruct (file_content f) as [|message|rule] eqn:Econtent.
  - rewrite (bind_raises _ _ _ _ _ Hsyntax).
    exact (flags_raise OSError true st).
  - destruct Hsyntax as (e & Hsyntax).
    rewrite (bind_returns _ _ _ _ _ Hsyntax). cbn [negb].
    exists [e], []. cbn. rewrite app_nil_r. split; [reflexivity|].
    intros valid [= <-]. split; [discriminate|]. intros [_ H].
    discriminate H.
  - rewrite (bind_returns _ _ _ _ _ Hsyntax). cbn [negb].
    assert (Hload : load f st = (Returns rule, st))
      by (unfold load; now rewrite Econtent).
    rewrite (bind_returns _ _ _ _ _ Hload).
    exact (flags_call rule (file_path f) st).
Qed.

Lemma flags_validate_file (f : file) : flags (validate_file f) true.
Proof.
  unfold validate_file.
  destruct (file_exists f); cbn [negb]; [|apply flags_error].
  destruct (file_suffix f).
  - apply flags_checked. intros st. unfold validate_json_syntax.
    destruct (file_content f); try reflexivity. now eexists.
  - apply flags_checked. intros st. unfold validate_yaml_syntax.
    destruct (file_content f); try reflexivity. now eexists.
  - apply flags_ret.
Qed.

Lemma flags_validate_each (files : list file) :
  forall all_valid, flags (validate_each all_valid files) all_valid.
Proof.
  induction files as [|f rest IH]; intros all_valid; cbn [validate_each].
  - apply flags_ret.
  - intros st.
    destruct (flags_validate_file f st) as (ne & nw & Hst & Hflag).
    destruct (validate_file f st) as [[ok|e] st1] eqn:Efile.
    + rewrite (bind_returns _ _ _ _ _ Efile).
      cbn [fst snd] in Hst, Hflag. subst st1.
      destruct (IH (if negb ok then false else all_valid)
                  (State (errors st ++ ne) (warnings st ++ nw)))
        as (ne' & nw' & Hst' & Hflag').
      cbn [errors warnings] in Hst'.
      exists (ne ++ ne'), (nw ++ nw'). rewrite !app_assoc.
      split; [exact Hst'|].
      intros valid Hrun. rewrite (Hflag' valid Hrun).
      specialize (Hflag ok eq_refl).
      destruct ok; cbn [negb].
      * assert (ne = []) as -> by now apply Hflag. cbn [app]. tauto.
      * split; [intros [H _]; discriminate H|].
        intros [_ H]. apply app_eq_nil in H as [H _].
        assert (false = true) by (apply Hflag; now split). discriminate.
    + rewrite (bind_raises _ _ _ _ _ Efile).
      cbn [fst snd] in Hst |- *. exists ne, nw. split; [exact Hst|].
      intros valid Hrun. discriminate Hrun.
Qed.

Lemma flags_validate_all (rules_dir : string) (found : option (list file)) :
  flags (validate_all rules_dir found) true.
Proof.
  destruct found as [files|]; cbn [validate_all]; [|apply flags_error].
  intros st.
  destruct (flags_validate_each files true st) as (ne & nw & Hst & Hflag).
  destruct (validate_each true files st) as [[all_valid|e] st1] eqn:Eeach.
  - rewrite (bind_returns _ _ _ _ _ Eeach).
    cbn [fst snd] in Hst, Hflag. subst st1.
    specialize (Hflag all_valid eq_refl).
    destruct (Nat.eqb (List.length files) 0).
    + exists ne, (nw ++ [NoRuleFiles rules_dir]).
      unfold bind, add_warning, ret. cbn [fst snd errors warnings].
      rewrite app_assoc. split; [reflexivity|].
      intros valid Hrun. injection Hrun as <-. exact Hflag.
    + exists ne, nw.
      unfold bind, ret. cbn [fst snd errors warnings].
      split; [reflexivity|].
      intros valid Hrun. injection Hrun as <-. exact Hflag.
  - rewrite (bind_raises _ _ _ _ _ Eeach).
    cbn [fst snd] in Hst |- *. exists ne, nw. split; [exact Hst|].
    intros valid Hrun. discriminate Hrun.
Qed.

Lemma flags_validation file_at files_under (args : arguments) :
  flags (validation file_at files_under args) true.
Proof.
  unfold validation.
  destruct (arg_file args) as [[|c path]|];
    first [apply flags_validate_all | apply flags_validate_file].
Qed.

Lemma main_unfolded file_at files_under (args : arguments) :
  main file_at files_under args
  = match validation file_at files_under args init with
    | (Returns _, st) =>
        if arg_strict args && negb (Nat.eqb (List.length (warnings st)) 0)
        then 1%Z
        else if Nat.eqb (List.length (errors st)) 0 then 0%Z else 1%Z
    | (Raises _, _) => 1%Z
    end.
Proof.
  unfold main, bind, print_report.
  destruct (validation file_at files_under args init) as [[valid|e] st];
    [|reflexivity].
  cbn [fst].
  now destruct (arg_strict args && negb (Nat.eqb (List.length (warnings st)) 0)).
Qed.

End ValidateFiles.

(** X22. What [main] of [validate-rules.py] runs, [validate_file] on the
    file of [--file] or [validate_all] on the rules directory, only
    appends to [self.errors] and [self.warnings]; and when it returns,
    it returns True exactly when it appended no error: for a missing
    file or directory, a syntax error, a rule that fails a check, in
    one file or in any of the files of the directory. *)
Theorem validation_true_iff_no_error
    (file_at : string -> ValidatorFiles.file)
    (files_under : string -> option (list ValidatorFiles.file))
    (args : ValidatorFiles.arguments) (st : ValidatorFiles.state) :
  exists new_errors new_warnings,
    snd (ValidatorFiles.validation file_at files_under args st)
    = ValidatorFiles.State
        (ValidatorFiles.errors st ++ new_errors)
        (ValidatorFiles.warnings st ++ new_warnings)
    /\ match fst (ValidatorFiles.validation file_at files_under args st) with
       | ValidatorFiles.Returns valid => valid = true <-> new_errors = []
       | ValidatorFiles.Raises _ => True
       end.
Proof.
  destruct (flags_validation file_at files_under args st)
    as (ne & nw & Hst & Hflag).
  exists ne, nw. split; [exact Hst|].
  destruct (fst (ValidatorFiles.validation file_at files_under args st))
    as [valid|e]; [|trivial].
  rewrite (Hflag valid eq_refl). tauto.
Qed.

(** X23. [main] of [validate-rules.py] exits with status 0 exactly when
    the validation it ran returned True and, under [--strict], left no
    warning; the value of [print_report], on which the status is
    computed, agrees with the value [main] drops.  An exception gives
    status 1. *)
Theorem validator_main_status
    (file_at : string -> ValidatorFiles.file)
    (files_under : string -> option (list ValidatorFiles.file))
    (args : ValidatorFiles.arguments) :
  (ValidatorFiles.main file_at files_under args = 0%Z
   <-> exists st,
         ValidatorFiles.validation file_at files_under args
           ValidatorFiles.init
         = (ValidatorFiles.Returns true, st)
         /\ (ValidatorFiles.arg_strict args = true ->
             ValidatorFiles.warnings st = []))
  /\ (ValidatorFiles.main file_at files_under args = 0%Z
      \/ ValidatorFiles.main file_at files_under args = 1%Z).
Proof.
  rewrite main_unfolded.
  destruct (flags_validation file_at files_under args ValidatorFiles.init)
    as (ne & nw & Hst & Hflag).
  destruct (ValidatorFiles.validation file_at files_under args
              ValidatorFiles.init) as [[valid|e] st] eqn:Erun.
  - cbn [fst snd] in Hst, Hflag. subst st.
    specialize (Hflag valid eq_refl).
    cbn [ValidatorFiles.init ValidatorFiles.errors ValidatorFiles.warnings
         app] in *.
    destruct ne as [|e ne].
    + assert (valid = true) as -> by now apply Hflag.
      cbn [List.length Nat.eqb].
      destruct (ValidatorFiles.arg_strict args); cbn [andb].
      * destruct nw as [|w nw]; cbn [List.length Nat.eqb negb].
        -- split; [|now left]. split; [|reflexivity].
           intros _. eexists. split; [reflexivity|]. reflexivity.
        -- split; [|now right]. split; [discriminate|].
           intros (st & Hst & Hw). injection Hst as <-.
           discriminate (Hw eq_refl).
      * split; [|now left]. split; [|reflexivity].
        intros _. eexists. split; [reflexivity|]. discriminate.
    + assert (valid = false) as ->.
      { destruct valid; [|reflexivity].
        destruct Hflag as [Hflag _]. now destruct (Hflag eq_refl). }
      cbn [List.length Nat.eqb].
      destruct (ValidatorFiles.arg_strict args
                && negb (Nat.eqb (List.length nw) 0));
        (split; [|now right]); (split; [discriminate|]);
        intros (st & H & _); discriminate H.
  - split; [|now right]. split; [discriminate|].
    intros (st' & H & _). discriminate H.
Qed.

(** ** Read-only fields, from the cleaners to the validator *)

Section ReadOnlyWarnings.
Import Validator.
Local Open Scope validator_scope.

Lemma read_only_warned_app nw nw' :
  read_only_warned (nw ++ nw') = read_only_warned nw ++ read_only_warned nw'.
Proof. unfold read_only_warned. apply flat_map_app. Qed.

Lemma read_only_warned_map file_path fields :
  read_only_warned (map (fun f => (file_path, ReadOnlyField f)) fields)
  = fields.
Proof.
  induction fields as [|f fields IH]; [reflexivity|].
  cbn. f_equal. exact IH.
Qed.

Lemma warned_ret {A} (a : A) : warned (ret a) [].
Proof. now apply run_ret. Qed.

Lemma warned_lift {A} (r : res A) : warned (lift r) [].
Proof. apply run_lift. now destruct r. Qed.

Lemma warned_reject file_path e : warned (reject file_path e) [].
Proof.
  intros st. exists [(file_path, e)], []. cbn. now rewrite app_nil_r.
Qed.

Lemma warned_add_warning file_path w :
  read_only_warned [(file_path, w)] = [] ->
  warned (add_warning file_path w) [].
Proof. intros Hw. now apply run_add_warning. Qed.

Lemma warned_bind {A B} (m : V A) (k : A -> V B) expected :
  warned m [] -> (forall a, warned (k a) expected) ->
  warned (bind m k) expected.
Proof.
  intros Hm Hk.
  apply (run_bind m k _ _ Hm).
  - intros a ne nw Hnw. cbn beta iota in Hnw.
    apply (run_weaken _ _ _ (Hk a)). intros r ne' nw' Hnw'.
    cbn beta in Hnw' |- *. now rewrite read_only_warned_app, Hnw, Hnw'.
  - intros e ne nw Hnw. exact Hnw.
Qed.

Lemma warned_forV {A} (body : bool -> A -> V bool) valid (l : list A) :
  (forall valid' a, warned (body valid' a) []) ->
  warned (forV body valid l) [].
Proof.
  intros Hbody. revert valid.
  induction l as [|a l IH]; intros valid; cbn [forV].
  - apply warned_ret.
  - apply warned_bind; [apply Hbody|exact IH].
Qed.

Lemma warned_forV_enumerate {A} (body : bool -> nat -> A -> V bool)
    idx valid (l : list A) :
  (forall valid' i a, warned (body valid' i a) []) ->
  warned (forV_enumerate body idx valid l) [].
Proof.
  intros Hbody. revert idx valid.
  induction l as [|a l IH]; intros idx valid; cbn [forV_enumerate].
  - apply warned_ret.
  - apply warned_bind; [apply Hbody|apply IH].
Qed.

Lemma validator_bind_returns {A B} (m : V A) (k : A -> V B) st a st' :
  m st = (Ok a, st') -> bind m k st = k a st'.
Proof. intros H. unfold bind. now rewrite H. Qed.

(** ['k' in rule] raises for every [k] or for none. *)
Lemma py_in_uniform (rule : json) :
  (exists e, forall k, py_in k rule = Exc e)
  \/ forall k, py_in k rule = Ok (field_present rule k).
Proof.
  unfold field_present.
  destruct rule; cbn [py_in];
    first [now right | left; eexists; reflexivity].
Qed.

Lemma read_only_loop_returns (rule : json) file_path fields :
  (forall k, py_in k rule = Ok (field_present rule k)) ->
  forall valid st,
    exists b,
      forV (fun (_ : bool) field =>
              present <- lift (py_in field rule) ;;
              (if present then add_warning file_path (ReadOnlyField field)
               else ret tt) ;;
              ret true)
        valid fields st
      = (Ok b,
         State (errors st)
           (warnings st
            ++ map (fun f => (file_path, ReadOnlyField f))
                 (List.filter (field_present rule) fields))).
Proof.
  intros Hin.
  induction fields as [|f fields IH]; intros valid st; cbn [forV].
  - exists valid. cbn. rewrite app_nil_r. now destruct st.
  - unfold bind at 1. unfold bind at 1. unfold lift at 1. rewrite Hin.
    cbn [List.filter].
    destruct (field_present rule f).
    + unfold bind at 1. unfold add_warning at 1. unfold ret at 1.
      destruct (IH true
                  (State (errors st)
                     (warnings st ++ [(file_path, ReadOnlyField f)])))
        as (b & ->).
      exists b. cbn [errors warnings map]. now rewrite <- app_assoc.
    + unfold bind at 1. unfold ret at 1 2.
      destruct (IH true st) as (b & ->). now exists b.
Qed.

Lemma warned_read_only_loop (rule : json) file_path (valid : bool) :
  warned
    (forV (fun (_ : bool) field =>
             present <- lift (py_in field rule) ;;
             (if present then add_warning file_path (ReadOnlyField field)
              else ret tt) ;;
             ret true)
          true readonly_fields ;;
     ret valid)
    (List.filter (field_present rule) readonly_fields).
Proof.
  intros st.
  destruct (py_in_uniform rule) as [(e & Hraise)|Hin].
  - exists [], []. unfold readonly_fields. cbn [forV].
    unfold bind, lift. rewrite Hraise. cbn. rewrite !app_nil_r.
    split; [now destruct st|reflexivity].
  - destruct (read_only_loop_returns rule file_path readonly_fields Hin
                true st) as (b & Hloop).
    exists [],
      (map (fun f => (file_path, ReadOnlyField f))
         (List.filter (field_present rule) readonly_fields)).
    rewrite (validator_bind_returns _ _ _ _ _ Hloop).
    cbn [ret fst snd errors warnings].
    rewrite app_nil_r. split; [reflexivity|].
    apply read_only_warned_map.
Qed.

Ltac warned_step :=
  first
    [ apply warned_read_only_loop
    | apply warned_ret
    | apply warned_lift
    | apply warned_add_warning; reflexivity
    | apply warned_reject
    | apply warned_forV; intros ? ?
    | apply warned_forV_enumerate; intros ? ? ?
    | match goal with
      | |- warned (if ?c then _ else _) _ => destruct c
      | |- warned (match ?x with _ => _ end) _ => destruct x
      end
    | apply warned_bind; [|intros ?] ].

Lemma validate_security_rule_warned (rule : json) file_path :
  warned (validate_security_rule rule file_path)
    (List.filter (field_present rule) readonly_fields).
Proof.
  unfold validate_security_rule, validate_output, validate_subcomponent,
    validate_query_definition, validate_trigger, check_tier,
    validate_correlations.
  repeat warned_step.
Qed.

End ReadOnlyWarnings.

(** X24. The read-only warnings of [validate_security_rule], for any
    document: when the validation returns, it has warned about
    exactly those of [id], [createdAt], [createdBy], [updatedAt] and
    [updatedBy] that ['k' in rule] finds, once each and in this order;
    when it raises, it has given no such warning. *)
Theorem validate_security_rule_read_only_warnings
    (rule : json) (file_path : string) (st : Validator.state) :
  exists new_errors new_warnings,
    snd (Validator.validate_security_rule rule file_path st)
    = Validator.State (Validator.errors st ++ new_errors)
        (Validator.warnings st ++ new_warnings)
    /\ read_only_warned new_warnings
       = match fst (Validator.validate_security_rule rule file_path st) with
         | Ok _ =>
             List.filter (field_present rule) Validator.readonly_fields
         | Exc _ => []
         end.
Proof.
  destruct (validate_security_rule_warned rule file_path st)
    as (ne & nw & Hst & Hnw).
  exists ne, nw. split; [exact Hst|exact Hnw].
Qed.

(** X25. A rule that [clean_rule] of [clean-rules.py] or
    [clean_rule_json] of [deploy_security_rules.py] has returned draws
    no read-only warning from [validate_security_rule], whether the
    validation returns or raises. *)
Theorem cleaned_rule_no_read_only_warning
    (d : dict) (cleaned : json) (file_path : string)
    (st : Validator.state) :
  Cleaner.clean_rule (JDict d) = Ok cleaned
  \/ Deployer.clean_rule_json (JDict d) = Ok cleaned ->
  exists new_errors new_warnings,
    snd (Validator.validate_security_rule cleaned file_path st)
    = Validator.State (Validator.errors st ++ new_errors)
        (Validator.warnings st ++ new_warnings)
    /\ read_only_warned new_warnings = [].
Proof.
  intros Hcleaned.
  assert (Hroot : exists c, cleaned = JDict c
                           /\ root_clean (JDict c) = true).
  { destruct Hcleaned as [H|H].
    - apply clean_rule_dict_inv in H. cbv zeta in H.
      change Cleaner.READ_ONLY_FIELDS with server_owned in H.
      destruct H as [->|(items & items' & _ & _ & ->)];
        (eexists; split; [reflexivity|]).
      + apply root_clean_del_all.
      + apply root_clean_dict. intros k Hk.
        rewrite dict_has_set_other.
        * now apply dict_has_del_all_in.
        * cbn in Hk.
          destruct Hk as [<-|[<-|[<-|[<-|[<-|[]]]]]]; reflexivity.
    - pose proof (clean_rule_json_clean _ _ H) as [Hroot _].
      apply clean_rule_json_inv in H as (d0 & _ & H). cbv zeta in H.
      destruct H as [(-> & _)|(o & rc & _ & _ & _ & ->)];
        (eexists; split; [reflexivity|exact Hroot]). }
  destruct Hroot as (c & -> & Hroot).
  destruct (validate_security_rule_warned (JDict c) file_path st)
    as (ne & nw & Hst & Hnw).
  exists ne, nw. split; [exact Hst|].
  rewrite Hnw.
  destruct (fst (Validator.validate_security_rule (JDict c) file_path st));
    [|reflexivity].
  pose proof (proj1 (root_clean_dict c) Hroot) as Hkeys.
  unfold field_present, Validator.readonly_fields.
  cbn [List.filter py_in].
  rewrite !Hkeys by (cbn; tauto).
  reflexivity.
Qed.

Lemma cleaned_rule_no_read_only_warning_witness :
  exists new_errors new_warnings,
    snd (Validator.validate_security_rule
           (JDict [("title", JStr "Failed logins")]) "rule.json"
           Validator.init)
    = Validator.State (Validator.errors Validator.init ++ new_errors)
        (Validator.warnings Validator.init ++ new_warnings)
    /\ read_only_warned new_warnings = [].
Proof.
  apply (cleaned_rule_no_read_only_warning
           [("id", JStr "r-1"); ("title", JStr "Failed logins")]).
  left. reflexivity.
Defined.

(** ** A total that is never reached *)

Section NeverEnough.
Import Deployer Exporter.
Variable service : remote.
Variable api_token api_url : string.
Variable caught : bool.
Variable tags : option (list string).
Variable page_size : Z.
Hypothesis Hservice :
  forall log r,
    exists data,
      service log r = Response 200 (Some data) /\ reports_nan_total data.

Lemma page_nan_total (data : json) (all_rules : list json) :
  reports_nan_total data ->
  exists all_rules', page data all_rules = Ok (all_rules', false).
Proof.
  intros (entries & rule & rules & pagination & -> & Hres & Hpag & Htotal).
  unfold page, page_rules. cbn [py_in rbind]. unfold dict_has.
  rewrite Hres. cbn [py_getitem]. rewrite Hres.
  cbn [rbind truthy negb py_len py_iter py_get].
  rewrite Hpag. cbn [rbind py_get]. rewrite Htotal.
  cbn [rbind py_ge_nat]. now eexists.
Qed.

Lemma pages_nan_total (fuel : nat) :
  forall url page_number all_rules current_page log,
    fst (pages service api_token caught tags page_size fuel url page_number
           all_rules current_page log)
    = None.
Proof.
  induction fuel as [|fuel IH]; intros url page_number all_rules
    current_page log; [reflexivity|].
  cbn [pages]. unfold io_bind, post, send.
  destruct (Hservice log
              (Request POST url api_token
                 (payload tags page_size page_number)))
    as (data & -> & Hdata).
  cbn [Z.eqb Pos.eqb negb].
  destruct (page_nan_total data all_rules Hdata) as (all_rules' & ->).
  apply IH.
Qed.

End NeverEnough.

(** X27.  Pagination does not end against a service that answers every
    request with a 200, a page with a rule in it and a NaN for
    [pagination.total]: the number of rules fetched is never at least
    the total, so no number of rounds suffices. *)
Theorem fetch_rules_nan_total_never_ends
    (service : Deployer.remote) (api_token api_url : string)
    (caught : bool) (tags : option (list string)) (page_size : Z)
    (fuel : nat) (log : list Deployer.request) :
  (forall log r,
      exists data,
        service log r = Deployer.Response 200 (Some data)
        /\ reports_nan_total data) ->
  fst (Exporter.fetch_rules service api_token api_url caught tags page_size
         fuel log)
  = None.
Proof.
  intros Hservice.
  unfold Exporter.fetch_rules, Exporter.ENDPOINTS.
  cbn [Exporter.fetch_from]. unfold Deployer.io_bind at 1.
  unfold Exporter.post at 1, Deployer.send.
  destruct (Hservice log
              (Deployer.Request Deployer.POST
                 (api_url +++ "/security/rules/search") api_token
                 (Exporter.payload tags page_size 1)))
    as (data & -> & _).
  cbn [Z.eqb Pos.eqb]. unfold Deployer.io_bind.
  pose proof (pages_nan_total service api_token caught tags page_size
                Hservice fuel (api_url +++ "/security/rules/search") 1 [] 1
                (log
                 ++ [Deployer.Request Deployer.POST
                       (api_url +++ "/security/rules/search") api_token
                       (Exporter.payload tags page_size 1)])) as Hrun.
  destruct (Exporter.pages _ _ _ _ _ _ _ _ _ _ _) as [ended log'].
  cbn [fst] in Hrun. now subst ended.
Qed.

Lemma fetch_rules_nan_total_never_ends_witness :
  fst (Exporter.fetch_rules nan_service "token" "https://api.logz.io/v2"
         true (Some ["prod"]) 1000 50 [])
  = None.
Proof.
  apply (fetch_rules_nan_total_never_ends nan_service).
  intros log r. eexists. split; [reflexivity|].
  eexists. eexists. eexists. eexists.
  split; [reflexivity|]. split; [reflexivity|]. split; reflexivity.
Defined.

(** ** Schema-valid documents pass *)

Section SchemaValidPasses.
Import Validator.
Local Open Scope validator_scope.

Lemma proceeds_ret {A} (a : A) : proceeds (ret a) a.
Proof. intros st. exists []. cbn. rewrite app_nil_r. now destruct st. Qed.

Lemma proceeds_lift {A} (a : A) : proceeds (lift (Ok a)) a.
Proof. intros st. exists []. cbn. rewrite app_nil_r. now destruct st. Qed.

Lemma proceeds_warning file_path w : proceeds (add_warning file_path w) tt.
Proof. intros st. now exists [(file_path, w)]. Qed.

Lemma proceeds_bind {A B} (m : V A) (k : A -> V B) (a : A) (b : B) :
  proceeds m a -> proceeds (k a) b -> proceeds (bind m k) b.
Proof.
  intros Hm Hk st. destruct (Hm st) as (nw & Hrun).
  unfold bind. rewrite Hrun.
  destruct (Hk (State (errors st) (warnings st ++ nw))) as (nw' & ->).
  exists (nw ++ nw'). cbn [errors warnings]. now rewrite app_assoc.
Qed.

Lemma proceeds_forV {A} (body : bool -> A -> V bool) (valid : bool)
    (l : list A) :
  Forall (fun a => proceeds (body valid a) valid) l ->
  proceeds (forV body valid l) valid.
Proof.
  induction 1 as [|a l Ha _ IH]; cbn [forV]; [apply proceeds_ret|].
  exact (proceeds_bind _ _ _ _ Ha IH).
Qed.

Lemma proceeds_forV_enumerate {A} (body : bool -> nat -> A -> V bool)
    (valid : bool) (l : list A) :
  Forall (fun a => forall idx, proceeds (body valid idx a) valid) l ->
  forall idx, proceeds (forV_enumerate body idx valid l) valid.
Proof.
  induction 1 as [|a l Ha _ IH]; intros idx; cbn [forV_enumerate];
    [apply proceeds_ret|].
  exact (proceeds_bind _ _ _ _ (Ha idx) (IH (Datatypes.S idx))).
Qed.

(** One step of a run that goes on: a value read, a warning, or an
    empty statement, and then the rest. *)
Ltac proceed :=
  cbv beta; cbn [negb];
  lazymatch goal with
  | |- proceeds (ret _) _ => apply proceeds_ret
  | |- proceeds (bind (lift (Ok _)) _) _ =>
      eapply proceeds_bind; [apply proceeds_lift|]; cbv beta; cbn [negb]
  | |- proceeds (bind (add_warning _ _) _) _ =>
      eapply proceeds_bind; [apply proceeds_warning|]; cbv beta
  | |- proceeds (bind (ret _) _) _ =>
      eapply proceeds_bind; [apply proceeds_ret|]; cbv beta; cbn [negb]
  end.

Lemma forallb_Forall {A} (p : A -> bool) (P : A -> Prop) (l : list A) :
  (forall a, p a = true -> P a) -> forallb p l = true -> Forall P l.
Proof.
  intros Hp. induction l as [|a l IH]; cbn [forallb]; [constructor|].
  intros H. apply andb_prop in H as [Ha Hl]. constructor; auto.
Qed.

Lemma validate_correlations_proceeds correlations file_path :
  spec_correlations correlations = true ->
  proceeds (validate_correlations correlations file_path) true.
Proof.
  unfold spec_correlations. intros H.
  destruct correlations as [| | | | | |d]; try discriminate H.
  cbn [isinstance_dict andb] in H. apply andb_prop in H as [Hops Hjoins].
  unfold optional, lookup in Hops, Hjoins.
  unfold validate_correlations. cbv zeta. cbn [py_in py_getitem].
  unfold dict_has.
  proceed. eapply proceeds_bind with (a := true).
  { destruct (dict_get "correlationOperators" d) as [operators|];
      [|apply proceeds_ret].
    proceed. destruct operators as [| | | | |ops|]; try discriminate Hops.
    cbn [isinstance_list negb py_iter]. proceed.
    apply proceeds_forV.
    refine (forallb_Forall _ _ _ _ Hops). intros op Hop. cbv beta.
    change (in_names op valid_correlation_operators = true) in Hop.
    rewrite Hop. apply proceeds_ret. }
  proceed. eapply proceeds_bind with (a := true); [|proceed].
  destruct (dict_get "joins" d) as [joins|]; [|apply proceeds_ret].
  proceed. destruct joins; try discriminate Hjoins. apply proceeds_ret.
Qed.

Lemma check_tier_proceeds component file_path (tier : string * json) :
  existsb (String.eqb (fst tier)) ["LOW"; "MEDIUM"; "HIGH"; "SEVERE"]
  && spec_number (snd tier) = true ->
  proceeds (check_tier component file_path true tier) true.
Proof.
  destruct tier as [severity threshold]. cbn [fst snd].
  intros H. apply andb_prop in H as [Hseverity Hthreshold].
  unfold check_tier.
  change (existsb (String.eqb severity) valid_severities = true)
    in Hseverity.
  rewrite Hseverity. cbn [negb]. proceed.
  assert (isinstance_number threshold = true) as ->.
  { destruct threshold as [| | |f| | |]; try discriminate Hthreshold;
      reflexivity. }
  cbn [negb]. proceed. proceed.
Qed.

Lemma validate_trigger_proceeds trigger component file_path :
  spec_trigger trigger = true ->
  proceeds (validate_trigger trigger component file_path) true.
Proof.
  unfold spec_trigger. intros H.
  destruct trigger as [| | | | | |d]; try discriminate H.
  cbn [isinstance_dict andb] in H. apply andb_prop in H as [Hop Htiers].
  unfold required, lookup in Hop, Htiers.
  unfold validate_trigger. cbv zeta. cbn [py_in py_getitem].
  unfold dict_has.
  destruct (dict_get "operator" d) as [operator|]; [|discriminate Hop].
  destruct (dict_get "severityThresholdTiers" d) as [tiers|];
    [|discriminate Htiers].
  proceed. eapply proceeds_bind with (a := true).
  { proceed.
    change (in_names operator valid_operators = true) in Hop. rewrite Hop.
    apply proceeds_ret. }
  proceed. eapply proceeds_bind with (a := true); [|proceed].
  proceed. destruct tiers as [| | | | | |items]; try discriminate Htiers.
  cbn [isinstance_dict negb py_items]. proceed.
  apply proceeds_forV.
  refine (forallb_Forall _ _ _ _ Htiers). intros tier Htier.
  now apply check_tier_proceeds.
Qed.

Lemma validate_query_definition_proceeds query_def component file_path :
  spec_query_definition query_def = true ->
  proceeds (validate_query_definition query_def component file_path) true.
Proof.
  unfold spec_query_definition. intros H.
  destruct query_def as [| | | | | |d]; try discriminate H.
  cbn [isinstance_dict andb] in H.
  apply andb_prop in H as [Hquery H]. apply andb_prop in H as [Hagg H].
  apply andb_prop in H as [Hfilters Hgroup].
  unfold required, optional, lookup in Hquery, Hagg, Hfilters, Hgroup.
  unfold validate_query_definition. cbv zeta. cbn [py_in py_getitem].
  unfold dict_has.
  destruct (dict_get "query" d) as [query|]; [|discriminate Hquery].
  proceed. eapply proceeds_bind with (a := true).
  { proceed. destruct (truthy query); cbn [negb]; [apply proceeds_ret|].
    proceed. apply proceeds_ret. }
  proceed. eapply proceeds_bind with (a := true).
  { destruct (dict_get "aggregation" d) as [agg|]; [|apply proceeds_ret].
    proceed. unfold spec_aggregation in Hagg.
    destruct agg as [| | | | | |a]; try discriminate Hagg.
    cbn [isinstance_dict andb] in Hagg. unfold optional, lookup in Hagg.
    cbn [py_in py_getitem]. unfold dict_has.
    destruct (dict_get "aggregationType" a) as [aggregation_type|].
    - proceed. proceed.
      change (in_names aggregation_type valid_types = true) in Hagg.
      rewrite Hagg. apply proceeds_ret.
    - proceed. apply proceeds_ret. }
  proceed. eapply proceeds_bind with (a := true).
  { destruct (dict_get "filters" d) as [filters|]; [|apply proceeds_ret].
    proceed. rewrite Hfilters. apply proceeds_ret. }
  proceed. eapply proceeds_bind with (a := true); [|proceed].
  destruct (dict_get "groupBy" d) as [group_by|]; [|apply proceeds_ret].
  proceed. rewrite Hgroup. apply proceeds_ret.
Qed.

Lemma validate_subcomponent_proceeds component idx file_path :
  spec_subcomponent component = true ->
  proceeds (validate_subcomponent component idx file_path) true.
Proof.
  unfold spec_subcomponent. intros H.
  destruct component as [| | | | | |d]; try discriminate H.
  cbn [isinstance_dict andb] in H. apply andb_prop in H as [Hquery Htrigger].
  unfold required, lookup in Hquery, Htrigger.
  unfold validate_subcomponent. cbv zeta. cbn [py_in py_getitem].
  unfold dict_has.
  destruct (dict_get "queryDefinition" d) as [query_def|];
    [|discriminate Hquery].
  destruct (dict_get "trigger" d) as [trigger|]; [|discriminate Htrigger].
  proceed. eapply proceeds_bind with (a := true).
  { proceed. eapply proceeds_bind with (a := true);
      [now apply validate_query_definition_proceeds|apply proceeds_ret]. }
  proceed. eapply proceeds_bind with (a := true); [|proceed].
  proceed. eapply proceeds_bind with (a := true);
    [now apply validate_trigger_proceeds|apply proceeds_ret].
Qed.

Lemma has_nonempty_sequence (r : dict) (k : string) :
  optional k (JDict r) isinstance_list = true ->
  exists b, has_nonempty (JDict r) k = Ok b.
Proof.
  unfold optional, lookup, has_nonempty. cbn [py_get rbind py_getitem].
  destruct (dict_get k r) as [v|]; [|now exists false].
  intros Hv. destruct v as [| | | | |l|]; try discriminate Hv.
  destruct (truthy (JList l)); cbn [rbind py_len]; now eexists.
Qed.

Lemma sequence_of_is_list (check : json -> bool) (v : json) :
  spec_sequence_of check v = true -> isinstance_list v = true.
Proof. now destruct v. Qed.

Lemma validate_output_proceeds output file_path :
  spec_output output = true ->
  proceeds (validate_output output file_path) true.
Proof.
  unfold spec_output. intros H.
  destruct output as [| | | | | |o]; try discriminate H.
  cbn [isinstance_dict andb] in H.
  apply andb_prop in H as [Hrecipients Hsuppress].
  unfold optional, lookup in Hrecipients, Hsuppress.
  unfold validate_output. cbv zeta. cbn [py_in py_getitem].
  unfold dict_has.
  destruct (dict_get "recipients" o) as [recipients|].
  2:{ proceed. proceed. apply proceeds_ret. }
  proceed. proceed. unfold spec_recipients in Hrecipients.
  destruct recipients as [| | | | | |r]; try discriminate Hrecipients.
  cbn [isinstance_dict andb] in Hrecipients.
  apply andb_prop in Hrecipients as [Hemails Hids].
  destruct (has_nonempty_sequence r "emails") as (has_emails & ->).
  { unfold optional, lookup in Hemails |- *.
    destruct (dict_get "emails" r); [|reflexivity].
    now apply sequence_of_is_list in Hemails. }
  proceed.
  destruct (has_nonempty_sequence r "notificationEndpointIds" Hids)
    as (has_endpoints & ->).
  proceed. eapply proceeds_bind with (a := tt).
  { destruct (negb has_emails && negb has_endpoints);
      [apply proceeds_warning|apply proceeds_ret]. }
  cbv beta. cbn [py_in py_getitem]. unfold dict_has.
  unfold optional, lookup in Hemails.
  proceed. eapply proceeds_bind with (a := true).
  { destruct (dict_get "emails" r) as [emails|]; [|apply proceeds_ret].
    proceed. destruct emails as [| | | | |items|]; try discriminate Hemails.
    cbn [isinstance_list negb py_iter]. proceed.
    apply proceeds_forV.
    refine (forallb_Forall _ _ _ _ Hemails). intros email Hemail. cbv beta.
    destruct email as [| | | |s| |]; try discriminate Hemail.
    cbn [py_in]. proceed. eapply proceeds_bind with (a := tt).
    - destruct (negb (substr_in "@" s));
        [apply proceeds_warning|apply proceeds_ret].
    - apply proceeds_ret. }
  proceed. eapply proceeds_bind with (a := true); [|proceed].
  destruct (dict_get "suppressNotificationsMinutes" o) as [suppress|].
  - proceed.
    assert (isinstance_number suppress = true) as ->.
    { destruct suppress as [| | |f| | |]; try discriminate Hsuppress;
        reflexivity. }
    apply proceeds_ret.
  - proceed. apply proceeds_ret.
Qed.

Lemma spec_positive_number_passes (v : json) :
  spec_positive_number v = true ->
  isinstance_number v = true /\ py_le_zero v = Ok false.
Proof.
  destruct v as [| |n|f| | |]; try discriminate; cbn.
  - intros H. apply Z.ltb_lt in H. split; [reflexivity|].
    f_equal. apply Z.leb_gt. exact H.
  - intros H. split; [reflexivity|]. f_equal.
    destruct f as [s|s| |s m e]; try discriminate H; try reflexivity.
    + destruct s; [discriminate H|reflexivity].
    + destruct s; [discriminate H|reflexivity].
Qed.

(** X28.  A document that is schema-valid in the words of the
    specification passes: on it [validate_security_rule] raises
    nothing, returns [True] and appends no error, whatever the two
    lists hold; it may append warnings. *)
Theorem schema_valid_document_passes
    (rule : json) (file_path : string) (st : state) :
  spec_schema_valid rule = true ->
  exists new_warnings,
    validate_security_rule rule file_path st
    = (Ok true, State (errors st) (warnings st ++ new_warnings)).
Proof.
  intros H. revert st.
  change (proceeds (validate_security_rule rule file_path) true).
  unfold spec_schema_valid in H.
  destruct rule as [| | | | | |d]; try discriminate H.
  cbn [isinstance_dict andb] in H.
  apply andb_prop in H as [Htitle H]. apply andb_prop in H as [Henabled H].
  apply andb_prop in H as [Htime H]. apply andb_prop in H as [Hcomp H].
  apply andb_prop in H as [Houtput H]. apply andb_prop in H as [Hcorr Htags].
  unfold required, optional, lookup in *.
  unfold validate_security_rule. cbv zeta.
  destruct (dict_get "title" d) as [title|] eqn:Etitle;
    [|discriminate Htitle].
  destruct (dict_get "enabled" d) as [enabled|] eqn:Eenabled;
    [|discriminate Henabled].
  destruct (dict_get "searchTimeFrameMinutes" d) as [time_frame|]
    eqn:Etime; [|discriminate Htime].
  destruct (dict_get "subComponents" d) as [components|] eqn:Ecomp;
    [|discriminate Hcomp].
  eapply proceeds_bind with (a := true).
  { apply proceeds_forV, List.Forall_forall. intros field Hfield.
    cbv beta. cbn [py_in]. unfold dict_has.
    cbn [required_fields In] in Hfield.
    destruct Hfield as [<-|[<-|[<-|[<-|[]]]]];
      rewrite ?Etitle, ?Eenabled, ?Etime, ?Ecomp; proceed; proceed. }
  cbv beta. cbn [py_in py_getitem]. unfold dict_has.
  rewrite Etitle, Eenabled, Etime, Ecomp.
  (* title *)
  proceed. eapply proceeds_bind with (a := true).
  { proceed. destruct title as [| | | |s| |]; try discriminate Htitle.
    destruct s; [discriminate Htitle|]. apply proceeds_ret. }
  (* enabled *)
  proceed. eapply proceeds_bind with (a := true).
  { proceed. rewrite Henabled. apply proceeds_ret. }
  (* searchTimeFrameMinutes *)
  proceed. eapply proceeds_bind with (a := true).
  { proceed. destruct (spec_positive_number_passes _ Htime) as [-> ->].
    proceed. apply proceeds_ret. }
  (* output *)
  proceed. eapply proceeds_bind with (a := true).
  { destruct (dict_get "output" d) as [output|].
    - proceed. eapply proceeds_bind with (a := true);
        [now apply validate_output_proceeds|apply proceeds_ret].
    - proceed. apply proceeds_ret. }
  (* subComponents *)
  proceed. eapply proceeds_bind with (a := true).
  { proceed. destruct components as [| | | | |items|];
      try discriminate Hcomp.
    destruct items as [|component items]; [discriminate Hcomp|].
    cbn [isinstance_list negb py_len List.length Nat.eqb py_iter].
    proceed. cbn [Nat.eqb]. proceed. apply proceeds_forV_enumerate.
    refine (forallb_Forall _ _ _ _ Hcomp). intros c Hc idx. cbv beta.
    eapply proceeds_bind with (a := true);
      [now apply validate_subcomponent_proceeds|apply proceeds_ret]. }
  (* correlations *)
  proceed. eapply proceeds_bind with (a := true).
  { destruct (dict_get "correlations" d) as [correlations|].
    - proceed. eapply proceeds_bind with (a := true);
        [now apply validate_correlations_proceeds|apply proceeds_ret].
    - apply proceeds_ret. }
  (* tags *)
  proceed. eapply proceeds_bind with (a := true).
  { destruct (dict_get "tags" d) as [tags|]; [|apply proceeds_ret].
    proceed. rewrite Htags. apply proceeds_ret. }
  (* recommended fields *)
  assert (Hmissing : forall k,
             missing_or_empty (JDict d) k
             = Ok match dict_get k d with
                  | Some v => negb (truthy v)
                  | None => true
                  end).
  { intros k. unfold missing_or_empty. cbn [py_in py_get rbind].
    unfold dict_has. now destruct (dict_get k d). }
  rewrite !Hmissing.
  proceed. eapply proceeds_bind with (a := tt).
  { match goal with
    | |- proceeds (if ?c then _ else _) _ =>
        destruct c; [apply proceeds_warning|apply proceeds_ret]
    end. }
  proceed. eapply proceeds_bind with (a := tt).
  { match goal with
    | |- proceeds (if ?c then _ else _) _ =>
        destruct c; [apply proceeds_warning|apply proceeds_ret]
    end. }
  (* read-only fields *)
  cbv beta. eapply proceeds_bind with (a := true); [|apply proceeds_ret].
  apply proceeds_forV, List.Forall_forall. intros field _.
  cbv beta. cbn [py_in]. proceed.
  eapply proceeds_bind with (a := tt); [|apply proceeds_ret].
  unfold dict_has.
  destruct (dict_get field d); [apply proceeds_warning|apply proceeds_ret].
Qed.

End SchemaValidPasses.

Lemma schema_valid_document_passes_witness :
  exists new_warnings,
    Validator.validate_security_rule sample_rule "rule.json" Validator.init
    = (Ok true,
       Validator.State (Validator.errors Validator.init)
         (Validator.warnings Validator.init ++ new_warnings)).
Proof.
  apply (schema_valid_document_passes sample_rule "rule.json"
           Validator.init).
  reflexivity.
Defined.

(** ** What the deployer's cleaner can raise *)

(** The steps of [clean_rule_json] after the copy raise nothing on a
    mapping whose [output], if any, is a mapping whose [recipients], if
    any, is a mapping. *)
Lemma clean_rule_json_after_copy (d : dict) :
  optional "output" (JDict d) output_shaped = true ->
  exists c, Deployer.clean_rule_json (JDict d) = Ok (JDict c).
Proof.
  unfold optional, lookup. intros Hshape.
  unfold Deployer.clean_rule_json. rewrite foldM_py_pop.
  cbn [Deployer.readonly_fields rbind py_in].
  fold Deployer.readonly_fields.
  set (c := dict_del_all Deployer.readonly_fields d).
  assert (Hout : dict_get "output" c = dict_get "output" d)
    by now apply dict_get_del_all_other.
  unfold dict_has. cbn [py_getitem]. rewrite Hout.
  destruct (dict_get "output" d) as [output|]; [|now exists c].
  cbn [rbind]. unfold output_shaped in Hshape.
  apply andb_prop in Hshape as [Hdict Hrec].
  destruct output as [| | | | | |o]; try discriminate Hdict.
  unfold optional, lookup in Hrec. cbn [py_in py_getitem rbind].
  unfold dict_has.
  destruct (dict_get "recipients" o) as [recipients|]; [|now exists c].
  cbn [rbind].
  destruct recipients as [| | | | | |r]; try discriminate Hrec.
  cbn [py_in rbind py_delitem].
  destruct (dict_has "notificationEndpointIds" r); [|now exists c].
  cbn [rbind py_setitem]. now eexists.
Qed.


(** X4.  On a loaded rule of the expected shape, a mapping whose
    [output], if any, is a mapping whose [recipients], if any, is a
    mapping, [clean_rule_json] raises only if its [copy.deepcopy]
    does: when the copy is made, the call returns. *)
Theorem clean_rule_json_raises_only_in_copy (d : dict) (h : Store.store) :
  optional "output" (JDict d) output_shaped = true ->
  exists rule_data h1,
    Store.load (JDict d) h = (Ok rule_data, h1)
    /\ forall copy h',
         Store.deepcopy rule_data h1 = (Ok copy, h') ->
         exists cleaned_data h2,
           Store.clean_rule_json rule_data h1 = (Ok cleaned_data, h2).
Proof.
  intros Hshape.
  destruct (load_tree (JDict d) h) as (v & ext & Hload & Hv).
  exists v, (h ++ ext). split; [exact Hload|]. intros copy h' _.
  pose proof (clean_rule_json_tree _ _ _ _ _ Hv (Nat.le_refl _)) as Hrun.
  destruct (clean_rule_json_after_copy d Hshape) as (c & Hc).
  unfold refines in Hrun.
  destruct (Store.clean_rule_json v (h ++ ext)) as [r h2].
  destruct Hrun as (_ & _ & Hres). rewrite Hc in Hres.
  destruct r as [cleaned|e]; [|contradiction].
  now exists cleaned, h2.
Qed.

Lemma clean_rule_json_raises_only_in_copy_witness :
  exists rule_data h1,
    Store.load sample_rule [] = (Ok rule_data, h1)
    /\ forall copy h',
         Store.deepcopy rule_data h1 = (Ok copy, h') ->
         exists cleaned_data h2,
           Store.clean_rule_json rule_data h1 = (Ok cleaned_data, h2).
Proof.
  unfold sample_rule.
  apply clean_rule_json_raises_only_in_copy. reflexivity.
Defined.
